(** * ViNetwork: the central store, the capture reconciler and the modal
    key interpreter, embedded from the TypeScript sources.

    - [StateManager]  (src/core/StateManager.ts)
    - [NetworkCapture] (src/core/NetworkCapture.ts)
    - [KeyboardHandler] (src/core/KeyboardHandler.ts)
    - the two input paths that write the search query and the filter set
      (src/devtools/panel.ts, src/core/FilterManager.ts);
    - the presentation components that the key interpreter calls: the
      keyboard side of [FilterManager], [JsonViewer], [HeadersList] and
      [CopyMenu] (src/core/FilterManager.ts, src/components).

    JavaScript objects that the code shares by reference (arrays of
    requests, request records, the [Set] of resource types, the
    expansion [Map]) live in an explicit heap and are named by
    locations, so that aliasing between the store, its snapshots, the
    memoized view and the closures of pending frame callbacks is part of
    the model.  The browser is modelled by the queue of pending
    [requestAnimationFrame] callbacks, the live [setTimeout] timers and a
    trace of observable effects (subscriber notifications, fuzzy-index
    constructions, calls into presentation components). *)

From Stdlib Require Import ZArith Lia Bool.
From stdpp Require Import base option list gmap strings pretty.

Local Open Scope Z_scope.

(** ** Enumerations of src/types *)

Inductive AppMode := NORMAL | SEARCH | FILTER | INSPECT | COPY.

Inductive InspectFocus := HEADERS | RESPONSE | PREVIEW.

(** ['headers' | 'response' | 'preview'], the type of [previewTab]. *)
Inductive PreviewTab := TabHeaders | TabResponse | TabPreview.

Inductive ResourceType :=
  XHR | FETCH | DOC | CSS | JS | IMG | FONT | MEDIA | MANIFEST | SOCKET | WASM | OTHER.

#[global] Instance AppMode_eq_dec : EqDecision AppMode.
Proof. solve_decision. Defined.

#[global] Instance InspectFocus_eq_dec : EqDecision InspectFocus.
Proof. solve_decision. Defined.

#[global] Instance PreviewTab_eq_dec : EqDecision PreviewTab.
Proof. solve_decision. Defined.

#[global] Instance ResourceType_eq_dec : EqDecision ResourceType.
Proof. solve_decision. Defined.

(** The string value of each [ResourceType] member (the enum is a string
    enum; filter checkboxes carry these strings). *)
Definition resourceTypeValue (t : ResourceType) : string :=
  match t with
  | XHR => "xhr" | FETCH => "fetch" | DOC => "document" | CSS => "stylesheet"
  | JS => "script" | IMG => "image" | FONT => "font" | MEDIA => "media"
  | MANIFEST => "manifest" | SOCKET => "websocket" | WASM => "wasm" | OTHER => "other"
  end.

Definition allResourceTypes : list ResourceType :=
  [XHR; FETCH; DOC; CSS; JS; IMG; FONT; MEDIA; MANIFEST; SOCKET; WASM; OTHER].

(** [value as ResourceType]: the member whose string is [v], if any. *)
Definition resourceTypeOfValue (v : string) : option ResourceType :=
  List.find (fun t => bool_decide (resourceTypeValue t = v)) allResourceTypes.

(** ** Heap locations *)

(** Identity of a JavaScript object. *)
Definition loc := nat.

(** A JSON value ([unknown] in the sources). *)
#[local] Set Warnings "-register-all".
Inductive JsonValue :=
| JNull
| JBool (b : bool)
| JNumber (n : Z)
| JString (s : string)
| JArray (items : list JsonValue)
| JObject (entries : list (string * JsonValue)).
#[local] Set Warnings "register-all".

Inductive JsonType := TObject | TArray | TString | TNumber | TBoolean | TNull.

Record JsonNode := {
  key : string;
  value : JsonValue;
  type : JsonType;
  path : string;
  isExpanded : bool;
  level : Z
}.

(** ** NetworkRequest

    Numbers are JavaScript doubles in the sources; every number the
    modelled code computes with is an integer count, index or status, and
    is a [Z] here.  Timestamps are kept as integers too (the rounding of
    [timestamp * 1000] is not modelled; nothing below depends on it). *)
Record NetworkRequest := {
  r_id : string;
  r_url : string;
  r_name : string;
  r_method : string;
  r_type : ResourceType;
  r_status : Z;
  r_statusText : string;
  r_timestamp : Z;
  r_duration : Z;
  r_size : Z;
  r_requestHeaders : list (string * string);
  r_responseHeaders : list (string * string);
  r_requestBody : option string;
  r_responseBody : option JsonValue;
  r_initiator : option string
}.

#[global] Instance NetworkRequest_inhabited : Inhabited NetworkRequest :=
  populate {| r_id := ""; r_url := ""; r_name := ""; r_method := ""; r_type := OTHER;
              r_status := 0; r_statusText := ""; r_timestamp := 0; r_duration := 0;
              r_size := 0; r_requestHeaders := []; r_responseHeaders := [];
              r_requestBody := None; r_responseBody := None; r_initiator := None |}.

(** ** The heap

    One sort per kind of shared object:
    - [arrays]: [NetworkRequest[]] objects, holding references to records;
    - [requestObjects]: the [NetworkRequest] records themselves;
    - [typeSets]: [Set<ResourceType>] objects, in insertion order;
    - [expandedMaps]: [Map<string, boolean>] objects. *)
Record Heap := {
  arrays : gmap loc (list loc);
  requestObjects : gmap loc NetworkRequest;
  typeSets : gmap loc (list ResourceType);
  expandedMaps : gmap loc (gmap string bool);
  nextLoc : loc
}.

Definition readArray (h : Heap) (a : loc) : list loc := arrays h !!! a.

Definition readRequest (h : Heap) (r : loc) : NetworkRequest := requestObjects h !!! r.

Definition readTypes (h : Heap) (s : loc) : list ResourceType := typeSets h !!! s.

Definition readExpanded (h : Heap) (m : loc) : gmap string bool := expandedMaps h !!! m.

Definition writeArray (a : loc) (v : list loc) (h : Heap) : Heap :=
  {| arrays := <[a := v]> (arrays h); requestObjects := requestObjects h;
     typeSets := typeSets h; expandedMaps := expandedMaps h; nextLoc := nextLoc h |}.

Definition writeRequest (r : loc) (v : NetworkRequest) (h : Heap) : Heap :=
  {| arrays := arrays h; requestObjects := <[r := v]> (requestObjects h);
     typeSets := typeSets h; expandedMaps := expandedMaps h; nextLoc := nextLoc h |}.

Definition writeTypes (s : loc) (v : list ResourceType) (h : Heap) : Heap :=
  {| arrays := arrays h; requestObjects := requestObjects h;
     typeSets := <[s := v]> (typeSets h); expandedMaps := expandedMaps h;
     nextLoc := nextLoc h |}.

Definition writeExpanded (m : loc) (v : gmap string bool) (h : Heap) : Heap :=
  {| arrays := arrays h; requestObjects := requestObjects h;
     typeSets := typeSets h; expandedMaps := <[m := v]> (expandedMaps h);
     nextLoc := nextLoc h |}.

(** Allocation of a fresh object: it takes the next unused location. *)
Definition bump (h : Heap) : Heap :=
  {| arrays := arrays h; requestObjects := requestObjects h; typeSets := typeSets h;
     expandedMaps := expandedMaps h; nextLoc := S (nextLoc h) |}.

Definition allocArray (v : list loc) (h : Heap) : loc * Heap :=
  (nextLoc h, bump (writeArray (nextLoc h) v h)).

Definition allocRequest (v : NetworkRequest) (h : Heap) : loc * Heap :=
  (nextLoc h, bump (writeRequest (nextLoc h) v h)).

#[global] Arguments readArray : simpl never.
#[global] Arguments readRequest : simpl never.
#[global] Arguments readTypes : simpl never.
#[global] Arguments readExpanded : simpl never.
#[global] Arguments writeArray : simpl never.
#[global] Arguments writeRequest : simpl never.
#[global] Arguments writeTypes : simpl never.
#[global] Arguments writeExpanded : simpl never.
#[global] Arguments bump : simpl never.

(** ** JavaScript array and Set primitives *)

(** [Array.prototype.splice(start, deleteCount)], the array it leaves
    behind: a negative [start] counts from the end, a [start] past the end
    is the end, and at most the elements that exist are removed. *)
Definition spliceStart (len : nat) (start : Z) : nat :=
  if start <? 0 then Z.to_nat (Z.max (Z.of_nat len + start) 0)
  else Nat.min (Z.to_nat start) len.

Definition splice {A} (start deleteCount : Z) (l : list A) : list A :=
  let s := spliceStart (length l) start in
  let d := Nat.min (Z.to_nat (Z.max deleteCount 0)) (length l - s) in
  take s l ++ drop (s + d) l.

(** [Set.prototype.has / add / delete] on an insertion-ordered set. *)
Definition setHas (t : ResourceType) (s : list ResourceType) : bool :=
  bool_decide (t ∈ s).

Definition setAdd (t : ResourceType) (s : list ResourceType) : list ResourceType :=
  if setHas t s then s else s ++ [t].

Definition setDelete (t : ResourceType) (s : list ResourceType) : list ResourceType :=
  List.filter (fun x => negb (bool_decide (x = t))) s.

(** ** AppState and partial updates *)

Record FilterState := {
  types : loc;               (* the Set<ResourceType> object *)
  statusCodes : list Z
}.

Record AppState := {
  mode : AppMode;
  requests : loc;            (* the NetworkRequest[] object *)
  selectedIndex : Z;
  searchQuery : string;
  filters : FilterState;
  jsonExpanded : loc;        (* the Map<string, boolean> object *)
  previewTab : PreviewTab;
  filterSelectedIndex : Z;
  filterOrder : list string;
  inspectFocus : InspectFocus;
  inspectScrollPosition : Z;
  inspectSearchQuery : string;
  inspectSearchMatches : list Z;
  inspectSearchIndex : Z;
  headersSelectedIndex : Z;
  isInspectExpanded : bool;
  jsonSelectedIndex : Z;
  flattenedJsonNodes : list JsonNode
}.

(** [Partial<AppState>]: a field that is absent is [None]. *)
Record PartialAppState := {
  u_mode : option AppMode;
  u_requests : option loc;
  u_selectedIndex : option Z;
  u_searchQuery : option string;
  u_filters : option FilterState;
  u_jsonExpanded : option loc;
  u_previewTab : option PreviewTab;
  u_filterSelectedIndex : option Z;
  u_filterOrder : option (list string);
  u_inspectFocus : option InspectFocus;
  u_inspectScrollPosition : option Z;
  u_inspectSearchQuery : option string;
  u_inspectSearchMatches : option (list Z);
  u_inspectSearchIndex : option Z;
  u_headersSelectedIndex : option Z;
  u_isInspectExpanded : option bool;
  u_jsonSelectedIndex : option Z;
  u_flattenedJsonNodes : option (list JsonNode)
}.

(** The object literal [{}]. *)
Definition emptyUpdate : PartialAppState :=
  {| u_mode := None; u_requests := None; u_selectedIndex := None; u_searchQuery := None;
     u_filters := None; u_jsonExpanded := None; u_previewTab := None;
     u_filterSelectedIndex := None; u_filterOrder := None; u_inspectFocus := None;
     u_inspectScrollPosition := None; u_inspectSearchQuery := None;
     u_inspectSearchMatches := None; u_inspectSearchIndex := None;
     u_headersSelectedIndex := None; u_isInspectExpanded := None;
     u_jsonSelectedIndex := None; u_flattenedJsonNodes := None |}.

(** A later source's own property overrides an earlier one. *)
Definition later {A} (earlier newer : option A) : option A :=
  match newer with Some v => Some v | None => earlier end.

(** [Object.assign(target, source)] on partial states. *)
Definition assign (target source : PartialAppState) : PartialAppState :=
  {| u_mode := later (u_mode target) (u_mode source);
     u_requests := later (u_requests target) (u_requests source);
     u_selectedIndex := later (u_selectedIndex target) (u_selectedIndex source);
     u_searchQuery := later (u_searchQuery target) (u_searchQuery source);
     u_filters := later (u_filters target) (u_filters source);
     u_jsonExpanded := later (u_jsonExpanded target) (u_jsonExpanded source);
     u_previewTab := later (u_previewTab target) (u_previewTab source);
     u_filterSelectedIndex := later (u_filterSelectedIndex target) (u_filterSelectedIndex source);
     u_filterOrder := later (u_filterOrder target) (u_filterOrder source);
     u_inspectFocus := later (u_inspectFocus target) (u_inspectFocus source);
     u_inspectScrollPosition :=
       later (u_inspectScrollPosition target) (u_inspectScrollPosition source);
     u_inspectSearchQuery := later (u_inspectSearchQuery target) (u_inspectSearchQuery source);
     u_inspectSearchMatches :=
       later (u_inspectSearchMatches target) (u_inspectSearchMatches source);
     u_inspectSearchIndex := later (u_inspectSearchIndex target) (u_inspectSearchIndex source);
     u_headersSelectedIndex :=
       later (u_headersSelectedIndex target) (u_headersSelectedIndex source);
     u_isInspectExpanded := later (u_isInspectExpanded target) (u_isInspectExpanded source);
     u_jsonSelectedIndex := later (u_jsonSelectedIndex target) (u_jsonSelectedIndex source);
     u_flattenedJsonNodes :=
       later (u_flattenedJsonNodes target) (u_flattenedJsonNodes source) |}.

(** [Object.assign({}, ...pendingUpdates)]: sources are applied left to
    right. *)
Definition assignAll (pending : list PartialAppState) : PartialAppState :=
  fold_left assign pending emptyUpdate.

(** [{ ...state, ...merged }]. *)
Definition spread (s : AppState) (merged : PartialAppState) : AppState :=
  {| mode := default (mode s) (u_mode merged);
     requests := default (requests s) (u_requests merged);
     selectedIndex := default (selectedIndex s) (u_selectedIndex merged);
     searchQuery := default (searchQuery s) (u_searchQuery merged);
     filters := default (filters s) (u_filters merged);
     jsonExpanded := default (jsonExpanded s) (u_jsonExpanded merged);
     previewTab := default (previewTab s) (u_previewTab merged);
     filterSelectedIndex := default (filterSelectedIndex s) (u_filterSelectedIndex merged);
     filterOrder := default (filterOrder s) (u_filterOrder merged);
     inspectFocus := default (inspectFocus s) (u_inspectFocus merged);
     inspectScrollPosition :=
       default (inspectScrollPosition s) (u_inspectScrollPosition merged);
     inspectSearchQuery := default (inspectSearchQuery s) (u_inspectSearchQuery merged);
     inspectSearchMatches := default (inspectSearchMatches s) (u_inspectSearchMatches merged);
     inspectSearchIndex := default (inspectSearchIndex s) (u_inspectSearchIndex merged);
     headersSelectedIndex := default (headersSelectedIndex s) (u_headersSelectedIndex merged);
     isInspectExpanded := default (isInspectExpanded s) (u_isInspectExpanded merged);
     jsonSelectedIndex := default (jsonSelectedIndex s) (u_jsonSelectedIndex merged);
     flattenedJsonNodes := default (flattenedJsonNodes s) (u_flattenedJsonNodes merged) |}.

(** In-place assignment of one field of the state object. *)
Definition withSelectedIndex (i : Z) (s : AppState) : AppState :=
  spread s {| u_mode := None; u_requests := None; u_selectedIndex := Some i;
              u_searchQuery := None; u_filters := None; u_jsonExpanded := None;
              u_previewTab := None; u_filterSelectedIndex := None; u_filterOrder := None;
              u_inspectFocus := None; u_inspectScrollPosition := None;
              u_inspectSearchQuery := None; u_inspectSearchMatches := None;
              u_inspectSearchIndex := None; u_headersSelectedIndex := None;
              u_isInspectExpanded := None; u_jsonSelectedIndex := None;
              u_flattenedJsonNodes := None |}.

Definition withRequests (a : loc) (s : AppState) : AppState :=
  spread s {| u_mode := None; u_requests := Some a; u_selectedIndex := None;
              u_searchQuery := None; u_filters := None; u_jsonExpanded := None;
              u_previewTab := None; u_filterSelectedIndex := None; u_filterOrder := None;
              u_inspectFocus := None; u_inspectScrollPosition := None;
              u_inspectSearchQuery := None; u_inspectSearchMatches := None;
              u_inspectSearchIndex := None; u_headersSelectedIndex := None;
              u_isInspectExpanded := None; u_jsonSelectedIndex := None;
              u_flattenedJsonNodes := None |}.

(** [array.length], as the number the code compares and subtracts. *)
Definition jsLength {A} (l : list A) : Z := Z.of_nat (length l).

#[global] Arguments jsLength : simpl never.
#[global] Arguments splice : simpl never.

Definition isNone {A} (o : option A) : bool :=
  match o with None => true | Some _ => false end.

Definition isDefined {A} (o : option A) : bool := negb (isNone o).

(** ** External capabilities

    Fuse.js is a third-party dependency and the browser's [URL] parser is
    a host API: both are parameters of the development.

    [new Fuse(requests, FUSE_OPTIONS)] keeps the array it is given, by
    reference, and builds its index records from the values that the
    keys of FUSE_OPTIONS (src/utils/fuzzySearch.ts), [url] and [name],
    have in each element when the index is constructed.
    [index.search(query)] decides which records match, and in which
    order, on those records alone, and returns for the record at
    position [i] the element that the array holds at position [i] when
    the search is made.  A Fuse index is therefore the location of its
    array together with the (url, name) pairs read at construction.
    [fuseSearch] stands for the library's matching and ranking under
    FUSE_OPTIONS: from the records and the query to the positions of the
    matching records, best match first; [fuseSearch_in_range] says that
    these are positions of records.  [extractName] stands for
    [NetworkCapture.extractName], which only wraps [new URL(url)]. *)
Record FuseIndex := {
  indexedArray : loc;                        (* the array handed to [new Fuse] *)
  indexRecords : list (string * string)      (* (url, name) of its elements, as indexed *)
}.

Class External := {
  fuseSearch : list (string * string) -> string -> list nat;
  fuseSearch_in_range :
    forall records q, Forall (fun i => (i < length records)%nat) (fuseSearch records q);
  extractName : string -> string
}.

(** ** The store, the capture reconciler and the key interpreter *)

(** [filteredRequestsCache]. *)
Record FilterCache := {
  cachedRequests : option loc;     (* [requests: NetworkRequest[] | null] *)
  lastRequestsLength : Z;
  lastSearchQuery : string;
  lastMethodsSize : Z;
  lastTypesSize : Z
}.

Record StateManager := {
  state : AppState;
  listeners : list nat;            (* the Set of subscribed callbacks, by identity *)
  rafId : option positive;
  pendingUpdates : list PartialAppState;
  filteredRequestsCache : FilterCache;
  fuseIndex : option FuseIndex;
  lastFuseIndexLength : Z
}.

Record NetworkCapture := {
  tabId : Z;
  pendingRequests : gmap string loc;
  responseBodyCache : gmap string JsonValue;
  fetchingBodies : gset string;
  mainFrameId : option string;
  pendingUIUpdates : gset string;
  updateBatchRafId : option positive
}.

Record KeyboardHandler := {
  keySequence : string;
  sequenceTimeout : option positive
}.

(** The panel-scoped globals that [KeyboardHandler] looks up on
    [window]: whether each one is installed. *)
Record Window := {
  filterManager : bool;
  headersList : bool;
  copyMenu : bool;
  jsonViewer : bool
}.

(** A callback handed to [requestAnimationFrame]:
    - [StoreFlush]: the arrow function of [StateManager.setState];
    - [CaptureFlush a]: the arrow function of
      [NetworkCapture.handleLoadingFinished], whose closure holds the
      snapshot [state] taken by that handler ([a] is [state.requests]);
    - [DomFocus]: the panel-focusing callbacks of [KeyboardHandler],
      which touch the DOM only. *)
Inductive FrameCallback :=
| StoreFlush
| CaptureFlush (snapshotRequests : loc)
| DomFocus.

(** A callback handed to [setTimeout] by the key-sequence buffer. *)
Inductive TimerCallback :=
| ResetSequence      (* [() => { this.keySequence = ''; }] *)
| YankTimeout.       (* the 300 ms callback of [handleJsonYankSequence] *)

(** What the rest of the panel can observe. *)
Inductive Observation :=
| ObsNotify (listener : nat) (st : AppState)    (* [listener(this.state)] *)
| ObsIndexBuilt (docs : loc) (count : Z)        (* [createFuseIndex(requests)] *)
| ObsDelegate (callee : string) (arg : Z).      (* a call into a presentation component *)

Record World := {
  heap : Heap;
  store : StateManager;
  capture : NetworkCapture;
  keyboard : KeyboardHandler;
  window : Window;
  frameCallbacks : list (positive * FrameCallback);
  timers : list (positive * (Z * TimerCallback));
  nextHandle : positive;
  trace : list Observation
}.

Definition setHeap (h : Heap) (w : World) : World :=
  {| heap := h; store := store w; capture := capture w; keyboard := keyboard w;
     window := window w; frameCallbacks := frameCallbacks w; timers := timers w;
     nextHandle := nextHandle w; trace := trace w |}.

Definition setStore (s : StateManager) (w : World) : World :=
  {| heap := heap w; store := s; capture := capture w; keyboard := keyboard w;
     window := window w; frameCallbacks := frameCallbacks w; timers := timers w;
     nextHandle := nextHandle w; trace := trace w |}.

Definition setCapture (c : NetworkCapture) (w : World) : World :=
  {| heap := heap w; store := store w; capture := c; keyboard := keyboard w;
     window := window w; frameCallbacks := frameCallbacks w; timers := timers w;
     nextHandle := nextHandle w; trace := trace w |}.

Definition setKeyboard (k : KeyboardHandler) (w : World) : World :=
  {| heap := heap w; store := store w; capture := capture w; keyboard := k;
     window := window w; frameCallbacks := frameCallbacks w; timers := timers w;
     nextHandle := nextHandle w; trace := trace w |}.

Definition observe (o : list Observation) (w : World) : World :=
  {| heap := heap w; store := store w; capture := capture w; keyboard := keyboard w;
     window := window w; frameCallbacks := frameCallbacks w; timers := timers w;
     nextHandle := nextHandle w; trace := trace w ++ o |}.

(** [requestAnimationFrame(cb)]: queue [cb] for the next frame and return
    its (non-zero) handle. *)
Definition requestAnimationFrame (cb : FrameCallback) (w : World) : positive * World :=
  (nextHandle w,
   {| heap := heap w; store := store w; capture := capture w; keyboard := keyboard w;
      window := window w; frameCallbacks := frameCallbacks w ++ [(nextHandle w, cb)];
      timers := timers w; nextHandle := Pos.succ (nextHandle w); trace := trace w |}).

(** [window.setTimeout(cb, delay)]. *)
Definition setTimeout (cb : TimerCallback) (delay : Z) (w : World) : positive * World :=
  (nextHandle w,
   {| heap := heap w; store := store w; capture := capture w; keyboard := keyboard w;
      window := window w; frameCallbacks := frameCallbacks w;
      timers := timers w ++ [(nextHandle w, (delay, cb))];
      nextHandle := Pos.succ (nextHandle w); trace := trace w |}).

(** [clearTimeout(handle)]: a handle that is no longer live is ignored. *)
Definition clearTimeout (handle : positive) (w : World) : World :=
  {| heap := heap w; store := store w; capture := capture w; keyboard := keyboard w;
     window := window w; frameCallbacks := frameCallbacks w;
     timers := List.filter (fun t => negb (Pos.eqb (fst t) handle)) (timers w);
     nextHandle := nextHandle w; trace := trace w |}.

(** Field updates of the [StateManager] object. *)
Definition withState (st : AppState) (s : StateManager) : StateManager :=
  {| state := st; listeners := listeners s; rafId := rafId s;
     pendingUpdates := pendingUpdates s; filteredRequestsCache := filteredRequestsCache s;
     fuseIndex := fuseIndex s; lastFuseIndexLength := lastFuseIndexLength s |}.

Definition withListeners (l : list nat) (s : StateManager) : StateManager :=
  {| state := state s; listeners := l; rafId := rafId s;
     pendingUpdates := pendingUpdates s; filteredRequestsCache := filteredRequestsCache s;
     fuseIndex := fuseIndex s; lastFuseIndexLength := lastFuseIndexLength s |}.

Definition withRafId (r : option positive) (s : StateManager) : StateManager :=
  {| state := state s; listeners := listeners s; rafId := r;
     pendingUpdates := pendingUpdates s; filteredRequestsCache := filteredRequestsCache s;
     fuseIndex := fuseIndex s; lastFuseIndexLength := lastFuseIndexLength s |}.

Definition withPendingUpdates (p : list PartialAppState) (s : StateManager) : StateManager :=
  {| state := state s; listeners := listeners s; rafId := rafId s;
     pendingUpdates := p; filteredRequestsCache := filteredRequestsCache s;
     fuseIndex := fuseIndex s; lastFuseIndexLength := lastFuseIndexLength s |}.

Definition withCache (c : FilterCache) (s : StateManager) : StateManager :=
  {| state := state s; listeners := listeners s; rafId := rafId s;
     pendingUpdates := pendingUpdates s; filteredRequestsCache := c;
     fuseIndex := fuseIndex s; lastFuseIndexLength := lastFuseIndexLength s |}.

Definition withFuseIndex (i : option FuseIndex) (n : Z) (s : StateManager) : StateManager :=
  {| state := state s; listeners := listeners s; rafId := rafId s;
     pendingUpdates := pendingUpdates s; filteredRequestsCache := filteredRequestsCache s;
     fuseIndex := i; lastFuseIndexLength := n |}.

(** ** StateManager (src/core/StateManager.ts) *)

Definition MAX_REQUESTS : Z := 1000.

(** In-place mutations of the object [this.state]. *)
Definition setSelectedIndex (i : Z) (w : World) : World :=
  setStore (withState (withSelectedIndex i (state (store w))) (store w)) w.

Definition setStateRequests (a : loc) (w : World) : World :=
  setStore (withState (withRequests a (state (store w))) (store w)) w.

(** [getState()]: [{ ...this.state }].  The copy is a fresh object with
    the same field values; a field that holds an object ([requests],
    [filters.types], [jsonExpanded]) holds the same reference in the
    copy, here the same location of the heap.  An [AppState] is a value:
    assigning to a field of the copy builds another value and leaves
    the [state] of the store alone, as with the fresh object; what is
    written through a location is written in the heap, which the store
    reads too. *)
Definition getState (w : World) : AppState := state (store w).

(** [subscribe(listener)]: [Set.add] ignores a callback that is already
    in the set. *)
Definition subscribe (listener : nat) (w : World) : World :=
  if bool_decide (listener ∈ listeners (store w)) then w
  else setStore (withListeners (listeners (store w) ++ [listener]) (store w)) w.

(** [notifyListeners()]: every subscribed callback is called once with
    [this.state], in subscription order.  The calls are recorded in the
    trace; what a subscriber does when it is called is run by what
    follows the call ([EvReadView] for the reads of the status bar,
    [notifyHeadersList] for the headers list). *)
Definition notifyListeners (w : World) : World :=
  observe (List.map (fun l => ObsNotify l (state (store w))) (listeners (store w))) w.

(** [invalidateFilterCache()]. *)
Definition invalidateFilterCache (w : World) : World :=
  let c := filteredRequestsCache (store w) in
  let c' := {| cachedRequests := None;
               lastRequestsLength := lastRequestsLength c;
               lastSearchQuery := lastSearchQuery c;
               lastMethodsSize := lastMethodsSize c;
               lastTypesSize := lastTypesSize c |} in
  setStore (withFuseIndex None (lastFuseIndexLength (store w)) (withCache c' (store w))) w.

(** The arrow function that [setState] hands to
    [requestAnimationFrame]. *)
Definition storeFlush (w : World) : World :=
  let merged := assignAll (pendingUpdates (store w)) in
  let w1 := setStore (withState (spread (state (store w)) merged) (store w)) w in
  let w2 := if isDefined (u_searchQuery merged) || isDefined (u_filters merged)
            then invalidateFilterCache w1 else w1 in
  let w3 := if isDefined (u_searchQuery merged) && isNone (u_selectedIndex merged)
            then setSelectedIndex 0 w2 else w2 in
  let w4 := notifyListeners w3 in
  setStore (withRafId None (withPendingUpdates [] (store w4))) w4.

(** [setState(updates)]. *)
Definition setState (updates : PartialAppState) (w : World) : World :=
  let w1 := setStore (withPendingUpdates (pendingUpdates (store w) ++ [updates]) (store w)) w in
  match rafId (store w1) with
  | Some _ => w1
  | None =>
      let '(handle, w2) := requestAnimationFrame StoreFlush w1 in
      setStore (withRafId (Some handle) (store w2)) w2
  end.

(** [addRequest(request)]. *)
Definition addRequest (request : loc) (w : World) : World :=
  let a := requests (state (store w)) in
  let pushed := readArray (heap w) a ++ [request] in
  let w1 := setHeap (writeArray a pushed (heap w)) w in
  let w2 :=
    if MAX_REQUESTS <? jsLength pushed then
      let toRemove := jsLength pushed - MAX_REQUESTS in
      let w' := setHeap (writeArray a (splice 0 toRemove pushed) (heap w1)) w1 in
      if selectedIndex (state (store w')) <? toRemove
      then setSelectedIndex 0 w'
      else setSelectedIndex (selectedIndex (state (store w')) - toRemove) w'
    else w1 in
  notifyListeners w2.

(** [clearRequests()]: [this.state.requests = []] installs a new array
    object. *)
Definition clearRequests (w : World) : World :=
  let '(a, h) := allocArray [] (heap w) in
  notifyListeners (setSelectedIndex 0 (setStateRequests a (setHeap h w))).

(** [deleteRequest(index)]. *)
Definition deleteRequest (index : Z) (w : World) : World :=
  let a := requests (state (store w)) in
  let remaining := splice index 1 (readArray (heap w) a) in
  let w1 := setHeap (writeArray a remaining (heap w)) w in
  let w2 :=
    if jsLength remaining <=? selectedIndex (state (store w1))
    then setSelectedIndex (Z.max 0 (jsLength remaining - 1)) w1
    else w1 in
  notifyListeners w2.

Section WithExternal.

Context `{External}.

(** The values of the keys [url] and [name] in the requests [rs]. *)
Definition searchRecords (h : Heap) (rs : list loc) : list (string * string) :=
  List.map (fun r => (r_url (readRequest h r), r_name (readRequest h r))) rs.

(** [createFuseIndex(requests)] (src/utils/fuzzySearch.ts):
    [new Fuse(requests, FUSE_OPTIONS)]. *)
Definition createFuseIndex (h : Heap) (a : loc) : FuseIndex :=
  {| indexedArray := a; indexRecords := searchRecords h (readArray h a) |}.

(** [index.search(query).map(result => result.item)] in the heap [h]:
    the elements that the array of the index holds now at the positions
    of the matching records.  Where the array has become shorter than
    the records, JavaScript yields [undefined] for a position past its
    end; a list of locations cannot hold it and the position is left
    out (no statement below concerns an index whose array has
    changed). *)
Definition searchItems (h : Heap) (index : FuseIndex) (q : string) : list loc :=
  omap (fun i => readArray h (indexedArray index) !! i) (fuseSearch (indexRecords index) q).

(** The test [cacheValid] of [getFilteredRequests]. *)
Definition cacheValid (w : World) : bool :=
  let c := filteredRequestsCache (store w) in
  let st := state (store w) in
  isDefined (cachedRequests c)
  && (lastRequestsLength c =? jsLength (readArray (heap w) (requests st)))
  && bool_decide (lastSearchQuery c = searchQuery st)
  && (lastTypesSize c =? jsLength (readTypes (heap w) (types (filters st)))).

(** "Rebuild Fuse index if requests changed". *)
Definition fuseIndexStale (w : World) : bool :=
  isNone (fuseIndex (store w))
  || negb (lastFuseIndexLength (store w)
           =? jsLength (readArray (heap w) (requests (state (store w))))).

Definition rebuildFuseIndex (w : World) : World :=
  let a := requests (state (store w)) in
  let n := jsLength (readArray (heap w) a) in
  if fuseIndexStale w
  then observe [ObsIndexBuilt a n]
         (setStore (withFuseIndex (Some (createFuseIndex (heap w) a)) n (store w)) w)
  else w.

(** [baseResults]: the requests array itself without a query, a new
    array of the items that the search returns with one. *)
Definition baseResults (w : World) : loc * World :=
  let st := state (store w) in
  if bool_decide (searchQuery st = "") then (requests st, w)
  else
    let items := match fuseIndex (store w) with
                 | Some index => searchItems (heap w) index (searchQuery st)
                 | None => []
                 end in
    let '(b, h) := allocArray items (heap w) in (b, setHeap h w).

(** [filtered]: [Array.prototype.filter] makes a new array; without an
    active type filter the base array itself is returned. *)
Definition applyTypeFilter (base : loc) (w : World) : loc * World :=
  let ts := readTypes (heap w) (types (filters (state (store w)))) in
  if 0 <? jsLength ts then
    let kept := List.filter (fun r => setHas (r_type (readRequest (heap w) r)) ts)
                            (readArray (heap w) base) in
    let '(f, h) := allocArray kept (heap w) in (f, setHeap h w)
  else (base, w).

(** The part of [getFilteredRequests] after the cache test. *)
Definition recomputeFiltered (w : World) : loc * World :=
  let w1 := rebuildFuseIndex w in
  let '(base, w2) := baseResults w1 in
  let '(filtered, w3) := applyTypeFilter base w2 in
  let st := state (store w3) in
  let c := {| cachedRequests := Some filtered;
              lastRequestsLength := jsLength (readArray (heap w3) (requests st));
              lastSearchQuery := searchQuery st;
              lastMethodsSize := 0;
              lastTypesSize := jsLength (readTypes (heap w3) (types (filters st))) |} in
  (filtered, setStore (withCache c (store w3)) w3).

(** [getFilteredRequests()]. *)
Definition getFilteredRequests (w : World) : loc * World :=
  match cachedRequests (filteredRequestsCache (store w)) with
  | Some cached => if cacheValid w then (cached, w) else recomputeFiltered w
  | None => recomputeFiltered w
  end.

End WithExternal.

(** ** NetworkCapture (src/core/NetworkCapture.ts)

    The attach/retry logic talks to [chrome.debugger] and is outside the
    embedding; what is embedded is what the event handlers do to the
    store and to the reconciler's own maps. *)

(** Payload of [Network.requestWillBeSent]. *)
Record RequestWillBeSentParams := {
  rq_requestId : string;
  rq_type : string;                        (* the protocol's resource type *)
  rq_frameId : string;
  rq_url : string;
  rq_method : string;
  rq_headers : list (string * string);
  rq_postData : option string;
  rq_timestamp : Z;
  rq_initiatorUrl : option string
}.

(** Payload of [Network.responseReceived]. *)
Record ResponseReceivedParams := {
  rs_requestId : string;
  rs_status : Z;
  rs_statusText : string;
  rs_headers : list (string * string)
}.

(** Payload of [Network.loadingFinished]. *)
Record LoadingFinishedParams := {
  lf_requestId : string;
  lf_encodedDataLength : Z;
  lf_timestamp : Z
}.

(** Payload of [Network.loadingFailed]. *)
Record LoadingFailedParams := {
  lx_requestId : string;
  lx_errorText : string;
  lx_timestamp : Z
}.

Inductive DebuggerEvent :=
| RequestWillBeSent (p : RequestWillBeSentParams)
| ResponseReceived (p : ResponseReceivedParams)
| LoadingFinished (p : LoadingFinishedParams)
| LoadingFailed (p : LoadingFailedParams)
| OtherMethod (method : string).

Definition withCaches (pr : gmap string loc) (bc : gmap string JsonValue)
    (fb : gset string) (c : NetworkCapture) : NetworkCapture :=
  {| tabId := tabId c; pendingRequests := pr; responseBodyCache := bc;
     fetchingBodies := fb; mainFrameId := mainFrameId c;
     pendingUIUpdates := pendingUIUpdates c; updateBatchRafId := updateBatchRafId c |}.

Definition withMainFrameId (f : option string) (c : NetworkCapture) : NetworkCapture :=
  {| tabId := tabId c; pendingRequests := pendingRequests c;
     responseBodyCache := responseBodyCache c; fetchingBodies := fetchingBodies c;
     mainFrameId := f; pendingUIUpdates := pendingUIUpdates c;
     updateBatchRafId := updateBatchRafId c |}.

Definition withUIBatch (u : gset string) (r : option positive) (c : NetworkCapture)
    : NetworkCapture :=
  {| tabId := tabId c; pendingRequests := pendingRequests c;
     responseBodyCache := responseBodyCache c; fetchingBodies := fetchingBodies c;
     mainFrameId := mainFrameId c; pendingUIUpdates := u; updateBatchRafId := r |}.

(** [clearCaches()]. *)
Definition clearCaches (w : World) : World :=
  setCapture (withCaches ∅ ∅ ∅ (capture w)) w.

(** [mapResourceType(type)]. *)
Definition mapResourceType (t : string) : ResourceType :=
  if bool_decide (t = "XHR") then XHR
  else if bool_decide (t = "Fetch") then FETCH
  else if bool_decide (t = "Document") then DOC
  else if bool_decide (t = "Stylesheet") then CSS
  else if bool_decide (t = "Script") then JS
  else if bool_decide (t = "Image") then IMG
  else if bool_decide (t = "Font") then FONT
  else if bool_decide (t = "Media") then MEDIA
  else if bool_decide (t = "Manifest") then MANIFEST
  else if bool_decide (t = "WebSocket") then SOCKET
  else if bool_decide (t = "WebAssembly") then WASM
  else OTHER.

(** [!this.mainFrameId]: [null] and the empty string are falsy. *)
Definition noMainFrame (m : option string) : bool :=
  match m with None => true | Some f => bool_decide (f = "") end.

(** The condition under which [handleRequestWillBeSent] clears; [m] is
    [this.mainFrameId]. *)
Definition isMainFrameNavigation (m : option string) (p : RequestWillBeSentParams) : bool :=
  bool_decide (rq_type p = "Document")
  && (noMainFrame m || bool_decide (m = Some (rq_frameId p))).

(** [state.requests.find(r => r.id === requestId)]. *)
Definition findRequest (h : Heap) (a : loc) (requestId : string) : option loc :=
  List.find (fun r => bool_decide (r_id (readRequest h r) = requestId)) (readArray h a).

(** The update [{ requests: [...state.requests] }]. *)
Definition requestsUpdate (a : loc) : PartialAppState :=
  {| u_mode := None; u_requests := Some a; u_selectedIndex := None; u_searchQuery := None;
     u_filters := None; u_jsonExpanded := None; u_previewTab := None;
     u_filterSelectedIndex := None; u_filterOrder := None; u_inspectFocus := None;
     u_inspectScrollPosition := None; u_inspectSearchQuery := None;
     u_inspectSearchMatches := None; u_inspectSearchIndex := None;
     u_headersSelectedIndex := None; u_isInspectExpanded := None;
     u_jsonSelectedIndex := None; u_flattenedJsonNodes := None |}.

(** [this.stateManager.setState({ requests: [...arr] })]: the spread
    copies the current elements of the array object [a] into a new
    array. *)
Definition republishRequests (a : loc) (w : World) : World :=
  let '(copy, h) := allocArray (readArray (heap w) a) (heap w) in
  setState (requestsUpdate copy) (setHeap h w).

(** The arrow function that [handleLoadingFinished] hands to
    [requestAnimationFrame]; [a] is [state.requests] of the snapshot in
    its closure. *)
Definition captureFlush (a : loc) (w : World) : World :=
  let w1 := republishRequests a w in
  setCapture (withUIBatch ∅ None (capture w1)) w1.

(** [handleResponseReceived(params)]. *)
Definition handleResponseReceived (p : ResponseReceivedParams) (w : World) : World :=
  let st := getState w in
  match findRequest (heap w) (requests st) (rs_requestId p) with
  | Some r =>
      let old := readRequest (heap w) r in
      let new := {| r_id := r_id old; r_url := r_url old; r_name := r_name old;
                    r_method := r_method old; r_type := r_type old;
                    r_status := rs_status p; r_statusText := rs_statusText p;
                    r_timestamp := r_timestamp old; r_duration := r_duration old;
                    r_size := r_size old; r_requestHeaders := r_requestHeaders old;
                    r_responseHeaders := rs_headers p;
                    r_requestBody := r_requestBody old;
                    r_responseBody := r_responseBody old;
                    r_initiator := r_initiator old |} in
      setHeap (writeRequest r new (heap w)) w
  | None => w
  end.

(** [handleLoadingFinished(params)]. *)
Definition handleLoadingFinished (p : LoadingFinishedParams) (w : World) : World :=
  let st := getState w in
  match findRequest (heap w) (requests st) (lf_requestId p) with
  | Some r =>
      let old := readRequest (heap w) r in
      let new := {| r_id := r_id old; r_url := r_url old; r_name := r_name old;
                    r_method := r_method old; r_type := r_type old;
                    r_status := r_status old; r_statusText := r_statusText old;
                    r_timestamp := r_timestamp old;
                    r_duration := lf_timestamp p * 1000 - r_timestamp old;
                    r_size := lf_encodedDataLength p;
                    r_requestHeaders := r_requestHeaders old;
                    r_responseHeaders := r_responseHeaders old;
                    r_requestBody := r_requestBody old;
                    r_responseBody := r_responseBody old;
                    r_initiator := r_initiator old |} in
      let w1 := setHeap (writeRequest r new (heap w)) w in
      let w2 := setCapture (withUIBatch ({[ lf_requestId p ]} ∪ pendingUIUpdates (capture w1))
                                        (updateBatchRafId (capture w1)) (capture w1)) w1 in
      let w3 :=
        match updateBatchRafId (capture w2) with
        | Some _ => w2
        | None =>
            let '(handle, w') := requestAnimationFrame (CaptureFlush (requests st)) w2 in
            setCapture (withUIBatch (pendingUIUpdates (capture w')) (Some handle)
                                    (capture w')) w'
        end in
      setCapture (withCaches (delete (lf_requestId p) (pendingRequests (capture w3)))
                             (responseBodyCache (capture w3))
                             (fetchingBodies (capture w3)) (capture w3)) w3
  | None => w
  end.

(** [handleLoadingFailed(params)]. *)
Definition handleLoadingFailed (p : LoadingFailedParams) (w : World) : World :=
  let st := getState w in
  let w1 :=
    match findRequest (heap w) (requests st) (lx_requestId p) with
    | Some r =>
        let old := readRequest (heap w) r in
        let new := {| r_id := r_id old; r_url := r_url old; r_name := r_name old;
                      r_method := r_method old; r_type := r_type old;
                      r_status := r_status old; r_statusText := lx_errorText p;
                      r_timestamp := r_timestamp old;
                      r_duration := lx_timestamp p * 1000 - r_timestamp old;
                      r_size := r_size old;
                      r_requestHeaders := r_requestHeaders old;
                      r_responseHeaders := r_responseHeaders old;
                      r_requestBody := r_requestBody old;
                      r_responseBody := r_responseBody old;
                      r_initiator := r_initiator old |} in
        republishRequests (requests st) (setHeap (writeRequest r new (heap w)) w)
    | None => w
    end in
  setCapture (withCaches (delete (lx_requestId p) (pendingRequests (capture w1)))
                         (responseBodyCache (capture w1))
                         (fetchingBodies (capture w1)) (capture w1)) w1.

(** [handleDebuggerDetach(source, reason)], without the status message
    and the delayed re-attachment. *)
Definition handleDebuggerDetach (sourceTab : Z) (w : World) : World :=
  if negb (sourceTab =? tabId (capture w)) then w
  else
    let w1 := clearCaches w in
    let w2 := setCapture (withMainFrameId None (capture w1)) w1 in
    clearRequests w2.

(** What a successful [attachDebugger()] does to the reconciler:
    "Clear caches on fresh attachment" and "Reset main frame tracking". *)
Definition debuggerAttached (w : World) : World :=
  let w1 := clearCaches w in
  setCapture (withMainFrameId None (capture w1)) w1.

Section Capture.

Context `{External}.

(** The [NetworkRequest] literal built by [handleRequestWillBeSent]. *)
Definition newRequest (p : RequestWillBeSentParams) : NetworkRequest :=
  {| r_id := rq_requestId p;
     r_url := rq_url p;
     r_name := extractName (rq_url p);
     r_method := rq_method p;
     r_type := mapResourceType (rq_type p);
     r_status := 0;
     r_statusText := "Pending";
     r_timestamp := rq_timestamp p * 1000;
     r_duration := 0;
     r_size := 0;
     r_requestHeaders := rq_headers p;
     r_responseHeaders := [];
     r_requestBody := rq_postData p;
     r_initiator := rq_initiatorUrl p;
     r_responseBody := None |}.

(** [handleRequestWillBeSent(params)], without the status-message
    clean-up (DOM only). *)
Definition handleRequestWillBeSent (p : RequestWillBeSentParams) (w : World) : World :=
  let w1 :=
    if isMainFrameNavigation (mainFrameId (capture w)) p then
      let w' := setCapture (withMainFrameId (Some (rq_frameId p)) (capture w)) w in
      clearRequests (clearCaches w')
    else w in
  let '(request, h) := allocRequest (newRequest p) (heap w1) in
  let w2 := addRequest request (setHeap h w1) in
  setCapture (withCaches (<[rq_requestId p := request]> (pendingRequests (capture w2)))
                         (responseBodyCache (capture w2))
                         (fetchingBodies (capture w2)) (capture w2)) w2.

(** [handleDebuggerEvent(source, method, params)]. *)
Definition handleDebuggerEvent (sourceTab : Z) (e : DebuggerEvent) (w : World) : World :=
  if negb (sourceTab =? tabId (capture w)) then w
  else match e with
       | RequestWillBeSent p => handleRequestWillBeSent p w
       | ResponseReceived p => handleResponseReceived p w
       | LoadingFinished p => handleLoadingFinished p w
       | LoadingFailed p => handleLoadingFailed p w
       | OtherMethod _ => w
       end.

End Capture.

(** ** KeyboardHandler (src/core/KeyboardHandler.ts)

    A [KeyboardEvent] carries, besides the key and its modifiers, the one
    DOM reading the handler makes: [panelScrollTop] is the [scrollTop] of
    the active inspect panel once the handler has scrolled it ([None]
    when [getActiveInspectPanel()] finds no element).  Calls that only
    touch the DOM, the clipboard or another component are recorded in
    the trace as [ObsDelegate]. *)
Record KeyboardEvent := {
  ev_key : string;
  ctrlKey : bool;
  shiftKey : bool;
  panelScrollTop : option Z
}.

Definition keyIs (e : KeyboardEvent) (k : string) : bool := bool_decide (ev_key e = k).

Definition withKeySequence (s : string) (k : KeyboardHandler) : KeyboardHandler :=
  {| keySequence := s; sequenceTimeout := sequenceTimeout k |}.

Definition withSequenceTimeout (t : option positive) (k : KeyboardHandler) : KeyboardHandler :=
  {| keySequence := keySequence k; sequenceTimeout := t |}.

Definition setKeySequence (s : string) (w : World) : World :=
  setKeyboard (withKeySequence s (keyboard w)) w.

(** [if (this.sequenceTimeout) clearTimeout(this.sequenceTimeout)]. *)
Definition clearSequenceTimeout (w : World) : World :=
  match sequenceTimeout (keyboard w) with
  | Some handle => clearTimeout handle w
  | None => w
  end.

(** [this.sequenceTimeout = window.setTimeout(cb, delay)]. *)
Definition armSequenceTimeout (cb : TimerCallback) (delay : Z) (w : World) : World :=
  let '(handle, w1) := setTimeout cb delay w in
  setKeyboard (withSequenceTimeout (Some handle) (keyboard w1)) w1.

Definition delegate (present : bool) (callee : string) (arg : Z) (w : World) : World :=
  if present then observe [ObsDelegate callee arg] w else w.

(** Object literals passed to [setState] by the key handlers. *)
Definition selectedIndexUpdate (i : Z) : PartialAppState :=
  {| u_mode := None; u_requests := None; u_selectedIndex := Some i; u_searchQuery := None;
     u_filters := None; u_jsonExpanded := None; u_previewTab := None;
     u_filterSelectedIndex := None; u_filterOrder := None; u_inspectFocus := None;
     u_inspectScrollPosition := None; u_inspectSearchQuery := None;
     u_inspectSearchMatches := None; u_inspectSearchIndex := None;
     u_headersSelectedIndex := None; u_isInspectExpanded := None;
     u_jsonSelectedIndex := None; u_flattenedJsonNodes := None |}.

Definition modeUpdate (m : AppMode) : PartialAppState :=
  {| u_mode := Some m; u_requests := None; u_selectedIndex := None; u_searchQuery := None;
     u_filters := None; u_jsonExpanded := None; u_previewTab := None;
     u_filterSelectedIndex := None; u_filterOrder := None; u_inspectFocus := None;
     u_inspectScrollPosition := None; u_inspectSearchQuery := None;
     u_inspectSearchMatches := None; u_inspectSearchIndex := None;
     u_headersSelectedIndex := None; u_isInspectExpanded := None;
     u_jsonSelectedIndex := None; u_flattenedJsonNodes := None |}.

(** [{ mode, searchQuery }]. *)
Definition modeSearchUpdate (m : AppMode) (q : string) : PartialAppState :=
  {| u_mode := Some m; u_requests := None; u_selectedIndex := None; u_searchQuery := Some q;
     u_filters := None; u_jsonExpanded := None; u_previewTab := None;
     u_filterSelectedIndex := None; u_filterOrder := None; u_inspectFocus := None;
     u_inspectScrollPosition := None; u_inspectSearchQuery := None;
     u_inspectSearchMatches := None; u_inspectSearchIndex := None;
     u_headersSelectedIndex := None; u_isInspectExpanded := None;
     u_jsonSelectedIndex := None; u_flattenedJsonNodes := None |}.

(** [{ mode: AppMode.INSPECT, inspectFocus }]. *)
Definition enterInspectUpdate (f : InspectFocus) : PartialAppState :=
  {| u_mode := Some INSPECT; u_requests := None; u_selectedIndex := None;
     u_searchQuery := None; u_filters := None; u_jsonExpanded := None; u_previewTab := None;
     u_filterSelectedIndex := None; u_filterOrder := None; u_inspectFocus := Some f;
     u_inspectScrollPosition := None; u_inspectSearchQuery := None;
     u_inspectSearchMatches := None; u_inspectSearchIndex := None;
     u_headersSelectedIndex := None; u_isInspectExpanded := None;
     u_jsonSelectedIndex := None; u_flattenedJsonNodes := None |}.

(** The update of the [q] branch of [handleInspectMode]. *)
Definition leaveInspectUpdate : PartialAppState :=
  {| u_mode := Some NORMAL; u_requests := None; u_selectedIndex := None;
     u_searchQuery := None; u_filters := None; u_jsonExpanded := None; u_previewTab := None;
     u_filterSelectedIndex := None; u_filterOrder := None; u_inspectFocus := Some HEADERS;
     u_inspectScrollPosition := None; u_inspectSearchQuery := Some "";
     u_inspectSearchMatches := Some []; u_inspectSearchIndex := Some 0;
     u_headersSelectedIndex := Some 0; u_isInspectExpanded := Some false;
     u_jsonSelectedIndex := None; u_flattenedJsonNodes := None |}.

Definition previewTabUpdate (t : PreviewTab) : PartialAppState :=
  {| u_mode := None; u_requests := None; u_selectedIndex := None; u_searchQuery := None;
     u_filters := None; u_jsonExpanded := None; u_previewTab := Some t;
     u_filterSelectedIndex := None; u_filterOrder := None; u_inspectFocus := None;
     u_inspectScrollPosition := None; u_inspectSearchQuery := None;
     u_inspectSearchMatches := None; u_inspectSearchIndex := None;
     u_headersSelectedIndex := None; u_isInspectExpanded := None;
     u_jsonSelectedIndex := None; u_flattenedJsonNodes := None |}.

Definition inspectExpandedUpdate (b : bool) : PartialAppState :=
  {| u_mode := None; u_requests := None; u_selectedIndex := None; u_searchQuery := None;
     u_filters := None; u_jsonExpanded := None; u_previewTab := None;
     u_filterSelectedIndex := None; u_filterOrder := None; u_inspectFocus := None;
     u_inspectScrollPosition := None; u_inspectSearchQuery := None;
     u_inspectSearchMatches := None; u_inspectSearchIndex := None;
     u_headersSelectedIndex := None; u_isInspectExpanded := Some b;
     u_jsonSelectedIndex := None; u_flattenedJsonNodes := None |}.

(** [{ inspectFocus, previewTab, inspectScrollPosition: 0 }]. *)
Definition switchPanelUpdate (t : PreviewTab) (f : InspectFocus) : PartialAppState :=
  {| u_mode := None; u_requests := None; u_selectedIndex := None; u_searchQuery := None;
     u_filters := None; u_jsonExpanded := None; u_previewTab := Some t;
     u_filterSelectedIndex := None; u_filterOrder := None; u_inspectFocus := Some f;
     u_inspectScrollPosition := Some 0; u_inspectSearchQuery := None;
     u_inspectSearchMatches := None; u_inspectSearchIndex := None;
     u_headersSelectedIndex := None; u_isInspectExpanded := None;
     u_jsonSelectedIndex := None; u_flattenedJsonNodes := None |}.

Definition scrollPositionUpdate (p : Z) : PartialAppState :=
  {| u_mode := None; u_requests := None; u_selectedIndex := None; u_searchQuery := None;
     u_filters := None; u_jsonExpanded := None; u_previewTab := None;
     u_filterSelectedIndex := None; u_filterOrder := None; u_inspectFocus := None;
     u_inspectScrollPosition := Some p; u_inspectSearchQuery := None;
     u_inspectSearchMatches := None; u_inspectSearchIndex := None;
     u_headersSelectedIndex := None; u_isInspectExpanded := None;
     u_jsonSelectedIndex := None; u_flattenedJsonNodes := None |}.

Definition searchIndexUpdate (i : Z) : PartialAppState :=
  {| u_mode := None; u_requests := None; u_selectedIndex := None; u_searchQuery := None;
     u_filters := None; u_jsonExpanded := None; u_previewTab := None;
     u_filterSelectedIndex := None; u_filterOrder := None; u_inspectFocus := None;
     u_inspectScrollPosition := None; u_inspectSearchQuery := None;
     u_inspectSearchMatches := None; u_inspectSearchIndex := Some i;
     u_headersSelectedIndex := None; u_isInspectExpanded := None;
     u_jsonSelectedIndex := None; u_flattenedJsonNodes := None |}.

(** [moveSelection(delta, maxLength)]. *)
Definition moveSelection (delta maxLength : Z) (w : World) : World :=
  let st := getState w in
  let newIndex := Z.max 0 (Z.min (maxLength - 1) (selectedIndex st + delta)) in
  setState (selectedIndexUpdate newIndex) w.

(** The common shape of [handleGSequence], [handleInspectGSequence],
    [handleHeadersGSequence] and [handleJsonGSequence]: [onGG] is what
    the completed sequence does. *)
Definition pressG (onGG : World -> World) (w : World) : World :=
  let w1 := setKeySequence (keySequence (keyboard w) +:+ "g") w in
  let w2 := clearSequenceTimeout w1 in
  if bool_decide (keySequence (keyboard w2) = "gg")
  then setKeySequence "" (onGG w2)
  else armSequenceTimeout ResetSequence 1000 w2.

(** [handleGSequence(event)]. *)
Definition handleGSequence (w : World) : World :=
  pressG (setState (selectedIndexUpdate 0)) w.

(** [handleDSequence(event)]. *)
Definition handleDSequence (w : World) : World :=
  let w1 := setKeySequence (keySequence (keyboard w) +:+ "d") w in
  let w2 := clearSequenceTimeout w1 in
  let st := getState w2 in
  if bool_decide (keySequence (keyboard w2) = "dd")
  then setKeySequence "" (deleteRequest (selectedIndex st) w2)
  else if bool_decide (keySequence (keyboard w2) = "dr")
  then setKeySequence "" (clearRequests w2)
  else armSequenceTimeout ResetSequence 1000 w2.

(** [focusMap[currentTab]] of the [Enter] branch. *)
Definition focusOfTab (t : PreviewTab) : InspectFocus :=
  match t with TabHeaders => HEADERS | TabResponse => RESPONSE | TabPreview => PREVIEW end.

(** [tabMap[newFocus]] of [cycleInspectFocus]. *)
Definition tabOfFocus (f : InspectFocus) : PreviewTab :=
  match f with HEADERS => TabHeaders | RESPONSE => TabResponse | PREVIEW => TabPreview end.

(** [switchToPanel(tab, focus, selector)]. *)
Definition switchToPanel (t : PreviewTab) (f : InspectFocus) (w : World) : World :=
  snd (requestAnimationFrame DomFocus (setState (switchPanelUpdate t f) w)).

(** [panels.indexOf(focus)] and [panels[i]] for
    [panels = [HEADERS, RESPONSE, PREVIEW]]. *)
Definition panelIndex (f : InspectFocus) : Z :=
  match f with HEADERS => 0 | RESPONSE => 1 | PREVIEW => 2 end.

Definition panelAt (i : Z) : InspectFocus :=
  if i =? 0 then HEADERS else if i =? 1 then RESPONSE else PREVIEW.

(** [cycleInspectFocus(direction)]; [%] is the remainder that takes the
    sign of the dividend. *)
Definition cycleInspectFocus (direction : Z) (w : World) : World :=
  let st := getState w in
  let newIndex := Z.rem (panelIndex (inspectFocus st) + direction + 3) 3 in
  let newFocus := panelAt newIndex in
  switchToPanel (tabOfFocus newFocus) newFocus w.

(** [scrollInspectPanel(lines)] and [scrollInspectPanelTo(position)]:
    the panel is scrolled in the DOM and its new [scrollTop] is stored. *)
Definition scrollInspectPanel (e : KeyboardEvent) (w : World) : World :=
  match panelScrollTop e with
  | Some top => setState (scrollPositionUpdate top) w
  | None => w
  end.

(** [nextInspectSearchMatch(direction)]. *)
Definition nextInspectSearchMatch (direction : Z) (w : World) : World :=
  let st := getState w in
  let n := jsLength (inspectSearchMatches st) in
  if n =? 0 then w
  else
    let newIndex := Z.rem (inspectSearchIndex st + direction + n) n in
    delegate true "scrollToSearchMatch" newIndex (setState (searchIndexUpdate newIndex) w).

(** [handleJsonYankSequence(event)]. *)
Definition handleJsonYankSequence (e : KeyboardEvent) (w : World) : World :=
  let w1 := setKeySequence (keySequence (keyboard w) +:+ ev_key e) w in
  let w2 := clearSequenceTimeout w1 in
  let seq := keySequence (keyboard w2) in
  if bool_decide (seq = "yy")
  then setKeySequence "" (delegate (jsonViewer (window w2)) "yankJsonAsJson" 0 w2)
  else if bool_decide (seq = "yp")
  then setKeySequence "" (delegate (jsonViewer (window w2)) "yankJsonPath" 0 w2)
  else if bool_decide (seq = "y")
  then armSequenceTimeout YankTimeout 300 w2
  else setKeySequence "" w2.

(** The bodies of the two timer callbacks. *)
Definition runTimerCallback (cb : TimerCallback) (w : World) : World :=
  match cb with
  | ResetSequence => setKeySequence "" w
  | YankTimeout =>
      let w1 := if bool_decide (keySequence (keyboard w) = "y")
                then delegate (jsonViewer (window w)) "yankJsonValue" 0 w else w in
      setKeySequence "" w1
  end.

(** [handleSearchMode(event)]. *)
Definition handleSearchMode (e : KeyboardEvent) (w : World) : World :=
  if keyIs e "q" then setState (modeSearchUpdate NORMAL "") w
  else if keyIs e "Enter" then setState (modeUpdate NORMAL) w
  else w.

(** [handleFilterMode(event)]. *)
Definition handleFilterMode (e : KeyboardEvent) (w : World) : World :=
  if keyIs e "q" then setState (modeUpdate NORMAL) w
  else if shiftKey e && keyIs e "H"
  then delegate (filterManager (window w)) "filterManager.moveFilterLeft" 0 w
  else if shiftKey e && keyIs e "L"
  then delegate (filterManager (window w)) "filterManager.moveFilterRight" 0 w
  else if keyIs e "h"
  then delegate (filterManager (window w)) "filterManager.handleNavigation(h)" 0 w
  else if keyIs e "l"
  then delegate (filterManager (window w)) "filterManager.handleNavigation(l)" 0 w
  else if keyIs e "Enter"
  then delegate (filterManager (window w)) "filterManager.handleNavigation(Enter)" 0 w
  else w.

(** [handleCopyMode(event)]. *)
Definition handleCopyMode (e : KeyboardEvent) (w : World) : World :=
  if negb (copyMenu (window w)) then w
  else if keyIs e "q" || keyIs e "Escape" then setState (modeUpdate NORMAL) w
  else if keyIs e "l" || keyIs e "ArrowRight"
  then delegate true "copyMenu.moveSelection" 1 w
  else if keyIs e "h" || keyIs e "ArrowLeft"
  then delegate true "copyMenu.moveSelection" (-1) w
  else if keyIs e "Enter" then delegate true "copyMenu.executeSelectedAction" 0 w
  else w.

(** The tail of [handleInspectMode], reached when no focus-specific
    branch returned: Ctrl+d / Ctrl+u, [/], [n], [N]. *)
Definition inspectCommonKeys (e : KeyboardEvent) (w : World) : World :=
  if ctrlKey e && keyIs e "d" then scrollInspectPanel e w
  else if ctrlKey e && keyIs e "u" then scrollInspectPanel e w
  else if keyIs e "/" then delegate true "startInspectSearch" 0 w
  else if keyIs e "n" then nextInspectSearchMatch 1 w
  else if keyIs e "N" then nextInspectSearchMatch (-1) w
  else w.

(** The three focus-specific blocks of [handleInspectMode]. *)
Definition inspectHeadersKeys (e : KeyboardEvent) (w : World) : World :=
  let hl := headersList (window w) in
  if keyIs e "j" then delegate hl "headersList.moveSelection" 1 w
  else if keyIs e "k" then delegate hl "headersList.moveSelection" (-1) w
  else if keyIs e "h" then delegate hl "headersList.collapseCurrentSection" 0 w
  else if keyIs e "l" then delegate hl "headersList.expandCurrentSection" 0 w
  else if keyIs e "y" then delegate hl "headersList.copySelectedHeader" 0 w
  else if keyIs e "g" then pressG (delegate hl "headersList.navigateTo(first)" 0) w
  else if keyIs e "G" then delegate hl "headersList.navigateTo(last)" 0 w
  else inspectCommonKeys e w.

Definition inspectPreviewKeys (e : KeyboardEvent) (w : World) : World :=
  let jv := jsonViewer (window w) in
  if keyIs e "j" then delegate jv "jsonViewer.moveSelection" 1 w
  else if keyIs e "k" then delegate jv "jsonViewer.moveSelection" (-1) w
  else if keyIs e "h" then delegate jv "jsonViewer.collapseCurrentNode" 0 w
  else if keyIs e "l" then delegate jv "jsonViewer.expandCurrentNode" 0 w
  else if keyIs e "y" || (keyIs e "p" && bool_decide (keySequence (keyboard w) = "y"))
  then handleJsonYankSequence e w
  else if keyIs e "g" then pressG (delegate jv "jsonViewer.navigateTo(first)" 0) w
  else if keyIs e "G" then delegate jv "jsonViewer.navigateTo(last)" 0 w
  else inspectCommonKeys e w.

Definition inspectResponseKeys (e : KeyboardEvent) (w : World) : World :=
  if keyIs e "j" then scrollInspectPanel e w
  else if keyIs e "k" then scrollInspectPanel e w
  else if keyIs e "g" then pressG (scrollInspectPanel e) w
  else if keyIs e "G" then scrollInspectPanel e w
  else inspectCommonKeys e w.

(** [handleInspectMode(event)]. *)
Definition handleInspectMode (e : KeyboardEvent) (w : World) : World :=
  let st := getState w in
  if keyIs e "q" then setState leaveInspectUpdate w
  else if keyIs e "z" then setState (inspectExpandedUpdate (negb (isInspectExpanded st))) w
  else if shiftKey e && keyIs e "H" then switchToPanel TabHeaders HEADERS w
  else if shiftKey e && keyIs e "L" then switchToPanel TabResponse RESPONSE w
  else if shiftKey e && keyIs e "P" then switchToPanel TabPreview PREVIEW w
  else if keyIs e "Tab" then cycleInspectFocus (if shiftKey e then -1 else 1) w
  else if bool_decide (inspectFocus st = HEADERS) && bool_decide (previewTab st = TabHeaders)
  then inspectHeadersKeys e w
  else if bool_decide (inspectFocus st = PREVIEW) && bool_decide (previewTab st = TabPreview)
  then inspectPreviewKeys e w
  else inspectResponseKeys e w.

Section Keyboard.

Context `{External}.

(** The first [switch] of [handleNormalMode]. *)
Definition normalKeys (e : KeyboardEvent) (st : AppState) (viewLength : Z) (w : World) : World :=
  if keyIs e "j" then moveSelection 1 viewLength w
  else if keyIs e "k" then moveSelection (-1) viewLength w
  else if keyIs e "h" then w                     (* toggleJsonNode: empty body *)
  else if keyIs e "l" then w
  else if keyIs e "g" then handleGSequence w
  else if keyIs e "G" then setState (selectedIndexUpdate (Z.max 0 (viewLength - 1))) w
  else if keyIs e "/" then setState (modeSearchUpdate SEARCH "") w
  else if keyIs e "f" then setState (modeUpdate FILTER) w
  else if keyIs e "d" then handleDSequence w
  else if keyIs e "Enter"
  then snd (requestAnimationFrame DomFocus
              (setState (enterInspectUpdate (focusOfTab (previewTab st))) w))
  else if keyIs e " " then w                     (* toggleJsonFormat: empty body *)
  else if keyIs e "?" then delegate true "toggleHelp" 0 w
  else if keyIs e "c" then setState (modeUpdate COPY) w
  else w.

(** [handleNormalMode(event)]. *)
Definition handleNormalMode (e : KeyboardEvent) (w : World) : World :=
  let st := getState w in
  let '(view, w1) := getFilteredRequests w in
  let viewLength := jsLength (readArray (heap w1) view) in
  let w2 := normalKeys e st viewLength w1 in
  let w3 :=
    if ctrlKey e then
      if keyIs e "s" then delegate true "exportData" 0 w2
      else w2                                     (* quickSearch: empty body *)
    else w2 in
  if shiftKey e then
    if keyIs e "H" then setState (previewTabUpdate TabHeaders) w3
    else if keyIs e "L" then setState (previewTabUpdate TabResponse) w3
    else if keyIs e "P" then setState (previewTabUpdate TabPreview) w3
    else w3
  else w3.

(** [handleKeyDown(event)]. *)
Definition handleKeyDown (e : KeyboardEvent) (w : World) : World :=
  match mode (getState w) with
  | NORMAL => handleNormalMode e w
  | SEARCH => handleSearchMode e w
  | FILTER => handleFilterMode e w
  | INSPECT => handleInspectMode e w
  | COPY => handleCopyMode e w
  end.

End Keyboard.

(** ** The input paths that write the filter set, the search query and
    the expansion map *)

(** [FilterManager.filterOptions]: each checkbox value with what it
    selects. *)
Inductive FilterOption :=
| OptAll
| OptCombined (resourceTypes : list ResourceType)
| OptSingle (t : ResourceType).

Definition filterOptions : list (string * FilterOption) :=
  [("all", OptAll); ("fetch/xhr", OptCombined [FETCH; XHR]);
   (resourceTypeValue DOC, OptSingle DOC); (resourceTypeValue CSS, OptSingle CSS);
   (resourceTypeValue JS, OptSingle JS); (resourceTypeValue FONT, OptSingle FONT);
   (resourceTypeValue IMG, OptSingle IMG); (resourceTypeValue MEDIA, OptSingle MEDIA);
   (resourceTypeValue MANIFEST, OptSingle MANIFEST);
   (resourceTypeValue SOCKET, OptSingle SOCKET); (resourceTypeValue WASM, OptSingle WASM);
   (resourceTypeValue OTHER, OptSingle OTHER)].

Definition findFilterOption (v : string) : option FilterOption :=
  snd <$> List.find (fun o => bool_decide (fst o = v)) filterOptions.

Definition filtersUpdate (f : FilterState) : PartialAppState :=
  {| u_mode := None; u_requests := None; u_selectedIndex := None; u_searchQuery := None;
     u_filters := Some f; u_jsonExpanded := None; u_previewTab := None;
     u_filterSelectedIndex := None; u_filterOrder := None; u_inspectFocus := None;
     u_inspectScrollPosition := None; u_inspectSearchQuery := None;
     u_inspectSearchMatches := None; u_inspectSearchIndex := None;
     u_headersSelectedIndex := None; u_isInspectExpanded := None;
     u_jsonSelectedIndex := None; u_flattenedJsonNodes := None |}.

Definition searchQueryUpdate (q : string) : PartialAppState :=
  {| u_mode := None; u_requests := None; u_selectedIndex := None; u_searchQuery := Some q;
     u_filters := None; u_jsonExpanded := None; u_previewTab := None;
     u_filterSelectedIndex := None; u_filterOrder := None; u_inspectFocus := None;
     u_inspectScrollPosition := None; u_inspectSearchQuery := None;
     u_inspectSearchMatches := None; u_inspectSearchIndex := None;
     u_headersSelectedIndex := None; u_isInspectExpanded := None;
     u_jsonSelectedIndex := None; u_flattenedJsonNodes := None |}.

Definition jsonExpandedUpdate (m : loc) : PartialAppState :=
  {| u_mode := None; u_requests := None; u_selectedIndex := None; u_searchQuery := None;
     u_filters := None; u_jsonExpanded := Some m; u_previewTab := None;
     u_filterSelectedIndex := None; u_filterOrder := None; u_inspectFocus := None;
     u_inspectScrollPosition := None; u_inspectSearchQuery := None;
     u_inspectSearchMatches := None; u_inspectSearchIndex := None;
     u_headersSelectedIndex := None; u_isInspectExpanded := None;
     u_jsonSelectedIndex := None; u_flattenedJsonNodes := None |}.

(** [checked ? types.add(t) : types.delete(t)] on the Set object [s]. *)
Definition toggleType (checked : bool) (s : loc) (t : ResourceType) (w : World) : World :=
  let old := readTypes (heap w) s in
  setHeap (writeTypes s (if checked then setAdd t old else setDelete t old) (heap w)) w.

(** [FilterManager.handleCheckboxChange(value, checked)], without the
    checkbox bookkeeping and the write to extension storage.  The Set is
    mutated through the snapshot returned by [getState()]. *)
Definition handleCheckboxChange (v : string) (checked : bool) (w : World) : World :=
  let st := getState w in
  let s := types (filters st) in
  let w1 :=
    if bool_decide (v = "all") then
      if checked then setHeap (writeTypes s [] (heap w)) w else w
    else
      match findFilterOption v with
      | Some (OptCombined ts) => fold_left (fun acc t => toggleType checked s t acc) ts w
      | Some (OptSingle t) => toggleType checked s t w
      | _ => w
      end in
  setState (filtersUpdate (filters st)) w1.

(** [FilterManager.loadFiltersFromStorage()] once the stored list has
    arrived. *)
Definition filtersLoaded (stored : list ResourceType) (w : World) : World :=
  let st := getState w in
  let s := types (filters st) in
  let w1 := setHeap (writeTypes s [] (heap w)) w in
  let w2 := fold_left (fun acc t => toggleType true s t acc) stored w1 in
  setState (filtersUpdate (filters st)) w2.

(** [JsonViewer]: [state.jsonExpanded.set(path, b)] followed by
    [setState({ jsonExpanded: state.jsonExpanded })]. *)
Definition setNodeExpanded (p : string) (b : bool) (w : World) : World :=
  let st := getState w in
  let m := jsonExpanded st in
  let w1 := setHeap (writeExpanded m (<[p := b]> (readExpanded (heap w) m)) (heap w)) w in
  setState (jsonExpandedUpdate m) w1.

(** [PreviewPane]: [request.responseBody = body] on a request record. *)
Definition storeResponseBody (r : loc) (body : JsonValue) (w : World) : World :=
  match requestObjects (heap w) !! r with
  | Some old =>
      let new := {| r_id := r_id old; r_url := r_url old; r_name := r_name old;
                    r_method := r_method old; r_type := r_type old;
                    r_status := r_status old; r_statusText := r_statusText old;
                    r_timestamp := r_timestamp old; r_duration := r_duration old;
                    r_size := r_size old; r_requestHeaders := r_requestHeaders old;
                    r_responseHeaders := r_responseHeaders old;
                    r_requestBody := r_requestBody old;
                    r_responseBody := Some body;
                    r_initiator := r_initiator old |} in
      setHeap (writeRequest r new (heap w)) w
  | None => w
  end.

(** The handle returned by [subscribe]: [this.listeners.delete(listener)]. *)
Definition unsubscribe (listener : nat) (w : World) : World :=
  setStore (withListeners (List.filter (fun l => negb (Nat.eqb l listener))
                                       (listeners (store w))) (store w)) w.

(** ** The panel as a transition system *)

Inductive Event :=
| EvKeyDown (e : KeyboardEvent)                 (* a [keydown] on the document *)
| EvTimer (handle : positive)                   (* a live timer fires *)
| EvAnimationFrame                              (* the browser runs the frame callbacks *)
| EvDebugger (sourceTab : Z) (e : DebuggerEvent) (* [chrome.debugger.onEvent] *)
| EvDetach (sourceTab : Z)                      (* [chrome.debugger.onDetach] *)
| EvAttached                                    (* [attachDebugger()] succeeded *)
| EvSearchInput (q : string)                    (* the debounced search input *)
| EvFilterCheckbox (v : string) (checked : bool)
| EvFiltersLoaded (stored : list ResourceType)
| EvNodeExpanded (p : string) (b : bool)
| EvResponseBody (r : loc) (body : JsonValue)
| EvPresentation (u : PartialAppState)          (* a [setState] of a presentation component *)
| EvReadView                                    (* a component calls [getFilteredRequests()] *)
| EvSubscribe (listener : nat)
| EvUnsubscribe (listener : nat).

Definition setFrameCallbacks (cbs : list (positive * FrameCallback)) (w : World) : World :=
  {| heap := heap w; store := store w; capture := capture w; keyboard := keyboard w;
     window := window w; frameCallbacks := cbs; timers := timers w;
     nextHandle := nextHandle w; trace := trace w |}.

Definition runFrameCallback (cb : FrameCallback) (w : World) : World :=
  match cb with
  | StoreFlush => storeFlush w
  | CaptureFlush a => captureFlush a w
  | DomFocus => w
  end.

(** One animation frame: the callbacks queued so far run in the order
    they were requested; a callback requested meanwhile waits for the
    next frame. *)
Definition animationFrame (w : World) : World :=
  fold_left (fun acc cb => runFrameCallback (snd cb) acc) (frameCallbacks w)
            (setFrameCallbacks [] w).

Definition fireTimer (handle : positive) (w : World) : World :=
  match List.find (fun t => Pos.eqb (fst t) handle) (timers w) with
  | Some (_, (_, cb)) => runTimerCallback cb (clearTimeout handle w)
  | None => w
  end.

(** The presentation components (headers list, JSON viewer, copy menu,
    status bar, filter bar) call [setState] on their own fields only:
    none of them writes [requests] or [selectedIndex]. *)
Definition presentationOnly (u : PartialAppState) : bool :=
  isNone (u_requests u) && isNone (u_selectedIndex u).

Section Panel.

Context `{External}.

Definition step (w : World) (ev : Event) : World :=
  match ev with
  | EvKeyDown e => handleKeyDown e w
  | EvTimer handle => fireTimer handle w
  | EvAnimationFrame => animationFrame w
  | EvDebugger tab e => handleDebuggerEvent tab e w
  | EvDetach tab => handleDebuggerDetach tab w
  | EvAttached => debuggerAttached w
  | EvSearchInput q => setState (searchQueryUpdate q) w
  | EvFilterCheckbox v checked => handleCheckboxChange v checked w
  | EvFiltersLoaded stored => filtersLoaded stored w
  | EvNodeExpanded p b => setNodeExpanded p b w
  | EvResponseBody r body => storeResponseBody r body w
  | EvPresentation u => if presentationOnly u then setState u w else w
  | EvReadView => snd (getFilteredRequests w)
  | EvSubscribe l => subscribe l w
  | EvUnsubscribe l => unsubscribe l w
  end.

Definition run (w : World) (evs : list Event) : World := fold_left step evs w.

End Panel.

(** The state built by [new StateManager()]: three fresh objects (the
    requests array, the Set of types, the expansion Map). *)
Definition initialState : AppState :=
  {| mode := NORMAL;
     requests := 0%nat;
     selectedIndex := 0;
     searchQuery := "";
     filters := {| types := 1%nat; statusCodes := [] |};
     jsonExpanded := 2%nat;
     previewTab := TabHeaders;
     filterSelectedIndex := 0;
     filterOrder := ["fetch/xhr"; "document"; "stylesheet"; "script"; "font"; "image";
                     "media"; "manifest"; "websocket"; "wasm"; "other"];
     inspectFocus := HEADERS;
     inspectScrollPosition := 0;
     inspectSearchQuery := "";
     inspectSearchMatches := [];
     inspectSearchIndex := 0;
     headersSelectedIndex := 0;
     isInspectExpanded := false;
     jsonSelectedIndex := 0;
     flattenedJsonNodes := [] |}.

Definition initialHeap : Heap :=
  {| arrays := {[ 0%nat := [] ]};
     requestObjects := ∅;
     typeSets := {[ 1%nat := [] ]};
     expandedMaps := {[ 2%nat := ∅ ]};
     nextLoc := 3%nat |}.

Definition initialStore : StateManager :=
  {| state := initialState;
     listeners := [];
     rafId := None;
     pendingUpdates := [];
     filteredRequestsCache :=
       {| cachedRequests := None; lastRequestsLength := 0; lastSearchQuery := "";
          lastMethodsSize := 0; lastTypesSize := 0 |};
     fuseIndex := None;
     lastFuseIndexLength := 0 |}.

(** The panel after [new DevToolsPanel()] and the first frame: the
    globals are installed, the frame callback of [focusNetworkTable]
    (which touches the DOM only) has run, and nothing has been captured
    or typed yet. *)
Definition initialWorld (tab : Z) : World :=
  {| heap := initialHeap;
     store := initialStore;
     capture := {| tabId := tab; pendingRequests := ∅; responseBodyCache := ∅;
                   fetchingBodies := ∅; mainFrameId := None; pendingUIUpdates := ∅;
                   updateBatchRafId := None |};
     keyboard := {| keySequence := ""; sequenceTimeout := None |};
     window := {| filterManager := true; headersList := true; copyMenu := true;
                  jsonViewer := true |};
     frameCallbacks := [];
     timers := [];
     nextHandle := 1%positive;
     trace := [] |}.

(** ** Views and invariants used by the statements *)

(** The requests the store currently holds, oldest first. *)
Definition storedRequests (w : World) : list loc :=
  readArray (heap w) (requests (state (store w))).

(** An array object that exists and respects the cap. *)
Definition bounded (h : Heap) (a : loc) : Prop :=
  (a < nextLoc h)%nat /\ jsLength (readArray h a) <= MAX_REQUESTS.

(** The array captured by the closure of a pending frame callback. *)
Definition captured (cb : positive * FrameCallback) : option loc :=
  match snd cb with CaptureFlush a => Some a | _ => None end.

(** Every array that is, or can still become, [state.requests]: the
    current one, those carried by pending updates, and those captured by
    pending frame callbacks. *)
Definition tracked (w : World) : list loc :=
  requests (state (store w))
  :: omap u_requests (pendingUpdates (store w)) ++ omap captured (frameCallbacks w).

Definition capInv (w : World) : Prop := Forall (bounded (heap w)) (tracked w).

Definition nonNegative (u : PartialAppState) : Prop :=
  forall v, u_selectedIndex u = Some v -> 0 <= v.

Definition selInv (w : World) : Prop :=
  0 <= selectedIndex (state (store w)) /\ Forall nonNegative (pendingUpdates (store w)).

(** A flush that [rafId] announces is queued. *)
Definition rafInv (w : World) : Prop :=
  rafId (store w) <> None -> StoreFlush ∈ (snd <$> frameCallbacks w).

Definition Inv (w : World) : Prop := capInv w /\ selInv w /\ rafInv w.

(** The example instance of the external capabilities used by the
    concrete scenarios: fuzzy search is replaced by substring search on
    url and name, in index order, and the derived name is the url. *)
Definition containsPositions (records : list (string * string)) (q : string) : list nat :=
  List.map fst
    (List.filter (fun d => isDefined (String.index 0 q (fst (snd d)))
                           || isDefined (String.index 0 q (snd (snd d))))
                 (imap pair records)).

Definition containsSearch : External :=
  {| fuseSearch := containsPositions;
     fuseSearch_in_range := ltac:(
       intros records q; unfold containsPositions;
       apply Forall_forall; intros i Hi;
       apply list_elem_of_In, in_map_iff in Hi as ([j d] & <- & Hd);
       apply filter_In in Hd as [Hd _];
       apply list_elem_of_In, list_elem_of_lookup in Hd as [k Hk];
       apply list_lookup_imap_Some in Hk as (x & Hx & Heq);
       injection Heq as <- <-; by apply lookup_lt_Some in Hx);
     extractName := fun url => url |}.

(** A [Network.requestWillBeSent] event of tab 7. *)
Definition initiatedParams (rid ty frame : string) : RequestWillBeSentParams :=
  {| rq_requestId := rid; rq_type := ty; rq_frameId := frame;
     rq_url := "https://example.test/" +:+ rid; rq_method := "GET"; rq_headers := [];
     rq_postData := None; rq_timestamp := 1; rq_initiatorUrl := None |}.

Definition initiated (rid ty frame : string) : Event :=
  EvDebugger 7 (RequestWillBeSent (initiatedParams rid ty frame)).

Definition keyPress (k : string) : KeyboardEvent :=
  {| ev_key := k; ctrlKey := false; shiftKey := false; panelScrollTop := None |}.

Definition pressed (k : string) : Event := EvKeyDown (keyPress k).

(** How many times the subscriber [l] was called in a trace. *)
Definition isNotifyOf (l : nat) (o : Observation) : bool :=
  match o with ObsNotify l' _ => Nat.eqb l' l | _ => false end.

Definition notified (l : nat) (tr : list Observation) : nat :=
  length (List.filter (isNotifyOf l) tr).

(** How many times the set of subscribers contains [l] (0 or 1 for a
    set built by [subscribe]). *)
Definition subscribed (l : nat) (w : World) : nat :=
  length (List.filter (fun l' => Nat.eqb l' l) (listeners (store w))).

(** How many of the initiated events [ps] take the clearing branch, when
    the main frame tracked before them is [m]. *)
Fixpoint navigations (m : option string) (ps : list RequestWillBeSentParams) : nat :=
  match ps with
  | [] => 0
  | p :: rest =>
      if isMainFrameNavigation m p
      then S (navigations (Some (rq_frameId p)) rest)
      else navigations m rest
  end.


(** ** Merging partial updates *)

(** The value a batch writes to the field [f]: the one of the last
    update, in call order, that has the field. *)
Definition lastWrite {A} (f : PartialAppState -> option A) (batch : list PartialAppState)
    : option A :=
  last (omap f batch).

(** A projection of [PartialAppState] commutes with [assign]. *)
Definition fieldOf {A} (f : PartialAppState -> option A) : Prop :=
  f emptyUpdate = None /\ forall t s, f (assign t s) = later (f t) (f s).

(** The state a batch of updates leaves behind, in the words of the
    specification: every field takes the value of the last update of the
    batch that writes it, and keeps its value when none does; on top of
    that the store resets [selectedIndex] to 0 when the batch writes the
    search query without writing [selectedIndex]. *)
Definition spec_batchResult (st : AppState) (batch : list PartialAppState) : AppState :=
  {| mode := default (mode st) (lastWrite u_mode batch);
     requests := default (requests st) (lastWrite u_requests batch);
     selectedIndex :=
       match lastWrite u_selectedIndex batch with
       | Some i => i
       | None => if isDefined (lastWrite u_searchQuery batch) then 0 else selectedIndex st
       end;
     searchQuery := default (searchQuery st) (lastWrite u_searchQuery batch);
     filters := default (filters st) (lastWrite u_filters batch);
     jsonExpanded := default (jsonExpanded st) (lastWrite u_jsonExpanded batch);
     previewTab := default (previewTab st) (lastWrite u_previewTab batch);
     filterSelectedIndex :=
       default (filterSelectedIndex st) (lastWrite u_filterSelectedIndex batch);
     filterOrder := default (filterOrder st) (lastWrite u_filterOrder batch);
     inspectFocus := default (inspectFocus st) (lastWrite u_inspectFocus batch);
     inspectScrollPosition :=
       default (inspectScrollPosition st) (lastWrite u_inspectScrollPosition batch);
     inspectSearchQuery :=
       default (inspectSearchQuery st) (lastWrite u_inspectSearchQuery batch);
     inspectSearchMatches :=
       default (inspectSearchMatches st) (lastWrite u_inspectSearchMatches batch);
     inspectSearchIndex :=
       default (inspectSearchIndex st) (lastWrite u_inspectSearchIndex batch);
     headersSelectedIndex :=
       default (headersSelectedIndex st) (lastWrite u_headersSelectedIndex batch);
     isInspectExpanded := default (isInspectExpanded st) (lastWrite u_isInspectExpanded batch);
     jsonSelectedIndex := default (jsonSelectedIndex st) (lastWrite u_jsonSelectedIndex batch);
     flattenedJsonNodes :=
       default (flattenedJsonNodes st) (lastWrite u_flattenedJsonNodes batch) |}.

(** [setState] called once per update of [batch], in order. *)
Definition setStateAll (batch : list PartialAppState) (w : World) : World :=
  fold_left (fun acc u => setState u acc) batch w.

(** ** The filtered view in the words of the specification *)

(** Stage 2: keep the requests whose resource type is in the filter set,
    when that set is not empty. *)
Definition typeFiltered (h : Heap) (ts : list ResourceType) (base : list loc) : list loc :=
  if bool_decide (ts = []) then base
  else List.filter (fun r => setHas (r_type (readRequest h r)) ts) base.

Section View.

Context `{External}.

(** Stage 1 then stage 2, for a given search index: what the index
    returns for a non-empty query, the requests themselves otherwise. *)
Definition pipeline (h : Heap) (index : FuseIndex) (reqs : list loc) (q : string)
    (ts : list ResourceType) : list loc :=
  typeFiltered h ts (if bool_decide (q = "") then reqs else searchItems h index q).

(** Stage 1 over the requests as they are now: the requests at the
    positions that the library returns for their (url, name) records. *)
Definition fuzzyMatches (h : Heap) (reqs : list loc) (q : string) : list loc :=
  omap (fun i => reqs !! i) (fuseSearch (searchRecords h reqs) q).

(** The view as a function of the three inputs alone. *)
Definition spec_filteredView (h : Heap) (reqs : list loc) (q : string)
    (ts : list ResourceType) : list loc :=
  typeFiltered h ts (if bool_decide (q = "") then reqs else fuzzyMatches h reqs q).

End View.

(** The index a recomputation searches: a new one over the current
    requests when the old one is missing or was built at another count,
    the old one otherwise. *)
Definition indexInUse (w : World) : FuseIndex :=
  let fresh := createFuseIndex (heap w) (requests (state (store w))) in
  if fuseIndexStale w then fresh else default fresh (fuseIndex (store w)).

(** The three keys the cache records, and their current values. *)
Definition recordedKeys (w : World) : Z * string * Z :=
  let c := filteredRequestsCache (store w) in
  (lastRequestsLength c, lastSearchQuery c, lastTypesSize c).

Definition currentKeys (w : World) : Z * string * Z :=
  let st := state (store w) in
  (jsLength (storedRequests w), searchQuery st,
   jsLength (readTypes (heap w) (types (filters st)))).

(** The contents of the filter set of the store. *)
Definition activeTypes (w : World) : list ResourceType :=
  readTypes (heap w) (types (filters (state (store w)))).

(** ** Concrete scenarios *)

(** One script request captured while the type filter [script] is
    active, and the view read once. *)
Definition scriptFiltered : World :=
  run (H := containsSearch) (initialWorld 7)
      [EvFilterCheckbox "script" true; EvAnimationFrame;
       initiated "a" "Script" "F"; EvReadView].

(** Two script requests under the filter [script]; the second fails,
    the first is deleted with [dd], a third is captured and the frame
    runs.  The view is read after every notification. *)
Definition copyInstalled : World :=
  run (H := containsSearch) scriptFiltered
      [initiated "b" "Script" "F"; EvReadView;
       EvDebugger 7 (LoadingFailed {| lx_requestId := "b"; lx_errorText := "net::ERR_FAILED";
                                      lx_timestamp := 2 |});
       pressed "d"; pressed "d"; EvReadView;
       initiated "c" "Script" "F"; EvReadView;
       EvAnimationFrame; EvReadView].




(** The state already has every field value that the update [u] writes:
    applying [u] changes nothing. *)
Definition agrees (u : PartialAppState) (st : AppState) : Prop := spread st u = st.

(** What a flush of the pending batch would make of the state, before
    the selection reset. *)
Definition pendingState (w : World) : AppState :=
  spread (state (store w)) (assignAll (pendingUpdates (store w))).

(** The update that leaving the mode [m] with [q] queues. *)
Definition leaveUpdate (m : AppMode) : PartialAppState :=
  match m with
  | SEARCH => modeSearchUpdate NORMAL ""
  | INSPECT => leaveInspectUpdate
  | _ => modeUpdate NORMAL
  end.

(** The panel in SEARCH mode with a query typed, and in INSPECT mode
    with the full-width view open on the response tab. *)
Definition searching : list Event :=
  [pressed "/"; EvAnimationFrame; EvSearchInput "api"; EvAnimationFrame].

Definition inspecting : list Event :=
  [initiated "a" "Script" "F"; EvKeyDown {| ev_key := "L"; ctrlKey := false;
                                             shiftKey := true; panelScrollTop := None |};
   EvAnimationFrame; pressed "Enter"; EvAnimationFrame; pressed "z"; EvAnimationFrame].

(** Three requests, the selection moved to the last one, then the type
    filter [script] switched on: one request remains in view. *)
Definition filteredBelowSelection : World :=
  run (H := containsSearch) (initialWorld 7)
      [initiated "a" "Script" "F"; initiated "b" "Image" "F"; initiated "c" "Image" "F";
       pressed "j"; EvAnimationFrame; pressed "j"; EvAnimationFrame;
       EvFilterCheckbox "script" true; EvAnimationFrame].

(** Three pending requests [a], [b], [c], and the response headers of
    [b]. *)
Definition threeRequests : World :=
  run (H := containsSearch) (initialWorld 7)
      [initiated "a" "Script" "F"; initiated "b" "Script" "F"; initiated "c" "Script" "F"].

Definition notFound : ResponseReceivedParams :=
  {| rs_requestId := "b"; rs_status := 404; rs_statusText := "Not Found";
     rs_headers := [("content-type", "text/plain")] |}.

(** The records the store's own array refers to. *)
Definition storeView (w : World) : list NetworkRequest :=
  List.map (readRequest (heap w)) (storedRequests w).

(** A page load followed by four scripts: five requests, the main frame
    [F] tracked. *)
Definition fiveRequests : World :=
  run (H := containsSearch) (initialWorld 7)
      [initiated "d" "Document" "F"; initiated "a" "Script" "F"; initiated "b" "Script" "F";
       initiated "c" "Script" "F"; initiated "e" "Script" "F"].

(** A thousand script requests: the collection at its cap. *)
Definition atTheCap : World :=
  run (H := containsSearch) (initialWorld 7)
      (List.map (fun i => initiated (pretty i) "Script" "F") (seq 0 1000)).

(** Three requests with the view read, the selection moved to the second
    one, and then a keystroke in the search box still waiting for its
    frame. *)
Definition secondSelected : World :=
  run (H := containsSearch) threeRequests [EvReadView; pressed "j"; EvAnimationFrame].

Definition queryPending : World :=
  run (H := containsSearch) secondSelected [EvSearchInput "a"].

(** The same with [f] pressed instead: only the mode is waiting. *)
Definition modePending : World :=
  run (H := containsSearch) secondSelected [pressed "f"].

(** ** Auxiliary notions of the invariant proofs *)

(** [h'] has every array object of [h], unchanged. *)
Definition extends (h h' : Heap) : Prop :=
  (nextLoc h <= nextLoc h')%nat
  /\ forall a, (a < nextLoc h)%nat -> readArray h' a = readArray h a.

(** An update that may be queued: its array, if any, is bounded, and its
    selected index, if any, is not negative. *)
Definition safeUpdate (h : Heap) (u : PartialAppState) : Prop :=
  (forall a, u_requests u = Some a -> bounded h a) /\ nonNegative u.

(** The world seen while a frame runs: [rest] are the callbacks of this
    frame that have not run yet, ahead of those queued for the next. *)
Definition withQueue (rest : list (positive * FrameCallback)) (w : World) : World :=
  setFrameCallbacks (rest ++ frameCallbacks w) w.

(** * Further components and scenarios *)

(** ** Scenarios of the further properties *)

(** A page load and one script, nothing queued. *)
Definition twoRequests : World :=
  run (H := containsSearch) (initialWorld 7)
      [initiated "d" "Document" "F"; initiated "a" "Script" "F"].

Definition failedA : LoadingFailedParams :=
  {| lx_requestId := "a"; lx_errorText := "net::ERR_FAILED"; lx_timestamp := 2 |}.

Definition finishedA : LoadingFinishedParams :=
  {| lf_requestId := "a"; lf_encodedDataLength := 120; lf_timestamp := 2 |}.

(** The part of [handleRequestWillBeSent] that follows the navigation
    test: build the record, add it to the store, remember it under its
    request id. *)
Definition insertRequest `{External} (p : RequestWillBeSentParams) (w : World) : World :=
  let '(request, h) := allocRequest (newRequest p) (heap w) in
  let w2 := addRequest request (setHeap h w) in
  setCapture (withCaches (<[rq_requestId p := request]> (pendingRequests (capture w2)))
                         (responseBodyCache (capture w2))
                         (fetchingBodies (capture w2)) (capture w2)) w2.

(** Three requests, of which the filter [script] shows the first and
    the third; the selection is on the second row of that view, and [d]
    has been pressed once. *)
Definition secondRowSelected : list Event :=
  [initiated "a" "Script" "F"; initiated "b" "Image" "F"; initiated "c" "Script" "F";
   EvFilterCheckbox "script" true; EvAnimationFrame; pressed "j"; EvAnimationFrame;
   pressed "d"].

(** A response for a request id that the collection does not hold. *)
Definition lateResponse : ResponseReceivedParams :=
  {| rs_requestId := "old"; rs_status := 200; rs_statusText := "OK"; rs_headers := [] |}.

(** INSPECT mode after an in-panel search found three matches; the
    last one is the current match. *)
Definition matchesFound : PartialAppState :=
  {| u_mode := None; u_requests := None; u_selectedIndex := None; u_searchQuery := None;
     u_filters := None; u_jsonExpanded := None; u_previewTab := None;
     u_filterSelectedIndex := None; u_filterOrder := None; u_inspectFocus := None;
     u_inspectScrollPosition := None; u_inspectSearchQuery := Some "id";
     u_inspectSearchMatches := Some [10; 20; 30]; u_inspectSearchIndex := Some 2;
     u_headersSelectedIndex := None; u_isInspectExpanded := None;
     u_jsonSelectedIndex := None; u_flattenedJsonNodes := None |}.

Definition lastMatchSelected : list Event :=
  inspecting ++ [EvPresentation matchesFound; EvAnimationFrame].

(** ** The key-sequence buffer *)

(** The handler remembers a timer that is still live. *)
Definition sequenceArmed (w : World) : Prop :=
  exists handle delay cb,
    sequenceTimeout (keyboard w) = Some handle /\ (handle, (delay, cb)) ∈ timers w.

(** A non-empty buffer has its reset timer. *)
Definition bufferInv (w : World) : Prop :=
  keySequence (keyboard w) <> "" -> sequenceArmed w.

(** [w'] has the buffer and the timers of [w]. *)
Definition sameKeys (w w' : World) : Prop :=
  keyboard w' = keyboard w /\ timers w' = timers w.

(** One [g] pressed in NORMAL mode. *)
Definition gPressed : list Event := [pressed "g"].

(** ** Cycling through the inspect panels *)

(** The panel that [cycleInspectFocus(direction)] moves to from [f]. *)
Definition cycled (direction : Z) (f : InspectFocus) : InspectFocus :=
  panelAt (Z.rem (panelIndex f + direction + 3) 3).

Definition tabKey (shift : bool) : KeyboardEvent :=
  {| ev_key := "Tab"; ctrlKey := false; shiftKey := shift; panelScrollTop := None |}.

(** ** Handlers that only queue updates *)

(** An update that writes neither the collection nor the selection. *)
Definition plainUpdate (u : PartialAppState) : Prop :=
  u_requests u = None /\ u_selectedIndex u = None.

(** From [w] to [w'] nothing happened to the heap, the state, the
    subscribers or the reconciler, no subscriber was called, and only
    plain updates were queued. *)
Definition quiet (w w' : World) : Prop :=
  heap w' = heap w
  /\ state (store w') = state (store w)
  /\ listeners (store w') = listeners (store w)
  /\ capture w' = capture w
  /\ (forall l, notified l (trace w') = notified l (trace w))
  /\ exists us, pendingUpdates (store w') = pendingUpdates (store w) ++ us
                /\ Forall plainUpdate us.

(** ** FilterManager (src/core/FilterManager.ts): the filter bar under
    the keyboard *)

Definition filterSelectedIndexUpdate (i : Z) : PartialAppState :=
  {| u_mode := None; u_requests := None; u_selectedIndex := None; u_searchQuery := None;
     u_filters := None; u_jsonExpanded := None; u_previewTab := None;
     u_filterSelectedIndex := Some i; u_filterOrder := None; u_inspectFocus := None;
     u_inspectScrollPosition := None; u_inspectSearchQuery := None;
     u_inspectSearchMatches := None; u_inspectSearchIndex := None;
     u_headersSelectedIndex := None; u_isInspectExpanded := None;
     u_jsonSelectedIndex := None; u_flattenedJsonNodes := None |}.

(** [{ filterOrder, filterSelectedIndex }]. *)
Definition filterOrderUpdate (order : list string) (i : Z) : PartialAppState :=
  {| u_mode := None; u_requests := None; u_selectedIndex := None; u_searchQuery := None;
     u_filters := None; u_jsonExpanded := None; u_previewTab := None;
     u_filterSelectedIndex := Some i; u_filterOrder := Some order; u_inspectFocus := None;
     u_inspectScrollPosition := None; u_inspectSearchQuery := None;
     u_inspectSearchMatches := None; u_inspectSearchIndex := None;
     u_headersSelectedIndex := None; u_isInspectExpanded := None;
     u_jsonSelectedIndex := None; u_flattenedJsonNodes := None |}.

(** The checkbox that [toggleSelected] finds in the DOM at the selected
    position: its value and whether it is checked. *)
Record Checkbox := { cb_value : string; cb_checked : bool }.

(** [toggleSelected()]; [selected] is [None] when the bar, the option at
    [filterSelectedIndex] or its checkbox is missing. *)
Definition toggleSelected (selected : option Checkbox) (w : World) : World :=
  match selected with
  | Some cb => handleCheckboxChange (cb_value cb) (negb (cb_checked cb)) w
  | None => w
  end.

(** [handleNavigation(key)]. *)
Definition handleNavigation (k : string) (selected : option Checkbox) (w : World) : World :=
  let st := getState w in
  let currentIndex := filterSelectedIndex st in
  let maxIndex := jsLength filterOptions - 1 in
  if bool_decide (k = "h")
  then setState (filterSelectedIndexUpdate (Z.max 0 (currentIndex - 1))) w
  else if bool_decide (k = "l")
  then setState (filterSelectedIndexUpdate (Z.min maxIndex (currentIndex + 1))) w
  else if bool_decide (k = "Enter") then toggleSelected selected w
  else w.

(** [[a[i], a[j]] = [a[j], a[i]]] on a copy of a string array, for two
    indices inside the array.  Outside it (a negative index included)
    JavaScript would read and store [undefined], and lengthen the
    array, which a [list string] cannot hold: the result is [None]
    there. *)
Definition swapEntries (i j : Z) (a : list string) : option (list string) :=
  if (i <? 0) || (j <? 0) then None
  else match a !! Z.to_nat i, a !! Z.to_nat j with
       | Some x, Some y => Some (<[Z.to_nat j := x]> (<[Z.to_nat i := y]> a))
       | _, _ => None
       end.

(** What a move of the selected filter does: the world with the update
    queued, and the order that [saveFilterOrderToStorage()] hands to
    [chrome.storage.local.set], which it reads from [getState()] right
    after the call of [setState]. *)
Record FilterMove := { moved : World; savedOrder : option (list string) }.

(** [moveFilterLeft()], without [renderFilterBar()] (DOM only); [None]
    when the swap leaves the array (see [swapEntries]). *)
Definition moveFilterLeft (w : World) : option FilterMove :=
  let st := getState w in
  let currentIndex := filterSelectedIndex st in
  if currentIndex <=? 1 then Some {| moved := w; savedOrder := None |}
  else
    let orderIndex := currentIndex - 1 in
    match swapEntries orderIndex (orderIndex - 1) (filterOrder st) with
    | Some order =>
        let w1 := setState (filterOrderUpdate order (currentIndex - 1)) w in
        Some {| moved := w1; savedOrder := Some (filterOrder (getState w1)) |}
    | None => None
    end.

(** [moveFilterRight()], likewise. *)
Definition moveFilterRight (w : World) : option FilterMove :=
  let st := getState w in
  let currentIndex := filterSelectedIndex st in
  let maxIndex := jsLength filterOptions - 1 in
  if (currentIndex =? 0) || (maxIndex <=? currentIndex)
  then Some {| moved := w; savedOrder := None |}
  else
    let orderIndex := currentIndex - 1 in
    match swapEntries orderIndex (orderIndex + 1) (filterOrder st) with
    | Some order =>
        let w1 := setState (filterOrderUpdate order (currentIndex + 1)) w in
        Some {| moved := w1; savedOrder := Some (filterOrder (getState w1)) |}
    | None => None
    end.

(** The filter bar with the third option selected. *)
Definition thirdFilterSelected : list Event :=
  [EvPresentation (filterSelectedIndexUpdate 3); EvAnimationFrame].

(** ** JsonViewer (src/components/JsonViewer.ts): the response as a list of nodes *)

(** [getValueType(value)]. *)
Definition getValueType (v : JsonValue) : JsonType :=
  match v with
  | JNull => TNull
  | JArray _ => TArray
  | JObject _ => TObject
  | JString _ => TString
  | JNumber _ => TNumber
  | JBool _ => TBoolean
  end.

(** [value !== null && typeof value === 'object']. *)
Definition isObjectValue (v : JsonValue) : bool :=
  match v with
  | JArray _ | JObject _ => true
  | _ => false
  end.

(** [path.split('.').pop()]: what follows the last dot of [path]. *)
Fixpoint lastSegmentFrom (acc s : string) : string :=
  match s with
  | EmptyString => acc
  | String c r =>
      if bool_decide (String c "" = ".") then lastSegmentFrom "" r
      else lastSegmentFrom (acc ++ String c "") r
  end.

Definition lastSegment (s : string) : string := lastSegmentFrom "" s.

(** [a || b] on strings: the empty string is falsy. *)
Definition orElse (a b : string) : string := if bool_decide (a = "") then b else a.

(** The path of the entry [key] of the container at [path]; the empty
    path is falsy. *)
Definition nodePathOf (path : string) (isArrayItem : bool) (key : string) : string :=
  if bool_decide (path = "") then key
  else if isArrayItem then path ++ "[" ++ key ++ "]" else path ++ "." ++ key.

(** [state.jsonExpanded.get(nodePath) ?? true]. *)
Definition expandedAt (expanded : gmap string bool) (nodePath : string) : bool :=
  default true (expanded !! nodePath).

(** One turn of the loop of [flattenJson]: the node of the entry, and
    the nodes of its value when it is expanded and a container;
    [children] is the recursive call. *)
Definition entryNodes (expanded : gmap string bool) (path : string) (level : Z)
    (isArrayItem : bool) (k : string) (v : JsonValue)
    (children : string -> list JsonNode) : list JsonNode :=
  let nodePath := nodePathOf path isArrayItem k in
  let isExpanded := expandedAt expanded nodePath in
  {| key := k; value := v; type := getValueType v; path := nodePath;
     isExpanded := isExpanded; level := level |}
  :: (if isExpanded && isObjectValue v then children nodePath else []).

(** [for (const x of l)] with the index of [x], all results appended. *)
Definition flatMapFrom {A B} (f : nat -> A -> list B) : nat -> list A -> list B :=
  fix each (i : nat) (l : list A) {struct l} : list B :=
    match l with
    | [] => []
    | x :: l' => f i x ++ each (S i) l'
    end.

(** [flattenJson(obj, path, level)], with the expansion map that it
    reads from the state.  The entries of an array are its items under
    their indices in decimal; those of an object are held by [JObject]
    in the order of [Object.entries]. *)
Fixpoint flattenJson (expanded : gmap string bool) (obj : JsonValue) (path : string)
    (level : Z) {struct obj} : list JsonNode :=
  match obj with
  | JNull =>
      [{| key := orElse (lastSegment path) "null"; value := JNull; type := TNull;
          path := orElse path "root"; isExpanded := false; level := level |}]
  | JArray items =>
      flatMapFrom
        (fun i v => entryNodes expanded path level true (pretty i) v
                      (fun nodePath => flattenJson expanded v nodePath (level + 1)))
        0%nat items
  | JObject entries =>
      flat_map
        (fun kv => entryNodes expanded path level false (fst kv) (snd kv)
                     (fun nodePath => flattenJson expanded (snd kv) nodePath (level + 1)))
        entries
  | _ =>
      [{| key := orElse (lastSegment path) ""; value := obj; type := getValueType obj;
          path := orElse path "root"; isExpanded := false; level := level |}]
  end.

Definition flattenedJsonNodesUpdate (nodes : list JsonNode) : PartialAppState :=
  {| u_mode := None; u_requests := None; u_selectedIndex := None; u_searchQuery := None;
     u_filters := None; u_jsonExpanded := None; u_previewTab := None;
     u_filterSelectedIndex := None; u_filterOrder := None; u_inspectFocus := None;
     u_inspectScrollPosition := None; u_inspectSearchQuery := None;
     u_inspectSearchMatches := None; u_inspectSearchIndex := None;
     u_headersSelectedIndex := None; u_isInspectExpanded := None;
     u_jsonSelectedIndex := None; u_flattenedJsonNodes := Some nodes |}.

Definition jsonSelectedIndexUpdate (i : Z) : PartialAppState :=
  {| u_mode := None; u_requests := None; u_selectedIndex := None; u_searchQuery := None;
     u_filters := None; u_jsonExpanded := None; u_previewTab := None;
     u_filterSelectedIndex := None; u_filterOrder := None; u_inspectFocus := None;
     u_inspectScrollPosition := None; u_inspectSearchQuery := None;
     u_inspectSearchMatches := None; u_inspectSearchIndex := None;
     u_headersSelectedIndex := None; u_isInspectExpanded := None;
     u_jsonSelectedIndex := Some i; u_flattenedJsonNodes := None |}.

(** [render(data)], without the DOM: the nodes of [data] under the
    expansion map of the current state are handed to [setState].  The
    viewer keeps [data] as its [currentData], which the functions below
    take as an argument. *)
Definition renderJson (data : JsonValue) (w : World) : World :=
  let st := getState w in
  let nodes := flattenJson (readExpanded (heap w) (jsonExpanded st)) data "" 0 in
  setState (flattenedJsonNodesUpdate nodes) w.

(** [if (this.currentData !== null) this.render(this.currentData)]. *)
Definition rerenderJson (currentData : JsonValue) (w : World) : World :=
  match currentData with
  | JNull => w
  | _ => renderJson currentData w
  end.

(** [toggleNode(path)]. *)
Definition toggleNode (currentData : JsonValue) (p : string) (w : World) : World :=
  let st := getState w in
  let currentState := expandedAt (readExpanded (heap w) (jsonExpanded st)) p in
  rerenderJson currentData (setNodeExpanded p (negb currentState) w).

(** [JsonViewer.moveSelection(delta)]. *)
Definition jsonMoveSelection (delta : Z) (w : World) : World :=
  let st := getState w in
  let maxIndex := jsLength (flattenedJsonNodes st) - 1 in
  if maxIndex <? 0 then w
  else setState (jsonSelectedIndexUpdate
                   (Z.max 0 (Z.min maxIndex (jsonSelectedIndex st + delta)))) w.

(** [JsonViewer.navigateTo(position)]; [first] is [position === 'first']. *)
Definition jsonNavigateTo (first : bool) (w : World) : World :=
  let st := getState w in
  let maxIndex := jsLength (flattenedJsonNodes st) - 1 in
  if maxIndex <? 0 then w
  else setState (jsonSelectedIndexUpdate (if first then 0 else maxIndex)) w.

(** [array[i] ?? null] for an index held in a number. *)
Definition jsIndex {A} (l : list A) (i : Z) : option A :=
  if i <? 0 then None else l !! Z.to_nat i.

(** The number of entries of a value, at every depth. *)
Fixpoint entryCount (v : JsonValue) : nat :=
  match v with
  | JArray items => sum_list (List.map (fun x => S (entryCount x)) items)
  | JObject entries => sum_list (List.map (fun kv => S (entryCount (snd kv))) entries)
  | _ => 0%nat
  end.

(** The number of entries of the value itself. *)
Definition ownEntries (v : JsonValue) : nat :=
  match v with
  | JArray items => length items
  | JObject entries => length entries
  | _ => 0%nat
  end.

(** A response body: an object with a list and a nested object. *)
Definition sampleBody : JsonValue :=
  JObject [("items", JArray [JNumber 1; JObject [("id", JString "a")]]);
           ("meta", JObject [("total", JNumber 2); ("next", JNull)])].

(** Where a node of the list [nodes], made for the container at
    [parent] and [depth], comes from: it is an entry of that container,
    or an entry of a container listed as expanded one level above it. *)
Definition wellPlaced (expanded : gmap string bool) (nodes : list JsonNode)
    (parent : string) (depth : Z) (n : JsonNode) : Prop :=
  isExpanded n = expandedAt expanded (path n)
  /\ type n = getValueType (value n)
  /\ ((level n = depth /\ exists arr k, path n = nodePathOf parent arr k)
      \/ (depth < level n
          /\ exists p arr k,
               In p nodes /\ level p = level n - 1 /\ isExpanded p = true
               /\ isObjectValue (value p) = true
               /\ path n = nodePathOf (path p) arr k)).

(** ** HeadersList (src/components/HeadersList.ts) *)

(** ['general' | 'request' | 'response']. *)
Inductive HeaderSection := SecGeneral | SecRequest | SecResponse.

#[global] Instance HeaderSection_eq_dec : EqDecision HeaderSection.
Proof. solve_decision. Defined.

Record HeaderItem := {
  h_section : HeaderSection;
  h_key : string;
  h_value : string;
  h_index : Z
}.

(** The fields of the component; [collapsedSections] is the
    [Set<string>], in insertion order. *)
Record HeadersList := {
  hl_headers : list HeaderItem;
  hl_selectedIndex : Z;
  collapsedSections : list HeaderSection;
  lastRequestId : string;
  lastSelectedIndex : Z
}.

(** The component as its field initialisers leave it. *)
Definition newHeadersList : HeadersList :=
  {| hl_headers := []; hl_selectedIndex := 0; collapsedSections := [];
     lastRequestId := ""; lastSelectedIndex := -1 |}.

Definition withHeaders (hs : list HeaderItem) (c : HeadersList) : HeadersList :=
  {| hl_headers := hs; hl_selectedIndex := hl_selectedIndex c;
     collapsedSections := collapsedSections c; lastRequestId := lastRequestId c;
     lastSelectedIndex := lastSelectedIndex c |}.

Definition withHeaderSelection (i : Z) (c : HeadersList) : HeadersList :=
  {| hl_headers := hl_headers c; hl_selectedIndex := i;
     collapsedSections := collapsedSections c; lastRequestId := lastRequestId c;
     lastSelectedIndex := lastSelectedIndex c |}.

Definition withCollapsed (s : list HeaderSection) (c : HeadersList) : HeadersList :=
  {| hl_headers := hl_headers c; hl_selectedIndex := hl_selectedIndex c;
     collapsedSections := s; lastRequestId := lastRequestId c;
     lastSelectedIndex := lastSelectedIndex c |}.

Definition withLastRequestId (rid : string) (c : HeadersList) : HeadersList :=
  {| hl_headers := hl_headers c; hl_selectedIndex := hl_selectedIndex c;
     collapsedSections := collapsedSections c; lastRequestId := rid;
     lastSelectedIndex := lastSelectedIndex c |}.

Definition withLastSelectedIndex (i : Z) (c : HeadersList) : HeadersList :=
  {| hl_headers := hl_headers c; hl_selectedIndex := hl_selectedIndex c;
     collapsedSections := collapsedSections c; lastRequestId := lastRequestId c;
     lastSelectedIndex := i |}.

(** [this.collapsedSections.has(section)]. *)
Definition sectionCollapsed (s : HeaderSection) (c : HeadersList) : bool :=
  bool_decide (s ∈ collapsedSections c).

(** [getStatusText(status)]. *)
Definition getStatusText (status : Z) : string :=
  match status with
  | 200 => "OK"
  | 201 => "Created"
  | 204 => "No Content"
  | 301 => "Moved Permanently"
  | 302 => "Found"
  | 304 => "Not Modified"
  | 400 => "Bad Request"
  | 401 => "Unauthorized"
  | 403 => "Forbidden"
  | 404 => "Not Found"
  | 500 => "Internal Server Error"
  | 502 => "Bad Gateway"
  | 503 => "Service Unavailable"
  | _ => ""
  end.

(** [getGeneralItems(request)]. *)
Definition getGeneralItems (request : NetworkRequest) : list (string * string) :=
  let statusText := orElse (r_statusText request) (getStatusText (r_status request)) in
  [("Request URL", r_url request);
   ("Request Method", r_method request);
   ("Status Code", (pretty (r_status request) ++ " " ++ statusText)%string);
   ("Resource Type", resourceTypeValue (r_type request))].

(** One [forEach] of [buildHeadersList]: every entry is pushed under
    the running [index], which is then incremented. *)
Definition pushSection (s : HeaderSection) (entries : list (string * string))
    (acc : list HeaderItem * Z) : list HeaderItem * Z :=
  fold_left (fun a kv =>
               (fst a ++ [{| h_section := s; h_key := fst kv; h_value := snd kv;
                             h_index := snd a |}],
                snd a + 1))
            entries acc.

(** [buildHeadersList(request)]. *)
Definition buildHeadersList (c : HeadersList) (request : NetworkRequest) : list HeaderItem :=
  let a0 := ([], 0) in
  let a1 := if sectionCollapsed SecGeneral c then a0
            else pushSection SecGeneral (getGeneralItems request) a0 in
  let a2 := if sectionCollapsed SecRequest c then a1
            else pushSection SecRequest (r_requestHeaders request) a1 in
  let a3 := if sectionCollapsed SecResponse c then a2
            else pushSection SecResponse (r_responseHeaders request) a2 in
  fst a3.

Definition headersSelectedIndexUpdate (i : Z) : PartialAppState :=
  {| u_mode := None; u_requests := None; u_selectedIndex := None; u_searchQuery := None;
     u_filters := None; u_jsonExpanded := None; u_previewTab := None;
     u_filterSelectedIndex := None; u_filterOrder := None; u_inspectFocus := None;
     u_inspectScrollPosition := None; u_inspectSearchQuery := None;
     u_inspectSearchMatches := None; u_inspectSearchIndex := None;
     u_headersSelectedIndex := Some i; u_isInspectExpanded := None;
     u_jsonSelectedIndex := None; u_flattenedJsonNodes := None |}.

(** [scrollToSelected()]: a frame callback that touches the DOM only,
    queued like the panel-focusing ones. *)
Definition scrollToSelected (w : World) : World := snd (requestAnimationFrame DomFocus w).

Section HeadersPane.

Context `{External}.

(** [render(state)] of the headers list, without the DOM. *)
Definition renderHeadersList (st : AppState) (c : HeadersList) (w : World)
    : HeadersList * World :=
  match previewTab st with
  | TabHeaders =>
      let '(view, w1) := getFilteredRequests w in
      match jsIndex (readArray (heap w1) view) (selectedIndex st) with
      | None => (withLastRequestId "" c, w1)
      | Some r =>
          let selectedRequest := readRequest (heap w1) r in
          let requestChanged := negb (bool_decide (lastRequestId c = r_id selectedRequest)) in
          let selectionChanged :=
            negb (bool_decide (lastSelectedIndex c = headersSelectedIndex st)) in
          if negb requestChanged && negb selectionChanged then (c, w1)
          else
            let c1 := withHeaderSelection (headersSelectedIndex st) c in
            let '(c2, w2) :=
              if requestChanged then
                let c' := withHeaders (buildHeadersList c1 selectedRequest) c1 in
                let len := jsLength (hl_headers c') in
                let '(c'', w') :=
                  if (len <=? hl_selectedIndex c') && (0 <? len)
                  then (withHeaderSelection (len - 1) c',
                        setState (headersSelectedIndexUpdate (len - 1)) w1)
                  else (c', w1) in
                (withLastRequestId (r_id selectedRequest) c'', scrollToSelected w')
              else (c1, scrollToSelected w1) in
            (withLastSelectedIndex (headersSelectedIndex st) c2, w2)
      end
  | _ => (c, w)
  end.

(** [toggleSection(section)]. *)
Definition toggleSection (s : HeaderSection) (c : HeadersList) (w : World)
    : HeadersList * World :=
  let c1 :=
    if sectionCollapsed s c
    then withCollapsed (List.filter (fun x => negb (bool_decide (x = s)))
                                    (collapsedSections c)) c
    else withCollapsed (collapsedSections c ++ [s]) c in
  renderHeadersList (getState w) c1 w.

(** [collapseCurrentSection()]. *)
Definition collapseCurrentSection (c : HeadersList) (w : World) : HeadersList * World :=
  if jsLength (hl_headers c) =? 0 then (c, w)
  else match jsIndex (hl_headers c) (hl_selectedIndex c) with
       | Some currentHeader =>
           if negb (sectionCollapsed (h_section currentHeader) c)
           then toggleSection (h_section currentHeader) c w
           else (c, w)
       | None => (c, w)
       end.

(** [expandCurrentSection()]. *)
Definition expandCurrentSection (c : HeadersList) (w : World) : HeadersList * World :=
  if jsLength (hl_headers c) =? 0 then (c, w)
  else match jsIndex (hl_headers c) (hl_selectedIndex c) with
       | Some currentHeader =>
           if sectionCollapsed (h_section currentHeader) c
           then toggleSection (h_section currentHeader) c w
           else (c, w)
       | None => (c, w)
       end.

End HeadersPane.

(** [getSelectedHeader()]. *)
Definition getSelectedHeader (c : HeadersList) : option HeaderItem :=
  jsIndex (hl_headers c) (hl_selectedIndex c).

(** The headers tab on the second of two requests, rendered once. *)
Definition headersShown : HeadersList * World :=
  let w := run (H := containsSearch) twoRequests
               [EvPresentation (previewTabUpdate TabHeaders); pressed "j"; EvAnimationFrame] in
  renderHeadersList (H := containsSearch) (getState w) newHeadersList w.

(** ** The flush with the headers list subscribed *)

(** The arrow function of [setState] up to its call of
    [notifyListeners()]: the merge, the invalidation and the reset of
    the selection. *)
Definition flushMerged (w : World) : World :=
  let merged := assignAll (pendingUpdates (store w)) in
  let w1 := setStore (withState (spread (state (store w)) merged) (store w)) w in
  let w2 := if isDefined (u_searchQuery merged) || isDefined (u_filters merged)
            then invalidateFilterCache w1 else w1 in
  if isDefined (u_searchQuery merged) && isNone (u_selectedIndex merged)
  then setSelectedIndex 0 w2 else w2.

(** Its two assignments after [notifyListeners()] has returned:
    [this.pendingUpdates = []; this.rafId = null]. *)
Definition flushSettled (w : World) : World :=
  setStore (withRafId None (withPendingUpdates [] (store w))) w.

(** The click handler of a header item: [this.selectedIndex =
    globalIndex] and [setState({ headersSelectedIndex: globalIndex })]. *)
Definition clickHeaderItem (globalIndex : Z) (c : HeadersList) (w : World)
    : HeadersList * World :=
  (withHeaderSelection globalIndex c, setState (headersSelectedIndexUpdate globalIndex) w).

Section RenderingFlush.

Context `{External}.

(** A notification of the store as the headers list receives it:
    [listener(this.state)] is the component's [render]. *)
Definition notifyHeadersList (c : HeadersList) (w : World) : HeadersList * World :=
  renderHeadersList (state (store w)) c w.

(** The arrow function of [setState] with the headers list among the
    subscribers: the component renders inside [notifyListeners()], and
    the two assignments run when it has returned. *)
Definition storeFlushRendering (c : HeadersList) (w : World) : HeadersList * World :=
  let '(c', w') := notifyHeadersList c (notifyListeners (flushMerged w)) in
  (c', flushSettled w').

(** One animation frame of the panel with the headers list. *)
Definition animationFrameRendering (c : HeadersList) (w : World) : HeadersList * World :=
  fold_left (fun acc cb =>
               match snd cb with
               | StoreFlush => storeFlushRendering (fst acc) (snd acc)
               | other => (fst acc, runFrameCallback other (snd acc))
               end)
            (frameCallbacks w) (c, setFrameCallbacks [] w).

End RenderingFlush.

(** A script request with two request headers. *)
Definition twoHeadersParams : RequestWillBeSentParams :=
  {| rq_requestId := "b"; rq_type := "Script"; rq_frameId := "F";
     rq_url := "https://example.test/b"; rq_method := "GET";
     rq_headers := [("Accept", "*/*"); ("Referer", "https://example.test/")];
     rq_postData := None; rq_timestamp := 1; rq_initiatorUrl := None |}.

(** The panel with its headers list, which renders at every
    notification: two script requests are captured, the second with two
    request headers; [j] selects the second and the frame runs (the list
    has six items); the sixth item is clicked and the frame runs; then
    [k] is pressed, which queues the selection of the first request,
    whose list has four items. *)
Definition sixthItemClicked : HeadersList * World :=
  let '(c0, w0) := notifyHeadersList (H := containsSearch) newHeadersList (initialWorld 7) in
  let '(c1, w1) := notifyHeadersList (H := containsSearch) c0
                     (step (H := containsSearch) w0 (initiated "a" "Script" "F")) in
  let '(c2, w2) := notifyHeadersList (H := containsSearch) c1
                     (step (H := containsSearch) w1
                           (EvDebugger 7 (RequestWillBeSent twoHeadersParams))) in
  let '(c3, w3) := animationFrameRendering (H := containsSearch) c2
                     (step (H := containsSearch) w2 (pressed "j")) in
  let '(c4, w4) := clickHeaderItem 5 c3 w3 in
  let '(c5, w5) := animationFrameRendering (H := containsSearch) c4 w4 in
  (c5, step (H := containsSearch) w5 (pressed "k")).

(** ** CopyMenu (src/components/CopyMenu.ts) *)

Inductive CopyAction :=
  ActCurl | ActUrl | ActRequestHeaders | ActResponseHeaders | ActResponse.

(** [menuItems], as label and action. *)
Definition menuItems : list (string * CopyAction) :=
  [("Copy as cURL", ActCurl);
   ("Copy URL", ActUrl);
   ("Copy Request Headers", ActRequestHeaders);
   ("Copy Response Headers", ActResponseHeaders);
   ("Copy Response Body", ActResponse)].

(** The one field of the component that its methods write. *)
Record CopyMenu := { selectedMenuItem : Z }.

(** [render(state)], without the class updates of the options;
    [copyBar] says whether the element [copy-bar] is in the document. *)
Definition renderCopyMenu (copyBar : bool) (st : AppState) (c : CopyMenu) : CopyMenu :=
  if negb copyBar then c
  else match mode st with
       | COPY => c
       | _ => {| selectedMenuItem := 0 |}
       end.

(** [moveSelection(delta)]; [%] is the remainder that takes the sign of
    the dividend. *)
Definition menuMoveSelection (copyBar : bool) (delta : Z) (c : CopyMenu) (w : World)
    : CopyMenu :=
  let c1 := {| selectedMenuItem :=
                 Z.rem (selectedMenuItem c + delta + jsLength menuItems)
                       (jsLength menuItems) |} in
  renderCopyMenu copyBar (getState w) c1.

Section CopyPane.

Context `{External}.

(** [executeActionByIndex(index)], without the clipboard and the toast:
    what it does to the component and to the store. *)
Definition executeActionByIndex (index : Z) (c : CopyMenu) (w : World) : CopyMenu * World :=
  match jsIndex menuItems index with
  | None => (c, w)
  | Some item =>
      let st := getState w in
      let '(view, w1) := getFilteredRequests w in
      match jsIndex (readArray (heap w1) view) (selectedIndex st) with
      | None => (c, w1)
      | Some selectedRequest =>
          ({| selectedMenuItem := 0 |}, setState (modeUpdate NORMAL) w1)
      end
  end.

(** [executeSelectedAction()]. *)
Definition executeSelectedAction (c : CopyMenu) (w : World) : CopyMenu * World :=
  executeActionByIndex (selectedMenuItem c) c w.

(** What reaches the menu: the keys of COPY mode ([l], [h], [Enter]),
    a click on the option [index], and the store's notifications. *)
Inductive MenuCall :=
| CallMove (delta : Z)
| CallExecute
| CallClick (index : Z)
| CallRender (st : AppState).

Definition menuStep (copyBar : bool) (cw : CopyMenu * World) (call : MenuCall)
    : CopyMenu * World :=
  match call with
  | CallMove delta => (menuMoveSelection copyBar delta (fst cw) (snd cw), snd cw)
  | CallExecute => executeSelectedAction (fst cw) (snd cw)
  | CallClick index => executeActionByIndex index (fst cw) (snd cw)
  | CallRender st => (renderCopyMenu copyBar st (fst cw), snd cw)
  end.

End CopyPane.

(** The moves that [handleCopyMode] asks for are by one item. *)
Definition byOne (call : MenuCall) : Prop :=
  match call with
  | CallMove delta => delta = 1 \/ delta = -1
  | _ => True
  end.

(** * Properties *)

(** * Proofs *)

(** ** Arrays and heaps *)

Lemma jsLength_app {A} (l k : list A) : jsLength (l ++ k) = jsLength l + jsLength k.
Proof. unfold jsLength. rewrite length_app. lia. Qed.

Lemma jsLength_nonneg {A} (l : list A) : 0 <= jsLength l.
Proof. unfold jsLength. lia. Qed.

Lemma jsLength_nil {A} : jsLength (@nil A) = 0.
Proof. reflexivity. Qed.

Lemma splice_front {A} (k : Z) (l : list A) :
  0 <= k -> splice 0 k l = drop (Z.to_nat k) l.
Proof.
  intros Hk. unfold splice, spliceStart. simpl.
  rewrite Nat.sub_0_r, Z.max_l by lia.
  destruct (Nat.le_gt_cases (Z.to_nat k) (length l)) as [Hle|Hgt].
  - rewrite Nat.min_l by lia. reflexivity.
  - rewrite Nat.min_r by lia. rewrite !drop_ge by lia. reflexivity.
Qed.

Lemma jsLength_splice {A} (i k : Z) (l : list A) : jsLength (splice i k l) <= jsLength l.
Proof.
  unfold splice, jsLength. rewrite length_app, length_take, length_drop. lia.
Qed.

Lemma jsLength_drop {A} (n : nat) (l : list A) :
  jsLength (drop n l) = Z.max 0 (jsLength l - Z.of_nat n).
Proof. unfold jsLength. rewrite length_drop. lia. Qed.

Lemma readArray_writeArray h a b v :
  readArray (writeArray a v h) b = if decide (a = b) then v else readArray h b.
Proof.
  unfold readArray, writeArray; simpl. destruct (decide (a = b)) as [->|Hne].
  - apply lookup_total_insert_eq.
  - by apply lookup_total_insert_ne.
Qed.

Lemma readArray_writeArray_eq h a v : readArray (writeArray a v h) a = v.
Proof. rewrite readArray_writeArray. by destruct (decide (a = a)). Qed.

Lemma readArray_writeArray_ne h a b v :
  a <> b -> readArray (writeArray a v h) b = readArray h b.
Proof. intros. rewrite readArray_writeArray. by destruct (decide (a = b)). Qed.

Lemma readArray_writeRequest h r v a : readArray (writeRequest r v h) a = readArray h a.
Proof. reflexivity. Qed.

Lemma readArray_writeTypes h s v a : readArray (writeTypes s v h) a = readArray h a.
Proof. reflexivity. Qed.

Lemma readArray_writeExpanded h m v a : readArray (writeExpanded m v h) a = readArray h a.
Proof. reflexivity. Qed.

Lemma readArray_bump h a : readArray (bump h) a = readArray h a.
Proof. reflexivity. Qed.

Lemma nextLoc_writeArray h a v : nextLoc (writeArray a v h) = nextLoc h.
Proof. reflexivity. Qed.

Lemma nextLoc_writeRequest h r v : nextLoc (writeRequest r v h) = nextLoc h.
Proof. reflexivity. Qed.

Lemma nextLoc_writeTypes h s v : nextLoc (writeTypes s v h) = nextLoc h.
Proof. reflexivity. Qed.

Lemma nextLoc_writeExpanded h m v : nextLoc (writeExpanded m v h) = nextLoc h.
Proof. reflexivity. Qed.

Lemma nextLoc_bump h : nextLoc (bump h) = S (nextLoc h).
Proof. reflexivity. Qed.

Lemma readRequest_writeRequest h r q v :
  readRequest (writeRequest r v h) q = if decide (r = q) then v else readRequest h q.
Proof.
  unfold readRequest, writeRequest; simpl. destruct (decide (r = q)) as [->|Hne].
  - apply lookup_total_insert_eq.
  - by apply lookup_total_insert_ne.
Qed.

Lemma readRequest_writeArray h a v r : readRequest (writeArray a v h) r = readRequest h r.
Proof. reflexivity. Qed.

Lemma readRequest_bump h r : readRequest (bump h) r = readRequest h r.
Proof. reflexivity. Qed.

Lemma readTypes_writeTypes h s t v :
  readTypes (writeTypes s v h) t = if decide (s = t) then v else readTypes h t.
Proof.
  unfold readTypes, writeTypes; simpl. destruct (decide (s = t)) as [->|Hne].
  - apply lookup_total_insert_eq.
  - by apply lookup_total_insert_ne.
Qed.

Lemma readTypes_writeArray h a v s : readTypes (writeArray a v h) s = readTypes h s.
Proof. reflexivity. Qed.

Lemma readTypes_writeRequest h r v s : readTypes (writeRequest r v h) s = readTypes h s.
Proof. reflexivity. Qed.

Lemma readTypes_bump h s : readTypes (bump h) s = readTypes h s.
Proof. reflexivity. Qed.

Create Rewrite HintDb heap.

#[local] Hint Rewrite readArray_writeArray_eq readArray_writeRequest readArray_writeTypes
  readArray_writeExpanded readArray_bump nextLoc_writeArray nextLoc_writeRequest
  nextLoc_writeTypes nextLoc_writeExpanded nextLoc_bump readRequest_writeArray
  readRequest_bump readTypes_writeArray readTypes_writeRequest readTypes_bump : heap.

(** ** What [addRequest], [deleteRequest] and [clearRequests] leave in
    the store *)

Lemma storedRequests_addRequest r w :
  storedRequests (addRequest r w)
  = drop (Z.to_nat (jsLength (storedRequests w) + 1 - MAX_REQUESTS)) (storedRequests w ++ [r]).
Proof.
  unfold addRequest, storedRequests.
  pose proof (jsLength_app (readArray (heap w) (requests (state (store w)))) [r]) as Hlen.
  change (jsLength [r]) with 1 in Hlen.
  destruct (MAX_REQUESTS <? _) eqn:E.
  - apply Z.ltb_lt in E.
    destruct (selectedIndex _ <? _); cbn;
      rewrite !readArray_writeArray_eq, splice_front by lia; f_equal; lia.
  - apply Z.ltb_ge in E. cbn. rewrite readArray_writeArray_eq.
    replace (Z.to_nat _) with 0%nat by lia. reflexivity.
Qed.

Lemma jsLength_addRequest r w :
  jsLength (storedRequests (addRequest r w))
  = Z.min MAX_REQUESTS (jsLength (storedRequests w) + 1).
Proof.
  rewrite storedRequests_addRequest, jsLength_drop, jsLength_app.
  change (jsLength [r]) with 1.
  pose proof (jsLength_nonneg (storedRequests w)). unfold MAX_REQUESTS in *. lia.
Qed.

Lemma selectedIndex_addRequest r w :
  selectedIndex (state (store (addRequest r w)))
  = let evicted := jsLength (storedRequests w) + 1 - MAX_REQUESTS in
    if 0 <? evicted then Z.max 0 (selectedIndex (state (store w)) - evicted)
    else selectedIndex (state (store w)).
Proof.
  unfold addRequest, storedRequests.
  pose proof (jsLength_app (readArray (heap w) (requests (state (store w)))) [r]) as Hlen.
  change (jsLength [r]) with 1 in Hlen. rewrite Hlen. cbn zeta.
  destruct (MAX_REQUESTS <? _) eqn:E.
  - apply Z.ltb_lt in E.
    replace (0 <? _) with true by (symmetry; apply Z.ltb_lt; lia).
    cbn. destruct (selectedIndex (state (store w)) <? _) eqn:E2; cbn.
    + apply Z.ltb_lt in E2. lia.
    + apply Z.ltb_ge in E2. lia.
  - apply Z.ltb_ge in E.
    replace (0 <? _) with false by (symmetry; apply Z.ltb_ge; lia).
    reflexivity.
Qed.

Lemma storedRequests_deleteRequest i w :
  storedRequests (deleteRequest i w) = splice i 1 (storedRequests w).
Proof.
  unfold deleteRequest, storedRequests.
  destruct (_ <=? _); cbn; by rewrite readArray_writeArray_eq.
Qed.

Lemma storedRequests_clearRequests w : storedRequests (clearRequests w) = [].
Proof.
  unfold clearRequests, storedRequests, allocArray. cbn.
  autorewrite with heap. reflexivity.
Qed.

(** ** Merging partial updates: lemmas *)

Lemma fold_assign_field {A} (f : PartialAppState -> option A) batch acc :
  fieldOf f ->
  f (fold_left assign batch acc) = later (f acc) (lastWrite f batch).
Proof.
  intros [_ Hf]. unfold lastWrite. revert acc.
  induction batch as [|u batch IH]; intros acc.
  - reflexivity.
  - cbn [fold_left]. rewrite IH, Hf.
    replace (omap f (u :: batch))
      with (match f u with Some y => y :: omap f batch | None => omap f batch end)
      by reflexivity.
    destruct (f u) as [v|] eqn:Hu; cbn [later].
    + rewrite last_cons. destruct (last (omap f batch)); reflexivity.
    + reflexivity.
Qed.

Lemma assignAll_field {A} (f : PartialAppState -> option A) batch :
  fieldOf f -> f (assignAll batch) = lastWrite f batch.
Proof.
  intros Hf. unfold assignAll. rewrite fold_assign_field by assumption.
  destruct Hf as [-> _]. simpl. by destruct (lastWrite f batch).
Qed.

Lemma lastWrite_elem {A} (f : PartialAppState -> option A) batch v :
  lastWrite f batch = Some v -> exists u, u ∈ batch /\ f u = Some v.
Proof.
  unfold lastWrite. intros Hl.
  apply last_Some_elem_of in Hl.
  apply list_elem_of_omap in Hl as (u & Hu & Hfu). eauto.
Qed.

Lemma lastWrite_app {A} (f : PartialAppState -> option A) batch u :
  lastWrite f (batch ++ [u]) = later (lastWrite f batch) (f u).
Proof.
  unfold lastWrite. rewrite omap_app. simpl. destruct (f u) as [v|]; simpl.
  - apply last_snoc.
  - by rewrite app_nil_r.
Qed.

Lemma field_requests : fieldOf u_requests.
Proof. split; reflexivity. Qed.

Lemma field_selectedIndex : fieldOf u_selectedIndex.
Proof. split; reflexivity. Qed.

Lemma field_searchQuery : fieldOf u_searchQuery.
Proof. split; reflexivity. Qed.

Lemma field_filters : fieldOf u_filters.
Proof. split; reflexivity. Qed.

Lemma field_mode : fieldOf u_mode.
Proof. split; reflexivity. Qed.

(** ** The invariants are preserved by every operation *)

Lemma extends_refl h : extends h h.
Proof. split; [lia | reflexivity]. Qed.

Lemma extends_trans h1 h2 h3 : extends h1 h2 -> extends h2 h3 -> extends h1 h3.
Proof.
  intros [Hn1 Ha1] [Hn2 Ha2]. split; [lia|].
  intros a Ha. rewrite Ha2 by lia. by apply Ha1.
Qed.

Lemma extends_allocArray v h : extends h (snd (allocArray v h)).
Proof.
  unfold allocArray; cbn [fst snd]. split.
  - rewrite nextLoc_bump, nextLoc_writeArray. lia.
  - intros a Ha. rewrite readArray_bump, readArray_writeArray_ne by lia. reflexivity.
Qed.

Lemma bounded_extends h h' a : extends h h' -> bounded h a -> bounded h' a.
Proof.
  intros [Hn Ha] [Hlt Hlen]. split; [lia|]. by rewrite Ha.
Qed.

Lemma bounded_allocArray v h :
  jsLength v <= MAX_REQUESTS -> bounded (snd (allocArray v h)) (fst (allocArray v h)).
Proof.
  intros Hv. unfold allocArray, bounded; cbn [fst snd].
  rewrite nextLoc_bump, nextLoc_writeArray, readArray_bump, readArray_writeArray_eq.
  split; [lia | assumption].
Qed.

(** Writing a short enough array into an object keeps every bounded
    object bounded. *)
Lemma bounded_writeArray h a0 v a :
  jsLength v <= MAX_REQUESTS -> bounded h a -> bounded (writeArray a0 v h) a.
Proof.
  intros Hv [Hlt Hlen]. split.
  - by rewrite nextLoc_writeArray.
  - rewrite readArray_writeArray. by destruct (decide (a0 = a)).
Qed.

Lemma capInv_parts w :
  capInv w <->
  bounded (heap w) (requests (state (store w)))
  /\ Forall (bounded (heap w)) (omap u_requests (pendingUpdates (store w)))
  /\ Forall (bounded (heap w)) (omap captured (frameCallbacks w)).
Proof.
  unfold capInv, tracked. rewrite Forall_cons, Forall_app. tauto.
Qed.

Lemma Forall_omap_one {A B} (P : B -> Prop) (f : A -> option B) (x : A) :
  (forall y, f x = Some y -> P y) -> Forall P (omap f [x]).
Proof.
  intros Hx. simpl. destruct (f x) as [y|]; [|constructor].
  apply Forall_cons. split; [by apply Hx | constructor].
Qed.

(** An operation that leaves alone what the invariants read. *)
Lemma Inv_frame w w' :
  extends (heap w) (heap w') ->
  requests (state (store w')) = requests (state (store w)) ->
  selectedIndex (state (store w')) = selectedIndex (state (store w)) ->
  pendingUpdates (store w') = pendingUpdates (store w) ->
  rafId (store w') = rafId (store w) ->
  frameCallbacks w' = frameCallbacks w ->
  Inv w -> Inv w'.
Proof.
  intros Hext Hr Hs Hp Hraf Hfc (Hcap & Hsel & Hrafinv).
  split; [|split].
  - unfold capInv, tracked in *. rewrite Hr, Hp, Hfc.
    eapply Forall_impl; [exact Hcap|]. intros a. by apply bounded_extends.
  - unfold selInv in *. by rewrite Hs, Hp.
  - unfold rafInv in *. by rewrite Hraf, Hfc.
Qed.

Ltac frame_tac :=
  apply Inv_frame; [first [apply extends_refl | eauto] | reflexivity ..].

Lemma Inv_setHeap_extends h w : extends (heap w) h -> Inv w -> Inv (setHeap h w).
Proof. intros. eapply Inv_frame; eauto. Qed.

Lemma Inv_observe o w : Inv w -> Inv (observe o w).
Proof. frame_tac. Qed.

Lemma Inv_setCapture c w : Inv w -> Inv (setCapture c w).
Proof. frame_tac. Qed.

Lemma Inv_setKeyboard k w : Inv w -> Inv (setKeyboard k w).
Proof. frame_tac. Qed.

Lemma Inv_notifyListeners w : Inv w -> Inv (notifyListeners w).
Proof. frame_tac. Qed.

Lemma Inv_subscribe l w : Inv w -> Inv (subscribe l w).
Proof. unfold subscribe. destruct (bool_decide _); [done | frame_tac]. Qed.

Lemma Inv_unsubscribe l w : Inv w -> Inv (unsubscribe l w).
Proof. frame_tac. Qed.

Lemma Inv_invalidateFilterCache w : Inv w -> Inv (invalidateFilterCache w).
Proof. frame_tac. Qed.

Lemma Inv_clearTimeout t w : Inv w -> Inv (clearTimeout t w).
Proof. frame_tac. Qed.

Lemma Inv_setTimeout cb d w : Inv w -> Inv (snd (setTimeout cb d w)).
Proof. frame_tac. Qed.

Lemma Inv_clearCaches w : Inv w -> Inv (clearCaches w).
Proof. frame_tac. Qed.

Lemma Inv_delegate b c a w : Inv w -> Inv (delegate b c a w).
Proof. unfold delegate. destruct b; [apply Inv_observe | done]. Qed.

(** A frame callback that touches the DOM only. *)
Lemma Inv_requestDomFocus w : Inv w -> Inv (snd (requestAnimationFrame DomFocus w)).
Proof.
  intros (Hcap & Hsel & Hraf). split; [|split].
  - apply capInv_parts in Hcap as (H0 & Hp & Hc). apply capInv_parts. simpl.
    split; [done|]. split; [done|]. rewrite omap_app. simpl. by rewrite app_nil_r.
  - exact Hsel.
  - unfold rafInv in *. simpl. intros Hid. rewrite fmap_app.
    apply elem_of_app. left. by apply Hraf.
Qed.

Lemma Inv_setState u w : Inv w -> safeUpdate (heap w) u -> Inv (setState u w).
Proof.
  intros (Hcap & Hsel & Hraf) [Hu Hnn]. unfold setState. simpl.
  apply capInv_parts in Hcap as (H0 & Hp & Hc).
  destruct (rafId (store w)) as [handle|] eqn:Hid.
  - split; [|split].
    + apply capInv_parts. simpl. split; [done|]. split; [|done].
      rewrite omap_app. apply Forall_app. split; [done|]. by apply Forall_omap_one.
    + destruct Hsel as [Hs Hq]. split; [done|]. simpl.
      apply Forall_app. split; [done|]. apply Forall_cons. split; [done | constructor].
    + unfold rafInv in *. simpl. intros _. apply Hraf. by rewrite Hid.
  - split; [|split].
    + apply capInv_parts. simpl. split; [done|]. split.
      * rewrite omap_app. apply Forall_app. split; [done|]. by apply Forall_omap_one.
      * rewrite omap_app. simpl. by rewrite app_nil_r.
    + destruct Hsel as [Hs Hq]. split; [done|]. simpl.
      apply Forall_app. split; [done|]. apply Forall_cons. split; [done | constructor].
    + unfold rafInv. simpl. intros _. rewrite fmap_app.
      apply elem_of_app. right. simpl. apply list_elem_of_singleton. reflexivity.
Qed.

Lemma Inv_setSelectedIndex i w : 0 <= i -> Inv w -> Inv (setSelectedIndex i w).
Proof.
  intros Hi (Hcap & Hsel & Hraf). split; [|split].
  - exact Hcap.
  - destruct Hsel as [_ Hp]. split; [exact Hi | exact Hp].
  - exact Hraf.
Qed.

Lemma Inv_storeFlush w : capInv w -> selInv w -> Inv (storeFlush w).
Proof.
  intros Hcap Hsel. unfold storeFlush.
  set (merged := assignAll (pendingUpdates (store w))).
  assert (Hreq : bounded (heap w) (default (requests (state (store w))) (u_requests merged))).
  { apply capInv_parts in Hcap as (H0 & Hp & _).
    destruct (u_requests merged) as [a|] eqn:Ha; [|exact H0]. simpl.
    unfold merged in Ha. rewrite assignAll_field in Ha by apply field_requests.
    apply last_Some_elem_of in Ha. rewrite Forall_forall in Hp. by apply Hp. }
  assert (Hidx : 0 <= default (selectedIndex (state (store w))) (u_selectedIndex merged)).
  { destruct Hsel as [Hs Hp].
    destruct (u_selectedIndex merged) as [v|] eqn:Hv; [|exact Hs]. simpl.
    unfold merged in Hv. rewrite assignAll_field in Hv by apply field_selectedIndex.
    apply lastWrite_elem in Hv as (u & Hu & Huv).
    rewrite Forall_forall in Hp. by apply (Hp u Hu). }
  assert (Hfc : Forall (bounded (heap w)) (omap captured (frameCallbacks w))).
  { by apply capInv_parts in Hcap as (_ & _ & Hc). }
  split; [|split].
  - apply capInv_parts.
    destruct (isDefined (u_searchQuery merged) || isDefined (u_filters merged));
      destruct (isDefined (u_searchQuery merged) && isNone (u_selectedIndex merged));
      simpl; (split; [exact Hreq | split; [constructor | exact Hfc]]).
  - unfold selInv.
    destruct (isDefined (u_searchQuery merged) || isDefined (u_filters merged));
      destruct (isDefined (u_searchQuery merged) && isNone (u_selectedIndex merged));
      simpl; (split; [first [exact Hidx | lia] | constructor]).
  - unfold rafInv.
    destruct (isDefined (u_searchQuery merged) || isDefined (u_filters merged));
      destruct (isDefined (u_searchQuery merged) && isNone (u_selectedIndex merged));
      simpl; congruence.
Qed.

Lemma Inv_writeStoredArray v w :
  jsLength v <= MAX_REQUESTS ->
  Inv w -> Inv (setHeap (writeArray (requests (state (store w))) v (heap w)) w).
Proof.
  intros Hv (Hcap & Hsel & Hraf). split; [|split]; [|exact Hsel|exact Hraf].
  unfold capInv in *. simpl. change (tracked (setHeap _ w)) with (tracked w).
  eapply Forall_impl; [exact Hcap|]. intros a. by apply bounded_writeArray.
Qed.

Lemma writeArray_writeArray a v v' h :
  writeArray a v (writeArray a v' h) = writeArray a v h.
Proof. unfold writeArray; simpl. by rewrite insert_insert_eq. Qed.

Lemma Inv_addRequest r w : Inv w -> Inv (addRequest r w).
Proof.
  intros HI. pose proof HI as (Hcap & [Hs _] & _).
  unfold addRequest.
  set (a := requests (state (store w))).
  set (pushed := readArray (heap w) a ++ [r]).
  assert (Hlen : jsLength pushed = jsLength (readArray (heap w) a) + 1).
  { unfold pushed. by rewrite jsLength_app. }
  apply capInv_parts in Hcap as ([_ Hb] & _ & _). fold a in Hb.
  apply Inv_notifyListeners.
  destruct (MAX_REQUESTS <? jsLength pushed) eqn:E.
  - apply Z.ltb_lt in E.
    assert (Hsp : jsLength (splice 0 (jsLength pushed - MAX_REQUESTS) pushed) <= MAX_REQUESTS).
    { rewrite splice_front, jsLength_drop by lia. unfold MAX_REQUESTS in *. lia. }
    assert (HI' : Inv (setHeap (writeArray a (splice 0 (jsLength pushed - MAX_REQUESTS) pushed)
                                  (heap w)) w)).
    { by apply Inv_writeStoredArray. }
    assert (HI2 : Inv (setHeap (writeArray a (splice 0 (jsLength pushed - MAX_REQUESTS) pushed)
                                  (heap (setHeap (writeArray a pushed (heap w)) w)))
                               (setHeap (writeArray a pushed (heap w)) w))).
    { change (Inv (setHeap (writeArray a (splice 0 (jsLength pushed - MAX_REQUESTS) pushed)
                                (writeArray a pushed (heap w))) w)).
      by rewrite writeArray_writeArray. }
    cbn zeta. destruct (_ <? _) eqn:E2.
    + apply Inv_setSelectedIndex; [lia | exact HI2].
    + apply Z.ltb_ge in E2. apply Inv_setSelectedIndex; [|exact HI2]. simpl in *. lia.
  - apply Z.ltb_ge in E. apply Inv_writeStoredArray; [lia | exact HI].
Qed.

Lemma Inv_deleteRequest i w : Inv w -> Inv (deleteRequest i w).
Proof.
  intros HI. pose proof HI as (Hcap & [Hs _] & _).
  apply capInv_parts in Hcap as ([_ Hb] & _ & _).
  unfold deleteRequest. apply Inv_notifyListeners.
  pose proof (jsLength_splice i 1 (readArray (heap w) (requests (state (store w))))) as Hsp.
  assert (HI' : Inv (setHeap (writeArray (requests (state (store w)))
                                (splice i 1 (readArray (heap w) (requests (state (store w)))))
                                (heap w)) w)).
  { apply Inv_writeStoredArray; [lia | exact HI]. }
  destruct (_ <=? _).
  - apply Inv_setSelectedIndex; [lia | exact HI'].
  - exact HI'.
Qed.

Lemma Inv_clearRequests w : Inv w -> Inv (clearRequests w).
Proof.
  intros (Hcap & Hsel & Hraf). unfold clearRequests.
  apply capInv_parts in Hcap as (H0 & Hp & Hc).
  pose proof (extends_allocArray [] (heap w)) as Hext.
  pose proof (bounded_allocArray [] (heap w)) as Hnew.
  destruct (allocArray [] (heap w)) as [a h] eqn:Ea. simpl in Hext, Hnew.
  apply Inv_notifyListeners. split; [|split].
  - apply capInv_parts. simpl. split; [|split].
    + apply Hnew. rewrite jsLength_nil. unfold MAX_REQUESTS. lia.
    + eapply Forall_impl; [exact Hp|]. intros b. by apply bounded_extends.
    + eapply Forall_impl; [exact Hc|]. intros b. by apply bounded_extends.
  - destruct Hsel as [_ Hq]. split; [simpl; lia | exact Hq].
  - exact Hraf.
Qed.

Section InvExternal.

Context `{External}.

Lemma extends_getFilteredRequests w :
  extends (heap w) (heap (snd (getFilteredRequests w))).
Proof.
  unfold getFilteredRequests.
  assert (Hre : extends (heap w) (heap (snd (recomputeFiltered w)))).
  { unfold recomputeFiltered.
    assert (H1 : extends (heap w) (heap (rebuildFuseIndex w))).
    { unfold rebuildFuseIndex. destruct (fuseIndexStale w); apply extends_refl. }
    destruct (baseResults (rebuildFuseIndex w)) as [base w2] eqn:Eb.
    assert (H2 : extends (heap (rebuildFuseIndex w)) (heap w2)).
    { unfold baseResults in Eb. destruct (bool_decide _).
      - inversion Eb; subst. apply extends_refl.
      - pose proof (extends_allocArray
          match fuseIndex (store (rebuildFuseIndex w)) with
          | Some index => searchItems (heap (rebuildFuseIndex w)) index
                                      (searchQuery (state (store (rebuildFuseIndex w))))
          | None => []
          end (heap (rebuildFuseIndex w))) as Hx.
        destruct (allocArray _ _) as [b h] eqn:Ea. inversion Eb; subst. exact Hx. }
    destruct (applyTypeFilter base w2) as [filtered w3] eqn:Ef.
    assert (H3 : extends (heap w2) (heap w3)).
    { unfold applyTypeFilter in Ef. destruct (0 <? _).
      - match type of Ef with context [allocArray ?v ?h] =>
          pose proof (extends_allocArray v h) as Hx; destruct (allocArray v h) as [f h'] end.
        inversion Ef; subst. exact Hx.
      - inversion Ef; subst. apply extends_refl. }
    simpl. eapply extends_trans; [exact H1|]. eapply extends_trans; [exact H2 | exact H3]. }
  destruct (cachedRequests _); [destruct (cacheValid w)|]; first [exact Hre | apply extends_refl].
Qed.

(** [getFilteredRequests] writes only the cache, the index and new
    arrays. *)
Lemma state_getFilteredRequests w :
  state (store (snd (getFilteredRequests w))) = state (store w)
  /\ pendingUpdates (store (snd (getFilteredRequests w))) = pendingUpdates (store w)
  /\ rafId (store (snd (getFilteredRequests w))) = rafId (store w)
  /\ listeners (store (snd (getFilteredRequests w))) = listeners (store w)
  /\ frameCallbacks (snd (getFilteredRequests w)) = frameCallbacks w
  /\ timers (snd (getFilteredRequests w)) = timers w
  /\ keyboard (snd (getFilteredRequests w)) = keyboard w
  /\ capture (snd (getFilteredRequests w)) = capture w
  /\ window (snd (getFilteredRequests w)) = window w.
Proof.
  unfold getFilteredRequests.
  assert (Hre :
    state (store (snd (recomputeFiltered w))) = state (store w)
    /\ pendingUpdates (store (snd (recomputeFiltered w))) = pendingUpdates (store w)
    /\ rafId (store (snd (recomputeFiltered w))) = rafId (store w)
    /\ listeners (store (snd (recomputeFiltered w))) = listeners (store w)
    /\ frameCallbacks (snd (recomputeFiltered w)) = frameCallbacks w
    /\ timers (snd (recomputeFiltered w)) = timers w
    /\ keyboard (snd (recomputeFiltered w)) = keyboard w
    /\ capture (snd (recomputeFiltered w)) = capture w
    /\ window (snd (recomputeFiltered w)) = window w).
  { unfold recomputeFiltered, baseResults, applyTypeFilter, rebuildFuseIndex, allocArray.
    destruct (fuseIndexStale w); simpl;
      destruct (bool_decide _); simpl;
      destruct (0 <? _); simpl; repeat split; reflexivity. }
  destruct (cachedRequests _); [destruct (cacheValid w)|];
    first [exact Hre | repeat split; reflexivity].
Qed.

Lemma Inv_getFilteredRequests w : Inv w -> Inv (snd (getFilteredRequests w)).
Proof.
  pose proof (state_getFilteredRequests w) as (Hs & Hp & Hr & _ & Hf & _).
  apply Inv_frame; [apply extends_getFilteredRequests | by rewrite Hs .. | done | done | done].
Qed.

End InvExternal.

Lemma safeUpdate_extends h h' u : extends h h' -> safeUpdate h u -> safeUpdate h' u.
Proof.
  intros Hext [Hu Hn]. split; [|exact Hn]. intros a Ha. eapply bounded_extends; eauto.
Qed.

(** Updates that carry neither [requests] nor [selectedIndex], and
    selection updates with a non-negative index. *)
Lemma safeUpdate_plain h u :
  u_requests u = None -> u_selectedIndex u = None -> safeUpdate h u.
Proof.
  intros Hr Hs. split.
  - intros a Ha. congruence.
  - intros v Hv. congruence.
Qed.

Lemma safeUpdate_selectedIndex h i : 0 <= i -> safeUpdate h (selectedIndexUpdate i).
Proof.
  intros Hi. split.
  - intros a Ha. discriminate.
  - intros v Hv. inversion Hv. by subst.
Qed.

Lemma Inv_republishRequests a w :
  bounded (heap w) a -> Inv w -> Inv (republishRequests a w).
Proof.
  intros Ha HI. unfold republishRequests.
  pose proof (extends_allocArray (readArray (heap w) a) (heap w)) as Hext.
  pose proof (bounded_allocArray (readArray (heap w) a) (heap w) (proj2 Ha)) as Hnew.
  destruct (allocArray _ _) as [copy h]. simpl in Hext, Hnew.
  apply Inv_setState.
  - by apply Inv_setHeap_extends.
  - split.
    + intros b Hb. inversion Hb; subst. exact Hnew.
    + intros v Hv. discriminate.
Qed.

Lemma Inv_captureFlush a w : bounded (heap w) a -> Inv w -> Inv (captureFlush a w).
Proof.
  intros Ha HI. unfold captureFlush. apply Inv_setCapture. by apply Inv_republishRequests.
Qed.

Lemma extends_writeRequest r v h : extends h (writeRequest r v h).
Proof. split; [reflexivity|]. intros a _. apply readArray_writeRequest. Qed.

Lemma extends_writeTypes s v h : extends h (writeTypes s v h).
Proof. split; [reflexivity|]. intros a _. apply readArray_writeTypes. Qed.

Lemma extends_writeExpanded m v h : extends h (writeExpanded m v h).
Proof. split; [reflexivity|]. intros a _. apply readArray_writeExpanded. Qed.

Lemma extends_allocRequest v h : extends h (snd (allocRequest v h)).
Proof.
  unfold allocRequest; cbn [snd]. split.
  - rewrite nextLoc_bump, nextLoc_writeRequest. lia.
  - intros a _. by rewrite readArray_bump, readArray_writeRequest.
Qed.

Lemma Inv_handleResponseReceived p w : Inv w -> Inv (handleResponseReceived p w).
Proof.
  intros HI. unfold handleResponseReceived. destruct (findRequest _ _ _); [|exact HI].
  apply Inv_setHeap_extends; [apply extends_writeRequest | exact HI].
Qed.

Lemma Inv_frame_queue w w' extra :
  extends (heap w) (heap w') ->
  requests (state (store w')) = requests (state (store w)) ->
  selectedIndex (state (store w')) = selectedIndex (state (store w)) ->
  pendingUpdates (store w') = pendingUpdates (store w) ->
  rafId (store w') = rafId (store w) ->
  frameCallbacks w' = frameCallbacks w ++ extra ->
  Forall (bounded (heap w')) (omap captured extra) ->
  Inv w -> Inv w'.
Proof.
  intros Hext Hr Hs Hp Hraf Hfc Hex (Hcap & Hsel & Hrafinv).
  split; [|split].
  - apply capInv_parts in Hcap as (H0 & Hq & Hc). apply capInv_parts.
    rewrite Hr, Hp, Hfc, omap_app, Forall_app.
    split; [by eapply bounded_extends|]. split; [|split; [|exact Hex]].
    + eapply Forall_impl; [exact Hq|]. intros a. by apply bounded_extends.
    + eapply Forall_impl; [exact Hc|]. intros a. by apply bounded_extends.
  - unfold selInv in *. by rewrite Hs, Hp.
  - unfold rafInv in *. rewrite Hraf, Hfc, fmap_app. intros Hid.
    apply elem_of_app. left. by apply Hrafinv.
Qed.

Lemma Inv_handleLoadingFinished p w : Inv w -> Inv (handleLoadingFinished p w).
Proof.
  intros HI. unfold handleLoadingFinished. destruct (findRequest _ _ _) as [r|]; [|exact HI].
  simpl. destruct (updateBatchRafId (capture w)); simpl.
  - apply (Inv_frame w); [apply extends_writeRequest | reflexivity .. | exact HI].
  - apply (Inv_frame_queue w _ [(nextHandle w, CaptureFlush (requests (state (store w))))]);
      [apply extends_writeRequest | reflexivity .. | | exact HI].
    simpl. apply Forall_cons. split; [|constructor].
    destruct HI as (Hcap & _ & _). apply capInv_parts in Hcap as (H0 & _ & _).
    eapply bounded_extends; [|exact H0]. apply extends_writeRequest.
Qed.

Lemma Inv_handleLoadingFailed p w : Inv w -> Inv (handleLoadingFailed p w).
Proof.
  intros HI. unfold handleLoadingFailed. apply Inv_setCapture.
  destruct (findRequest _ _ _) as [r|]; [|exact HI].
  apply Inv_republishRequests.
  - pose proof HI as (Hcap & _ & _). apply capInv_parts in Hcap as (H0 & _ & _).
    eapply bounded_extends; [|exact H0]. apply extends_writeRequest.
  - apply Inv_setHeap_extends; [apply extends_writeRequest | exact HI].
Qed.

Lemma Inv_handleDebuggerDetach tab w : Inv w -> Inv (handleDebuggerDetach tab w).
Proof.
  intros HI. unfold handleDebuggerDetach. destruct (negb _); [exact HI|].
  apply Inv_clearRequests, Inv_setCapture, Inv_clearCaches, HI.
Qed.

Lemma Inv_debuggerAttached w : Inv w -> Inv (debuggerAttached w).
Proof. intros HI. apply Inv_setCapture, Inv_clearCaches, HI. Qed.

Lemma Inv_toggleType c s t w : Inv w -> Inv (toggleType c s t w).
Proof. intros HI. apply Inv_setHeap_extends; [apply extends_writeTypes | exact HI]. Qed.

Lemma Inv_fold_toggleType c s ts w :
  Inv w -> Inv (fold_left (fun acc t => toggleType c s t acc) ts w).
Proof.
  revert w. induction ts as [|t ts IH]; intros w HI; simpl; [exact HI|].
  apply IH, Inv_toggleType, HI.
Qed.

Lemma Inv_handleCheckboxChange v c w : Inv w -> Inv (handleCheckboxChange v c w).
Proof.
  intros HI. unfold handleCheckboxChange.
  apply Inv_setState; [|by apply safeUpdate_plain].
  destruct (bool_decide (v = "all")).
  - destruct c; [|exact HI].
    apply Inv_setHeap_extends; [apply extends_writeTypes | exact HI].
  - destruct (findFilterOption v) as [[|ts|t]|];
      first [exact HI | by apply Inv_fold_toggleType].
Qed.

Lemma Inv_filtersLoaded stored w : Inv w -> Inv (filtersLoaded stored w).
Proof.
  intros HI. unfold filtersLoaded.
  apply Inv_setState; [|by apply safeUpdate_plain].
  apply Inv_fold_toggleType.
  apply Inv_setHeap_extends; [apply extends_writeTypes | exact HI].
Qed.

Lemma Inv_setNodeExpanded p b w : Inv w -> Inv (setNodeExpanded p b w).
Proof.
  intros HI. unfold setNodeExpanded.
  apply Inv_setState; [|by apply safeUpdate_plain].
  apply Inv_setHeap_extends; [apply extends_writeExpanded | exact HI].
Qed.

Lemma Inv_storeResponseBody r body w : Inv w -> Inv (storeResponseBody r body w).
Proof.
  intros HI. unfold storeResponseBody. destruct (_ !! _); [|exact HI].
  apply Inv_setHeap_extends; [apply extends_writeRequest | exact HI].
Qed.

(** *** The key interpreter *)

Lemma Inv_setKeySequence s w : Inv w -> Inv (setKeySequence s w).
Proof. apply Inv_setKeyboard. Qed.

Lemma Inv_clearSequenceTimeout w : Inv w -> Inv (clearSequenceTimeout w).
Proof.
  intros HI. unfold clearSequenceTimeout. destruct (sequenceTimeout _); [|exact HI].
  by apply Inv_clearTimeout.
Qed.

Lemma Inv_armSequenceTimeout cb d w : Inv w -> Inv (armSequenceTimeout cb d w).
Proof. intros HI. unfold armSequenceTimeout. simpl. by apply Inv_setKeyboard, (Inv_setTimeout cb d). Qed.

Lemma Inv_plainState u w :
  u_requests u = None -> u_selectedIndex u = None -> Inv w -> Inv (setState u w).
Proof. intros Hr Hs HI. apply Inv_setState; [exact HI | by apply safeUpdate_plain]. Qed.

Lemma Inv_selectState i w : 0 <= i -> Inv w -> Inv (setState (selectedIndexUpdate i) w).
Proof. intros Hi HI. apply Inv_setState; [exact HI | by apply safeUpdate_selectedIndex]. Qed.

(** One step of a proof that a handler keeps the invariants: peel the
    outermost operation, or split on the condition it branches on. *)
Ltac inv_step :=
  match goal with
  | H : Inv ?w |- Inv ?w => exact H
  | |- Inv (setState (selectedIndexUpdate _) _) => apply Inv_selectState; [lia|]
  | |- Inv (setState _ _) => apply Inv_plainState; [reflexivity | reflexivity |]
  | |- Inv (delegate _ _ _ _) => apply Inv_delegate
  | |- Inv (setKeySequence _ _) => apply Inv_setKeySequence
  | |- Inv (clearSequenceTimeout _) => apply Inv_clearSequenceTimeout
  | |- Inv (armSequenceTimeout _ _ _) => apply Inv_armSequenceTimeout
  | |- Inv (snd (requestAnimationFrame DomFocus _)) => apply Inv_requestDomFocus
  | |- Inv (deleteRequest _ _) => apply Inv_deleteRequest
  | |- Inv (clearRequests _) => apply Inv_clearRequests
  | |- Inv (if ?b then _ else _) => destruct b
  | |- Inv (match ?x with _ => _ end) => destruct x
  end.

Ltac inv_auto := repeat inv_step.

Lemma Inv_moveSelection d n w : Inv w -> Inv (moveSelection d n w).
Proof. intros HI. unfold moveSelection. inv_auto. Qed.

Lemma Inv_pressG f w :
  (forall w', Inv w' -> Inv (f w')) -> Inv w -> Inv (pressG f w).
Proof. intros Hf HI. unfold pressG. inv_auto. apply Hf. inv_auto. Qed.

Lemma Inv_handleGSequence w : Inv w -> Inv (handleGSequence w).
Proof. intros HI. apply Inv_pressG; [|exact HI]. intros w' HI'. inv_auto. Qed.

Lemma Inv_handleDSequence w : Inv w -> Inv (handleDSequence w).
Proof. intros HI. unfold handleDSequence. inv_auto. Qed.

Lemma Inv_switchToPanel t f w : Inv w -> Inv (switchToPanel t f w).
Proof. intros HI. unfold switchToPanel. inv_auto. Qed.

Lemma Inv_cycleInspectFocus d w : Inv w -> Inv (cycleInspectFocus d w).
Proof. intros HI. unfold cycleInspectFocus. by apply Inv_switchToPanel. Qed.

Lemma Inv_scrollInspectPanel e w : Inv w -> Inv (scrollInspectPanel e w).
Proof. intros HI. unfold scrollInspectPanel. inv_auto. Qed.

Lemma Inv_nextInspectSearchMatch d w : Inv w -> Inv (nextInspectSearchMatch d w).
Proof. intros HI. unfold nextInspectSearchMatch. inv_auto. Qed.

Lemma Inv_handleJsonYankSequence e w : Inv w -> Inv (handleJsonYankSequence e w).
Proof. intros HI. unfold handleJsonYankSequence. inv_auto. Qed.

Lemma Inv_runTimerCallback cb w : Inv w -> Inv (runTimerCallback cb w).
Proof. intros HI. unfold runTimerCallback. inv_auto. Qed.

Lemma Inv_handleSearchMode e w : Inv w -> Inv (handleSearchMode e w).
Proof. intros HI. unfold handleSearchMode. inv_auto. Qed.

Lemma Inv_handleFilterMode e w : Inv w -> Inv (handleFilterMode e w).
Proof. intros HI. unfold handleFilterMode. inv_auto. Qed.

Lemma Inv_handleCopyMode e w : Inv w -> Inv (handleCopyMode e w).
Proof. intros HI. unfold handleCopyMode. inv_auto. Qed.

Lemma Inv_inspectCommonKeys e w : Inv w -> Inv (inspectCommonKeys e w).
Proof.
  intros HI. unfold inspectCommonKeys.
  repeat first [ apply Inv_scrollInspectPanel | apply Inv_nextInspectSearchMatch | inv_step ].
Qed.

Lemma Inv_handleInspectMode e w : Inv w -> Inv (handleInspectMode e w).
Proof.
  intros HI.
  unfold handleInspectMode, inspectHeadersKeys, inspectPreviewKeys, inspectResponseKeys.
  repeat first
    [ apply Inv_switchToPanel | apply Inv_cycleInspectFocus | apply Inv_inspectCommonKeys
    | apply Inv_scrollInspectPanel | apply Inv_handleJsonYankSequence
    | apply Inv_pressG; [intros w' HI'|]
    | inv_step ].
Qed.

(** *** One animation frame *)

Lemma runFrameCallback_withQueue cb rest w :
  runFrameCallback cb (withQueue rest w) = withQueue rest (runFrameCallback cb w).
Proof.
  destruct cb as [|a|]; simpl.
  - unfold storeFlush. simpl.
    by destruct (isDefined _ || isDefined _); destruct (isDefined _ && isNone _).
  - unfold captureFlush, republishRequests, setState, allocArray, withQueue. simpl.
    destruct (rafId (store w)); simpl; [reflexivity|].
    unfold setFrameCallbacks. simpl. by rewrite app_assoc.
  - reflexivity.
Qed.

Lemma withQueue_nil w : withQueue [] w = w.
Proof. by destruct w. Qed.

Lemma Inv_withQueue_tail cb rest w :
  snd cb <> StoreFlush -> Inv (withQueue (cb :: rest) w) -> Inv (withQueue rest w).
Proof.
  intros Hcb (Hcap & Hsel & Hraf). split; [|split].
  - apply capInv_parts in Hcap as (H0 & Hp & Hc). apply capInv_parts.
    split; [done|]. split; [done|]. simpl in *.
    destruct (captured cb); [by apply Forall_cons in Hc as [_ ?] | done].
  - exact Hsel.
  - unfold rafInv in *. simpl in *. intros Hid. specialize (Hraf Hid).
    apply elem_of_cons in Hraf as [Hbad|?]; [congruence | done].
Qed.

Lemma Inv_runFrameCallbacks rest w :
  Inv (withQueue rest w) ->
  Inv (fold_left (fun acc cb => runFrameCallback (snd cb) acc) rest w).
Proof.
  revert w. induction rest as [|cb rest IH]; intros w HI; simpl.
  - by rewrite withQueue_nil in HI.
  - apply IH. rewrite <- runFrameCallback_withQueue.
    destruct cb as [handle [|a|]]; simpl.
    + destruct HI as (Hcap & Hsel & _). apply Inv_storeFlush.
      * apply capInv_parts in Hcap as (H0 & Hp & Hc). apply capInv_parts.
        split; [done|]. split; [done|]. simpl in *. done.
      * exact Hsel.
    + assert (Ha : bounded (heap w) a).
      { destruct HI as (Hcap & _ & _). apply capInv_parts in Hcap as (_ & _ & Hc).
        simpl in Hc. by apply Forall_cons in Hc as [? _]. }
      apply Inv_captureFlush; [exact Ha|].
      by apply (Inv_withQueue_tail (handle, CaptureFlush a)).
    + by apply (Inv_withQueue_tail (handle, DomFocus)).
Qed.

Lemma Inv_animationFrame w : Inv w -> Inv (animationFrame w).
Proof.
  intros HI. unfold animationFrame. apply Inv_runFrameCallbacks.
  unfold withQueue. simpl. rewrite app_nil_r. by destruct w.
Qed.

Lemma Inv_fireTimer handle w : Inv w -> Inv (fireTimer handle w).
Proof.
  intros HI. unfold fireTimer. destruct (List.find _ _) as [[? [? cb]]|]; [|exact HI].
  by apply Inv_runTimerCallback, Inv_clearTimeout.
Qed.

Section InvPanel.

Context `{External}.

Lemma Inv_handleRequestWillBeSent p w : Inv w -> Inv (handleRequestWillBeSent p w).
Proof.
  intros HI. unfold handleRequestWillBeSent.
  set (w1 := if isMainFrameNavigation _ p then _ else w).
  assert (HI1 : Inv w1).
  { unfold w1. destruct (isMainFrameNavigation _ _); [|exact HI].
    by apply Inv_clearRequests, Inv_clearCaches, Inv_setCapture. }
  pose proof (extends_allocRequest (newRequest p) (heap w1)) as Hext.
  destruct (allocRequest _ _) as [request h]. simpl in Hext.
  apply Inv_setCapture, Inv_addRequest. by apply Inv_setHeap_extends.
Qed.

Lemma Inv_handleDebuggerEvent tab e w : Inv w -> Inv (handleDebuggerEvent tab e w).
Proof.
  intros HI. unfold handleDebuggerEvent. destruct (negb _); [exact HI|].
  destruct e; auto using Inv_handleRequestWillBeSent, Inv_handleResponseReceived,
    Inv_handleLoadingFinished, Inv_handleLoadingFailed.
Qed.

Lemma Inv_handleNormalMode e w : Inv w -> Inv (handleNormalMode e w).
Proof.
  intros HI. unfold handleNormalMode.
  pose proof (Inv_getFilteredRequests w HI) as HI1.
  destruct (getFilteredRequests w) as [view w1]. simpl in HI1.
  assert (HI2 : Inv (normalKeys e (getState w) (jsLength (readArray (heap w1) view)) w1)).
  { unfold normalKeys.
    repeat first [ apply Inv_moveSelection | apply Inv_handleGSequence
                 | apply Inv_handleDSequence | inv_step ]. }
  inv_auto.
Qed.

Lemma Inv_handleKeyDown e w : Inv w -> Inv (handleKeyDown e w).
Proof.
  intros HI. unfold handleKeyDown.
  destruct (mode (getState w));
    auto using Inv_handleNormalMode, Inv_handleSearchMode, Inv_handleFilterMode,
      Inv_handleInspectMode, Inv_handleCopyMode.
Qed.

Lemma Inv_step w ev : Inv w -> Inv (step w ev).
Proof.
  intros HI. destruct ev; simpl.
  - by apply Inv_handleKeyDown.
  - by apply Inv_fireTimer.
  - by apply Inv_animationFrame.
  - by apply Inv_handleDebuggerEvent.
  - by apply Inv_handleDebuggerDetach.
  - by apply Inv_debuggerAttached.
  - by apply Inv_plainState.
  - by apply Inv_handleCheckboxChange.
  - by apply Inv_filtersLoaded.
  - by apply Inv_setNodeExpanded.
  - by apply Inv_storeResponseBody.
  - destruct (presentationOnly u) eqn:Hu; [|exact HI].
    unfold presentationOnly in Hu. apply andb_prop in Hu as [Hr Hs].
    apply Inv_plainState; [by destruct (u_requests u) | by destruct (u_selectedIndex u) | exact HI].
  - by apply Inv_getFilteredRequests.
  - by apply Inv_subscribe.
  - by apply Inv_unsubscribe.
Qed.

Lemma Inv_run evs w : Inv w -> Inv (run w evs).
Proof.
  revert w. induction evs as [|ev evs IH]; intros w HI; simpl; [exact HI|].
  by apply IH, Inv_step.
Qed.

End InvPanel.

Lemma Inv_initialWorld tab : Inv (initialWorld tab).
Proof.
  split; [|split].
  - apply capInv_parts. simpl. split; [|split; constructor].
    split; [simpl; lia | vm_compute; discriminate].
  - split; [simpl; lia | constructor].
  - intros Hid. by contradict Hid.
Qed.

(** ** C1: the cap on stored requests *)

(** C1.  In every state the panel can reach, the store holds at most
    1000 requests.  [addRequest] appends the request and, past the cap,
    removes the overflow from the front of the array (the oldest
    entries), so that what remains is the newest 1000 in insertion order;
    [selectedIndex] is lowered by the number of evicted entries and
    clamped to 0.  [deleteRequest] and [clearRequests] never grow the
    collection. *)
Theorem request_cap_fifo `{External} :
  (forall (tab : Z) (evs : list Event),
      jsLength (storedRequests (run (initialWorld tab) evs)) <= MAX_REQUESTS)
  /\ (forall (r : loc) (w : World),
        let evicted := Z.max 0 (jsLength (storedRequests w) + 1 - MAX_REQUESTS) in
        storedRequests (addRequest r w)
        = drop (Z.to_nat evicted) (storedRequests w ++ [r])
        /\ jsLength (storedRequests (addRequest r w)) <= MAX_REQUESTS
        /\ selectedIndex (state (store (addRequest r w)))
           = if 0 <? evicted
             then Z.max 0 (selectedIndex (state (store w)) - evicted)
             else selectedIndex (state (store w)))
  /\ (forall (i : Z) (w : World),
        jsLength (storedRequests (deleteRequest i w)) <= jsLength (storedRequests w))
  /\ (forall w : World, storedRequests (clearRequests w) = []).
Proof.
  split; [|split; [|split]].
  - intros tab evs.
    pose proof (Inv_run evs _ (Inv_initialWorld tab)) as (Hcap & _ & _).
    apply capInv_parts in Hcap as ([_ Hb] & _ & _). exact Hb.
  - intros r w evicted. split; [|split].
    + rewrite storedRequests_addRequest. unfold evicted.
      replace (Z.to_nat (Z.max 0 (jsLength (storedRequests w) + 1 - MAX_REQUESTS)))
        with (Z.to_nat (jsLength (storedRequests w) + 1 - MAX_REQUESTS)) by lia.
      reflexivity.
    + rewrite jsLength_addRequest. lia.
    + rewrite selectedIndex_addRequest. unfold evicted. cbn zeta.
      pose proof (jsLength_nonneg (storedRequests w)).
      destruct (0 <? jsLength (storedRequests w) + 1 - MAX_REQUESTS) eqn:E.
      * apply Z.ltb_lt in E.
        replace (Z.max 0 (jsLength (storedRequests w) + 1 - MAX_REQUESTS))
          with (jsLength (storedRequests w) + 1 - MAX_REQUESTS) by lia.
        by rewrite (proj2 (Z.ltb_lt _ _) E).
      * apply Z.ltb_ge in E.
        replace (Z.max 0 (jsLength (storedRequests w) + 1 - MAX_REQUESTS)) with 0 by lia.
        reflexivity.
  - intros i w. rewrite storedRequests_deleteRequest. apply jsLength_splice.
  - apply storedRequests_clearRequests.
Qed.

(** ** C10: mutations of the collection notify at once *)

Lemma trace_notifyListeners w :
  trace (notifyListeners w)
  = trace w ++ List.map (fun l => ObsNotify l (state (store w))) (listeners (store w)).
Proof. reflexivity. Qed.

(** [addRequest] mutates and notifies, and leaves the batch alone. *)
Lemma addRequest_effects r w :
  trace (addRequest r w)
  = trace w ++ List.map (fun l => ObsNotify l (state (store (addRequest r w))))
                        (listeners (store w))
  /\ listeners (store (addRequest r w)) = listeners (store w)
  /\ pendingUpdates (store (addRequest r w)) = pendingUpdates (store w)
  /\ rafId (store (addRequest r w)) = rafId (store w)
  /\ frameCallbacks (addRequest r w) = frameCallbacks w
  /\ capture (addRequest r w) = capture w.
Proof.
  unfold addRequest. destruct (MAX_REQUESTS <? _); [destruct (_ <? _)|];
    repeat split; reflexivity.
Qed.

Lemma deleteRequest_effects i w :
  trace (deleteRequest i w)
  = trace w ++ List.map (fun l => ObsNotify l (state (store (deleteRequest i w))))
                        (listeners (store w))
  /\ listeners (store (deleteRequest i w)) = listeners (store w)
  /\ pendingUpdates (store (deleteRequest i w)) = pendingUpdates (store w)
  /\ rafId (store (deleteRequest i w)) = rafId (store w)
  /\ frameCallbacks (deleteRequest i w) = frameCallbacks w
  /\ capture (deleteRequest i w) = capture w.
Proof.
  unfold deleteRequest. destruct (_ <=? _); repeat split; reflexivity.
Qed.

Lemma clearRequests_effects w :
  trace (clearRequests w)
  = trace w ++ List.map (fun l => ObsNotify l (state (store (clearRequests w))))
                        (listeners (store w))
  /\ listeners (store (clearRequests w)) = listeners (store w)
  /\ pendingUpdates (store (clearRequests w)) = pendingUpdates (store w)
  /\ rafId (store (clearRequests w)) = rafId (store w)
  /\ frameCallbacks (clearRequests w) = frameCallbacks w
  /\ capture (clearRequests w) = capture w.
Proof. repeat split; reflexivity. Qed.

Lemma notified_app l tr tr' : notified l (tr ++ tr') = (notified l tr + notified l tr')%nat.
Proof. unfold notified. by rewrite List.filter_app, length_app. Qed.

Lemma notified_broadcast l st ls :
  notified l (List.map (fun l' => ObsNotify l' st) ls)
  = length (List.filter (fun l' => Nat.eqb l' l) ls).
Proof.
  unfold notified. induction ls as [|x ls IH]; simpl; [reflexivity|].
  destruct (Nat.eqb x l); simpl; by rewrite IH.
Qed.

Section Notifications.

Context `{External}.

(** One initiated event: one notification from [addRequest], preceded by
    one from [clearRequests] when the event is a main-frame navigation. *)
Lemma handleRequestWillBeSent_notified l p w :
  notified l (trace (handleRequestWillBeSent p w))
  = (notified l (trace w)
     + (if isMainFrameNavigation (mainFrameId (capture w)) p then 2 else 1) * subscribed l w)%nat
  /\ listeners (store (handleRequestWillBeSent p w)) = listeners (store w)
  /\ mainFrameId (capture (handleRequestWillBeSent p w))
     = (if isMainFrameNavigation (mainFrameId (capture w)) p
        then Some (rq_frameId p) else mainFrameId (capture w))
  /\ pendingUpdates (store (handleRequestWillBeSent p w)) = pendingUpdates (store w)
  /\ rafId (store (handleRequestWillBeSent p w)) = rafId (store w)
  /\ frameCallbacks (handleRequestWillBeSent p w) = frameCallbacks w.
Proof.
  unfold handleRequestWillBeSent, subscribed.
  destruct (isMainFrameNavigation _ p).
  - set (w0 := clearCaches (setCapture (withMainFrameId (Some (rq_frameId p)) (capture w)) w)).
    pose proof (clearRequests_effects w0) as (Ht1 & Hl1 & Hp1 & Hr1 & Hf1 & Hc1).
    set (w1 := clearRequests w0) in *.
    destruct (allocRequest (newRequest p) (heap w1)) as [request h] eqn:Ea.
    pose proof (addRequest_effects request (setHeap h w1)) as (Ht & Hl & Hp & Hr & Hf & Hc).
    change (trace (setCapture ?c ?x)) with (trace x).
    change (store (setCapture ?c ?x)) with (store x).
    change (frameCallbacks (setCapture ?c ?x)) with (frameCallbacks x).
    change (capture (setCapture ?c ?x)) with c.
    rewrite Ht, Hl, Hp, Hr, Hf, Hc, notified_app, notified_broadcast.
    change (trace (setHeap h w1)) with (trace w1).
    change (store (setHeap h w1)) with (store w1).
    change (frameCallbacks (setHeap h w1)) with (frameCallbacks w1).
    change (capture (setHeap h w1)) with (capture w1).
    rewrite Ht1, Hl1, Hp1, Hr1, Hf1, Hc1, notified_app, notified_broadcast.
    repeat split; try reflexivity.
    change (trace w0) with (trace w). change (store w0) with (store w). lia.
  - destruct (allocRequest (newRequest p) (heap w)) as [request h] eqn:Ea.
    pose proof (addRequest_effects request (setHeap h w)) as (Ht & Hl & Hp & Hr & Hf & Hc).
    change (trace (setCapture ?c ?x)) with (trace x).
    change (store (setCapture ?c ?x)) with (store x).
    change (frameCallbacks (setCapture ?c ?x)) with (frameCallbacks x).
    change (capture (setCapture ?c ?x)) with c.
    rewrite Ht, Hl, Hp, Hr, Hf, Hc, notified_app, notified_broadcast.
    repeat split; try reflexivity.
    change (trace (setHeap h w)) with (trace w). change (store (setHeap h w)) with (store w).
    lia.
Qed.

Lemma initiated_events_notified l ps w :
  notified l (trace (fold_left (fun acc p => handleRequestWillBeSent p acc) ps w))
  = (notified l (trace w)
     + (length ps + navigations (mainFrameId (capture w)) ps) * subscribed l w)%nat
  /\ pendingUpdates (store (fold_left (fun acc p => handleRequestWillBeSent p acc) ps w))
     = pendingUpdates (store w)
  /\ frameCallbacks (fold_left (fun acc p => handleRequestWillBeSent p acc) ps w)
     = frameCallbacks w.
Proof.
  revert w. induction ps as [|p ps IH]; intros w; cbn [fold_left length navigations].
  - repeat split. lia.
  - pose proof (handleRequestWillBeSent_notified l p w) as (Hn & Hl & Hm & Hp & _ & Hf).
    destruct (IH (handleRequestWillBeSent p w)) as (IHn & IHp & IHf).
    rewrite IHn, IHp, IHf, Hn, Hm, Hp, Hf.
    assert (Hs : subscribed l (handleRequestWillBeSent p w) = subscribed l w)
      by (unfold subscribed; by rewrite Hl).
    rewrite Hs. destruct (isMainFrameNavigation _ p); repeat split; lia.
Qed.

(** C10 (as the code has it).  [addRequest], [deleteRequest] and [clearRequests]
    each call every subscriber exactly once, synchronously and with the
    mutation already applied, and leave the pending [setState] batch, its
    [rafId] and the frame queue untouched.  Hence [N] initiated events
    produce, for each subscriber, one notification per event from
    [addRequest], plus one more from [clearRequests] for every event that
    is a main-frame navigation. *)
Theorem mutations_notify_synchronously :
  (forall (r : loc) (w : World),
      trace (addRequest r w)
      = trace w ++ List.map (fun l => ObsNotify l (state (store (addRequest r w))))
                            (listeners (store w))
      /\ pendingUpdates (store (addRequest r w)) = pendingUpdates (store w)
      /\ rafId (store (addRequest r w)) = rafId (store w)
      /\ frameCallbacks (addRequest r w) = frameCallbacks w)
  /\ (forall (i : Z) (w : World),
        trace (deleteRequest i w)
        = trace w ++ List.map (fun l => ObsNotify l (state (store (deleteRequest i w))))
                              (listeners (store w))
        /\ pendingUpdates (store (deleteRequest i w)) = pendingUpdates (store w)
        /\ rafId (store (deleteRequest i w)) = rafId (store w)
        /\ frameCallbacks (deleteRequest i w) = frameCallbacks w)
  /\ (forall w : World,
        trace (clearRequests w)
        = trace w ++ List.map (fun l => ObsNotify l (state (store (clearRequests w))))
                              (listeners (store w))
        /\ pendingUpdates (store (clearRequests w)) = pendingUpdates (store w)
        /\ rafId (store (clearRequests w)) = rafId (store w)
        /\ frameCallbacks (clearRequests w) = frameCallbacks w)
  /\ (forall (l : nat) (ps : list RequestWillBeSentParams) (w : World),
        let w' := fold_left (fun acc p => handleRequestWillBeSent p acc) ps w in
        notified l (trace w')
        = (notified l (trace w)
           + (length ps + navigations (mainFrameId (capture w)) ps) * subscribed l w)%nat
        /\ pendingUpdates (store w') = pendingUpdates (store w)
        /\ frameCallbacks w' = frameCallbacks w).
Proof.
  split; [|split; [|split]].
  - intros r w. pose proof (addRequest_effects r w). tauto.
  - intros i w. pose proof (deleteRequest_effects i w). tauto.
  - intros w. pose proof (clearRequests_effects w). tauto.
  - intros l ps w. cbn zeta. apply initiated_events_notified.
Qed.

End Notifications.

(** C10, counterexample.  With one subscriber and no request captured
    yet, a single initiated event for a top-level document produces two
    notifications, not one. *)
Lemma one_navigation_notifies_twice :
  notified 1
    (trace (run (H := containsSearch) (initialWorld 7)
              [EvSubscribe 1%nat; initiated "a" "Document" "F"]))
  = 2%nat.
Proof. vm_compute. reflexivity. Qed.

(** ** C9: initiated events *)

Lemma isMainFrameNavigation_true m p :
  rq_type p = "Document" -> m = None \/ m = Some (rq_frameId p) ->
  isMainFrameNavigation m p = true.
Proof.
  intros Ht Hm. unfold isMainFrameNavigation.
  rewrite (bool_decide_eq_true_2 _ Ht). simpl.
  destruct Hm as [->| ->]; [reflexivity|].
  rewrite (bool_decide_eq_true_2 (Some (rq_frameId p) = Some (rq_frameId p)) eq_refl).
  apply orb_true_r.
Qed.

Lemma isMainFrameNavigation_false m p :
  rq_type p <> "Document" \/ (exists g, m = Some g /\ g <> "" /\ g <> rq_frameId p) ->
  isMainFrameNavigation m p = false.
Proof.
  intros [Ht | (g & -> & Hg & Hf)]; unfold isMainFrameNavigation.
  - by rewrite (bool_decide_eq_false_2 _ Ht).
  - unfold noMainFrame. rewrite (bool_decide_eq_false_2 _ Hg).
    rewrite (bool_decide_eq_false_2 (Some g = Some (rq_frameId p))) by congruence.
    apply andb_false_r.
Qed.

Lemma readRequest_allocRequest v h :
  readRequest (snd (allocRequest v h)) (fst (allocRequest v h)) = v.
Proof.
  unfold allocRequest; cbn [fst snd]. rewrite readRequest_bump, readRequest_writeRequest.
  by destruct (decide (nextLoc h = nextLoc h)).
Qed.

Lemma heap_addRequest_requests r w q :
  readRequest (heap (addRequest r w)) q = readRequest (heap w) q.
Proof.
  unfold addRequest. destruct (MAX_REQUESTS <? _); [destruct (_ <? _)|]; reflexivity.
Qed.

(** What [handleRequestWillBeSent] leaves, by the outcome of its
    navigation test. *)
Lemma handleRequestWillBeSent_effects `{External} (p : RequestWillBeSentParams) (w : World) :
  let w' := handleRequestWillBeSent p w in
  let m := mainFrameId (capture w) in
  (isMainFrameNavigation m p = true ->
     let r := S (nextLoc (heap w)) in
     storedRequests w' = [r]
     /\ readRequest (heap w') r = newRequest p
     /\ selectedIndex (state (store w')) = 0
     /\ mainFrameId (capture w') = Some (rq_frameId p)
     /\ pendingRequests (capture w') = {[ rq_requestId p := r ]}
     /\ responseBodyCache (capture w') = ∅
     /\ fetchingBodies (capture w') = ∅)
  /\ (isMainFrameNavigation m p = false ->
      let r := nextLoc (heap w) in
      storedRequests w'
      = drop (Z.to_nat (jsLength (storedRequests w) + 1 - MAX_REQUESTS))
             (storedRequests w ++ [r])
      /\ (jsLength (storedRequests w) < MAX_REQUESTS ->
          storedRequests w' = storedRequests w ++ [r])
      /\ readRequest (heap w') r = newRequest p
      /\ (forall r0, r0 <> r -> readRequest (heap w') r0 = readRequest (heap w) r0)
      /\ mainFrameId (capture w') = m
      /\ pendingRequests (capture w') = <[ rq_requestId p := r ]> (pendingRequests (capture w))
      /\ responseBodyCache (capture w') = responseBodyCache (capture w)
      /\ fetchingBodies (capture w') = fetchingBodies (capture w)).
Proof.
  intros w' m. split.
  - intros Hnav r. subst w' m. unfold handleRequestWillBeSent.
    rewrite Hnav.
    set (w1 := clearRequests _).
    assert (Hst1 : storedRequests w1 = []) by apply storedRequests_clearRequests.
    assert (Hn1 : nextLoc (heap w1) = r) by reflexivity.
    assert (Hs1 : selectedIndex (state (store w1)) = 0) by reflexivity.
    assert (Hc1 : capture w1
                  = withCaches ∅ ∅ ∅ (withMainFrameId (Some (rq_frameId p)) (capture w)))
      by reflexivity.
    pose proof (readRequest_allocRequest (newRequest p) (heap w1)) as Hnew.
    destruct (allocRequest (newRequest p) (heap w1)) as [request h] eqn:Ea.
    assert (request = r) as -> by (unfold allocRequest in Ea; inversion Ea; congruence).
    simpl in Hnew.
    assert (Hst : storedRequests (setHeap h w1) = []).
    { rewrite <- Hst1. unfold allocRequest in Ea. inversion Ea; subst. reflexivity. }
    pose proof (addRequest_effects r (setHeap h w1)) as (_ & _ & _ & _ & _ & Hc).
    pose proof (storedRequests_addRequest r (setHeap h w1)) as Hadd.
    pose proof (selectedIndex_addRequest r (setHeap h w1)) as Hsel.
    rewrite Hst in Hadd, Hsel. change (jsLength []) with 0 in Hadd, Hsel.
    change (Z.to_nat (0 + 1 - MAX_REQUESTS)) with 0%nat in Hadd.
    change (0 <? 0 + 1 - MAX_REQUESTS) with false in Hsel.
    cbn zeta in Hsel. cbn [app drop] in Hadd.
    unfold setCapture, withCaches.
    cbn [capture mainFrameId pendingRequests responseBodyCache fetchingBodies heap store].
    rewrite Hc. split; [exact Hadd|].
    split; [by rewrite heap_addRequest_requests|].
    split; [rewrite Hsel; exact Hs1|].
    cbn [capture setHeap]. rewrite Hc1.
    repeat split; reflexivity.
  - intros Hnav r. subst w' m. unfold handleRequestWillBeSent.
    rewrite Hnav.
    pose proof (readRequest_allocRequest (newRequest p) (heap w)) as Hnew.
    destruct (allocRequest (newRequest p) (heap w)) as [request h] eqn:Ea.
    assert (request = r) as -> by (unfold allocRequest in Ea; by inversion Ea).
    simpl in Hnew.
    pose proof (addRequest_effects r (setHeap h w)) as (_ & _ & _ & _ & _ & Hc).
    assert (Hst : storedRequests (setHeap h w) = storedRequests w).
    { unfold allocRequest in Ea. inversion Ea; subst. reflexivity. }
    unfold setCapture, withCaches.
    cbn [capture mainFrameId pendingRequests responseBodyCache fetchingBodies heap].
    rewrite Hc. cbn [capture setHeap].
    change (storedRequests {| heap := heap (addRequest r (setHeap h w));
                              store := store (addRequest r (setHeap h w));
                              capture := _; keyboard := _; window := _;
                              frameCallbacks := _; timers := _; nextHandle := _;
                              trace := _ |})
      with (storedRequests (addRequest r (setHeap h w))).
    rewrite storedRequests_addRequest, Hst.
    split; [reflexivity|]. split.
    { intros Hlt. replace (Z.to_nat _) with 0%nat by lia. reflexivity. }
    split; [by rewrite heap_addRequest_requests|]. split.
    { intros r0 Hr0. rewrite heap_addRequest_requests. simpl.
      unfold allocRequest in Ea. inversion Ea; subst.
      rewrite readRequest_bump, readRequest_writeRequest. by destruct (decide _). }
    repeat split; reflexivity.
Qed.


Lemma isMainFrameNavigation_falsy p :
  rq_type p = "Document" -> isMainFrameNavigation (Some "") p = true.
Proof.
  intros Ht. unfold isMainFrameNavigation. by rewrite (bool_decide_eq_true_2 _ Ht).
Qed.

(** C9 (as the code has it).  An initiated event for a top-level
    document that arrives while no main frame is tracked (the tracked id
    is [null] or, being tested for truthiness, the empty string), or
    whose frame is the tracked main frame, records its frame as the main
    frame and replaces the collection by the one request built from the
    event: its id, url, derived name, method, mapped type, request
    headers, body and initiator, with status 0 [Pending] and no response
    yet.  Nothing of the caches of the previous page is left: the map of
    in-flight requests holds the new request alone, and the body cache
    and the set of bodies being fetched hold no other request id.  Any
    other initiated event (not a document, or a document of another
    frame than the tracked one) keeps the main frame and every entry of
    the caches, and appends the request built from the event to the
    collection, which is then cut to its newest 1000 entries like after
    every insertion; below the cap the collection is the old one with
    the new request at the end.  Subscribers are notified by the
    clearing and by the insertion; what they do when called is not part
    of the statement. *)
Theorem initiated_event_effect `{External} (p : RequestWillBeSentParams) (w : World) :
  let w' := handleRequestWillBeSent p w in
  let m := mainFrameId (capture w) in
  let record :=
    {| r_id := rq_requestId p;
       r_url := rq_url p;
       r_name := extractName (rq_url p);
       r_method := rq_method p;
       r_type := mapResourceType (rq_type p);
       r_status := 0;
       r_statusText := "Pending";
       r_timestamp := rq_timestamp p * 1000;
       r_duration := 0;
       r_size := 0;
       r_requestHeaders := rq_headers p;
       r_responseHeaders := [];
       r_requestBody := rq_postData p;
       r_responseBody := None;
       r_initiator := rq_initiatorUrl p |} in
  (rq_type p = "Document" -> m = None \/ m = Some "" \/ m = Some (rq_frameId p) ->
     let r := S (nextLoc (heap w)) in
     storedRequests w' = [r]
     /\ readRequest (heap w') r = record
     /\ selectedIndex (state (store w')) = 0
     /\ mainFrameId (capture w') = Some (rq_frameId p)
     /\ pendingRequests (capture w') = {[ rq_requestId p := r ]}
     /\ (forall k, k <> rq_requestId p ->
          responseBodyCache (capture w') !! k = None
          /\ k ∉ fetchingBodies (capture w')))
  /\ (rq_type p <> "Document"
      \/ (exists g, m = Some g /\ g <> "" /\ g <> rq_frameId p) ->
      let r := nextLoc (heap w) in
      storedRequests w'
      = drop (Z.to_nat (jsLength (storedRequests w) + 1 - MAX_REQUESTS))
             (storedRequests w ++ [r])
      /\ (jsLength (storedRequests w) < MAX_REQUESTS ->
          storedRequests w' = storedRequests w ++ [r])
      /\ readRequest (heap w') r = record
      /\ (forall r0, r0 <> r -> readRequest (heap w') r0 = readRequest (heap w) r0)
      /\ mainFrameId (capture w') = m
      /\ pendingRequests (capture w') = <[ rq_requestId p := r ]> (pendingRequests (capture w))
      /\ (forall k v, responseBodyCache (capture w) !! k = Some v ->
            responseBodyCache (capture w') !! k = Some v)
      /\ (forall k, k ∈ fetchingBodies (capture w) -> k ∈ fetchingBodies (capture w'))).
Proof.
  intros w' m record.
  destruct (handleRequestWillBeSent_effects p w) as [Hclear Hkeep].
  fold w' in Hclear, Hkeep. fold m in Hclear, Hkeep. split.
  - intros Ht Hm r.
    assert (Hnav : isMainFrameNavigation m p = true).
    { destruct Hm as [Hm | [Hm | Hm]].
      - apply isMainFrameNavigation_true; [exact Ht | by left].
      - rewrite Hm. by apply isMainFrameNavigation_falsy.
      - apply isMainFrameNavigation_true; [exact Ht | by right]. }
    destruct (Hclear Hnav) as (Hs & Hr & Hi & Hf & Hp & Hb & Hfb).
    split; [exact Hs|]. split; [exact Hr|]. split; [exact Hi|]. split; [exact Hf|].
    split; [exact Hp|]. intros k _. rewrite Hb, Hfb. split; [apply lookup_empty | apply not_elem_of_empty].
  - intros Hm r.
    destruct (Hkeep (isMainFrameNavigation_false _ _ Hm))
      as (Hs & Hlt & Hr & Hr0 & Hf & Hp & Hb & Hfb).
    split; [exact Hs|]. split; [exact Hlt|]. split; [exact Hr|]. split; [exact Hr0|].
    split; [exact Hf|]. split; [exact Hp|]. split.
    + intros k v. by rewrite Hb.
    + intros k. by rewrite Hfb.
Qed.

(** C9, counterexample.  With 1000 requests stored, a script request is
    initiated: nothing is cleared by the navigation test, and yet the
    collection is not the existing one with the new request appended:
    it still has 1000 entries and its oldest request is gone. *)
Lemma initiated_event_at_the_cap :
  let p := initiatedParams "x" "Script" "F" in
  let w' := handleRequestWillBeSent (H := containsSearch) p atTheCap in
  jsLength (storedRequests atTheCap) = 1000
  /\ jsLength (storedRequests w') = 1000
  /\ head (storedRequests atTheCap) = Some 3%nat
  /\ head (storedRequests w') = Some 4%nat
  /\ storedRequests w' <> storedRequests atTheCap ++ [nextLoc (heap atTheCap)].
Proof. vm_compute. repeat split; discriminate. Qed.

(** ** C5: batching of [setState] *)

Lemma storeFlush_state w :
  state (store (storeFlush w))
  = spec_batchResult (state (store w)) (pendingUpdates (store w)).
Proof.
  unfold storeFlush, spec_batchResult.
  rewrite <- !assignAll_field by (split; reflexivity).
  set (merged := assignAll (pendingUpdates (store w))).
  unfold spread.
  destruct (u_searchQuery merged) as [q|]; destruct (u_selectedIndex merged) as [i|];
    destruct (u_filters merged) as [f|]; reflexivity.
Qed.

Lemma storeFlush_effects w :
  trace (storeFlush w)
  = trace w ++ List.map (fun l => ObsNotify l (state (store (storeFlush w))))
                        (listeners (store w))
  /\ pendingUpdates (store (storeFlush w)) = []
  /\ rafId (store (storeFlush w)) = None
  /\ frameCallbacks (storeFlush w) = frameCallbacks w
  /\ listeners (store (storeFlush w)) = listeners (store w)
  /\ heap (storeFlush w) = heap w.
Proof.
  unfold storeFlush.
  destruct (isDefined _ || isDefined _); destruct (isDefined _ && isNone _);
    repeat split; reflexivity.
Qed.

(** Once a flush is scheduled, further calls only extend the batch. *)
Lemma setStateAll_scheduled batch w :
  rafId (store w) <> None ->
  setStateAll batch w
  = setStore (withPendingUpdates (pendingUpdates (store w) ++ batch) (store w)) w.
Proof.
  revert w. induction batch as [|u batch IH]; intros w Hid; unfold setStateAll; simpl.
  - rewrite app_nil_r. by destruct w as [? [] ? ? ? ? ? ? ?].
  - fold (setStateAll batch (setState u w)). unfold setState at 1. simpl.
    destruct (rafId (store w)) eqn:E; [|done].
    rewrite IH by (simpl; congruence). simpl. by rewrite <- app_assoc.
Qed.

(** The first call of a batch on an idle store schedules the flush. *)
Lemma setStateAll_idle batch w :
  batch <> [] -> rafId (store w) = None -> pendingUpdates (store w) = [] ->
  frameCallbacks w = [] ->
  pendingUpdates (store (setStateAll batch w)) = batch
  /\ frameCallbacks (setStateAll batch w) = [(nextHandle w, StoreFlush)]
  /\ state (store (setStateAll batch w)) = state (store w)
  /\ listeners (store (setStateAll batch w)) = listeners (store w)
  /\ trace (setStateAll batch w) = trace w.
Proof.
  intros Hne Hid Hp Hf. destruct batch as [|u batch]; [done|].
  unfold setStateAll. simpl. fold (setStateAll batch (setState u w)).
  rewrite setStateAll_scheduled by (unfold setState; simpl; by rewrite Hid).
  unfold setState. simpl. rewrite Hid, Hp, Hf. simpl. repeat split; reflexivity.
Qed.

(** The batch of calls made outside a notification.  Starting from an
    idle store, any number of [setState] calls made before the next
    animation frame change neither the state nor the trace; the frame
    then applies all of them at once (each field takes the value of the
    last call that wrote it, in call order, and the selection is reset
    to 0 when the batch wrote the search query but not the selection),
    and every subscriber is called exactly once, with the resulting
    state.  The subscribers are the calls recorded in the trace: what a
    subscriber does when it is called, a call of [setState] included, is
    the matter of [storeFlushRendering]. *)
Theorem setState_batch (w : World) (batch : list PartialAppState) :
  batch <> [] ->
  rafId (store w) = None -> pendingUpdates (store w) = [] -> frameCallbacks w = [] ->
  let queued := setStateAll batch w in
  let flushed := animationFrame queued in
  state (store queued) = state (store w)
  /\ trace queued = trace w
  /\ state (store flushed) = spec_batchResult (state (store w)) batch
  /\ trace flushed
     = trace w ++ List.map (fun l => ObsNotify l (state (store flushed))) (listeners (store w))
  /\ pendingUpdates (store flushed) = []
  /\ rafId (store flushed) = None
  /\ frameCallbacks flushed = [].
Proof.
  intros Hne Hid Hp Hf queued flushed.
  destruct (setStateAll_idle batch w Hne Hid Hp Hf) as (Hq & Hfc & Hst & Hl & Ht).
  fold queued in Hq, Hfc, Hst, Hl, Ht.
  assert (Hfl : flushed = storeFlush (setFrameCallbacks [] queued)).
  { unfold flushed, animationFrame. by rewrite Hfc. }
  split; [exact Hst|]. split; [exact Ht|].
  pose proof (storeFlush_state (setFrameCallbacks [] queued)) as Hs.
  pose proof (storeFlush_effects (setFrameCallbacks [] queued)) as (He & Hp' & Hr' & Hf' & _).
  rewrite <- Hfl in Hs, He, Hp', Hr', Hf'. simpl in Hs, He, Hf'.
  rewrite Hq, Hst in Hs. rewrite Ht, Hl in He.
  repeat split; assumption.
Qed.

(** Three calls in one tick, two of them writing [mode]. *)
Lemma setState_batch_witness :
  let w := subscribe 1%nat (initialWorld 7) in
  let batch := [modeUpdate SEARCH; searchQueryUpdate "x"; modeUpdate NORMAL] in
  mode (state (store (animationFrame (setStateAll batch w)))) = NORMAL
  /\ searchQuery (state (store (animationFrame (setStateAll batch w)))) = "x"
  /\ notified 1 (trace (animationFrame (setStateAll batch w))) = 1%nat.
Proof.
  intros w batch.
  destruct (setState_batch w batch) as (_ & _ & Hs & Ht & _);
    [discriminate | reflexivity | reflexivity | reflexivity |].
  rewrite Ht, Hs. repeat split; reflexivity.
Defined.

(** The flush is its part before the notification, the notification,
    and the two assignments after it. *)
Lemma storeFlush_parts w : storeFlush w = flushSettled (notifyListeners (flushMerged w)).
Proof. reflexivity. Qed.

(** Whatever the headers list pushes while the flush notifies it, the
    flush leaves nothing pending and no flush scheduled. *)
Lemma storeFlushRendering_settled `{External} c w :
  pendingUpdates (store (snd (storeFlushRendering c w))) = []
  /\ rafId (store (snd (storeFlushRendering c w))) = None.
Proof.
  unfold storeFlushRendering.
  destruct (notifyHeadersList c (notifyListeners (flushMerged w))) as [c' w'].
  split; reflexivity.
Qed.

(** C5 (the code at a failing input).  The headers tab shows the second
    of two requests, whose list has six items, and the sixth item has
    been clicked ([headersSelectedIndex = 5]); [k] then queues the
    selection of the first request, whose list has four items.  In the
    frame that follows, the flush applies the queued update and notifies
    the headers list, whose [render] clamps its own selection to 3 and
    calls [setState({ headersSelectedIndex: 3 })].  The call is made
    while the flush is still scheduled, so it only joins the batch that
    is being flushed, and the flush empties that batch when the
    subscribers have returned: the update is never merged, never
    applied and never notified.  After the frame nothing is pending, no
    flush is scheduled, and the state keeps [headersSelectedIndex = 5],
    beyond the four items on display, also after a further frame. *)
Theorem update_during_flush_is_lost :
  let c := fst sixthItemClicked in
  let w := snd sixthItemClicked in
  let inside :=
    notifyHeadersList (H := containsSearch) c (notifyListeners (flushMerged w)) in
  let after := animationFrameRendering (H := containsSearch) c w in
  let next := animationFrameRendering (H := containsSearch) (fst after) (snd after) in
  (pendingUpdates (store w) = [selectedIndexUpdate 0]
   /\ headersSelectedIndex (state (store w)) = 5
   /\ hl_selectedIndex c = 5
   /\ jsLength (hl_headers c) = 6)
  /\ (pendingUpdates (store (snd inside))
      = [selectedIndexUpdate 0; headersSelectedIndexUpdate 3]
      /\ rafId (store (snd inside)) = rafId (store w)
      /\ rafId (store w) <> None)
  /\ (selectedIndex (state (store (snd after))) = 0
      /\ jsLength (hl_headers (fst after)) = 4
      /\ hl_selectedIndex (fst after) = 3
      /\ headersSelectedIndex (state (store (snd after))) = 5
      /\ pendingUpdates (store (snd after)) = []
      /\ rafId (store (snd after)) = None
      /\ List.map snd (frameCallbacks (snd after)) = [DomFocus])
  /\ (headersSelectedIndex (state (store (snd next))) = 5
      /\ hl_selectedIndex (fst next) = 3
      /\ pendingUpdates (store (snd next)) = []
      /\ frameCallbacks (snd next) = []).
Proof. vm_compute. repeat split; discriminate. Qed.

(** ** C2, C3, C4: the memoized view *)

Lemma jsLength_pos_nonempty {A} (l : list A) : (0 <? jsLength l) = negb (bool_decide (l = [])).
Proof. destruct l; reflexivity. Qed.

Lemma cacheValid_keys w :
  cacheValid w = true <->
  is_Some (cachedRequests (filteredRequestsCache (store w))) /\ recordedKeys w = currentKeys w.
Proof.
  unfold cacheValid, recordedKeys, currentKeys, storedRequests.
  rewrite !andb_true_iff, !Z.eqb_eq, bool_decide_eq_true.
  destruct (cachedRequests _); simpl; split.
  - intros (((_ & ->) & ->) & ->). split; [by eexists | reflexivity].
  - intros [_ Hk]. by inversion Hk.
  - intros (((? & _) & _) & _). discriminate.
  - intros [[? ?] _]. discriminate.
Qed.

Section ViewProofs.

Context `{External}.

(** What a recomputation returns and records. *)
Lemma recomputeFiltered_spec w :
  let v := fst (recomputeFiltered w) in
  let w' := snd (recomputeFiltered w) in
  readArray (heap w') v
  = pipeline (heap w) (indexInUse w) (storedRequests w) (searchQuery (state (store w)))
             (activeTypes w)
  /\ cachedRequests (filteredRequestsCache (store w')) = Some v
  /\ recordedKeys w' = currentKeys w'
  /\ state (store w') = state (store w)
  /\ trace w'
     = trace w ++ (if fuseIndexStale w
                   then [ObsIndexBuilt (requests (state (store w))) (jsLength (storedRequests w))]
                   else []).
Proof.
  cbn zeta. unfold recomputeFiltered, rebuildFuseIndex, indexInUse, pipeline, typeFiltered,
    activeTypes, recordedKeys, currentKeys, storedRequests.
  assert (Hidx : fuseIndexStale w = false ->
                 exists index, fuseIndex (store w) = Some index).
  { unfold fuseIndexStale. intros Es. apply orb_false_elim in Es as [Es _].
    destruct (fuseIndex (store w)); [by eexists | discriminate]. }
  destruct (fuseIndexStale w) eqn:Es;
    [|destruct (Hidx eq_refl) as [index Hi]];
    unfold baseResults, allocArray;
    cbn [heap store state observe setStore withFuseIndex fuseIndex];
    rewrite ?Hi;
    (destruct (bool_decide (searchQuery (state (store w)) = "")) eqn:Eq;
     unfold applyTypeFilter, allocArray;
     cbn [heap store state observe setStore withFuseIndex fuseIndex setHeap];
     autorewrite with heap;
     rewrite jsLength_pos_nonempty;
     destruct (bool_decide (readTypes (heap w) (types (filters (state (store w)))) = []))
       eqn:Et;
     cbn; autorewrite with heap; rewrite ?readArray_writeArray_eq, ?app_nil_r;
     repeat split; reflexivity).
Qed.

Lemma getFilteredRequests_hit w cached :
  cachedRequests (filteredRequestsCache (store w)) = Some cached ->
  recordedKeys w = currentKeys w ->
  getFilteredRequests w = (cached, w).
Proof.
  intros Hc Hk. unfold getFilteredRequests. rewrite Hc.
  assert (cacheValid w = true) as -> by (apply cacheValid_keys; split; [by eexists | done]).
  reflexivity.
Qed.

Lemma getFilteredRequests_miss w :
  cachedRequests (filteredRequestsCache (store w)) = None \/ recordedKeys w <> currentKeys w ->
  getFilteredRequests w = recomputeFiltered w.
Proof.
  intros Hm. unfold getFilteredRequests.
  destruct (cachedRequests _) as [cached|] eqn:Hc; [|reflexivity].
  destruct (cacheValid w) eqn:Hv; [|reflexivity].
  apply cacheValid_keys in Hv as [_ Hk]. destruct Hm as [?|Hne]; [discriminate | done].
Qed.

End ViewProofs.



Section Memo.

Context `{External}.

(** C2 (as the code has it).  [getFilteredRequests()] returns the
    memoized array, and changes nothing, whenever the cache holds a
    result and the recorded request count, search query and filter-set
    size equal the current ones.  Otherwise it recomputes and memoizes
    the result with the three keys.  With an empty query the result
    holds the current requests; with a non-empty query, when the search
    index is constructed for this recomputation (none exists, or the one
    at hand was built at another request count), it holds the requests
    at the positions that the library returns for the url and name of
    the current requests, in the library's order.  In both cases only
    the requests whose type is in the filter set are kept when that set
    is not empty: the result is the view of the current requests, query
    and filter set alone, and every entry of it is a current request.
    What a search index kept from an earlier recomputation returns is
    not part of the statement.  A flushed batch that wrote the search
    query or the filters empties the cache, whether or not a value
    changed. *)
Theorem filtered_view_memoized (w : World) :
  (forall cached,
      cachedRequests (filteredRequestsCache (store w)) = Some cached ->
      recordedKeys w = currentKeys w ->
      getFilteredRequests w = (cached, w))
  /\ (cachedRequests (filteredRequestsCache (store w)) = None
      \/ recordedKeys w <> currentKeys w ->
      let v := fst (getFilteredRequests w) in
      let w' := snd (getFilteredRequests w) in
      let q := searchQuery (state (store w)) in
      (q = "" ->
       readArray (heap w') v = typeFiltered (heap w) (activeTypes w) (storedRequests w))
      /\ (q <> "" -> fuseIndexStale w = true ->
          readArray (heap w') v
          = typeFiltered (heap w) (activeTypes w)
              (omap (fun i => storedRequests w !! i)
                    (fuseSearch (searchRecords (heap w) (storedRequests w)) q)))
      /\ (q = "" \/ fuseIndexStale w = true ->
          readArray (heap w') v
          = spec_filteredView (heap w) (storedRequests w) q (activeTypes w)
          /\ forall r, r ∈ readArray (heap w') v ->
               r ∈ storedRequests w
               /\ (activeTypes w <> [] ->
                   setHas (r_type (readRequest (heap w) r)) (activeTypes w) = true))
      /\ cachedRequests (filteredRequestsCache (store w')) = Some v
      /\ recordedKeys w' = currentKeys w'
      /\ state (store w') = state (store w))
  /\ (lastWrite u_searchQuery (pendingUpdates (store w)) <> None
      \/ lastWrite u_filters (pendingUpdates (store w)) <> None ->
      cachedRequests (filteredRequestsCache (store (storeFlush w))) = None).
Proof.
  split; [|split].
  - intros cached Hc Hk. by apply getFilteredRequests_hit.
  - intros Hm v w' q. subst v w'. rewrite (getFilteredRequests_miss w Hm).
    destruct (recomputeFiltered_spec w) as (Hv & Hc & Hk & Hs & _).
    assert (Hview : q = "" \/ fuseIndexStale w = true ->
              readArray (heap (snd (recomputeFiltered w))) (fst (recomputeFiltered w))
              = spec_filteredView (heap w) (storedRequests w) q (activeTypes w)).
    { intros Hq. rewrite Hv. unfold pipeline, spec_filteredView. fold q.
      destruct (bool_decide (q = "")) eqn:Eq; [reflexivity|].
      destruct Hq as [Hq | Hst]; [by rewrite (bool_decide_eq_true_2 _ Hq) in Eq|].
      unfold indexInUse. rewrite Hst. reflexivity. }
    split; [|split; [|split]].
    + intros Hq. rewrite (Hview (or_introl Hq)). unfold spec_filteredView.
      by rewrite (bool_decide_eq_true_2 _ Hq).
    + intros Hq Hst. rewrite (Hview (or_intror Hst)). unfold spec_filteredView, fuzzyMatches.
      by rewrite (bool_decide_eq_false_2 _ Hq).
    + intros Hq. split; [exact (Hview Hq)|]. rewrite (Hview Hq).
      intros r Hr. unfold spec_filteredView, typeFiltered in Hr.
      assert (Hbase : forall r0,
                r0 ∈ (if bool_decide (q = "") then storedRequests w
                      else fuzzyMatches (heap w) (storedRequests w) q) ->
                r0 ∈ storedRequests w).
      { intros r0. destruct (bool_decide (q = "")); [done|].
        unfold fuzzyMatches. intros Hin. apply list_elem_of_omap in Hin as (i & _ & Hi).
        by eapply list_elem_of_lookup_2. }
      destruct (bool_decide (activeTypes w = [])) eqn:Et.
      * apply bool_decide_eq_true_1 in Et. split; [by apply Hbase | done].
      * apply list_elem_of_In, filter_In in Hr as [Hr Hty].
        split; [by apply Hbase, list_elem_of_In | done].
    + by repeat split.
  - intros Hw. unfold storeFlush.
    rewrite <- !(assignAll_field u_searchQuery), <- !(assignAll_field u_filters) in Hw
      by (split; reflexivity).
    set (merged := assignAll (pendingUpdates (store w))) in *.
    destruct (u_searchQuery merged) as [q|]; destruct (u_filters merged) as [f|];
      destruct (u_selectedIndex merged) as [i|]; try reflexivity;
      destruct Hw as [Hw|Hw]; by contradict Hw.
Qed.



End Memo.

(** C2, counterexample.  The filter [script] is active and, as the
    status bar does, a reader calls [getFilteredRequests()] after every
    notification.  Requests [a] and [b] are captured; [b] fails, which
    queues a copy of the collection; before the next frame [a] is
    deleted with [dd] and [c] is captured; the frame then installs the
    copy.  The collection is [a], [b] again, at the count of the last
    read, and the call returns the memoized array holding [b] and [c]:
    neither the view of the current requests, query and filter set, nor
    made of current requests only. *)
Lemma filtered_view_stale :
  List.map (fun r => r_id (readRequest (heap copyInstalled) r)) (storedRequests copyInstalled)
  = ["a"; "b"]
  /\ List.map (fun r => r_id (readRequest (heap copyInstalled) r))
       (readArray (heap (snd (getFilteredRequests (H := containsSearch) copyInstalled)))
                  (fst (getFilteredRequests (H := containsSearch) copyInstalled)))
     = ["b"; "c"]
  /\ readArray (heap (snd (getFilteredRequests (H := containsSearch) copyInstalled)))
               (fst (getFilteredRequests (H := containsSearch) copyInstalled))
     <> spec_filteredView (H := containsSearch) (heap copyInstalled)
          (storedRequests copyInstalled) (searchQuery (state (store copyInstalled)))
          (activeTypes copyInstalled).
Proof. vm_compute. repeat split; discriminate. Qed.



(** ** C6: what a snapshot shares with the store *)

Lemma findRequest_elem h a rid r : findRequest h a rid = Some r -> r ∈ readArray h a.
Proof.
  unfold findRequest. intros Hf. apply List.find_some in Hf as [Hin _].
  by apply list_elem_of_In.
Qed.

Lemma toggleType_spec c s t w :
  readTypes (heap (toggleType c s t w)) s
  = (if c then setAdd t (readTypes (heap w) s) else setDelete t (readTypes (heap w) s))
  /\ state (store (toggleType c s t w)) = state (store w)
  /\ trace (toggleType c s t w) = trace w.
Proof.
  unfold toggleType. cbn [heap setHeap store trace]. rewrite readTypes_writeTypes.
  by destruct (decide (s = s)).
Qed.

(** [setState] only queues: the heap, the state and the trace stay. *)
Lemma setState_frame u w :
  heap (setState u w) = heap w
  /\ state (store (setState u w)) = state (store w)
  /\ trace (setState u w) = trace w.
Proof. unfold setState. simpl. by destruct (rafId (store w)). Qed.

(** What the callers of [getState()] reach.  The copy has the top-level
    fields only: the requests array, the request records, the
    [filters.types] set and the [jsonExpanded] map of a snapshot are the
    store's own objects.  A mutation made through a snapshot is
    therefore a mutation of the store's state, visible at once and
    without any notification: this is how the response-headers handler
    updates a request record, how the filter checkboxes update the
    filter set and how the JSON viewer updates the expansion map; and a
    snapshot taken before a request is added shows the collection as it
    is after. *)
Theorem snapshot_shares_nested_objects :
  (forall (p : ResponseReceivedParams) (w : World) (r : loc),
      findRequest (heap w) (requests (getState w)) (rs_requestId p) = Some r ->
      let w' := handleResponseReceived p w in
      state (store w') = state (store w)
      /\ storedRequests w' = storedRequests w
      /\ r ∈ storedRequests w'
      /\ r_status (readRequest (heap w') r) = rs_status p
      /\ r_statusText (readRequest (heap w') r) = rs_statusText p
      /\ r_responseHeaders (readRequest (heap w') r) = rs_headers p
      /\ (forall r0, r0 <> r -> readRequest (heap w') r0 = readRequest (heap w) r0)
      /\ trace w' = trace w)
  /\ (forall (v : string) (t : ResourceType) (checked : bool) (w : World),
        v <> "all" -> findFilterOption v = Some (OptSingle t) ->
        let w' := handleCheckboxChange v checked w in
        state (store w') = state (store w)
        /\ activeTypes w'
           = (if checked then setAdd t (activeTypes w) else setDelete t (activeTypes w))
        /\ trace w' = trace w)
  /\ (forall (p : string) (b : bool) (w : World),
        let w' := setNodeExpanded p b w in
        state (store w') = state (store w)
        /\ readExpanded (heap w') (jsonExpanded (state (store w')))
           = <[p := b]> (readExpanded (heap w) (jsonExpanded (state (store w))))
        /\ trace w' = trace w)
  /\ (forall (r : loc) (w : World),
        readArray (heap (addRequest r w)) (requests (getState w))
        = storedRequests (addRequest r w)).
Proof.
  split; [|split; [|split]].
  - intros p w r Hf w'. subst w'. unfold handleResponseReceived. rewrite Hf.
    unfold storedRequests. cbn [heap setHeap store state trace].
    rewrite readArray_writeRequest.
    split; [reflexivity|]. split; [reflexivity|].
    split; [by apply findRequest_elem in Hf|].
    rewrite readRequest_writeRequest. destruct (decide (r = r)); [|done].
    split; [reflexivity|]. split; [reflexivity|]. split; [reflexivity|].
    split; [|reflexivity].
    intros r0 Hr0. rewrite readRequest_writeRequest. by destruct (decide (r = r0)).
  - intros v t checked w Hv Ht w'. subst w'. unfold handleCheckboxChange, activeTypes.
    rewrite (bool_decide_eq_false_2 _ Hv), Ht.
    destruct (toggleType_spec checked (types (filters (getState w))) t w) as (Hr & Hs & Htr).
    destruct (setState_frame (filtersUpdate (filters (getState w)))
                (toggleType checked (types (filters (getState w))) t w)) as (Hh & Hst & Ht').
    rewrite Hh, Hst, Ht', Hs, Htr. unfold getState in *. rewrite Hr. repeat split; reflexivity.
  - intros p b w w'. subst w'. unfold setNodeExpanded.
    match goal with |- context [setState ?u ?x] =>
      destruct (setState_frame u x) as (Hh & Hst & Ht') end.
    rewrite Hh, Hst, Ht'. unfold getState. cbn [heap setHeap store state trace].
    unfold readExpanded, writeExpanded; cbn [expandedMaps].
    rewrite lookup_total_insert_eq. repeat split; reflexivity.
  - intros r w. unfold storedRequests, getState.
    assert (requests (state (store (addRequest r w))) = requests (state (store w))) as ->.
    { unfold addRequest. destruct (MAX_REQUESTS <? _); [destruct (_ <? _)|]; reflexivity. }
    reflexivity.
Qed.

(** The scenario of three requests [a], [b], [c] and the response
    headers of [b]. *)
Lemma snapshot_shares_nested_objects_witness :
  List.map r_status (storeView (handleResponseReceived notFound threeRequests)) = [0; 404; 0].
Proof.
  destruct snapshot_shares_nested_objects as (Hrec & _).
  destruct (Hrec notFound threeRequests 4%nat) as (_ & Hst & _ & Hs & _ & _ & Hother & _);
    [vm_compute; reflexivity|].
  unfold storeView. rewrite Hst.
  change (storedRequests threeRequests) with [3%nat; 4%nat; 5%nat].
  cbn [List.map]. rewrite Hs, !Hother by discriminate.
  vm_compute. reflexivity.
Defined.

(** C6 (the code at a failing input).  Three requests [a], [b], [c] are
    stored when the response headers of [b] arrive with status 404.
    [handleResponseReceived] takes a snapshot with [getState()], finds
    the record of [b] in the snapshot's [requests] and assigns its
    status, status text and response headers.  No method of the store
    that writes its state is called, and yet the records the store
    holds are no longer what they were: the snapshot is not the
    immutable copy that the comment on [getState] announces. *)
Lemma snapshot_mutation_reaches_store :
  storeView (handleResponseReceived notFound threeRequests) <> storeView threeRequests.
Proof. vm_compute. discriminate. Qed.

(** ** C7: the selection and the filtered view *)

Section Selection.

Context `{External}.

(** The writes of [selectedIndex].  It is never negative.  The helper
    [moveSelection(delta, maxLength)] queues an index clamped into
    [0, maxLength - 1] (0 when [maxLength <= 0]), whatever length its
    caller passes; a flushed batch that writes the search query without
    writing the selection resets it to 0, and so does [clearRequests];
    [deleteRequest] clamps it against the number of stored requests (not
    against the filtered view); and a flushed batch that writes neither
    the selection nor the search query, such as a change of the filter
    set, leaves it as it was. *)
Theorem selection_clamping :
  (forall (tab : Z) (evs : list Event),
      0 <= selectedIndex (state (store (run (initialWorld tab) evs))))
  /\ (forall (delta n : Z) (w : World),
        exists i,
          pendingUpdates (store (moveSelection delta n w))
          = pendingUpdates (store w) ++ [selectedIndexUpdate i]
          /\ 0 <= i <= Z.max 0 (n - 1))
  /\ (forall w : World,
        lastWrite u_searchQuery (pendingUpdates (store w)) <> None ->
        lastWrite u_selectedIndex (pendingUpdates (store w)) = None ->
        selectedIndex (state (store (storeFlush w))) = 0)
  /\ (forall w : World, selectedIndex (state (store (clearRequests w))) = 0)
  /\ (forall (i : Z) (w : World),
        let w' := deleteRequest i w in
        selectedIndex (state (store w'))
        = (if jsLength (storedRequests w') <=? selectedIndex (state (store w))
           then Z.max 0 (jsLength (storedRequests w') - 1)
           else selectedIndex (state (store w)))
        /\ (0 <= selectedIndex (state (store w)) ->
            0 <= selectedIndex (state (store w'))
            <= Z.max 0 (jsLength (storedRequests w') - 1)))
  /\ (forall w : World,
        lastWrite u_selectedIndex (pendingUpdates (store w)) = None ->
        lastWrite u_searchQuery (pendingUpdates (store w)) = None ->
        selectedIndex (state (store (storeFlush w))) = selectedIndex (state (store w))).
Proof.
  split; [|split; [|split; [|split; [|split]]]].
  - intros tab evs.
    by pose proof (Inv_run evs _ (Inv_initialWorld tab)) as (_ & [Hs _] & _).
  - intros delta n w. eexists. split.
    + unfold moveSelection, setState.
      cbn [store setStore withPendingUpdates pendingUpdates rafId].
      destruct (rafId (store w)); reflexivity.
    + lia.
  - intros w Hq Hs. rewrite storeFlush_state. unfold spec_batchResult. cbn [selectedIndex].
    rewrite Hs. by destruct (lastWrite u_searchQuery _).
  - reflexivity.
  - intros i w w'. subst w'. rewrite storedRequests_deleteRequest.
    assert (Hsel : selectedIndex (state (store (deleteRequest i w)))
                   = if jsLength (splice i 1 (storedRequests w))
                        <=? selectedIndex (state (store w))
                     then Z.max 0 (jsLength (splice i 1 (storedRequests w)) - 1)
                     else selectedIndex (state (store w))).
    { unfold deleteRequest, storedRequests.
      cbn [store setHeap state]. by destruct (_ <=? _). }
    rewrite Hsel. split; [reflexivity|]. intros H0.
    destruct (_ <=? _) eqn:E; [lia|]. apply Z.leb_gt in E. lia.
  - intros w Hs Hq. rewrite storeFlush_state. unfold spec_batchResult. cbn [selectedIndex].
    by rewrite Hs, Hq.
Qed.

End Selection.

(** C7 (the code at a failing input).  A script and two images are
    stored and the selection has been moved to the third request
    ([j], frame, [j], frame); the type filter [script] is then switched
    on and the frame runs.  The flush of a batch that writes the search
    query resets the selection to 0, but the flush of this batch, which
    writes the filters, only empties the memoized view: one request is
    in view while [selectedIndex] is still 2, which is neither inside
    the view nor 0. *)
Lemma selection_out_of_view :
  let view := readArray (heap (snd (getFilteredRequests (H := containsSearch)
                                      filteredBelowSelection)))
                        (fst (getFilteredRequests (H := containsSearch)
                                filteredBelowSelection)) in
  let sel := selectedIndex (state (store filteredBelowSelection)) in
  ~ (0 <= sel <= jsLength view - 1 \/ (view = [] /\ sel = 0)).
Proof. vm_compute. intros [[_ Hle] | [Hnil _]]; [by apply Hle | discriminate]. Qed.

(** ** C8: leaving a mode *)

Lemma assignAll_snoc batch u : assignAll (batch ++ [u]) = assign (assignAll batch) u.
Proof. unfold assignAll. by rewrite fold_left_app. Qed.

Lemma default_later {A} (s : A) (a b : option A) :
  default (default s (later a b)) b = default s (later a b).
Proof. by destruct b. Qed.

(** Whatever was pending, the state a flush produces agrees with the
    update queued last. *)
Lemma agrees_last st m u : agrees u (spread st (assign m u)).
Proof.
  unfold agrees, spread, assign. cbn. f_equal; apply default_later.
Qed.

Lemma spread_requestsUpdate st m a :
  spread st (assign m (requestsUpdate a)) = withRequests a (spread st m).
Proof. reflexivity. Qed.

Lemma agrees_withRequests u a st :
  u_requests u = None -> agrees u st -> agrees u (withRequests a st).
Proof.
  unfold agrees, withRequests, spread. destruct st. cbn. intros Hr Hu. rewrite Hr. cbn.
  injection Hu as Hu1 Hu2 Hu3 Hu4 Hu5 Hu6 Hu7 Hu8 Hu9 Hu10 Hu11 Hu12 Hu13 Hu14 Hu15 Hu16 Hu17 Hu18.
  f_equal; assumption.
Qed.

Lemma agrees_withSelectedIndex u i st :
  u_selectedIndex u = None -> agrees u st -> agrees u (withSelectedIndex i st).
Proof.
  unfold agrees, withSelectedIndex, spread. destruct st. cbn. intros Hr Hu. rewrite Hr. cbn.
  injection Hu as Hu1 Hu2 Hu3 Hu4 Hu5 Hu6 Hu7 Hu8 Hu9 Hu10 Hu11 Hu12 Hu13 Hu14 Hu15 Hu16 Hu17 Hu18.
  f_equal; assumption.
Qed.

Lemma spread_emptyUpdate st : spread st emptyUpdate = st.
Proof. by destruct st. Qed.

Lemma setState_pending u w :
  pendingUpdates (store (setState u w)) = pendingUpdates (store w) ++ [u]
  /\ rafId (store (setState u w)) <> None
  /\ state (store (setState u w)) = state (store w).
Proof. unfold setState. simpl. destruct (rafId (store w)) eqn:E; simpl; by rewrite ?E. Qed.

Lemma pendingState_setState u w : agrees u (pendingState (setState u w)).
Proof.
  unfold pendingState. destruct (setState_pending u w) as (-> & _ & ->).
  rewrite assignAll_snoc. apply agrees_last.
Qed.

Lemma storeFlush_agrees u w :
  u_selectedIndex u = None -> agrees u (pendingState w) ->
  agrees u (state (store (storeFlush w))) /\ pendingState (storeFlush w) = state (store (storeFlush w)).
Proof.
  intros Hs Hu. unfold pendingState in *.
  destruct (storeFlush_effects w) as (_ & Hp & _). rewrite Hp.
  split; [|apply spread_emptyUpdate].
  unfold storeFlush.
  destruct (isDefined _ || isDefined _); destruct (isDefined _ && isNone _);
    cbn [state store setStore withState withRafId withPendingUpdates notifyListeners observe
         setSelectedIndex invalidateFilterCache withFuseIndex withCache];
    first [exact Hu | by apply agrees_withSelectedIndex].
Qed.

Lemma captureFlush_agrees u a w :
  u_requests u = None -> agrees u (pendingState w) ->
  agrees u (pendingState (captureFlush a w))
  /\ state (store (captureFlush a w)) = state (store w).
Proof.
  intros Hr Hu. unfold captureFlush, republishRequests, allocArray.
  match goal with |- context [setState ?v ?x] =>
    destruct (setState_pending v x) as (Hp & _ & Hst) end.
  unfold pendingState in *.
  cbn [store setCapture]. rewrite Hp, Hst. cbn [store setHeap].
  split; [|reflexivity].
  rewrite assignAll_snoc, spread_requestsUpdate. by apply agrees_withRequests.
Qed.

(** If the pending batch ends with [u] and a flush is among the
    callbacks of the frame, the state agrees with [u] when the frame is
    over. *)
Lemma frame_applies u (rest : list (positive * FrameCallback)) w :
  u_requests u = None -> u_selectedIndex u = None ->
  agrees u (pendingState w) ->
  StoreFlush ∈ (snd <$> rest) \/ agrees u (state (store w)) ->
  agrees u (state (store (fold_left (fun acc cb => runFrameCallback (snd cb) acc) rest w))).
Proof.
  intros Hr Hs. revert w. induction rest as [|[handle cb] rest IH]; intros w Hp Hor.
  - destruct Hor as [Hin|Hst]; [by apply elem_of_nil in Hin | exact Hst].
  - cbn [fold_left snd]. destruct cb as [|a|]; cbn [runFrameCallback].
    + destruct (storeFlush_agrees u w Hs Hp) as [Hst Heq].
      apply IH; [by rewrite Heq | by right].
    + destruct (captureFlush_agrees u a w Hr Hp) as [Hp' Hst].
      apply IH; [exact Hp'|]. rewrite Hst.
      destruct Hor as [Hin|?]; [left | by right].
      rewrite fmap_cons in Hin. cbn in Hin.
      apply elem_of_cons in Hin as [?|?]; [discriminate | done].
    + apply IH; [exact Hp|].
      destruct Hor as [Hin|?]; [left | by right].
      rewrite fmap_cons in Hin. cbn in Hin.
      apply elem_of_cons in Hin as [?|?]; [discriminate | done].
Qed.

(** The panel's globals stay installed. *)
Lemma window_setState u w : window (setState u w) = window w.
Proof. unfold setState. simpl. by destruct (rafId (store w)). Qed.

Ltac window_tac :=
  repeat first
    [ reflexivity
    | rewrite window_setState
    | match goal with
      | |- context [if ?b then _ else _] => destruct b
      | |- context [match ?x with _ => _ end] => destruct x
      end ].

Lemma window_deleteRequest i w : window (deleteRequest i w) = window w.
Proof. unfold deleteRequest. window_tac. Qed.

Lemma window_clearRequests w : window (clearRequests w) = window w.
Proof. reflexivity. Qed.

Lemma window_addRequest r w : window (addRequest r w) = window w.
Proof. unfold addRequest. window_tac. Qed.

Lemma window_pressG f w :
  (forall w', window (f w') = window w') -> window (pressG f w) = window w.
Proof.
  intros Hf. unfold pressG, clearSequenceTimeout, armSequenceTimeout.
  destruct (sequenceTimeout _); destruct (bool_decide _); cbn; rewrite ?Hf; reflexivity.
Qed.

Lemma window_delegate b c a w : window (delegate b c a w) = window w.
Proof. by destruct b. Qed.

Lemma window_scrollInspectPanel e w : window (scrollInspectPanel e w) = window w.
Proof. unfold scrollInspectPanel. window_tac. Qed.

Lemma window_switchToPanel t f w : window (switchToPanel t f w) = window w.
Proof. unfold switchToPanel. cbn. apply window_setState. Qed.

Lemma window_nextInspectSearchMatch d w : window (nextInspectSearchMatch d w) = window w.
Proof.
  unfold nextInspectSearchMatch. destruct (_ =? _); [reflexivity|].
  rewrite window_delegate. apply window_setState.
Qed.

Lemma window_handleJsonYankSequence e w : window (handleJsonYankSequence e w) = window w.
Proof.
  unfold handleJsonYankSequence, clearSequenceTimeout, armSequenceTimeout.
  destruct (sequenceTimeout _); repeat (destruct (bool_decide _)); cbn;
    rewrite ?window_delegate; reflexivity.
Qed.

Lemma window_inspectCommonKeys e w : window (inspectCommonKeys e w) = window w.
Proof.
  unfold inspectCommonKeys.
  repeat match goal with |- context [if ?b then _ else _] => destruct b end;
    rewrite ?window_scrollInspectPanel, ?window_nextInspectSearchMatch, ?window_delegate;
    reflexivity.
Qed.

Lemma window_handleInspectMode e w : window (handleInspectMode e w) = window w.
Proof.
  unfold handleInspectMode, inspectHeadersKeys, inspectPreviewKeys, inspectResponseKeys,
    cycleInspectFocus.
  repeat match goal with |- context [if ?b then _ else _] => destruct b end;
    rewrite ?window_setState, ?window_switchToPanel, ?window_inspectCommonKeys,
      ?window_scrollInspectPanel, ?window_handleJsonYankSequence, ?window_delegate;
    try reflexivity;
    apply window_pressG; intros w';
    rewrite ?window_delegate, ?window_scrollInspectPanel; reflexivity.
Qed.

Lemma window_simpleModes e w :
  window (handleSearchMode e w) = window w
  /\ window (handleFilterMode e w) = window w
  /\ window (handleCopyMode e w) = window w.
Proof.
  unfold handleSearchMode, handleFilterMode, handleCopyMode.
  repeat split;
    repeat match goal with |- context [if ?b then _ else _] => destruct b end;
    rewrite ?window_setState, ?window_delegate; reflexivity.
Qed.

Lemma window_clearSequenceTimeout w : window (clearSequenceTimeout w) = window w.
Proof. unfold clearSequenceTimeout. by destruct (sequenceTimeout _). Qed.

Lemma window_armSequenceTimeout cb d w : window (armSequenceTimeout cb d w) = window w.
Proof. reflexivity. Qed.

Lemma window_handleDSequence w : window (handleDSequence w) = window w.
Proof.
  unfold handleDSequence.
  repeat (destruct (bool_decide _));
    rewrite ?window_armSequenceTimeout;
    try change (window (setKeySequence ?k ?x)) with (window x);
    rewrite ?window_deleteRequest, ?window_clearRequests, ?window_clearSequenceTimeout;
    reflexivity.
Qed.

Lemma window_captureFlush a w : window (captureFlush a w) = window w.
Proof. unfold captureFlush, republishRequests. cbn. by rewrite window_setState. Qed.

Lemma window_storeFlush w : window (storeFlush w) = window w.
Proof.
  unfold storeFlush.
  by destruct (isDefined _ || isDefined _); destruct (isDefined _ && isNone _).
Qed.

Lemma window_runFrameCallbacks (rest : list (positive * FrameCallback)) w :
  window (fold_left (fun acc cb => runFrameCallback (snd cb) acc) rest w) = window w.
Proof.
  revert w. induction rest as [|[handle cb] rest IH]; intros w; [reflexivity|].
  cbn [fold_left snd]. rewrite IH. destruct cb; cbn [runFrameCallback];
    [apply window_storeFlush | apply window_captureFlush | reflexivity].
Qed.

Lemma window_fold_toggleType c s ts w :
  window (fold_left (fun acc t => toggleType c s t acc) ts w) = window w.
Proof.
  revert w. induction ts as [|t ts IH]; intros w; [reflexivity|].
  cbn [fold_left]. by rewrite IH.
Qed.

Section WindowPanel.

Context `{External}.

Lemma window_handleKeyDown e w : window (handleKeyDown e w) = window w.
Proof.
  unfold handleKeyDown. destruct (window_simpleModes e w) as (Hs & Hf & Hc).
  destruct (mode (getState w)); try assumption; [|apply window_handleInspectMode].
  unfold handleNormalMode.
  pose proof (state_getFilteredRequests w) as (_ & _ & _ & _ & _ & _ & _ & _ & Hw).
  destruct (getFilteredRequests w) as [view w1]. cbn [snd] in Hw. rewrite <- Hw.
  assert (Hn : forall n, window (normalKeys e (getState w) n w1) = window w1).
  { intros n. unfold normalKeys, moveSelection, handleGSequence.
    repeat match goal with |- context [if ?b then _ else _] => destruct b end;
      rewrite ?window_setState, ?window_delegate, ?window_handleDSequence;
      try reflexivity.
    - apply window_pressG. intros w'. apply window_setState.
    - cbn. apply window_setState. }
  repeat match goal with |- context [if ?b then _ else _] => destruct b end;
    rewrite ?window_setState, ?window_delegate; apply Hn.
Qed.

Lemma window_step w ev : window (step w ev) = window w.
Proof.
  destruct ev; cbn [step].
  - apply window_handleKeyDown.
  - unfold fireTimer. destruct (List.find _ _) as [[? [? cb]]|]; [|reflexivity].
    destruct cb; cbn; [reflexivity|].
    destruct (bool_decide _); rewrite ?window_delegate; reflexivity.
  - unfold animationFrame. by rewrite window_runFrameCallbacks.
  - unfold handleDebuggerEvent. destruct (negb _); [reflexivity|].
    destruct e.
    + unfold handleRequestWillBeSent.
      destruct (isMainFrameNavigation _ _);
        destruct (allocRequest _ _);
        change (window (setCapture ?c ?x)) with (window x);
        by rewrite window_addRequest.
    + unfold handleResponseReceived. by destruct (findRequest _ _ _).
    + unfold handleLoadingFinished. destruct (findRequest _ _ _); [|reflexivity].
      cbn. by destruct (updateBatchRafId _).
    + unfold handleLoadingFailed. destruct (findRequest _ _ _); [|reflexivity].
      cbn. unfold republishRequests. cbn. by rewrite window_setState.
    + reflexivity.
  - unfold handleDebuggerDetach. by destruct (negb _).
  - reflexivity.
  - apply window_setState.
  - unfold handleCheckboxChange. rewrite window_setState.
    destruct (bool_decide _); [by destruct checked|].
    destruct (findFilterOption v) as [[|ts|t]|]; try reflexivity.
    apply window_fold_toggleType.
  - unfold filtersLoaded. rewrite window_setState, window_fold_toggleType. reflexivity.
  - unfold setNodeExpanded. by rewrite window_setState.
  - unfold storeResponseBody. by destruct (_ !! _).
  - destruct (presentationOnly u); [apply window_setState | reflexivity].
  - by pose proof (state_getFilteredRequests w) as (_ & _ & _ & _ & _ & _ & _ & _ & Hw).
  - unfold subscribe. by destruct (bool_decide _).
  - reflexivity.
Qed.

Lemma window_run evs w : window (run w evs) = window w.
Proof.
  revert w. induction evs as [|ev evs IH]; intros w; [reflexivity|].
  cbn [run fold_left]. fold (run (step w ev) evs). by rewrite IH, window_step.
Qed.

End WindowPanel.

Lemma agrees_leaveUpdate m st :
  agrees (leaveUpdate m) st ->
  mode st = NORMAL
  /\ (m = SEARCH -> searchQuery st = "")
  /\ (m = INSPECT ->
      inspectFocus st = HEADERS /\ inspectSearchQuery st = ""
      /\ inspectSearchMatches st = [] /\ inspectSearchIndex st = 0
      /\ headersSelectedIndex st = 0 /\ isInspectExpanded st = false).
Proof.
  unfold agrees. intros Hu.
  split; [by rewrite <- Hu; destruct m|].
  split; intros ->; rewrite <- Hu; repeat split; reflexivity.
Qed.

Lemma leaveUpdate_plain m :
  u_requests (leaveUpdate m) = None /\ u_selectedIndex (leaveUpdate m) = None.
Proof. by destruct m. Qed.

Section Modes.

Context `{External}.

Lemma handleKeyDown_leaves (e : KeyboardEvent) (w : World) :
  mode (state (store w)) <> NORMAL ->
  copyMenu (window w) = true ->
  ev_key e = "q" \/ (mode (state (store w)) = COPY /\ ev_key e = "Escape") ->
  handleKeyDown e w = setState (leaveUpdate (mode (state (store w)))) w.
Proof.
  intros Hm Hc Hk. unfold handleKeyDown, getState.
  destruct (mode (state (store w))) eqn:E; [done| | | |].
  - destruct Hk as [Hk|[? _]]; [|done].
    unfold handleSearchMode, keyIs. by rewrite bool_decide_eq_true_2.
  - destruct Hk as [Hk|[? _]]; [|done].
    unfold handleFilterMode, keyIs. by rewrite bool_decide_eq_true_2.
  - destruct Hk as [Hk|[? _]]; [|done].
    unfold handleInspectMode, keyIs. by rewrite bool_decide_eq_true_2.
  - unfold handleCopyMode, keyIs. rewrite Hc. cbn [negb].
    destruct Hk as [Hk|[_ Hk]]; rewrite Hk; reflexivity.
Qed.

(** C8. In any state the panel reaches, in a mode other than NORMAL, the
    key [q] (in COPY mode also [Escape]) followed by the next animation
    frame leaves the store in NORMAL mode; leaving SEARCH the search
    query is empty, and leaving INSPECT the focus is HEADERS, the
    in-panel search query, matches and index are cleared, the selected
    header is the first one and the full-width view is closed. *)
Theorem q_returns_to_normal (tab : Z) (evs : list Event) (e : KeyboardEvent) :
  let w := run (initialWorld tab) evs in
  let m := mode (state (store w)) in
  m <> NORMAL ->
  ev_key e = "q" \/ (m = COPY /\ ev_key e = "Escape") ->
  let st' := state (store (step (step w (EvKeyDown e)) EvAnimationFrame)) in
  mode st' = NORMAL
  /\ (m = SEARCH -> searchQuery st' = "")
  /\ (m = INSPECT ->
      inspectFocus st' = HEADERS /\ inspectSearchQuery st' = ""
      /\ inspectSearchMatches st' = [] /\ inspectSearchIndex st' = 0
      /\ headersSelectedIndex st' = 0 /\ isInspectExpanded st' = false).
Proof.
  intros w m Hm Hk st'. apply agrees_leaveUpdate. subst st'. cbn [step].
  assert (HI : Inv w) by (apply Inv_run, Inv_initialWorld).
  assert (Hc : copyMenu (window w) = true) by (subst w; by rewrite window_run).
  rewrite (handleKeyDown_leaves e w Hm Hc Hk). fold m.
  destruct (leaveUpdate_plain m) as [Hr Hs].
  pose proof (Inv_plainState (leaveUpdate m) w Hr Hs HI) as (_ & _ & Hraf).
  destruct (setState_pending (leaveUpdate m) w) as (_ & Hid & _).
  unfold animationFrame. apply frame_applies; [exact Hr | exact Hs | | left; exact (Hraf Hid)].
  apply (pendingState_setState (leaveUpdate m) w).
Qed.

End Modes.

(** C8, witness: [q] pressed in SEARCH mode with the query [api] typed,
    and in INSPECT mode with the full-width view open on the response
    panel. *)
Lemma q_returns_to_normal_witness :
  let leave w :=
    state (store (step (H := containsSearch)
                    (step (H := containsSearch) w (EvKeyDown (keyPress "q")))
                    EvAnimationFrame)) in
  let ws := run (H := containsSearch) (initialWorld 7) searching in
  let wi := run (H := containsSearch) (initialWorld 7) inspecting in
  (mode (state (store ws)) = SEARCH /\ searchQuery (state (store ws)) = "api"
   /\ mode (leave ws) = NORMAL /\ searchQuery (leave ws) = "")
  /\ (mode (state (store wi)) = INSPECT /\ isInspectExpanded (state (store wi)) = true
      /\ mode (leave wi) = NORMAL /\ inspectFocus (leave wi) = HEADERS
      /\ isInspectExpanded (leave wi) = false).
Proof.
  intros leave ws wi. split.
  - assert (Hm : mode (state (store ws)) = SEARCH) by (vm_compute; reflexivity).
    assert (Hq : searchQuery (state (store ws)) = "api") by (vm_compute; reflexivity).
    pose proof (q_returns_to_normal (H := containsSearch) 7 searching (keyPress "q")) as Hleave.
    cbv zeta in Hleave. fold ws in Hleave.
    destruct Hleave as (Hn & Hs & _).
    + rewrite Hm. discriminate.
    + left. reflexivity.
    + split; [exact Hm|]. split; [exact Hq|]. split; [exact Hn | exact (Hs Hm)].
  - assert (Hm : mode (state (store wi)) = INSPECT) by (vm_compute; reflexivity).
    assert (Hx : isInspectExpanded (state (store wi)) = true) by (vm_compute; reflexivity).
    pose proof (q_returns_to_normal (H := containsSearch) 7 inspecting (keyPress "q")) as Hleave.
    cbv zeta in Hleave. fold wi in Hleave.
    destruct Hleave as (Hn & _ & Hi).
    + rewrite Hm. discriminate.
    + left. reflexivity.
    + destruct (Hi Hm) as (Hf & _ & _ & _ & _ & Hc).
      split; [exact Hm|]. split; [exact Hx|]. split; [exact Hn|]. split; [exact Hf | exact Hc].
Defined.

(** C2, witness: a read that hits the cache, a first read that computes
    the view without a query, a first read after a keystroke in the
    search box, which constructs the index and searches it, and the
    flush of a keystroke, which empties the cache. *)
Lemma filtered_view_memoized_witness :
  (exists v, getFilteredRequests (H := containsSearch) secondSelected = (v, secondSelected))
  /\ readArray (heap (snd (getFilteredRequests (H := containsSearch) threeRequests)))
               (fst (getFilteredRequests (H := containsSearch) threeRequests))
     = storedRequests threeRequests
  /\ (let w := storeFlush queryPending in
      readArray (heap (snd (getFilteredRequests (H := containsSearch) w)))
                (fst (getFilteredRequests (H := containsSearch) w))
      = spec_filteredView (H := containsSearch) (heap w) (storedRequests w)
                          (searchQuery (state (store w))) (activeTypes w))
  /\ cachedRequests (filteredRequestsCache (store (storeFlush queryPending))) = None.
Proof.
  split; [|split; [|split]].
  - destruct (filtered_view_memoized (H := containsSearch) secondSelected) as (Hhit & _ & _).
    destruct (cachedRequests (filteredRequestsCache (store secondSelected))) as [v|] eqn:E.
    + exists v. apply Hhit; [reflexivity | vm_compute; reflexivity].
    + vm_compute in E. discriminate.
  - destruct (filtered_view_memoized (H := containsSearch) threeRequests) as (_ & Hmiss & _).
    destruct Hmiss as (Hv & _); [left; vm_compute; reflexivity|].
    etrans; [apply Hv; vm_compute; reflexivity | vm_compute; reflexivity].
  - intros w.
    destruct (filtered_view_memoized (H := containsSearch) w) as (_ & Hmiss & _).
    destruct Hmiss as (_ & _ & Hv & _); [left; vm_compute; reflexivity|].
    apply Hv. right. vm_compute. reflexivity.
  - destruct (filtered_view_memoized (H := containsSearch) queryPending) as (_ & _ & Hflush).
    apply Hflush. left. vm_compute. discriminate.
Defined.



(** With the second request selected, the flush of a keystroke resets
    the selection, the flush of a mode change keeps it, and a deletion
    keeps it within the stored requests. *)
Lemma selection_clamping_witness :
  selectedIndex (state (store secondSelected)) = 1
  /\ selectedIndex (state (store (storeFlush queryPending))) = 0
  /\ selectedIndex (state (store (storeFlush modePending))) = 1
  /\ 0 <= selectedIndex (state (store (deleteRequest 1 secondSelected)))
     <= Z.max 0 (jsLength (storedRequests (deleteRequest 1 secondSelected)) - 1).
Proof.
  destruct (selection_clamping (H := containsSearch)) as (_ & _ & Hreset & _ & Hdel & Hkeep).
  split; [vm_compute; reflexivity|]. split; [|split].
  - apply Hreset; [vm_compute; discriminate | vm_compute; reflexivity].
  - etrans; [apply Hkeep; vm_compute; reflexivity | vm_compute; reflexivity].
  - destruct (Hdel 1 secondSelected) as (_ & Hrange). apply Hrange. vm_compute. discriminate.
Defined.

(** C9, witness: with five requests and the main frame [F] tracked, a
    document of frame [F] leaves its own request alone, and a document
    of frame [G] leaves six, the sixth being its own. *)
Lemma initiated_event_effect_witness :
  let reload := initiatedParams "n" "Document" "F" in
  let iframe := initiatedParams "i" "Document" "G" in
  let afterReload := handleRequestWillBeSent (H := containsSearch) reload fiveRequests in
  let afterIframe := handleRequestWillBeSent (H := containsSearch) iframe fiveRequests in
  let built rid ty :=
    {| r_id := rid; r_url := "https://example.test/" +:+ rid;
       r_name := "https://example.test/" +:+ rid; r_method := "GET"; r_type := ty;
       r_status := 0; r_statusText := "Pending"; r_timestamp := 1000; r_duration := 0;
       r_size := 0; r_requestHeaders := []; r_responseHeaders := [];
       r_requestBody := None; r_responseBody := None; r_initiator := None |} in
  jsLength (storedRequests fiveRequests) = 5
  /\ storeView afterReload = [built "n" DOC]
  /\ pendingRequests (capture afterReload) = {[ "n" := S (nextLoc (heap fiveRequests)) ]}
  /\ storedRequests afterIframe = storedRequests fiveRequests ++ [nextLoc (heap fiveRequests)]
  /\ readRequest (heap afterIframe) (nextLoc (heap fiveRequests)) = built "i" DOC.
Proof.
  intros reload iframe afterReload afterIframe built.
  split; [vm_compute; reflexivity|].
  destruct (initiated_event_effect (H := containsSearch) reload fiveRequests) as (Hclear & _).
  destruct Hclear as (Hsole & Hrec & _ & _ & Hpending & _);
    [reflexivity | right; right; vm_compute; reflexivity|].
  destruct (initiated_event_effect (H := containsSearch) iframe fiveRequests) as (_ & Hkeep).
  destruct Hkeep as (_ & Happend & Hrec' & _).
  { right. exists "F". split; [vm_compute; reflexivity|]. split; discriminate. }
  split.
  { unfold storeView. fold afterReload in Hsole, Hrec. rewrite Hsole. cbn [List.map].
    rewrite Hrec. vm_compute. reflexivity. }
  split; [exact Hpending|].
  split; [apply Happend; vm_compute; reflexivity|].
  etrans; [exact Hrec' | vm_compute; reflexivity].
Defined.

(** * Further properties of the embedded code *)

(** ** The store while a [requests] update is pending *)

Lemma storedRequests_storeFlush w :
  storedRequests (storeFlush w)
  = readArray (heap w) (default (requests (state (store w)))
                                (lastWrite u_requests (pendingUpdates (store w)))).
Proof.
  unfold storedRequests. rewrite storeFlush_state.
  destruct (storeFlush_effects w) as (_ & _ & _ & _ & _ & ->). reflexivity.
Qed.

Lemma requests_addRequest r w :
  requests (state (store (addRequest r w))) = requests (state (store w)).
Proof.
  unfold addRequest. destruct (MAX_REQUESTS <? _); [destruct (_ <? _)|]; reflexivity.
Qed.

Lemma readArray_addRequest r w b :
  b <> requests (state (store w)) ->
  readArray (heap (addRequest r w)) b = readArray (heap w) b.
Proof.
  intros Hb. unfold addRequest.
  destruct (MAX_REQUESTS <? _); [destruct (_ <? _)|];
    cbn [heap notifyListeners observe setSelectedIndex setStore setHeap];
    rewrite ?readArray_writeArray_ne by congruence; reflexivity.
Qed.

Lemma nextLoc_addRequest r w : nextLoc (heap (addRequest r w)) = nextLoc (heap w).
Proof.
  unfold addRequest. destruct (MAX_REQUESTS <? _); [destruct (_ <? _)|]; reflexivity.
Qed.

(** What [republishRequests] does: a new array with the elements that
    [a] has now, queued as the next value of [requests]. *)
Lemma republishRequests_effects a w :
  let w' := republishRequests a w in
  let copy := nextLoc (heap w) in
  state (store w') = state (store w)
  /\ pendingUpdates (store w') = pendingUpdates (store w) ++ [requestsUpdate copy]
  /\ readArray (heap w') copy = readArray (heap w) a
  /\ (forall b, b <> copy -> readArray (heap w') b = readArray (heap w) b)
  /\ (forall r, readRequest (heap w') r = readRequest (heap w) r)
  /\ nextLoc (heap w') = S copy
  /\ rafId (store w') <> None
  /\ frameCallbacks w'
     = frameCallbacks w ++ match rafId (store w) with Some _ => [] | None => [(nextHandle w, StoreFlush)] end
  /\ trace w' = trace w
  /\ capture w' = capture w
  /\ listeners (store w') = listeners (store w).
Proof.
  unfold republishRequests, allocArray, setState.
  cbn [store setStore setHeap withPendingUpdates rafId pendingUpdates].
  destruct (rafId (store w)) eqn:E;
    cbn [store setStore setHeap withPendingUpdates withRafId rafId pendingUpdates state heap
         frameCallbacks requestAnimationFrame trace capture listeners];
    rewrite ?app_nil_r; autorewrite with heap;
    (repeat split; try reflexivity; try done);
    try congruence;
    intros b Hb; rewrite readArray_bump; by apply readArray_writeArray_ne.
Qed.

Section StaleArrays.

Context `{External}.

Lemma handleRequestWillBeSent_insert p w :
  handleRequestWillBeSent p w
  = insertRequest p
      (if isMainFrameNavigation (mainFrameId (capture w)) p
       then clearRequests
              (clearCaches (setCapture (withMainFrameId (Some (rq_frameId p)) (capture w)) w))
       else w).
Proof. reflexivity. Qed.

Lemma insertRequest_effects p w :
  let new := nextLoc (heap w) in
  let w' := insertRequest p w in
  storedRequests w'
  = drop (Z.to_nat (jsLength (storedRequests w) + 1 - MAX_REQUESTS)) (storedRequests w ++ [new])
  /\ readRequest (heap w') new = newRequest p
  /\ (forall q, q <> new -> readRequest (heap w') q = readRequest (heap w) q)
  /\ requests (state (store w')) = requests (state (store w))
  /\ (forall b, b <> requests (state (store w)) -> readArray (heap w') b = readArray (heap w) b)
  /\ nextLoc (heap w') = S new
  /\ pendingUpdates (store w') = pendingUpdates (store w)
  /\ rafId (store w') = rafId (store w)
  /\ frameCallbacks w' = frameCallbacks w
  /\ nextHandle w' = nextHandle w
  /\ mainFrameId (capture w') = mainFrameId (capture w)
  /\ pendingRequests (capture w') = <[rq_requestId p := new]> (pendingRequests (capture w)).
Proof.
  intros new w'. subst new w'. unfold insertRequest, allocRequest.
  set (w0 := setHeap (bump (writeRequest (nextLoc (heap w)) (newRequest p) (heap w))) w).
  change (storedRequests (setCapture ?c ?x)) with (storedRequests x).
  change (heap (setCapture ?c ?x)) with (heap x).
  change (store (setCapture ?c ?x)) with (store x).
  change (frameCallbacks (setCapture ?c ?x)) with (frameCallbacks x).
  change (nextHandle (setCapture ?c ?x)) with (nextHandle x).
  destruct (addRequest_effects (nextLoc (heap w)) w0) as (_ & _ & Hp & Hr & Hf & Hc).
  assert (Hh : nextHandle (addRequest (nextLoc (heap w)) w0) = nextHandle w)
    by (unfold addRequest; destruct (MAX_REQUESTS <? _); [destruct (_ <? _)|]; reflexivity).
  rewrite storedRequests_addRequest, requests_addRequest, nextLoc_addRequest, Hp, Hr, Hf, Hh.
  cbn [mainFrameId pendingRequests withCaches capture setCapture]. rewrite Hc.
  repeat split; try reflexivity.
  - rewrite heap_addRequest_requests. subst w0. cbn [heap setHeap].
    rewrite readRequest_bump, readRequest_writeRequest. by destruct (decide _).
  - intros q Hq. rewrite heap_addRequest_requests. subst w0. cbn [heap setHeap].
    rewrite readRequest_bump, readRequest_writeRequest. by destruct (decide _).
  - intros b Hb. by rewrite readArray_addRequest.
Qed.

Lemma handleRequestWillBeSent_keep p w :
  isMainFrameNavigation (mainFrameId (capture w)) p = false ->
  let new := nextLoc (heap w) in
  let w' := handleRequestWillBeSent p w in
  storedRequests w'
  = drop (Z.to_nat (jsLength (storedRequests w) + 1 - MAX_REQUESTS)) (storedRequests w ++ [new])
  /\ readRequest (heap w') new = newRequest p
  /\ requests (state (store w')) = requests (state (store w))
  /\ (forall b, b <> requests (state (store w)) -> readArray (heap w') b = readArray (heap w) b)
  /\ nextLoc (heap w') = S new
  /\ pendingUpdates (store w') = pendingUpdates (store w)
  /\ rafId (store w') = rafId (store w)
  /\ frameCallbacks w' = frameCallbacks w
  /\ mainFrameId (capture w') = mainFrameId (capture w).
Proof.
  intros Hnav. cbv zeta. rewrite handleRequestWillBeSent_insert, Hnav.
  pose proof (insertRequest_effects p w) as Hi. cbv zeta in Hi. tauto.
Qed.

Lemma last_drop_snoc {A} (k : nat) (l : list A) (x : A) :
  (k <= length l)%nat -> last (drop k (l ++ [x])) = Some x.
Proof.
  intros Hk. rewrite drop_app_le by lia. apply last_snoc.
Qed.

Lemma handleLoadingFailed_found p w r :
  findRequest (heap w) (requests (state (store w))) (lx_requestId p) = Some r ->
  let w' := handleLoadingFailed p w in
  let copy := nextLoc (heap w) in
  state (store w') = state (store w)
  /\ pendingUpdates (store w') = pendingUpdates (store w) ++ [requestsUpdate copy]
  /\ readArray (heap w') copy = storedRequests w
  /\ (forall b, b <> copy -> readArray (heap w') b = readArray (heap w) b)
  /\ frameCallbacks w'
     = frameCallbacks w ++ match rafId (store w) with
                           | Some _ => []
                           | None => [(nextHandle w, StoreFlush)]
                           end
  /\ mainFrameId (capture w') = mainFrameId (capture w)
  /\ trace w' = trace w.
Proof.
  intros Hfind w' copy. subst w' copy. unfold handleLoadingFailed, getState. rewrite Hfind.
  match goal with |- context [republishRequests ?a ?x] =>
    destruct (republishRequests_effects a x)
      as (Hst & Hpe & Hcopy & Hother & _ & _ & _ & Hfc & Ht & Hc & _) end.
  change (nextLoc (heap (setHeap (writeRequest ?q ?v ?h) ?x))) with (nextLoc h) in *.
  change (readArray (heap (setHeap (writeRequest ?q ?v ?h) ?x)) ?b) with (readArray h b) in *.
  change (store (setHeap ?h ?x)) with (store x) in Hst, Hpe, Hfc.
  change (frameCallbacks (setHeap ?h ?x)) with (frameCallbacks x) in Hfc.
  change (nextHandle (setHeap ?h ?x)) with (nextHandle x) in Hfc.
  change (trace (setHeap ?h ?x)) with (trace x) in Ht.
  change (capture (setHeap ?h ?x)) with (capture x) in Hc.
  change (store (setCapture ?c ?x)) with (store x).
  change (heap (setCapture ?c ?x)) with (heap x).
  change (frameCallbacks (setCapture ?c ?x)) with (frameCallbacks x).
  change (trace (setCapture ?c ?x)) with (trace x).
  change (mainFrameId (capture (setCapture (withCaches ?a ?b ?c ?d) ?x)))
    with (mainFrameId d).
  rewrite Hst, Hpe, Hcopy, Hfc, Ht, Hc. repeat split; try reflexivity. exact Hother.
Qed.

Lemma idle_store w :
  rafInv w -> frameCallbacks w = [] -> rafId (store w) = None.
Proof.
  intros Hraf Hq. destruct (rafId (store w)) eqn:E; [|done].
  unfold rafInv in Hraf. rewrite E, Hq in Hraf.
  exfalso. eapply not_elem_of_nil. by apply Hraf.
Qed.

(** The frame that follows a queued copy [c] of the collection installs
    [c], whatever happened meanwhile to the array it replaces. *)
Lemma frame_installs_copy (c : loc) (handle : positive) (w : World) :
  pendingUpdates (store w) = [requestsUpdate c] ->
  frameCallbacks w = [(handle, StoreFlush)] ->
  storedRequests (animationFrame w) = readArray (heap w) c
  /\ pendingUpdates (store (animationFrame w)) = []
  /\ frameCallbacks (animationFrame w) = [].
Proof.
  intros Hp Hf. unfold animationFrame. rewrite Hf. cbn [fold_left snd runFrameCallback].
  destruct (storeFlush_effects (setFrameCallbacks [] w)) as (_ & -> & _ & -> & _).
  split; [|done].
  rewrite storedRequests_storeFlush.
  change (store (setFrameCallbacks [] w)) with (store w).
  change (heap (setFrameCallbacks [] w)) with (heap w).
  by rewrite Hp.
Qed.

Lemma insertion_discarded (pf : LoadingFailedParams) (pq : RequestWillBeSentParams)
    (r : loc) (w : World) :
  (requests (state (store w)) < nextLoc (heap w))%nat ->
  rafId (store w) = None ->
  frameCallbacks w = [] ->
  pendingUpdates (store w) = [] ->
  findRequest (heap w) (requests (state (store w))) (lx_requestId pf) = Some r ->
  isMainFrameNavigation (mainFrameId (capture w)) pq = false ->
  let w1 := handleLoadingFailed pf w in
  let w2 := handleRequestWillBeSent pq w1 in
  let w3 := animationFrame w2 in
  let new := nextLoc (heap w1) in
  readRequest (heap w2) new = newRequest pq
  /\ last (storedRequests w2) = Some new
  /\ jsLength (storedRequests w2) = Z.min MAX_REQUESTS (jsLength (storedRequests w) + 1)
  /\ storedRequests w3 = storedRequests w
  /\ pendingUpdates (store w3) = []
  /\ frameCallbacks w3 = [].
Proof.
  intros Ha Hid Hq Hp Hfind Hnav. cbv zeta.
  destruct (handleLoadingFailed_found pf w r Hfind)
    as (Hst1 & Hp1 & Hcopy1 & Hother1 & Hf1 & Hm1 & _).
  generalize dependent (handleLoadingFailed pf w). intros w1 Hst1 Hp1 Hcopy1 Hother1 Hf1 Hm1.
  rewrite Hp in Hp1. rewrite Hq, Hid in Hf1. cbn [app] in Hp1, Hf1.
  destruct (handleRequestWillBeSent_keep pq w1) as
    (Hs2 & Hr2 & Hreq2 & Hother2 & _ & Hp2 & _ & Hf2 & _); [by rewrite Hm1|].
  generalize dependent (handleRequestWillBeSent pq w1). intros w2 Hs2 Hr2 Hreq2 Hother2 Hp2 Hf2.
  assert (Hs1 : storedRequests w1 = storedRequests w).
  { unfold storedRequests at 1. rewrite Hst1. apply Hother1. lia. }
  rewrite Hs1 in Hs2.
  split; [exact Hr2|]. split.
  { rewrite Hs2. apply last_drop_snoc. unfold jsLength, MAX_REQUESTS. lia. }
  split.
  { rewrite Hs2, jsLength_drop, jsLength_app. unfold jsLength, MAX_REQUESTS; simpl. lia. }
  destruct (frame_installs_copy (nextLoc (heap w)) (nextHandle w) w2) as (-> & -> & ->);
    [congruence | congruence |].
  split; [|done]. rewrite Hother2, Hcopy1; [done|]. rewrite Hst1. lia.
Qed.

(** X1.  From a reachable state with nothing queued, a failed request
    makes the reconciler queue a copy of the collection; a request that
    is initiated before the next animation frame is pushed onto the old
    array, and the frame then installs the copy: the collection is what
    it was before the insertion, and nothing is left pending that would
    bring the new request back. *)
Theorem insertion_before_flush_is_discarded (tab : Z) (evs : list Event)
    (pf : LoadingFailedParams) (pq : RequestWillBeSentParams) (r : loc) :
  let w := run (initialWorld tab) evs in
  frameCallbacks w = [] ->
  pendingUpdates (store w) = [] ->
  findRequest (heap w) (requests (state (store w))) (lx_requestId pf) = Some r ->
  isMainFrameNavigation (mainFrameId (capture w)) pq = false ->
  let w1 := handleLoadingFailed pf w in
  let w2 := handleRequestWillBeSent pq w1 in
  let w3 := animationFrame w2 in
  let new := nextLoc (heap w1) in
  readRequest (heap w2) new = newRequest pq
  /\ last (storedRequests w2) = Some new
  /\ jsLength (storedRequests w2) = Z.min MAX_REQUESTS (jsLength (storedRequests w) + 1)
  /\ storedRequests w3 = storedRequests w
  /\ pendingUpdates (store w3) = []
  /\ frameCallbacks w3 = [].
Proof.
  intros w Hq Hp Hfind Hnav.
  assert (HI : Inv w) by apply Inv_run, Inv_initialWorld.
  destruct HI as (Hcap & _ & Hraf).
  apply capInv_parts in Hcap as ((Ha & _) & _ & _).
  apply (insertion_discarded pf pq r w Ha (idle_store w Hraf Hq) Hq Hp Hfind Hnav).
Qed.

Lemma handleLoadingFinished_found p w r :
  findRequest (heap w) (requests (state (store w))) (lf_requestId p) = Some r ->
  let w' := handleLoadingFinished p w in
  state (store w') = state (store w)
  /\ pendingUpdates (store w') = pendingUpdates (store w)
  /\ rafId (store w') = rafId (store w)
  /\ (forall b, readArray (heap w') b = readArray (heap w) b)
  /\ nextLoc (heap w') = nextLoc (heap w)
  /\ r_size (readRequest (heap w') r) = lf_encodedDataLength p
  /\ r_duration (readRequest (heap w') r)
     = lf_timestamp p * 1000 - r_timestamp (readRequest (heap w) r)
  /\ (forall q, q <> r -> readRequest (heap w') q = readRequest (heap w) q)
  /\ frameCallbacks w'
     = frameCallbacks w ++ match updateBatchRafId (capture w) with
                           | Some _ => []
                           | None => [(nextHandle w, CaptureFlush (requests (state (store w))))]
                           end
  /\ updateBatchRafId (capture w') <> None
  /\ pendingRequests (capture w') = delete (lf_requestId p) (pendingRequests (capture w))
  /\ mainFrameId (capture w') = mainFrameId (capture w)
  /\ trace w' = trace w.
Proof.
  intros Hfind w'. subst w'. unfold handleLoadingFinished, getState. rewrite Hfind.
  cbn [capture setCapture setHeap withUIBatch updateBatchRafId].
  destruct (updateBatchRafId (capture w)) eqn:E;
    cbn [store setCapture setHeap heap frameCallbacks requestAnimationFrame capture
         withCaches withUIBatch updateBatchRafId pendingRequests mainFrameId trace
         pendingUIUpdates fst snd nextHandle];
    rewrite ?app_nil_r, ?readRequest_writeRequest;
    (split; [reflexivity|]); (split; [reflexivity|]); (split; [reflexivity|]);
    (split; [reflexivity|]); (split; [reflexivity|]);
    (split; [by destruct (decide (r = r))|]); (split; [by destruct (decide (r = r))|]);
    (split; [intros q Hq; rewrite readRequest_writeRequest; by destruct (decide (r = q))|]);
    repeat split; try reflexivity; congruence.
Qed.

Lemma clearRequests_fresh w :
  let w' := clearRequests w in
  let fresh := nextLoc (heap w) in
  requests (state (store w')) = fresh
  /\ readArray (heap w') fresh = []
  /\ nextLoc (heap w') = S fresh
  /\ (forall b, b <> fresh -> readArray (heap w') b = readArray (heap w) b)
  /\ (forall q, readRequest (heap w') q = readRequest (heap w) q)
  /\ nextHandle w' = nextHandle w.
Proof.
  unfold clearRequests, allocArray.
  cbn [heap setHeap store setStateRequests setSelectedIndex notifyListeners
       observe setStore state withState requests withRequests spread default from_option
       u_requests id nextHandle].
  autorewrite with heap. repeat split; try reflexivity.
  intros b Hb. rewrite readArray_bump. by apply readArray_writeArray_ne.
Qed.

Lemma handleRequestWillBeSent_clear p w :
  isMainFrameNavigation (mainFrameId (capture w)) p = true ->
  let w' := handleRequestWillBeSent p w in
  let fresh := nextLoc (heap w) in
  requests (state (store w')) = fresh
  /\ storedRequests w' = [S fresh]
  /\ readRequest (heap w') (S fresh) = newRequest p
  /\ (forall b, b <> fresh -> readArray (heap w') b = readArray (heap w) b)
  /\ pendingUpdates (store w') = pendingUpdates (store w)
  /\ rafId (store w') = rafId (store w)
  /\ frameCallbacks w' = frameCallbacks w
  /\ nextHandle w' = nextHandle w
  /\ mainFrameId (capture w') = Some (rq_frameId p).
Proof.
  intros Hnav. cbv zeta. rewrite handleRequestWillBeSent_insert, Hnav.
  match goal with |- context [clearRequests ?x] =>
    destruct (clearRequests_fresh x) as (Hreq & Hempty & Hnext & Hother & _ & Hh);
    destruct (clearRequests_effects x) as (_ & _ & Hp & Hr & Hf & Hc);
    assert (Hm : mainFrameId (capture x) = Some (rq_frameId p)) by reflexivity;
    rewrite <- Hc in Hm;
    change (heap x) with (heap w) in *;
    change (store x) with (store w) in Hp, Hr;
    change (frameCallbacks x) with (frameCallbacks w) in Hf;
    change (nextHandle x) with (nextHandle w) in Hh;
    generalize dependent (clearRequests x)
  end.
  intros w0 Hreq Hempty Hnext Hother Hh Hp Hr Hf _ Hm.
  destruct (insertRequest_effects p w0)
    as (Hs & Hnew & _ & Hreq' & Hother' & _ & Hp' & Hr' & Hf' & Hh' & Hm' & _).
  generalize dependent (insertRequest p w0). intros w1 Hs Hnew Hreq' Hother' Hp' Hr' Hf' Hh' Hm'.
  assert (Hs0 : storedRequests w0 = []) by (unfold storedRequests; by rewrite Hreq).
  rewrite Hs0, Hnext in Hs. rewrite Hnext in Hnew.
  split; [congruence|]. split; [exact Hs|]. split; [exact Hnew|]. split.
  { intros b Hb. rewrite Hother' by congruence. by apply Hother. }
  repeat split; congruence.
Qed.

Lemma captureFlush_idle a w :
  rafId (store w) = None -> pendingUpdates (store w) = [] -> frameCallbacks w = [] ->
  let w' := captureFlush a w in
  pendingUpdates (store w') = [requestsUpdate (nextLoc (heap w))]
  /\ frameCallbacks w' = [(nextHandle w, StoreFlush)]
  /\ readArray (heap w') (nextLoc (heap w)) = readArray (heap w) a.
Proof.
  intros Hid Hp Hq w'. subst w'. unfold captureFlush.
  destruct (republishRequests_effects a w) as (_ & Hpe & Hcopy & _ & _ & _ & _ & Hfc & _).
  change (store (setCapture ?c ?x)) with (store x).
  change (heap (setCapture ?c ?x)) with (heap x).
  change (frameCallbacks (setCapture ?c ?x)) with (frameCallbacks x).
  rewrite Hpe, Hfc, Hcopy, Hp, Hq, Hid. repeat split; reflexivity.
Qed.

Lemma navigation_undone (pf : LoadingFinishedParams) (pq : RequestWillBeSentParams)
    (r : loc) (w : World) :
  (requests (state (store w)) < nextLoc (heap w))%nat ->
  rafId (store w) = None ->
  frameCallbacks w = [] ->
  pendingUpdates (store w) = [] ->
  updateBatchRafId (capture w) = None ->
  findRequest (heap w) (requests (state (store w))) (lf_requestId pf) = Some r ->
  isMainFrameNavigation (mainFrameId (capture w)) pq = true ->
  let w1 := handleLoadingFinished pf w in
  let w2 := handleRequestWillBeSent pq w1 in
  let w4 := animationFrame (animationFrame w2) in
  storedRequests w2 = [S (nextLoc (heap w))]
  /\ readRequest (heap w2) (S (nextLoc (heap w))) = newRequest pq
  /\ storedRequests w4 = storedRequests w
  /\ pendingUpdates (store w4) = []
  /\ frameCallbacks w4 = [].
Proof.
  intros Ha Hid Hq Hp Hb Hfind Hnav. cbv zeta.
  destruct (handleLoadingFinished_found pf w r Hfind)
    as (Hst1 & Hp1 & Hid1 & Harr1 & Hn1 & _ & _ & _ & Hf1 & _ & _ & Hm1 & _).
  generalize dependent (handleLoadingFinished pf w).
  intros w1 Hst1 Hp1 Hid1 Harr1 Hn1 Hf1 Hm1.
  rewrite Hq, Hb in Hf1. cbn [app] in Hf1.
  destruct (handleRequestWillBeSent_clear pq w1) as
    (_ & Hs2 & Hr2 & Hother2 & Hp2 & Hid2 & Hf2 & Hh2 & _); [by rewrite Hm1|].
  generalize dependent (handleRequestWillBeSent pq w1).
  intros w2 Hs2 Hr2 Hother2 Hp2 Hid2 Hf2 Hh2.
  rewrite Hn1 in Hs2, Hr2, Hother2.
  split; [exact Hs2|]. split; [exact Hr2|].
  (* the first frame runs the reconciler's callback *)
  set (a := requests (state (store w))) in *.
  assert (Hfr : animationFrame w2 = captureFlush a (setFrameCallbacks [] w2)).
  { unfold animationFrame. by rewrite Hf2, Hf1. }
  rewrite Hfr.
  destruct (captureFlush_idle a (setFrameCallbacks [] w2)) as (Hp3 & Hf3 & Hc3);
    [cbn [store setFrameCallbacks]; congruence
    |cbn [store setFrameCallbacks]; congruence | reflexivity |].
  change (heap (setFrameCallbacks [] w2)) with (heap w2) in *.
  change (nextHandle (setFrameCallbacks [] w2)) with (nextHandle w2) in *.
  generalize dependent (captureFlush a (setFrameCallbacks [] w2)). intros w3 _ Hp3 Hf3 Hc3.
  destruct (frame_installs_copy (nextLoc (heap w2)) (nextHandle w2) w3 Hp3 Hf3)
    as (-> & -> & ->).
  split; [|done]. rewrite Hc3, Hother2 by lia. apply Harr1.
Qed.

(** X2.  From a reachable state with nothing queued, a finished request
    hands a frame callback a snapshot of the collection; when the page
    then navigates, the store starts a new collection with the document
    request, but the callback publishes a copy of the snapshot's array,
    and two frames later the collection is the previous page's again:
    the navigation's clearing is undone and the document request is
    gone. *)
Theorem finished_request_undoes_navigation (tab : Z) (evs : list Event)
    (pf : LoadingFinishedParams) (pq : RequestWillBeSentParams) (r : loc) :
  let w := run (initialWorld tab) evs in
  frameCallbacks w = [] ->
  pendingUpdates (store w) = [] ->
  updateBatchRafId (capture w) = None ->
  findRequest (heap w) (requests (state (store w))) (lf_requestId pf) = Some r ->
  isMainFrameNavigation (mainFrameId (capture w)) pq = true ->
  let w1 := handleLoadingFinished pf w in
  let w2 := handleRequestWillBeSent pq w1 in
  let w4 := animationFrame (animationFrame w2) in
  storedRequests w2 = [S (nextLoc (heap w))]
  /\ readRequest (heap w2) (S (nextLoc (heap w))) = newRequest pq
  /\ storedRequests w4 = storedRequests w
  /\ pendingUpdates (store w4) = []
  /\ frameCallbacks w4 = [].
Proof.
  intros w Hq Hp Hb Hfind Hnav.
  assert (HI : Inv w) by apply Inv_run, Inv_initialWorld.
  destruct HI as (Hcap & _ & Hraf).
  apply capInv_parts in Hcap as ((Ha & _) & _ & _).
  apply (navigation_undone pf pq r w Ha (idle_store w Hraf Hq) Hq Hp Hb Hfind Hnav).
Qed.

End StaleArrays.

(** X1, witness: the script [a] fails, the script [b] is initiated, and
    after the frame the collection holds the document and [a] only. *)
Lemma insertion_before_flush_is_discarded_witness :
  let w2 := handleRequestWillBeSent (H := containsSearch) (initiatedParams "b" "Script" "F")
              (handleLoadingFailed failedA twoRequests) in
  jsLength (storedRequests twoRequests) = 2
  /\ jsLength (storedRequests w2) = 3
  /\ storedRequests (animationFrame w2) = storedRequests twoRequests.
Proof.
  intros w2.
  destruct (insertion_before_flush_is_discarded (H := containsSearch) 7
              [initiated "d" "Document" "F"; initiated "a" "Script" "F"]
              failedA (initiatedParams "b" "Script" "F") 5%nat)
    as (_ & _ & Hlen & Hlost & _);
    [vm_compute; reflexivity | vm_compute; reflexivity | vm_compute; reflexivity
    | vm_compute; reflexivity |].
  split; [vm_compute; reflexivity|]. split; [|exact Hlost].
  etrans; [exact Hlen | vm_compute; reflexivity].
Defined.

(** X2, witness: the script [a] finishes, the page reloads, and after
    two frames the collection holds the old document and [a] again. *)
Lemma finished_request_undoes_navigation_witness :
  let w2 := handleRequestWillBeSent (H := containsSearch) (initiatedParams "n" "Document" "F")
              (handleLoadingFinished finishedA twoRequests) in
  jsLength (storedRequests w2) = 1
  /\ storedRequests (animationFrame (animationFrame w2)) = storedRequests twoRequests
  /\ jsLength (storedRequests twoRequests) = 2.
Proof.
  intros w2.
  destruct (finished_request_undoes_navigation (H := containsSearch) 7
              [initiated "d" "Document" "F"; initiated "a" "Script" "F"]
              finishedA (initiatedParams "n" "Document" "F") 5%nat)
    as (Hnew & _ & Hold & _);
    [vm_compute; reflexivity | vm_compute; reflexivity | vm_compute; reflexivity
    | vm_compute; reflexivity | vm_compute; reflexivity |].
  split; [|split; [exact Hold | vm_compute; reflexivity]].
  change (storedRequests w2) with
    (storedRequests (handleRequestWillBeSent (H := containsSearch)
                       (initiatedParams "n" "Document" "F")
                       (handleLoadingFinished finishedA
                          (run (H := containsSearch) (initialWorld 7)
                             [initiated "d" "Document" "F"; initiated "a" "Script" "F"])))).
  rewrite Hnew. reflexivity.
Defined.

(** ** Batching of finished requests *)

Lemma handleLoadingFinished_any p w :
  let w' := handleLoadingFinished p w in
  state (store w') = state (store w)
  /\ pendingUpdates (store w') = pendingUpdates (store w)
  /\ (forall b, readArray (heap w') b = readArray (heap w) b)
  /\ trace w' = trace w
  /\ (exists extra,
        frameCallbacks w' = frameCallbacks w ++ extra
        /\ (extra = []
            \/ updateBatchRafId (capture w) = None
               /\ extra = [(nextHandle w, CaptureFlush (requests (state (store w))))]))
  /\ (updateBatchRafId (capture w) <> None -> frameCallbacks w' = frameCallbacks w)
  /\ (frameCallbacks w' <> frameCallbacks w \/ updateBatchRafId (capture w) <> None ->
      updateBatchRafId (capture w') <> None).
Proof.
  cbv zeta.
  destruct (findRequest (heap w) (requests (state (store w))) (lf_requestId p)) as [r|] eqn:Hfind.
  - destruct (handleLoadingFinished_found p w r Hfind)
      as (Hst & Hp & _ & Harr & _ & _ & _ & _ & Hf & Hb & _ & _ & Ht).
    generalize dependent (handleLoadingFinished p w). intros w' Hst Hp Harr Hf Hb Ht.
    repeat split; try assumption.
    + destruct (updateBatchRafId (capture w)) eqn:E.
      * exists []. split; [exact Hf | by left].
      * exists [(nextHandle w, CaptureFlush (requests (state (store w))))].
        split; [exact Hf | right; split; reflexivity].
    + intros Hne. rewrite Hf. destruct (updateBatchRafId (capture w)); [apply app_nil_r | done].
    + intros _. exact Hb.
  - unfold handleLoadingFinished, getState. rewrite Hfind.
    repeat split; try reflexivity.
    + exists []. split; [by rewrite app_nil_r | by left].
    + by intros [Hne | Hne].
Qed.

(** X3.  Any number of finished requests handled before the next
    animation frame register at most one frame callback in all (none
    when one is already registered), and by themselves neither change
    the state, nor queue an update, nor notify a subscriber, nor touch
    an array: the list is republished once, by that callback. *)
Theorem finished_requests_share_one_callback (ps : list LoadingFinishedParams) (w : World) :
  let w' := fold_left (fun acc p => handleLoadingFinished p acc) ps w in
  state (store w') = state (store w)
  /\ pendingUpdates (store w') = pendingUpdates (store w)
  /\ (forall b, readArray (heap w') b = readArray (heap w) b)
  /\ trace w' = trace w
  /\ (exists extra,
        frameCallbacks w' = frameCallbacks w ++ extra
        /\ (extra = []
            \/ updateBatchRafId (capture w) = None
               /\ exists handle, extra = [(handle, CaptureFlush (requests (state (store w))))]))
  /\ (updateBatchRafId (capture w) <> None -> frameCallbacks w' = frameCallbacks w).
Proof.
  revert w. induction ps as [|p ps IH]; intros w; cbn [fold_left].
  - repeat split; try reflexivity. exists []. split; [by rewrite app_nil_r | by left].
  - destruct (handleLoadingFinished_any p w) as (Hst & Hp & Harr & Ht & Hex & Hkeep & Hid).
    generalize dependent (handleLoadingFinished p w). intros w1 Hst Hp Harr Ht Hex Hkeep Hid.
    specialize (IH w1). cbv zeta in IH.
    destruct IH as (Hst' & Hp' & Harr' & Ht' & Hex' & Hkeep').
    generalize dependent (fold_left (fun acc p => handleLoadingFinished p acc) ps w1).
    intros w2 Hst' Hp' Harr' Ht' Hex' Hkeep'.
    split; [congruence|]. split; [congruence|].
    split; [intros b; by rewrite Harr', Harr|]. split; [congruence|]. split.
    + destruct Hex as (extra & Hf & [-> | [Hnone ->]]).
      * rewrite app_nil_r in Hf. destruct Hex' as (extra' & Hf' & Hcase).
        exists extra'.
        split; [by rewrite Hf', Hf|].
        destruct Hcase as [-> | [Hnone (handle & ->)]]; [left; reflexivity|].
        right.
        split; [|exists handle; by rewrite Hst].
        destruct (updateBatchRafId (capture w)) eqn:E; [|reflexivity].
        exfalso.
        assert (Hsome : updateBatchRafId (capture w1) <> None)
          by (apply Hid; right; discriminate).
        exact (Hsome Hnone).
      * exists [(nextHandle w, CaptureFlush (requests (state (store w))))].
        split; [|right; split; [exact Hnone | exists (nextHandle w); reflexivity]].
        rewrite Hkeep', Hf; [reflexivity|].
        apply Hid. left. rewrite Hf. intros Heq.
        apply (f_equal length) in Heq. rewrite length_app in Heq. simpl in Heq. lia.
    + intros Hne. rewrite Hkeep', Hkeep; [reflexivity | exact Hne |].
      apply Hid. by right.
Qed.

(** ** The [d] sequences of NORMAL mode *)

Lemma splice_one {A} (i : Z) (l : list A) :
  (0 <= i < jsLength l -> splice i 1 l = take (Z.to_nat i) l ++ drop (S (Z.to_nat i)) l)
  /\ (jsLength l <= i -> splice i 1 l = l)
  /\ (- jsLength l <= i < 0 ->
      splice i 1 l = take (Z.to_nat (jsLength l + i)) l ++ drop (S (Z.to_nat (jsLength l + i))) l)
  /\ (i < - jsLength l -> splice i 1 l = drop 1 l).
Proof.
  unfold splice, spliceStart, jsLength.
  change (Z.to_nat (Z.max 1 0)) with 1%nat.
  repeat split; intros Hi.
  - rewrite (proj2 (Z.ltb_ge i 0)) by lia.
    rewrite (Nat.min_l (Z.to_nat i)) by lia.
    rewrite Nat.min_l by lia. by rewrite Nat.add_1_r.
  - rewrite (proj2 (Z.ltb_ge i 0)) by lia.
    rewrite (Nat.min_r (Z.to_nat i)) by lia.
    rewrite Nat.sub_diag, Nat.min_r, Nat.add_0_r by lia.
    apply take_drop.
  - rewrite (proj2 (Z.ltb_lt i 0)) by lia.
    rewrite Z.max_l by lia.
    rewrite Nat.min_l by lia. by rewrite Nat.add_1_r.
  - rewrite (proj2 (Z.ltb_lt i 0)) by lia.
    rewrite Z.max_r by lia. change (Z.to_nat 0) with 0%nat.
    rewrite Nat.sub_0_r. destruct l as [|x l]; [reflexivity|].
    rewrite Nat.min_l by (simpl; lia). reflexivity.
Qed.

Section DeleteKeys.

Context `{External}.

Lemma normalKeys_d e st n w : ev_key e = "d" -> normalKeys e st n w = handleDSequence w.
Proof. intros Hk. unfold normalKeys, keyIs. rewrite Hk. reflexivity. Qed.

Lemma handleNormalMode_d e w :
  ev_key e = "d" ->
  handleNormalMode e w = handleDSequence (snd (getFilteredRequests w)).
Proof.
  intros Hk. unfold handleNormalMode.
  destruct (getFilteredRequests w) as [view w1]. cbn [snd].
  rewrite normalKeys_d by exact Hk. unfold keyIs. rewrite Hk.
  change (bool_decide ("d" = "s")) with false.
  change (bool_decide ("d" = "H")) with false.
  change (bool_decide ("d" = "L")) with false.
  change (bool_decide ("d" = "P")) with false.
  by destruct (ctrlKey e), (shiftKey e).
Qed.

Lemma handleDSequence_dd w :
  keySequence (keyboard w) = "d" ->
  handleDSequence w
  = setKeySequence ""
      (deleteRequest (selectedIndex (state (store w)))
         (clearSequenceTimeout (setKeySequence "dd" w))).
Proof.
  intros Hk. unfold handleDSequence. rewrite Hk.
  change ("d" +:+ "d") with "dd".
  assert (Hseq : keySequence (keyboard (clearSequenceTimeout (setKeySequence "dd" w))) = "dd").
  { unfold clearSequenceTimeout. by destruct (sequenceTimeout _). }
  rewrite Hseq. change (bool_decide ("dd" = "dd")) with true. cbv iota.
  unfold getState, clearSequenceTimeout. by destruct (sequenceTimeout _).
Qed.

(** X4.  In NORMAL mode the second [d] of [dd] removes from the store
    the request at position [selectedIndex] of the stored collection
    (not of the filtered view, in which the selection is shown):
    exactly that element when the index is inside the collection, and
    nothing when it is past its end.  The sequence buffer is emptied
    and every subscriber is notified once. *)
Theorem dd_deletes_at_stored_index (tab : Z) (evs : list Event) (e : KeyboardEvent) :
  let w := run (initialWorld tab) evs in
  mode (state (store w)) = NORMAL ->
  keySequence (keyboard w) = "d" ->
  ev_key e = "d" ->
  let w' := handleKeyDown e w in
  let i := selectedIndex (state (store w)) in
  storedRequests w' = splice i 1 (storedRequests w)
  /\ (i < jsLength (storedRequests w) ->
      storedRequests w'
      = take (Z.to_nat i) (storedRequests w) ++ drop (S (Z.to_nat i)) (storedRequests w))
  /\ (jsLength (storedRequests w) <= i -> storedRequests w' = storedRequests w)
  /\ keySequence (keyboard w') = ""
  /\ forall l, notified l (trace w') = (notified l (trace w) + subscribed l w)%nat.
Proof.
  intros w Hm Hseq Hk.
  assert (HI : Inv w) by apply Inv_run, Inv_initialWorld.
  destruct HI as (Hcap & (Hsel & _) & _).
  apply capInv_parts in Hcap as ((Ha & _) & _ & _).
  cbv zeta. unfold handleKeyDown, getState. rewrite Hm.
  rewrite handleNormalMode_d by exact Hk.
  pose proof (state_getFilteredRequests w) as (Hst & _ & _ & Hl & _ & _ & Hkb & _).
  pose proof (extends_getFilteredRequests w) as (_ & Harr).
  assert (Htr : forall l, notified l (trace (snd (getFilteredRequests w))) = notified l (trace w)).
  { intros l. unfold getFilteredRequests, recomputeFiltered, baseResults, applyTypeFilter,
      rebuildFuseIndex, allocArray.
    destruct (cachedRequests _); [destruct (cacheValid w)|]; try reflexivity;
      destruct (fuseIndexStale w); cbn [fst snd];
      destruct (bool_decide _); cbn [fst snd];
      destruct (0 <? _); cbn [trace snd setStore setHeap observe];
      rewrite ?notified_app; cbn; lia. }
  generalize dependent (snd (getFilteredRequests w)). intros w1 Hst Hl Hkb Harr Htr.
  rewrite handleDSequence_dd by (by rewrite Hkb).
  assert (Hstored : storedRequests (setKeySequence ""
            (deleteRequest (selectedIndex (state (store w1)))
               (clearSequenceTimeout (setKeySequence "dd" w1))))
          = splice (selectedIndex (state (store w))) 1 (storedRequests w)).
  { change (storedRequests (setKeySequence ?s ?x)) with (storedRequests x).
    rewrite storedRequests_deleteRequest, Hst. f_equal.
    unfold storedRequests, clearSequenceTimeout.
    destruct (sequenceTimeout _); cbn [heap store clearTimeout setKeySequence setKeyboard];
      rewrite Hst; by apply Harr. }
  split; [exact Hstored|]. rewrite Hstored.
  destruct (splice_one (selectedIndex (state (store w))) (storedRequests w)) as (Hin & Hout & _).
  split; [intros Hlt; apply Hin; lia|]. split; [exact Hout|]. split; [reflexivity|].
  intros l. change (trace (setKeySequence ?s ?x)) with (trace x).
  match goal with |- context [deleteRequest ?i ?x] =>
    destruct (deleteRequest_effects i x) as (Ht & _) end.
  rewrite Ht, notified_app, notified_broadcast.
  unfold clearSequenceTimeout.
  destruct (sequenceTimeout _); cbn [trace store clearTimeout setKeySequence setKeyboard];
    rewrite Htr; unfold subscribed; by rewrite Hl.
Qed.

End DeleteKeys.

(** X4, witness: with the filter [script] on, the view shows the first
    and the third request and the selection is on its second row; [dd]
    removes the second stored request, which the view does not show. *)
Lemma dd_deletes_at_stored_index_witness :
  let w := run (H := containsSearch) (initialWorld 7) secondRowSelected in
  readArray (heap (snd (getFilteredRequests (H := containsSearch) w)))
            (fst (getFilteredRequests (H := containsSearch) w)) = [3%nat; 5%nat]
  /\ selectedIndex (state (store w)) = 1
  /\ storedRequests w = [3%nat; 4%nat; 5%nat]
  /\ storedRequests (handleKeyDown (H := containsSearch) (keyPress "d") w) = [3%nat; 5%nat].
Proof.
  intros w.
  destruct (dd_deletes_at_stored_index (H := containsSearch) 7 secondRowSelected (keyPress "d"))
    as (Hdel & _); [vm_compute; reflexivity | vm_compute; reflexivity | reflexivity |].
  split; [vm_compute; reflexivity|]. split; [vm_compute; reflexivity|].
  split; [vm_compute; reflexivity|].
  etrans; [exact Hdel | vm_compute; reflexivity].
Defined.

(** ** The key-sequence buffer is always reset *)

Lemma sameKeys_refl w : sameKeys w w.
Proof. by split. Qed.

Lemma sameKeys_trans w1 w2 w3 : sameKeys w1 w2 -> sameKeys w2 w3 -> sameKeys w1 w3.
Proof. intros [H1 H2] [H3 H4]. split; congruence. Qed.

Lemma bufferInv_sameKeys w w' : sameKeys w w' -> bufferInv w -> bufferInv w'.
Proof.
  intros [Hk Ht] HK. unfold bufferInv, sequenceArmed. rewrite Hk, Ht. exact HK.
Qed.

Lemma sameKeys_setState u w : sameKeys w (setState u w).
Proof. unfold setState. cbn. by destruct (rafId (store w)). Qed.

Lemma sameKeys_addRequest r w : sameKeys w (addRequest r w).
Proof.
  unfold addRequest. by destruct (MAX_REQUESTS <? _); [destruct (_ <? _)|].
Qed.

Lemma sameKeys_deleteRequest i w : sameKeys w (deleteRequest i w).
Proof. unfold deleteRequest. by destruct (_ <=? _). Qed.

Lemma sameKeys_clearRequests w : sameKeys w (clearRequests w).
Proof. by split. Qed.

Lemma sameKeys_delegate b c a w : sameKeys w (delegate b c a w).
Proof. by destruct b. Qed.

Lemma sameKeys_storeFlush w : sameKeys w (storeFlush w).
Proof.
  unfold storeFlush.
  by destruct (isDefined _ || isDefined _); destruct (isDefined _ && isNone _).
Qed.

Lemma sameKeys_republishRequests a w : sameKeys w (republishRequests a w).
Proof.
  unfold republishRequests, allocArray.
  eapply sameKeys_trans; [|apply sameKeys_setState]. by split.
Qed.

Lemma sameKeys_captureFlush a w : sameKeys w (captureFlush a w).
Proof.
  unfold captureFlush. destruct (sameKeys_republishRequests a w) as [Hk Ht]. by split.
Qed.

Lemma sameKeys_runFrameCallbacks (rest : list (positive * FrameCallback)) w :
  sameKeys w (fold_left (fun acc cb => runFrameCallback (snd cb) acc) rest w).
Proof.
  revert w. induction rest as [|[handle cb] rest IH]; intros w; [apply sameKeys_refl|].
  cbn [fold_left snd]. eapply sameKeys_trans; [|apply IH].
  destruct cb; cbn [runFrameCallback];
    [apply sameKeys_storeFlush | apply sameKeys_captureFlush | apply sameKeys_refl].
Qed.

Lemma sameKeys_animationFrame w : sameKeys w (animationFrame w).
Proof.
  unfold animationFrame.
  eapply sameKeys_trans; [|apply sameKeys_runFrameCallbacks]. by split.
Qed.

Lemma sameKeys_fold_toggleType c s ts w :
  sameKeys w (fold_left (fun acc t => toggleType c s t acc) ts w).
Proof.
  revert w. induction ts as [|t ts IH]; intros w; [apply sameKeys_refl|].
  cbn [fold_left]. eapply sameKeys_trans; [|apply IH]. by split.
Qed.

Lemma sameKeys_handleCheckboxChange v c w : sameKeys w (handleCheckboxChange v c w).
Proof.
  unfold handleCheckboxChange. eapply sameKeys_trans; [|apply sameKeys_setState].
  destruct (bool_decide _); [by destruct c|].
  destruct (findFilterOption v) as [[|ts|t]|]; try apply sameKeys_refl;
    [apply sameKeys_fold_toggleType | by split].
Qed.

Lemma sameKeys_filtersLoaded stored w : sameKeys w (filtersLoaded stored w).
Proof.
  unfold filtersLoaded. eapply sameKeys_trans; [|apply sameKeys_setState].
  eapply sameKeys_trans; [|apply sameKeys_fold_toggleType]. by split.
Qed.

Lemma sameKeys_handleDebuggerDetach tab w : sameKeys w (handleDebuggerDetach tab w).
Proof. unfold handleDebuggerDetach. by destruct (negb _). Qed.

Lemma sameKeys_handleLoadingFinished p w : sameKeys w (handleLoadingFinished p w).
Proof.
  unfold handleLoadingFinished. destruct (findRequest _ _ _); [|apply sameKeys_refl].
  cbn. by destruct (updateBatchRafId _).
Qed.

Lemma sameKeys_handleLoadingFailed p w : sameKeys w (handleLoadingFailed p w).
Proof.
  unfold handleLoadingFailed. destruct (findRequest _ _ _); [|by split].
  match goal with |- context [republishRequests ?a ?x] =>
    destruct (sameKeys_republishRequests a x) as [Hk Ht] end.
  by split.
Qed.

Lemma sameKeys_handleResponseReceived p w : sameKeys w (handleResponseReceived p w).
Proof. unfold handleResponseReceived. by destruct (findRequest _ _ _). Qed.

Lemma sameKeys_scrollInspectPanel e w : sameKeys w (scrollInspectPanel e w).
Proof.
  unfold scrollInspectPanel.
  destruct (panelScrollTop e); [apply sameKeys_setState | apply sameKeys_refl].
Qed.

Lemma sameKeys_switchToPanel t f w : sameKeys w (switchToPanel t f w).
Proof.
  unfold switchToPanel. destruct (sameKeys_setState (switchPanelUpdate t f) w) as [Hk Ht].
  by split.
Qed.

Lemma sameKeys_nextInspectSearchMatch d w : sameKeys w (nextInspectSearchMatch d w).
Proof.
  unfold nextInspectSearchMatch. destruct (_ =? _); [apply sameKeys_refl|].
  eapply sameKeys_trans; [apply sameKeys_setState | apply sameKeys_delegate].
Qed.

Lemma sameKeys_inspectCommonKeys e w : sameKeys w (inspectCommonKeys e w).
Proof.
  unfold inspectCommonKeys.
  repeat match goal with |- context [if ?b then _ else _] => destruct b end;
    first [apply sameKeys_scrollInspectPanel | apply sameKeys_nextInspectSearchMatch
          | apply sameKeys_delegate | apply sameKeys_refl].
Qed.

Lemma sameKeys_simpleModes e w :
  sameKeys w (handleSearchMode e w)
  /\ sameKeys w (handleFilterMode e w)
  /\ sameKeys w (handleCopyMode e w).
Proof.
  unfold handleSearchMode, handleFilterMode, handleCopyMode.
  repeat split;
    repeat match goal with |- context [if ?b then _ else _] => destruct b end;
    first [apply sameKeys_setState | apply sameKeys_delegate | apply sameKeys_refl].
Qed.

(** The three sequence handlers and the timers leave the buffer empty or
    armed. *)
Lemma bufferInv_empty w : keySequence (keyboard w) = "" -> bufferInv w.
Proof. intros He Hne. by rewrite He in Hne. Qed.

Lemma sequenceArmed_arm cb d w : sequenceArmed (armSequenceTimeout cb d w).
Proof.
  exists (nextHandle w), d, cb. split; [reflexivity|].
  unfold armSequenceTimeout. cbn. apply elem_of_app. right. apply list_elem_of_singleton.
  reflexivity.
Qed.

Lemma bufferInv_pressG f w :
  (forall x, keyboard (f x) = keyboard x) -> bufferInv (pressG f w).
Proof.
  intros Hf. unfold pressG. destruct (bool_decide _).
  - by apply bufferInv_empty.
  - intros _. apply sequenceArmed_arm.
Qed.

Lemma bufferInv_handleDSequence w : bufferInv (handleDSequence w).
Proof.
  unfold handleDSequence. repeat destruct (bool_decide _).
  - by apply bufferInv_empty.
  - by apply bufferInv_empty.
  - intros _. apply sequenceArmed_arm.
Qed.

Lemma bufferInv_handleJsonYankSequence e w : bufferInv (handleJsonYankSequence e w).
Proof.
  unfold handleJsonYankSequence. repeat destruct (bool_decide _);
    try (by apply bufferInv_empty).
  intros _. apply sequenceArmed_arm.
Qed.

Lemma keySequence_runTimerCallback cb w : keySequence (keyboard (runTimerCallback cb w)) = "".
Proof. by destruct cb. Qed.

Lemma bufferInv_fireTimer handle w : bufferInv w -> bufferInv (fireTimer handle w).
Proof.
  intros HK. unfold fireTimer. destruct (List.find _ _) as [[? [? cb]]|]; [|exact HK].
  apply bufferInv_empty, keySequence_runTimerCallback.
Qed.

Lemma bufferInv_handleInspectMode e w : bufferInv w -> bufferInv (handleInspectMode e w).
Proof.
  intros HK.
  assert (Hd : forall b c a x, keyboard (delegate b c a x) = keyboard x) by (by intros []).
  assert (Hs : forall x, keyboard (scrollInspectPanel e x) = keyboard x)
    by (intros x; apply sameKeys_scrollInspectPanel).
  unfold handleInspectMode, inspectHeadersKeys, inspectPreviewKeys, inspectResponseKeys,
    cycleInspectFocus.
  repeat match goal with |- context [if ?b then _ else _] => destruct b end;
    first [ apply bufferInv_pressG; first [intros x; apply Hd | exact Hs]
          | apply bufferInv_handleJsonYankSequence
          | refine (bufferInv_sameKeys w _ _ HK);
            first [apply sameKeys_setState | apply sameKeys_switchToPanel
                  | apply sameKeys_delegate | apply sameKeys_scrollInspectPanel
                  | apply sameKeys_inspectCommonKeys | apply sameKeys_refl] ].
Qed.

Section BufferPanel.

Context `{External}.

Lemma sameKeys_getFilteredRequests w : sameKeys w (snd (getFilteredRequests w)).
Proof.
  pose proof (state_getFilteredRequests w) as (_ & _ & _ & _ & _ & Ht & Hk & _). by split.
Qed.

Lemma sameKeys_insertRequest p w : sameKeys w (insertRequest p w).
Proof.
  unfold insertRequest, allocRequest.
  match goal with |- context [addRequest ?r ?x] =>
    destruct (sameKeys_addRequest r x) as [Hk Ht] end.
  by split.
Qed.

Lemma sameKeys_handleRequestWillBeSent p w : sameKeys w (handleRequestWillBeSent p w).
Proof.
  rewrite handleRequestWillBeSent_insert.
  eapply sameKeys_trans; [|apply sameKeys_insertRequest].
  destruct (isMainFrameNavigation _ _); by split.
Qed.

Lemma bufferInv_handleNormalMode e w : bufferInv w -> bufferInv (handleNormalMode e w).
Proof.
  intros HK. unfold handleNormalMode.
  pose proof (sameKeys_getFilteredRequests w) as Hsame.
  destruct (getFilteredRequests w) as [view w1]. cbn [snd] in Hsame.
  apply (bufferInv_sameKeys _ _ Hsame) in HK. clear Hsame.
  set (n := jsLength _).
  assert (Hn : bufferInv (normalKeys e (getState w) n w1)).
  { unfold normalKeys, moveSelection, handleGSequence.
    repeat match goal with |- context [if ?b then _ else _] => destruct b end;
      first [ apply bufferInv_pressG; intros x; apply sameKeys_setState
            | apply bufferInv_handleDSequence
            | refine (bufferInv_sameKeys w1 _ _ HK);
              first [apply sameKeys_setState | apply sameKeys_delegate | apply sameKeys_refl
                    | destruct (sameKeys_setState
                                  (enterInspectUpdate (focusOfTab (previewTab (getState w))))
                                  w1) as [Hk Ht]; by split] ]. }
  generalize dependent (normalKeys e (getState w) n w1). intros w2 Hn.
  repeat match goal with |- context [if ?b then _ else _] => destruct b end;
    first [ exact Hn
          | refine (bufferInv_sameKeys w2 _ _ Hn);
            first [apply sameKeys_setState | apply sameKeys_delegate]
          | refine (bufferInv_sameKeys w2 _ _ Hn);
            eapply sameKeys_trans; [apply sameKeys_delegate | apply sameKeys_setState] ].
Qed.

Lemma bufferInv_handleKeyDown e w : bufferInv w -> bufferInv (handleKeyDown e w).
Proof.
  intros HK. unfold handleKeyDown.
  destruct (sameKeys_simpleModes e w) as (Hs & Hf & Hc).
  destruct (mode (getState w));
    [ by apply bufferInv_handleNormalMode
    | exact (bufferInv_sameKeys _ _ Hs HK)
    | exact (bufferInv_sameKeys _ _ Hf HK)
    | by apply bufferInv_handleInspectMode
    | exact (bufferInv_sameKeys _ _ Hc HK) ].
Qed.

Lemma bufferInv_step w ev : bufferInv w -> bufferInv (step w ev).
Proof.
  intros HK. destruct ev; cbn [step];
    [ by apply bufferInv_handleKeyDown | by apply bufferInv_fireTimer | ..];
    refine (bufferInv_sameKeys w _ _ HK).
  - apply sameKeys_animationFrame.
  - unfold handleDebuggerEvent. destruct (negb _); [apply sameKeys_refl|].
    destruct e;
      [ apply sameKeys_handleRequestWillBeSent | apply sameKeys_handleResponseReceived
      | apply sameKeys_handleLoadingFinished | apply sameKeys_handleLoadingFailed
      | apply sameKeys_refl ].
  - apply sameKeys_handleDebuggerDetach.
  - by split.
  - apply sameKeys_setState.
  - apply sameKeys_handleCheckboxChange.
  - apply sameKeys_filtersLoaded.
  - unfold setNodeExpanded. eapply sameKeys_trans; [|apply sameKeys_setState]. by split.
  - unfold storeResponseBody. by destruct (_ !! _).
  - destruct (presentationOnly u); [apply sameKeys_setState | apply sameKeys_refl].
  - apply sameKeys_getFilteredRequests.
  - unfold subscribe. by destruct (bool_decide _).
  - by split.
Qed.

Lemma bufferInv_run evs w : bufferInv w -> bufferInv (run w evs).
Proof.
  revert w. induction evs as [|ev evs IH]; intros w HK; [exact HK|].
  cbn [run fold_left]. apply IH. by apply bufferInv_step.
Qed.

(** X5.  Whenever the key-sequence buffer is not empty, the handler
    holds the handle of a timer that is still live, and that timer
    empties the buffer when it fires: a prefix such as a single [g],
    [d] or [y] never stays in the buffer for good. *)
Theorem sequence_buffer_is_reset (tab : Z) (evs : list Event) :
  let w := run (initialWorld tab) evs in
  keySequence (keyboard w) <> "" ->
  exists handle delay cb,
    sequenceTimeout (keyboard w) = Some handle
    /\ (handle, (delay, cb)) ∈ timers w
    /\ keySequence (keyboard (step w (EvTimer handle))) = "".
Proof.
  intros w Hne.
  assert (HK : bufferInv w) by (apply bufferInv_run; by apply bufferInv_empty).
  destruct (HK Hne) as (handle & delay & cb & Hh & Hin).
  exists handle, delay, cb. split; [exact Hh|]. split; [exact Hin|].
  cbn [step]. unfold fireTimer.
  destruct (List.find _ (timers w)) as [[? [? cb']]|] eqn:Ef.
  - apply keySequence_runTimerCallback.
  - exfalso. apply list_elem_of_In in Hin.
    apply (List.find_none _ _ Ef) in Hin. cbn in Hin. by rewrite Pos.eqb_refl in Hin.
Qed.

End BufferPanel.

(** X5, witness: one [g] in NORMAL mode is in the buffer, its timer (the
    first handle) is live, and the timer empties the buffer. *)
Lemma sequence_buffer_is_reset_witness :
  let w := run (H := containsSearch) (initialWorld 7) gPressed in
  keySequence (keyboard w) = "g"
  /\ exists handle,
       sequenceTimeout (keyboard w) = Some handle
       /\ keySequence (keyboard (step (H := containsSearch) w (EvTimer handle))) = "".
Proof.
  intros w. split; [vm_compute; reflexivity|].
  destruct (sequence_buffer_is_reset (H := containsSearch) 7 gPressed)
    as (handle & _ & _ & Hh & _ & Hreset); [vm_compute; discriminate|].
  exists handle. split; [exact Hh | exact Hreset].
Defined.

(** ** A queued update and the frame that applies it *)

Lemma update_applied u w :
  u_requests u = None -> u_selectedIndex u = None ->
  agrees u (pendingState w) ->
  StoreFlush ∈ (snd <$> frameCallbacks w) ->
  agrees u (state (store (animationFrame w))).
Proof.
  intros Hr Hs Hag Hin. unfold animationFrame.
  apply frame_applies; [exact Hr | exact Hs | exact Hag | by left].
Qed.

Lemma setState_queued u w :
  Inv w -> u_requests u = None -> u_selectedIndex u = None ->
  StoreFlush ∈ (snd <$> frameCallbacks (setState u w)).
Proof.
  intros HI Hr Hs.
  pose proof (Inv_plainState u w Hr Hs HI) as (_ & _ & Hraf).
  destruct (setState_pending u w) as (_ & Hid & _). exact (Hraf Hid).
Qed.

Lemma agrees_switchPanelUpdate t f st :
  agrees (switchPanelUpdate t f) st ->
  inspectFocus st = f /\ previewTab st = t /\ inspectScrollPosition st = 0.
Proof. unfold agrees. intros <-. by repeat split. Qed.

Section InspectPanels.

Context `{External}.

Lemma handleKeyDown_tab (shift : bool) (w : World) :
  mode (state (store w)) = INSPECT ->
  handleKeyDown (tabKey shift) w = cycleInspectFocus (if shift then -1 else 1) w.
Proof.
  intros Hm. unfold handleKeyDown, getState. rewrite Hm.
  unfold handleInspectMode, keyIs. by destruct shift.
Qed.

Lemma tab_then_frame (shift : bool) (w : World) :
  Inv w -> mode (state (store w)) = INSPECT ->
  let st' := state (store (run w [EvKeyDown (tabKey shift); EvAnimationFrame])) in
  inspectFocus st' = cycled (if shift then -1 else 1) (inspectFocus (state (store w)))
  /\ previewTab st' = tabOfFocus (inspectFocus st')
  /\ inspectScrollPosition st' = 0.
Proof.
  intros HI Hm. cbv zeta. unfold run. cbn [fold_left step].
  rewrite handleKeyDown_tab by exact Hm.
  unfold cycleInspectFocus, getState.
  fold (cycled (if shift then -1 else 1) (inspectFocus (state (store w)))).
  set (f := cycled _ _). unfold switchToPanel.
  set (u := switchPanelUpdate (tabOfFocus f) f).
  assert (Hag : agrees u (state (store (animationFrame
                  (snd (requestAnimationFrame DomFocus (setState u w))))))).
  { apply update_applied; [reflexivity | reflexivity | apply (pendingState_setState u w) |].
    cbn [snd requestAnimationFrame frameCallbacks]. rewrite fmap_app. apply elem_of_app.
    left. by apply setState_queued. }
  apply agrees_switchPanelUpdate in Hag as (Hf & Ht & Hp).
  rewrite Hf, Ht, Hp. by repeat split.
Qed.

(** X6.  In INSPECT mode [Tab] followed by the next frame moves the
    focus to the next of the three panels (headers, response, preview,
    and round again), selects that panel's tab and resets the scroll
    position; [Shift+Tab] moves the other way, so that [Tab] and then
    [Shift+Tab] bring the focus back to where it was. *)
Theorem tab_cycles_inspect_focus (tab : Z) (evs : list Event) (shift : bool) :
  let w := run (initialWorld tab) evs in
  mode (state (store w)) = INSPECT ->
  let w1 := run w [EvKeyDown (tabKey shift); EvAnimationFrame] in
  let w2 := run w1 [EvKeyDown (tabKey (negb shift)); EvAnimationFrame] in
  let f := inspectFocus (state (store w)) in
  (inspectFocus (state (store w1))
   = if shift then match f with HEADERS => PREVIEW | RESPONSE => HEADERS | PREVIEW => RESPONSE end
     else match f with HEADERS => RESPONSE | RESPONSE => PREVIEW | PREVIEW => HEADERS end)
  /\ previewTab (state (store w1)) = tabOfFocus (inspectFocus (state (store w1)))
  /\ inspectScrollPosition (state (store w1)) = 0
  /\ (mode (state (store w1)) = INSPECT ->
      inspectFocus (state (store w2)) = f
      /\ previewTab (state (store w2)) = tabOfFocus f).
Proof.
  intros w Hm.
  assert (HI : Inv w) by apply Inv_run, Inv_initialWorld.
  destruct (tab_then_frame shift w HI Hm) as (Hf1 & Ht1 & Hp1).
  assert (HI1 : Inv (run w [EvKeyDown (tabKey shift); EvAnimationFrame]))
    by (by apply Inv_run).
  cbv zeta.
  generalize dependent (run w [EvKeyDown (tabKey shift); EvAnimationFrame]).
  intros w1 Hf1 Ht1 Hp1 HI1.
  split; [rewrite Hf1; by destruct shift, (inspectFocus (state (store w)))|].
  split; [exact Ht1|]. split; [exact Hp1|].
  intros Hm1. destruct (tab_then_frame (negb shift) w1 HI1 Hm1) as (Hf2 & Ht2 & _).
  generalize dependent (run w1 [EvKeyDown (tabKey (negb shift)); EvAnimationFrame]).
  intros w2 Hf2 Ht2.
  assert (Hback : inspectFocus (state (store w2)) = inspectFocus (state (store w))).
  { rewrite Hf2, Hf1. by destruct shift, (inspectFocus (state (store w))). }
  split; [exact Hback | by rewrite Ht2, Hback].
Qed.

End InspectPanels.

(** X6, witness: in INSPECT mode on the response panel, [Tab] moves to
    the preview panel and [Shift+Tab] back to the response panel. *)
Lemma tab_cycles_inspect_focus_witness :
  let w := run (H := containsSearch) (initialWorld 7) inspecting in
  let w1 := run (H := containsSearch) w [EvKeyDown (tabKey false); EvAnimationFrame] in
  let w2 := run (H := containsSearch) w1 [EvKeyDown (tabKey true); EvAnimationFrame] in
  inspectFocus (state (store w)) = RESPONSE
  /\ inspectFocus (state (store w1)) = PREVIEW
  /\ previewTab (state (store w1)) = TabPreview
  /\ inspectFocus (state (store w2)) = RESPONSE.
Proof.
  intros w w1 w2.
  assert (Hf : inspectFocus (state (store w)) = RESPONSE) by (vm_compute; reflexivity).
  destruct (tab_cycles_inspect_focus (H := containsSearch) 7 inspecting false)
    as (H1 & Ht & _ & Hback); [vm_compute; reflexivity|].
  fold w w1 in H1, Ht, Hback. fold w2 in Hback.
  destruct Hback as (H2 & _); [vm_compute; reflexivity|].
  rewrite Hf in H1. rewrite H1 in Ht.
  split; [exact Hf|]. split; [exact H1|]. split; [exact Ht|].
  etrans; [exact H2 | exact Hf].
Defined.

(** ** Keys outside NORMAL mode *)

Lemma quiet_refl w : quiet w w.
Proof.
  repeat split; try reflexivity. exists []. split; [by rewrite app_nil_r | constructor].
Qed.

Lemma quiet_trans w1 w2 w3 : quiet w1 w2 -> quiet w2 w3 -> quiet w1 w3.
Proof.
  intros (Hh & Hs & Hl & Hc & Hn & us & Hp & Hus) (Hh' & Hs' & Hl' & Hc' & Hn' & us' & Hp' & Hus').
  split; [by rewrite Hh', Hh|]. split; [by rewrite Hs', Hs|].
  split; [by rewrite Hl', Hl|]. split; [by rewrite Hc', Hc|].
  split; [intros l; by rewrite Hn', Hn|].
  exists (us ++ us'). split; [by rewrite Hp', Hp, app_assoc | by apply Forall_app].
Qed.

Lemma quiet_setState u w : plainUpdate u -> quiet w (setState u w).
Proof.
  intros Hu. unfold setState. cbn.
  destruct (rafId (store w)); (repeat split; try reflexivity);
    exists [u]; (split; [reflexivity | by constructor]).
Qed.

Lemma quiet_same w w' :
  heap w' = heap w -> store w' = store w -> capture w' = capture w ->
  (forall l, notified l (trace w') = notified l (trace w)) -> quiet w w'.
Proof.
  intros Hh Hs Hc Hn. unfold quiet. rewrite Hh, Hs, Hc.
  repeat split; try reflexivity; [exact Hn|].
  exists []. split; [by rewrite app_nil_r | constructor].
Qed.

Lemma quiet_delegate b c a w : quiet w (delegate b c a w).
Proof.
  destruct b; [|apply quiet_refl]. apply quiet_same; try reflexivity.
  intros l. cbn [delegate observe trace]. rewrite notified_app. cbn. lia.
Qed.

Lemma quiet_setKeySequence s w : quiet w (setKeySequence s w).
Proof. by apply quiet_same. Qed.

Lemma quiet_clearSequenceTimeout w : quiet w (clearSequenceTimeout w).
Proof. unfold clearSequenceTimeout. destruct (sequenceTimeout _); by apply quiet_same. Qed.

Lemma quiet_armSequenceTimeout cb d w : quiet w (armSequenceTimeout cb d w).
Proof. by apply quiet_same. Qed.

Lemma quiet_requestDomFocus w : quiet w (snd (requestAnimationFrame DomFocus w)).
Proof. by apply quiet_same. Qed.

Lemma quiet_pressG f w : (forall x, quiet x (f x)) -> quiet w (pressG f w).
Proof.
  intros Hf. unfold pressG.
  eapply quiet_trans; [apply (quiet_setKeySequence (keySequence (keyboard w) +:+ "g"))|].
  eapply quiet_trans; [apply quiet_clearSequenceTimeout|].
  destruct (bool_decide _).
  - eapply quiet_trans; [apply Hf | apply quiet_setKeySequence].
  - apply quiet_armSequenceTimeout.
Qed.

Lemma quiet_scrollInspectPanel e w : quiet w (scrollInspectPanel e w).
Proof.
  unfold scrollInspectPanel.
  destruct (panelScrollTop e); [by apply quiet_setState | apply quiet_refl].
Qed.

Lemma quiet_switchToPanel t f w : quiet w (switchToPanel t f w).
Proof.
  unfold switchToPanel.
  apply (quiet_trans _ (setState (switchPanelUpdate t f) w));
    [apply quiet_setState; by split | apply quiet_requestDomFocus].
Qed.

Lemma quiet_nextInspectSearchMatch d w : quiet w (nextInspectSearchMatch d w).
Proof.
  unfold nextInspectSearchMatch. destruct (_ =? _); [apply quiet_refl|].
  match goal with |- quiet _ (delegate _ _ _ ?x) =>
    apply (quiet_trans _ x); [apply quiet_setState; by split | apply quiet_delegate] end.
Qed.

Lemma quiet_handleJsonYankSequence e w : quiet w (handleJsonYankSequence e w).
Proof.
  unfold handleJsonYankSequence.
  eapply quiet_trans; [apply (quiet_setKeySequence (keySequence (keyboard w) +:+ ev_key e))|].
  eapply quiet_trans; [apply quiet_clearSequenceTimeout|].
  repeat destruct (bool_decide _);
    first [ apply quiet_armSequenceTimeout
          | apply quiet_setKeySequence
          | eapply quiet_trans; [apply quiet_delegate | apply quiet_setKeySequence] ].
Qed.

Lemma quiet_inspectCommonKeys e w : quiet w (inspectCommonKeys e w).
Proof.
  unfold inspectCommonKeys.
  repeat match goal with |- context [if ?b then _ else _] => destruct b end;
    first [apply quiet_scrollInspectPanel | apply quiet_nextInspectSearchMatch
          | apply quiet_delegate | apply quiet_refl].
Qed.

Lemma quiet_handleInspectMode e w : quiet w (handleInspectMode e w).
Proof.
  unfold handleInspectMode, inspectHeadersKeys, inspectPreviewKeys, inspectResponseKeys,
    cycleInspectFocus.
  repeat match goal with |- context [if ?b then _ else _] => destruct b end;
    first [ by apply quiet_setState
          | apply quiet_switchToPanel
          | apply quiet_delegate
          | apply quiet_scrollInspectPanel
          | apply quiet_inspectCommonKeys
          | apply quiet_handleJsonYankSequence
          | apply quiet_pressG; intros x;
            first [apply quiet_delegate | apply quiet_scrollInspectPanel] ].
Qed.

Lemma quiet_simpleModes e w :
  quiet w (handleSearchMode e w)
  /\ quiet w (handleFilterMode e w)
  /\ quiet w (handleCopyMode e w).
Proof.
  unfold handleSearchMode, handleFilterMode, handleCopyMode.
  repeat split;
    repeat match goal with |- context [if ?b then _ else _] => destruct b end;
    first [by apply quiet_setState | apply quiet_delegate | apply quiet_refl].
Qed.

(** X7.  Outside NORMAL mode the key handler itself never touches the
    heap (so neither the collection nor any request record), the state,
    the subscribers or the reconciler, and calls no subscriber: all it
    does to the store is queue updates, none of which writes [requests]
    or [selectedIndex].  In particular the sequences [dd] and [dr] of
    NORMAL mode delete nothing when typed in SEARCH, FILTER, INSPECT or
    COPY mode.  The methods of the presentation components that the
    handler calls there are recorded in the trace as calls; what they
    do is not part of this statement (they are embedded on their own
    further down). *)
Theorem keys_outside_normal_mode_only_queue `{External} (e : KeyboardEvent) (w : World) :
  mode (state (store w)) <> NORMAL ->
  let w' := handleKeyDown e w in
  heap w' = heap w
  /\ storedRequests w' = storedRequests w
  /\ state (store w') = state (store w)
  /\ listeners (store w') = listeners (store w)
  /\ capture w' = capture w
  /\ (forall l, notified l (trace w') = notified l (trace w))
  /\ exists us, pendingUpdates (store w') = pendingUpdates (store w) ++ us
                /\ Forall (fun u => u_requests u = None /\ u_selectedIndex u = None) us.
Proof.
  intros Hm. cbv zeta.
  assert (Hq : quiet w (handleKeyDown e w)).
  { unfold handleKeyDown, getState. destruct (quiet_simpleModes e w) as (Hs & Hf & Hc).
    destruct (mode (state (store w))); [done | exact Hs | exact Hf | | exact Hc].
    apply quiet_handleInspectMode. }
  destruct Hq as (Hh & Hst & Hl & Hc & Hn & Hus).
  unfold storedRequests. rewrite Hh, Hst. repeat split; try assumption; reflexivity.
Qed.

(** X7, witness: in SEARCH mode the key [d] changes nothing at all. *)
Lemma keys_outside_normal_mode_only_queue_witness :
  let w := run (H := containsSearch) (initialWorld 7) searching in
  mode (state (store w)) = SEARCH
  /\ heap (handleKeyDown (H := containsSearch) (keyPress "d") w) = heap w
  /\ state (store (handleKeyDown (H := containsSearch) (keyPress "d") w)) = state (store w).
Proof.
  intros w.
  destruct (keys_outside_normal_mode_only_queue (H := containsSearch) (keyPress "d") w)
    as (Hh & _ & Hs & _); [vm_compute; discriminate|].
  split; [vm_compute; reflexivity|]. split; [exact Hh | exact Hs].
Defined.

(** ** The unfiltered view *)

Lemma requests_deleteRequest i w :
  requests (state (store (deleteRequest i w))) = requests (state (store w)).
Proof. unfold deleteRequest. by destruct (_ <=? _). Qed.

Section Unfiltered.

Context `{External}.

Lemma recomputeFiltered_unfiltered w :
  searchQuery (state (store w)) = "" -> activeTypes w = [] ->
  fst (recomputeFiltered w) = requests (state (store w))
  /\ heap (snd (recomputeFiltered w)) = heap w
  /\ state (store (snd (recomputeFiltered w))) = state (store w).
Proof.
  unfold activeTypes. intros Hq Ht.
  unfold recomputeFiltered, rebuildFuseIndex, baseResults, applyTypeFilter.
  destruct (fuseIndexStale w);
    cbn [heap store state observe setStore withFuseIndex];
    rewrite Hq; change (bool_decide ("" = "")) with true; cbv iota;
    cbn [heap store state observe setStore withFuseIndex];
    rewrite Ht; change (0 <? jsLength []) with false; cbv iota;
    repeat split; reflexivity.
Qed.

(** X8.  With an empty search query and no type filter, a call to
    [getFilteredRequests()] that recomputes returns the store's own
    requests array (no array is created), so that what the caller holds
    changes with every later insertion and deletion. *)
Theorem unfiltered_view_is_the_stored_array (w : World) :
  searchQuery (state (store w)) = "" ->
  activeTypes w = [] ->
  cachedRequests (filteredRequestsCache (store w)) = None \/ recordedKeys w <> currentKeys w ->
  let v := fst (getFilteredRequests w) in
  let w' := snd (getFilteredRequests w) in
  v = requests (state (store w))
  /\ heap w' = heap w
  /\ (forall r, readArray (heap (addRequest r w')) v = storedRequests (addRequest r w'))
  /\ (forall i, readArray (heap (deleteRequest i w')) v = storedRequests (deleteRequest i w')).
Proof.
  intros Hq Ht Hmiss. cbv zeta. rewrite (getFilteredRequests_miss w Hmiss).
  destruct (recomputeFiltered_unfiltered w Hq Ht) as (Hv & Hh & Hs).
  generalize dependent (recomputeFiltered w). intros [v w'] Hv Hh Hs. cbn [fst snd] in *.
  split; [exact Hv|]. split; [exact Hh|]. rewrite Hv, <- Hs. split.
  - intros r. unfold storedRequests. by rewrite requests_addRequest.
  - intros i. unfold storedRequests. by rewrite requests_deleteRequest.
Qed.

End Unfiltered.

(** X8, witness: the first read after two requests returns the array
    at location 3, which is the store's. *)
Lemma unfiltered_view_is_the_stored_array_witness :
  fst (getFilteredRequests (H := containsSearch) twoRequests)
  = requests (state (store twoRequests))
  /\ requests (state (store twoRequests)) = 3%nat.
Proof.
  destruct (unfiltered_view_is_the_stored_array (H := containsSearch) twoRequests)
    as (Hv & _); [reflexivity | reflexivity | left; reflexivity |].
  split; [exact Hv | vm_compute; reflexivity].
Defined.

(** ** Deleting by index *)

(** X9.  [deleteRequest(index)] removes at most one request: the one at
    [index] when it is inside the collection, none when it is at or
    past the end, the one at [length + index] for a negative index that
    reaches into the collection (it counts from the end, as [splice]
    does), and the first one for a negative index that reaches past the
    beginning.  The order of the others is kept. *)
Theorem deleteRequest_by_index (i : Z) (w : World) :
  let l := storedRequests w in
  let l' := storedRequests (deleteRequest i w) in
  (0 <= i < jsLength l -> l' = take (Z.to_nat i) l ++ drop (S (Z.to_nat i)) l)
  /\ (jsLength l <= i -> l' = l)
  /\ (- jsLength l <= i < 0 ->
      l' = take (Z.to_nat (jsLength l + i)) l ++ drop (S (Z.to_nat (jsLength l + i))) l)
  /\ (i < - jsLength l -> l' = drop 1 l)
  /\ jsLength l - 1 <= jsLength l' <= jsLength l.
Proof.
  cbv zeta. rewrite storedRequests_deleteRequest.
  destruct (splice_one i (storedRequests w)) as (H1 & H2 & H3 & H4).
  split; [exact H1|]. split; [exact H2|]. split; [exact H3|]. split; [exact H4|].
  split; [|apply jsLength_splice].
  unfold splice, jsLength. rewrite length_app, length_take, length_drop. lia.
Qed.

(** X9, witness: of the three requests 3, 4 and 5, index 1 removes the
    second, index 3 none and index -1 the last. *)
Lemma deleteRequest_by_index_witness :
  storedRequests threeRequests = [3%nat; 4%nat; 5%nat]
  /\ storedRequests (deleteRequest 1 threeRequests) = [3%nat; 5%nat]
  /\ storedRequests (deleteRequest 3 threeRequests) = [3%nat; 4%nat; 5%nat]
  /\ storedRequests (deleteRequest (-1) threeRequests) = [3%nat; 4%nat].
Proof.
  assert (Hs : storedRequests threeRequests = [3%nat; 4%nat; 5%nat]) by (vm_compute; reflexivity).
  destruct (deleteRequest_by_index 1 threeRequests) as (H1 & _).
  destruct (deleteRequest_by_index 3 threeRequests) as (_ & H3 & _).
  destruct (deleteRequest_by_index (-1) threeRequests) as (_ & _ & Hm & _).
  rewrite Hs in H1, H3, Hm.
  split; [exact Hs|].
  split; [apply H1; vm_compute; split; [discriminate | reflexivity]|].
  split; [apply H3; vm_compute; discriminate|].
  apply Hm; vm_compute; split; [discriminate | reflexivity].
Defined.

(** ** Late events of the previous page *)

Lemma setCapture_same w : setCapture (capture w) w = w.
Proof. by destruct w. Qed.

Lemma withCaches_same c :
  withCaches (pendingRequests c) (responseBodyCache c) (fetchingBodies c) c = c.
Proof. by destruct c. Qed.

(** X10.  Once a main-frame navigation has been handled, the events
    that still arrive for requests of the previous page (response
    received, loading finished, loading failed, for any request id but
    the navigation's own) find no request and change nothing: no
    record, no array, no pending update, no frame callback and no
    entry of the reconciler's maps. *)
Theorem late_events_after_navigation_are_ignored `{External}
    (pq : RequestWillBeSentParams) (rs : ResponseReceivedParams)
    (lf : LoadingFinishedParams) (lx : LoadingFailedParams) (w : World) :
  isMainFrameNavigation (mainFrameId (capture w)) pq = true ->
  rs_requestId rs <> rq_requestId pq ->
  lf_requestId lf <> rq_requestId pq ->
  lx_requestId lx <> rq_requestId pq ->
  let w' := handleRequestWillBeSent pq w in
  handleResponseReceived rs w' = w'
  /\ handleLoadingFinished lf w' = w'
  /\ handleLoadingFailed lx w' = w'.
Proof.
  intros Hnav Hrs Hlf Hlx. cbv zeta.
  destruct (handleRequestWillBeSent_clear pq w Hnav) as (_ & Hs & Hr & _).
  assert (Hpr : pendingRequests (capture (handleRequestWillBeSent pq w))
                = {[ rq_requestId pq := S (nextLoc (heap w)) ]}).
  { rewrite handleRequestWillBeSent_insert, Hnav.
    match goal with |- context [insertRequest pq ?x] =>
      destruct (insertRequest_effects pq x) as (_ & _ & _ & _ & _ & _ & _ & _ & _ & _ & _ & ->);
      destruct (clearRequests_fresh (clearCaches
                  (setCapture (withMainFrameId (Some (rq_frameId pq)) (capture w)) w)))
        as (_ & _ & Hn & _)
    end.
    cbv zeta in Hn. rewrite Hn. reflexivity. }
  generalize dependent (handleRequestWillBeSent pq w). intros w' Hs Hr Hpr.
  assert (Hfind : forall rid, rid <> rq_requestId pq ->
                    findRequest (heap w') (requests (state (store w'))) rid = None).
  { intros rid Hrid. unfold findRequest. fold (storedRequests w'). rewrite Hs.
    cbn [List.find]. rewrite Hr. cbn [newRequest r_id].
    by rewrite bool_decide_eq_false_2 by congruence. }
  split; [|split].
  - unfold handleResponseReceived, getState. by rewrite Hfind.
  - unfold handleLoadingFinished, getState. by rewrite Hfind.
  - unfold handleLoadingFailed, getState. rewrite Hfind by exact Hlx.
    rewrite (delete_id (pendingRequests (capture w')))
      by (rewrite Hpr; apply lookup_singleton_ne; congruence).
    by rewrite withCaches_same, setCapture_same.
Qed.

(** X10, witness: after the reload of the three-request page, a
    response for the old request [old] leaves the world as it is. *)
Lemma late_events_after_navigation_are_ignored_witness :
  let w' := handleRequestWillBeSent (H := containsSearch)
              (initiatedParams "n" "Document" "F") twoRequests in
  handleResponseReceived lateResponse w' = w'.
Proof.
  intros w'.
  destruct (late_events_after_navigation_are_ignored (H := containsSearch)
              (initiatedParams "n" "Document" "F") lateResponse
              {| lf_requestId := "old"; lf_encodedDataLength := 0; lf_timestamp := 0 |}
              {| lx_requestId := "old"; lx_errorText := ""; lx_timestamp := 0 |}
              twoRequests) as (Hrs & _);
    [vm_compute; reflexivity | discriminate | discriminate | discriminate |].
  exact Hrs.
Defined.

(** ** Stepping through the in-panel search matches *)

(** Decide the comparisons of a known key with the key constants. *)
Ltac decide_keys :=
  repeat match goal with
  | |- context [bool_decide (?a = ?b)] =>
      let v := eval vm_compute in (bool_decide (a = b)) in
      match v with
      | true => change (bool_decide (a = b)) with true
      | false => change (bool_decide (a = b)) with false
      end
  end.

Lemma agrees_searchIndexUpdate i st : agrees (searchIndexUpdate i) st -> inspectSearchIndex st = i.
Proof. unfold agrees. by intros <-. Qed.

Section SearchMatches.

Context `{External}.

Lemma handleKeyDown_match (e : KeyboardEvent) (w : World) :
  mode (state (store w)) = INSPECT ->
  ev_key e = "n" \/ ev_key e = "N" ->
  handleKeyDown e w
  = nextInspectSearchMatch (if bool_decide (ev_key e = "n") then 1 else -1) w.
Proof.
  intros Hm Hk. unfold handleKeyDown, getState. rewrite Hm.
  unfold handleInspectMode, inspectHeadersKeys, inspectPreviewKeys, inspectResponseKeys,
    inspectCommonKeys, keyIs, getState.
  destruct Hk as [-> | ->]; decide_keys;
    rewrite ?andb_false_r; cbn [orb andb]; cbv iota;
    repeat match goal with |- context [if ?b then _ else _] => destruct b end;
    reflexivity.
Qed.

(** X11.  In INSPECT mode, with [n] search matches and a current match
    inside them, the key [n] (resp. [N]) followed by the next frame
    moves to the next (resp. previous) match and wraps around at the
    ends: the new index is [(index + 1) mod n] (resp.
    [(index - 1) mod n]). *)
Theorem search_match_keys_wrap_around (tab : Z) (evs : list Event) (e : KeyboardEvent) :
  let w := run (initialWorld tab) evs in
  let st := state (store w) in
  let n := jsLength (inspectSearchMatches st) in
  mode st = INSPECT ->
  ev_key e = "n" \/ ev_key e = "N" ->
  0 <= inspectSearchIndex st < n ->
  let d := if bool_decide (ev_key e = "n") then 1 else -1 in
  inspectSearchIndex (state (store (run w [EvKeyDown e; EvAnimationFrame])))
  = (inspectSearchIndex st + d) mod n.
Proof.
  intros w st n Hm Hk Hi d.
  assert (HI : Inv w) by apply Inv_run, Inv_initialWorld.
  unfold run at 1. cbn [fold_left step]. rewrite handleKeyDown_match by assumption.
  fold d. unfold nextInspectSearchMatch, getState. fold st n.
  rewrite (proj2 (Z.eqb_neq n 0)) by lia.
  assert (Hrem : Z.rem (inspectSearchIndex st + d + n) n = (inspectSearchIndex st + d) mod n).
  { assert (Hd : d = 1 \/ d = -1) by (subst d; destruct (bool_decide (ev_key e = "n")); auto).
    rewrite Z.rem_mod_nonneg by lia.
    rewrite <- (Z.mod_add (inspectSearchIndex st + d) 1 n) by lia. f_equal. lia. }
  rewrite Hrem. set (i' := (inspectSearchIndex st + d) mod n).
  apply agrees_searchIndexUpdate.
  apply update_applied; [reflexivity | reflexivity | apply (pendingState_setState _ w) |].
  cbn [delegate observe frameCallbacks]. by apply setState_queued.
Qed.

End SearchMatches.

(** X12, witness: on the last of three matches, [n] wraps to the
    first. *)
Lemma search_match_keys_wrap_around_witness :
  let w := run (H := containsSearch) (initialWorld 7) lastMatchSelected in
  inspectSearchIndex (state (store w)) = 2
  /\ inspectSearchIndex
       (state (store (run (H := containsSearch) w [pressed "n"; EvAnimationFrame]))) = 0.
Proof.
  intros w. split; [vm_compute; reflexivity|].
  etrans; [apply (search_match_keys_wrap_around (H := containsSearch) 7 lastMatchSelected
                    (keyPress "n"))|].
  - vm_compute; reflexivity.
  - left; reflexivity.
  - vm_compute. split; [discriminate | reflexivity].
  - vm_compute. reflexivity.
Defined.

(** ** The filter checkboxes [all] and [fetch/xhr] *)

Lemma setHas_setAdd t u s : setHas t (setAdd u s) = bool_decide (t = u) || setHas t s.
Proof.
  unfold setAdd, setHas. destruct (bool_decide (u ∈ s)) eqn:Eu.
  - apply bool_decide_eq_true in Eu.
    destruct (bool_decide (t = u)) eqn:Et; [|reflexivity].
    apply bool_decide_eq_true in Et. subst. by apply bool_decide_eq_true_2.
  - destruct (bool_decide (t = u)) eqn:Et.
    + apply bool_decide_eq_true in Et. subst.
      apply bool_decide_eq_true_2, elem_of_app. right. by apply list_elem_of_singleton.
    + apply bool_decide_eq_false in Et. cbn [orb].
      apply bool_decide_ext. rewrite elem_of_app, list_elem_of_singleton. tauto.
Qed.

Lemma setHas_setDelete t u s :
  setHas t (setDelete u s) = negb (bool_decide (t = u)) && setHas t s.
Proof.
  unfold setDelete, setHas.
  destruct (bool_decide (t = u)) eqn:Et; cbn [negb andb].
  - apply bool_decide_eq_true in Et. subst. apply bool_decide_eq_false_2.
    rewrite list_elem_of_In, List.filter_In. intros [_ Hn].
    by rewrite bool_decide_eq_true_2 in Hn.
  - apply bool_decide_eq_false in Et. apply bool_decide_ext.
    rewrite !list_elem_of_In, List.filter_In. split; [tauto|].
    intros Hin. split; [exact Hin|]. by rewrite bool_decide_eq_false_2.
Qed.

Lemma setDelete_absent u s : setHas u s = false -> setDelete u s = s.
Proof.
  unfold setHas, setDelete. intros Hu. apply bool_decide_eq_false in Hu.
  induction s as [|x s IH]; [reflexivity|]. cbn [List.filter].
  rewrite not_elem_of_cons in Hu. destruct Hu as [Hx Hs].
  rewrite bool_decide_eq_false_2 by congruence. cbn [negb]. by rewrite IH.
Qed.

Lemma setDelete_setAdd_absent u s : setHas u s = false -> setDelete u (setAdd u s) = s.
Proof.
  intros Hu. unfold setAdd. rewrite Hu. unfold setDelete.
  rewrite List.filter_app. cbn [List.filter].
  rewrite bool_decide_eq_true_2 by reflexivity. cbn [negb]. rewrite app_nil_r.
  by apply setDelete_absent.
Qed.

Lemma setDelete_comm t u s : setDelete t (setDelete u s) = setDelete u (setDelete t s).
Proof.
  unfold setDelete. induction s as [|x s IH]; [reflexivity|]. cbn [List.filter].
  destruct (bool_decide (x = u)) eqn:Eu, (bool_decide (x = t)) eqn:Et;
    cbn [negb List.filter]; rewrite ?Eu, ?Et; cbn [negb]; rewrite ?IH; reflexivity.
Qed.

Lemma activeTypes_handleCheckboxChange v c w :
  activeTypes (handleCheckboxChange v c w)
  = if bool_decide (v = "all") then (if c then [] else activeTypes w)
    else match findFilterOption v with
         | Some (OptCombined ts) =>
             fold_left (fun s t => if c then setAdd t s else setDelete t s) ts (activeTypes w)
         | Some (OptSingle t) => if c then setAdd t (activeTypes w) else setDelete t (activeTypes w)
         | _ => activeTypes w
         end.
Proof.
  unfold handleCheckboxChange, getState.
  match goal with |- context [setState ?u ?x] =>
    destruct (setState_frame u x) as (Hh & Hst & _) end.
  unfold activeTypes. rewrite Hh, Hst. clear Hh Hst.
  destruct (bool_decide (v = "all")).
  - destruct c; cbn [heap setHeap store]; [|reflexivity].
    rewrite readTypes_writeTypes. by destruct (decide _).
  - destruct (findFilterOption v) as [[|ts|t]|]; try reflexivity.
    + set (s := types (filters (state (store w)))).
      assert (Hfold : forall ts x,
                state (store x) = state (store w) ->
                readTypes (heap (fold_left (fun acc t => toggleType c s t acc) ts x)) s
                = fold_left (fun s' t => if c then setAdd t s' else setDelete t s') ts
                            (readTypes (heap x) s)
                /\ state (store (fold_left (fun acc t => toggleType c s t acc) ts x))
                   = state (store w)).
      { clear ts. induction ts as [|t ts IH]; intros x Hx; [by split|].
        cbn [fold_left]. destruct (toggleType_spec c s t x) as (Hr & Hs & _).
        destruct (IH (toggleType c s t x)) as (IH1 & IH2); [by rewrite Hs|].
        rewrite IH1, Hr. split; [by destruct c | exact IH2]. }
      destruct (Hfold ts w eq_refl) as (Hr & Hs). rewrite Hs. fold s. by rewrite Hr.
    + destruct (toggleType_spec c (types (filters (state (store w)))) t w) as (Hr & Hs & _).
      by rewrite Hs, Hr.
Qed.

(** X12.  The checkbox [all], when checked, empties the set of active
    type filters, and does nothing to it when unchecked.  The checkbox
    [fetch/xhr] adds both [fetch] and [xhr] when checked and removes
    both when unchecked, leaving every other type as it was; checking
    and then unchecking it restores a set that had neither.  A value
    that is not a filter option leaves the set alone.  In every case
    exactly one [filters] update is queued. *)
Theorem filter_checkboxes (c : bool) (w : World) :
  activeTypes (handleCheckboxChange "all" true w) = []
  /\ activeTypes (handleCheckboxChange "all" false w) = activeTypes w
  /\ (forall t,
        setHas t (activeTypes (handleCheckboxChange "fetch/xhr" c w))
        = if bool_decide (t = FETCH) || bool_decide (t = XHR) then c
          else setHas t (activeTypes w))
  /\ (setHas FETCH (activeTypes w) = false -> setHas XHR (activeTypes w) = false ->
      activeTypes (handleCheckboxChange "fetch/xhr" false
                     (handleCheckboxChange "fetch/xhr" true w)) = activeTypes w)
  /\ (forall v, findFilterOption v = None ->
        activeTypes (handleCheckboxChange v c w) = activeTypes w)
  /\ (forall v,
        pendingUpdates (store (handleCheckboxChange v c w))
        = pendingUpdates (store w) ++ [filtersUpdate (filters (state (store w)))]).
Proof.
  rewrite !activeTypes_handleCheckboxChange.
  change (bool_decide ("all" = "all")) with true.
  change (bool_decide ("fetch/xhr" = "all")) with false.
  change (findFilterOption "fetch/xhr") with (Some (OptCombined [FETCH; XHR])).
  cbv iota. cbn [fold_left].
  split; [reflexivity|]. split; [reflexivity|]. split.
  { intros t. destruct c.
    - rewrite !setHas_setAdd.
      destruct (bool_decide (t = FETCH)), (bool_decide (t = XHR)); reflexivity.
    - rewrite !setHas_setDelete.
      destruct (bool_decide (t = FETCH)), (bool_decide (t = XHR)); reflexivity. }
  split.
  { intros Hf Hx.
    assert (Hx' : setHas XHR (setAdd FETCH (activeTypes w)) = false).
    { rewrite setHas_setAdd, Hx. reflexivity. }
    rewrite (setDelete_comm XHR FETCH), (setDelete_setAdd_absent XHR _ Hx').
    by apply setDelete_setAdd_absent. }
  split.
  { intros v Hv. rewrite activeTypes_handleCheckboxChange, Hv.
    destruct (bool_decide (v = "all")) eqn:Ev; [|reflexivity].
    apply bool_decide_eq_true in Ev. subst. discriminate. }
  intros v. unfold handleCheckboxChange, getState.
  match goal with |- context [setState ?u ?x] =>
    destruct (setState_pending u x) as (Hp & _) end.
  rewrite Hp. clear Hp. f_equal.
  destruct (bool_decide (v = "all")); [by destruct c|].
  destruct (findFilterOption v) as [[|ts|t]|]; try reflexivity.
  set (s := types (filters (state (store w)))).
  assert (Hfold : forall x,
            pendingUpdates (store (fold_left (fun acc t => toggleType c s t acc) ts x))
            = pendingUpdates (store x)).
  { induction ts as [|t ts IH]; intros x; [reflexivity|]. cbn [fold_left]. by rewrite IH. }
  apply Hfold.
Qed.

(** X13, witness: with [script] active, [fetch/xhr] checked and
    unchecked again leaves [script] alone. *)
Lemma filter_checkboxes_witness :
  activeTypes scriptFiltered = [JS]
  /\ activeTypes (handleCheckboxChange "fetch/xhr" true scriptFiltered) = [JS; FETCH; XHR]
  /\ activeTypes (handleCheckboxChange "fetch/xhr" false
                    (handleCheckboxChange "fetch/xhr" true scriptFiltered)) = [JS].
Proof.
  destruct (filter_checkboxes true scriptFiltered) as (_ & _ & _ & Hback & _).
  split; [vm_compute; reflexivity|]. split; [vm_compute; reflexivity|].
  etrans; [apply Hback; vm_compute; reflexivity | vm_compute; reflexivity].
Defined.

(** ** The set of subscribers *)

Lemma listeners_quiet w w' : quiet w w' -> listeners (store w') = listeners (store w).
Proof. by intros (_ & _ & Hl & _). Qed.

Lemma listeners_setState u w : listeners (store (setState u w)) = listeners (store w).
Proof. unfold setState. cbn. by destruct (rafId (store w)). Qed.

Lemma listeners_pressG f w :
  (forall x, listeners (store (f x)) = listeners (store x)) ->
  listeners (store (pressG f w)) = listeners (store w).
Proof.
  intros Hf. unfold pressG, clearSequenceTimeout, armSequenceTimeout.
  destruct (sequenceTimeout _); destruct (bool_decide _); cbn; rewrite ?Hf; reflexivity.
Qed.

Lemma listeners_handleDSequence w :
  listeners (store (handleDSequence w)) = listeners (store w).
Proof.
  unfold handleDSequence.
  assert (Hc : forall x, listeners (store (clearSequenceTimeout x)) = listeners (store x)).
  { intros x. unfold clearSequenceTimeout. by destruct (sequenceTimeout _). }
  repeat destruct (bool_decide _);
    change (listeners (store (setKeySequence ?s ?x))) with (listeners (store x)).
  - match goal with |- context [deleteRequest ?i ?x] =>
      destruct (deleteRequest_effects i x) as (_ & -> & _) end.
    by rewrite Hc.
  - match goal with |- context [clearRequests ?x] =>
      destruct (clearRequests_effects x) as (_ & -> & _) end.
    by rewrite Hc.
  - change (listeners (store (armSequenceTimeout ?cb ?d ?x))) with (listeners (store x)).
    by rewrite Hc.
Qed.

Lemma listeners_runFrameCallbacks (rest : list (positive * FrameCallback)) w :
  listeners (store (fold_left (fun acc cb => runFrameCallback (snd cb) acc) rest w))
  = listeners (store w).
Proof.
  revert w. induction rest as [|[handle cb] rest IH]; intros w; [reflexivity|].
  cbn [fold_left snd]. rewrite IH. destruct cb as [|a|]; cbn [runFrameCallback].
  - by destruct (storeFlush_effects w) as (_ & _ & _ & _ & -> & _).
  - unfold captureFlush. change (store (setCapture ?c ?x)) with (store x).
    by destruct (republishRequests_effects a w) as (_ & _ & _ & _ & _ & _ & _ & _ & _ & _ & ->).
  - reflexivity.
Qed.

Lemma listeners_fold_toggleType c s ts w :
  listeners (store (fold_left (fun acc t => toggleType c s t acc) ts w)) = listeners (store w).
Proof.
  revert w. induction ts as [|t ts IH]; intros w; [reflexivity|].
  cbn [fold_left]. by rewrite IH.
Qed.

Section Subscribers.

Context `{External}.

Lemma listeners_insertRequest p w :
  listeners (store (insertRequest p w)) = listeners (store w).
Proof.
  unfold insertRequest, allocRequest.
  match goal with |- context [addRequest ?r ?x] =>
    destruct (addRequest_effects r x) as (_ & Hl & _) end.
  exact Hl.
Qed.

Lemma listeners_handleKeyDown e w :
  listeners (store (handleKeyDown e w)) = listeners (store w).
Proof.
  unfold handleKeyDown. destruct (quiet_simpleModes e w) as (Hs & Hf & Hc).
  destruct (mode (getState w));
    [| exact (listeners_quiet _ _ Hs) | exact (listeners_quiet _ _ Hf)
     | exact (listeners_quiet _ _ (quiet_handleInspectMode e w))
     | exact (listeners_quiet _ _ Hc)].
  unfold handleNormalMode.
  pose proof (state_getFilteredRequests w) as (_ & _ & _ & Hl & _).
  destruct (getFilteredRequests w) as [view w1]. cbn [snd] in Hl. rewrite <- Hl.
  set (n := jsLength _).
  assert (Hn : listeners (store (normalKeys e (getState w) n w1)) = listeners (store w1)).
  { unfold normalKeys, moveSelection, handleGSequence.
    repeat match goal with |- context [if ?b then _ else _] => destruct b end;
      first [ apply listeners_setState
            | apply listeners_handleDSequence
            | apply listeners_pressG; intros x; apply listeners_setState
            | apply listeners_quiet, quiet_delegate
            | reflexivity
            | cbn [snd requestAnimationFrame store]; apply listeners_setState ]. }
  generalize dependent (normalKeys e (getState w) n w1). intros w2 Hn.
  repeat match goal with |- context [if ?b then _ else _] => destruct b end;
    rewrite ?listeners_setState; rewrite ?(listeners_quiet _ _ (quiet_delegate _ _ _ _));
    exact Hn.
Qed.

Lemma listeners_step w ev :
  match ev with
  | EvSubscribe l => listeners (store (step w ev)) = listeners (store (subscribe l w))
  | EvUnsubscribe l => listeners (store (step w ev)) = listeners (store (unsubscribe l w))
  | _ => listeners (store (step w ev)) = listeners (store w)
  end.
Proof.
  destruct ev; cbn [step]; try reflexivity.
  - apply listeners_handleKeyDown.
  - unfold fireTimer. destruct (List.find _ _) as [[? [? cb]]|]; [|reflexivity].
    destruct cb; cbn [runTimerCallback]; [reflexivity|].
    destruct (bool_decide _); [|reflexivity].
    change (listeners (store (setKeySequence ?s ?x))) with (listeners (store x)).
    by rewrite (listeners_quiet _ _ (quiet_delegate _ _ _ _)).
  - unfold animationFrame. by rewrite listeners_runFrameCallbacks.
  - unfold handleDebuggerEvent. destruct (negb _); [reflexivity|]. destruct e.
    + rewrite handleRequestWillBeSent_insert, listeners_insertRequest.
      by destruct (isMainFrameNavigation _ _).
    + unfold handleResponseReceived. by destruct (findRequest _ _ _).
    + unfold handleLoadingFinished. destruct (findRequest _ _ _); [|reflexivity].
      cbn. by destruct (updateBatchRafId _).
    + unfold handleLoadingFailed. change (store (setCapture ?c ?x)) with (store x).
      destruct (findRequest _ _ _); [|reflexivity].
      match goal with |- context [republishRequests ?a ?x] =>
        by destruct (republishRequests_effects a x)
          as (_ & _ & _ & _ & _ & _ & _ & _ & _ & _ & ->) end.
    + reflexivity.
  - unfold handleDebuggerDetach. by destruct (negb _).
  - apply listeners_setState.
  - unfold handleCheckboxChange. rewrite listeners_setState.
    destruct (bool_decide _); [by destruct checked|].
    destruct (findFilterOption v) as [[|ts|t]|]; try reflexivity.
    apply listeners_fold_toggleType.
  - unfold filtersLoaded. by rewrite listeners_setState, listeners_fold_toggleType.
  - unfold setNodeExpanded. by rewrite listeners_setState.
  - unfold storeResponseBody. by destruct (_ !! _).
  - destruct (presentationOnly u); [apply listeners_setState | reflexivity].
  - by pose proof (state_getFilteredRequests w) as (_ & _ & _ & Hl & _).
Qed.

Lemma NoDup_listeners evs w :
  NoDup (listeners (store w)) -> NoDup (listeners (store (run w evs))).
Proof.
  revert w. induction evs as [|ev evs IH]; intros w Hnd; [exact Hnd|].
  cbn [run fold_left]. apply IH.
  pose proof (listeners_step w ev) as Hl.
  destruct ev; try (rewrite Hl; exact Hnd); rewrite Hl.
  - unfold subscribe. destruct (bool_decide (listener ∈ listeners (store w))) eqn:E;
      [exact Hnd|]. apply bool_decide_eq_false in E. cbn [store setStore listeners withListeners].
    apply NoDup_app. split; [exact Hnd|]. split; [|apply NoDup_singleton].
    intros x Hx Hx'. apply list_elem_of_singleton in Hx'. by subst.
  - unfold unsubscribe. cbn [store setStore listeners withListeners].
    apply NoDup_ListNoDup, List.NoDup_filter, NoDup_ListNoDup, Hnd.
Qed.

Lemma subscribed_NoDup l ls :
  NoDup ls -> length (List.filter (fun l' => Nat.eqb l' l) ls) = if bool_decide (l ∈ ls) then 1%nat else 0%nat.
Proof.
  induction 1 as [|x ls Hx Hnd IH]; [reflexivity|]. cbn [List.filter].
  destruct (Nat.eqb x l) eqn:E.
  - apply Nat.eqb_eq in E. subst x. cbn [length]. rewrite IH.
    rewrite (bool_decide_eq_false_2 _ Hx).
    by rewrite bool_decide_eq_true_2 by apply list_elem_of_here.
  - apply Nat.eqb_neq in E. rewrite IH.
    rewrite (bool_decide_ext (l ∈ x :: ls) (l ∈ ls)); [reflexivity|].
    rewrite elem_of_cons. split; [|tauto]. intros [->|?]; [done | assumption].
Qed.

(** X13.  The subscribers form a set: in every reachable state no
    callback is registered twice, so each notification calls a
    subscribed callback exactly once and the others not at all.
    Subscribing a callback that is already subscribed changes nothing,
    and the function returned by [subscribe] removes the callback. *)
Theorem subscribers_form_a_set (tab : Z) (evs : list Event) (l : nat) :
  let w := run (initialWorld tab) evs in
  NoDup (listeners (store w))
  /\ subscribed l w = (if bool_decide (l ∈ listeners (store w)) then 1%nat else 0%nat)
  /\ notified l (trace (notifyListeners w)) = (notified l (trace w) + subscribed l w)%nat
  /\ (l ∈ listeners (store (subscribe l w)))
  /\ subscribe l (subscribe l w) = subscribe l w
  /\ (l ∉ listeners (store (unsubscribe l w)))
  /\ (l ∉ listeners (store w) ->
      listeners (store (unsubscribe l (subscribe l w))) = listeners (store w)).
Proof.
  intros w.
  assert (Hnd : NoDup (listeners (store w))) by (apply NoDup_listeners; constructor).
  generalize dependent w. intros w Hnd.
  split; [exact Hnd|]. split; [by apply subscribed_NoDup|]. split.
  { rewrite trace_notifyListeners, notified_app, notified_broadcast. reflexivity. }
  assert (Hin : l ∈ listeners (store (subscribe l w))).
  { unfold subscribe. destruct (bool_decide (l ∈ listeners (store w))) eqn:E.
    - by apply bool_decide_eq_true in E.
    - cbn. apply elem_of_app. right. by apply list_elem_of_singleton. }
  split; [exact Hin|]. split.
  { unfold subscribe at 1. by rewrite bool_decide_eq_true_2. }
  split.
  { unfold unsubscribe. cbn. rewrite list_elem_of_In, List.filter_In.
    intros [_ Hne]. by rewrite Nat.eqb_refl in Hne. }
  intros Hnot. unfold subscribe. rewrite bool_decide_eq_false_2 by exact Hnot.
  unfold unsubscribe. cbn. rewrite List.filter_app. cbn. rewrite Nat.eqb_refl. cbn.
  rewrite app_nil_r. clear Hin Hnd.
  induction (listeners (store w)) as [|x ls IH]; [reflexivity|].
  rewrite not_elem_of_cons in Hnot. destruct Hnot as [Hx Hls].
  cbn. rewrite (proj2 (Nat.eqb_neq x l)) by congruence. cbn. by rewrite IH.
Qed.

End Subscribers.

(** X11, witness: a callback subscribed twice is called once. *)
Lemma subscribers_form_a_set_witness :
  let w := run (H := containsSearch) (initialWorld 7) [EvSubscribe 1%nat; EvSubscribe 1%nat] in
  listeners (store w) = [1%nat]
  /\ notified 1 (trace (notifyListeners w)) = 1%nat
  /\ listeners (store (unsubscribe 1 w)) = [].
Proof.
  intros w.
  destruct (subscribers_form_a_set (H := containsSearch) 7
              [EvSubscribe 1%nat; EvSubscribe 1%nat] 1%nat) as (_ & _ & Hn & _).
  split; [vm_compute; reflexivity|]. split; [|vm_compute; reflexivity].
  etrans; [exact Hn | vm_compute; reflexivity].
Defined.

(** ** The filter bar under the keyboard *)

Lemma agrees_filterSelectedIndexUpdate i st :
  agrees (filterSelectedIndexUpdate i) st -> filterSelectedIndex st = i.
Proof. unfold agrees. by intros <-. Qed.

Lemma agrees_filterOrderUpdate order i st :
  agrees (filterOrderUpdate order i) st -> filterOrder st = order /\ filterSelectedIndex st = i.
Proof. unfold agrees. by intros <-. Qed.

Lemma getState_setState u w : getState (setState u w) = getState w.
Proof. unfold getState, setState. cbn. by destruct (rafId (store w)). Qed.

Lemma setState_then_frame u w :
  Inv w -> u_requests u = None -> u_selectedIndex u = None ->
  agrees u (state (store (animationFrame (setState u w))))
  /\ Inv (animationFrame (setState u w)).
Proof.
  intros HI Hr Hs. split.
  - apply update_applied; [exact Hr | exact Hs | apply pendingState_setState |].
    by apply setState_queued.
  - apply Inv_animationFrame. by apply Inv_plainState.
Qed.

(** X14.  In the filter bar [h] and [l] move the selection by one
    position and stop at the ends: after the next frame the selected
    index is [max 0 (index - 1)], resp. [min 11 (index + 1)], so that a
    selection inside the twelve options never leaves them.  Any key
    but [h], [l] and [Enter] leaves the manager idle. *)
Theorem filter_selection_stays_in_the_bar `{External} (tab : Z) (evs : list Event)
    (selected : option Checkbox) :
  let w := run (initialWorld tab) evs in
  let i := filterSelectedIndex (state (store w)) in
  let after k := filterSelectedIndex
                   (state (store (animationFrame (handleNavigation k selected w)))) in
  after "h" = Z.max 0 (i - 1)
  /\ after "l" = Z.min 11 (i + 1)
  /\ (0 <= i <= 11 -> 0 <= after "h" <= 11 /\ 0 <= after "l" <= 11)
  /\ (forall k, k <> "h" -> k <> "l" -> k <> "Enter" -> handleNavigation k selected w = w).
Proof.
  intros w i after.
  assert (HI : Inv w) by apply Inv_run, Inv_initialWorld.
  assert (Hh : after "h" = Z.max 0 (i - 1)).
  { apply agrees_filterSelectedIndexUpdate.
    by apply (setState_then_frame (filterSelectedIndexUpdate (Z.max 0 (i - 1))) w HI). }
  assert (Hl : after "l" = Z.min 11 (i + 1)).
  { apply agrees_filterSelectedIndexUpdate.
    by apply (setState_then_frame (filterSelectedIndexUpdate (Z.min 11 (i + 1))) w HI). }
  split; [exact Hh|]. split; [exact Hl|]. split; [rewrite Hh, Hl; lia|].
  intros k Hkh Hkl Hke. unfold handleNavigation.
  by rewrite !bool_decide_eq_false_2.
Qed.

Lemma swapEntries_adjacent (i : nat) (a : list string) (x y : string) :
  a !! i = Some x -> a !! S i = Some y ->
  let b := take i a ++ y :: x :: drop (S (S i)) a in
  swapEntries (Z.of_nat (S i)) (Z.of_nat i) a = Some b
  /\ swapEntries (Z.of_nat i) (Z.of_nat (S i)) a = Some b
  /\ b ≡ₚ a
  /\ length b = length a
  /\ b !! i = Some y /\ b !! S i = Some x
  /\ (forall k, k <> i -> k <> S i -> b !! k = a !! k)
  /\ swapEntries (Z.of_nat i) (Z.of_nat (S i)) b = Some a.
Proof.
  intros Hx Hy b.
  assert (Hlen : (S i < length a)%nat) by (by apply lookup_lt_Some in Hy).
  assert (Ha : a = take i a ++ x :: y :: drop (S (S i)) a).
  { rewrite <- (take_drop i a) at 1. f_equal.
    rewrite (drop_S a x i Hx). f_equal. by rewrite (drop_S a y (S i) Hy). }
  assert (Hti : length (take i a) = i) by (rewrite length_take; lia).
  assert (Hb1 : <[i := x]> (<[S i := y]> a) = a).
  { rewrite list_insert_id; [by apply list_insert_id|].
    rewrite list_lookup_insert_ne by lia. exact Hx. }
  assert (Hsw : <[i := y]> (<[S i := x]> a) = b).
  { subst b. clear Ha Hti Hb1 Hlen. revert a Hx Hy.
    induction i as [|i IH]; intros [|c [|c' a]] Hx Hy; try discriminate.
    - cbn in Hx, Hy. by cbn.
    - cbn in Hx, Hy |- *. f_equal. by apply (IH (c' :: a)). }
  assert (Hsw' : <[S i := x]> (<[i := y]> a) = b).
  { rewrite list_insert_insert_ne by lia. exact Hsw. }
  split; [|split].
  - unfold swapEntries. rewrite !Nat2Z.id.
    rewrite (proj2 (Z.ltb_ge _ 0)), (proj2 (Z.ltb_ge (Z.of_nat i) 0)) by lia.
    cbn [orb]. by rewrite Hy, Hx, Hsw.
  - unfold swapEntries. rewrite !Nat2Z.id.
    rewrite (proj2 (Z.ltb_ge _ 0)), (proj2 (Z.ltb_ge (Z.of_nat (S i)) 0)) by lia.
    cbn [orb]. by rewrite Hy, Hx, Hsw'.
  - split.
    { transitivity (take i a ++ x :: y :: drop (S (S i)) a);
        [apply Permutation_app_head, perm_swap | by rewrite <- Ha]. }
    split; [rewrite <- Hsw, !length_insert; reflexivity|].
    rewrite <- Hsw. split; [apply list_lookup_insert_eq; rewrite length_insert; lia|].
    split; [rewrite list_lookup_insert_ne by lia;
            apply list_lookup_insert_eq; lia|].
    split; [intros k Hk1 Hk2; by rewrite !list_lookup_insert_ne by lia|].
    unfold swapEntries. rewrite !Nat2Z.id.
    rewrite (proj2 (Z.ltb_ge _ 0)), (proj2 (Z.ltb_ge (Z.of_nat (S i)) 0)) by lia.
    cbn [orb].
    rewrite (list_lookup_insert_eq _ i y) by (rewrite length_insert; lia).
    rewrite (list_lookup_insert_ne _ i (S i) y) by lia.
    rewrite (list_lookup_insert_eq _ (S i) x) by lia.
    rewrite list_insert_insert_eq, (list_insert_insert_ne _ i (S i)) by lia.
    by rewrite list_insert_insert_eq, (list_insert_id a i x Hx), (list_insert_id a (S i) y Hy).
Qed.

Lemma moveFilterLeft_swap w order :
  1 < filterSelectedIndex (state (store w)) ->
  swapEntries (filterSelectedIndex (state (store w)) - 1)
              (filterSelectedIndex (state (store w)) - 1 - 1)
              (filterOrder (state (store w))) = Some order ->
  moveFilterLeft w
  = Some {| moved := setState (filterOrderUpdate order
                                 (filterSelectedIndex (state (store w)) - 1)) w;
            savedOrder := Some (filterOrder (state (store w))) |}.
Proof.
  intros Hi Hsw. unfold moveFilterLeft. cbv zeta.
  replace (getState w) with (state (store w)) by reflexivity.
  rewrite Hsw, getState_setState, (proj2 (Z.leb_gt _ 1)) by lia. reflexivity.
Qed.

Lemma moveFilterRight_swap w order :
  0 < filterSelectedIndex (state (store w)) < 11 ->
  swapEntries (filterSelectedIndex (state (store w)) - 1)
              (filterSelectedIndex (state (store w)) - 1 + 1)
              (filterOrder (state (store w))) = Some order ->
  moveFilterRight w
  = Some {| moved := setState (filterOrderUpdate order
                                 (filterSelectedIndex (state (store w)) + 1)) w;
            savedOrder := Some (filterOrder (state (store w))) |}.
Proof.
  intros Hi Hsw. unfold moveFilterRight. cbv zeta.
  replace (getState w) with (state (store w)) by reflexivity.
  rewrite Hsw, getState_setState, (proj2 (Z.eqb_neq _ 0)) by lia.
  replace (jsLength filterOptions - 1) with 11 by reflexivity.
  rewrite (proj2 (Z.leb_gt 11 _)) by lia. reflexivity.
Qed.

Lemma filter_moved order i w :
  Inv w ->
  let w1 := animationFrame (setState (filterOrderUpdate order i) w) in
  filterOrder (state (store w1)) = order
  /\ filterSelectedIndex (state (store w1)) = i
  /\ Inv w1.
Proof.
  intros HI w1.
  destruct (setState_then_frame (filterOrderUpdate order i) w HI eq_refl eq_refl)
    as [Hag HI1].
  apply agrees_filterOrderUpdate in Hag. by destruct Hag.
Qed.

Lemma moveFilterLeft_then_right w :
  Inv w ->
  2 <= filterSelectedIndex (state (store w))
    <= Z.of_nat (length (filterOrder (state (store w)))) ->
  exists m,
    moveFilterLeft w = Some m
    /\ savedOrder m = Some (filterOrder (state (store w)))
    /\ let w1 := animationFrame (moved m) in
       let st1 := state (store w1) in
       let st := state (store w) in
       let i := filterSelectedIndex st in
       filterSelectedIndex st1 = i - 1
       /\ filterOrder st1 ≡ₚ filterOrder st
       /\ filterOrder st1 !! Z.to_nat (i - 2) = filterOrder st !! Z.to_nat (i - 1)
       /\ filterOrder st1 !! Z.to_nat (i - 1) = filterOrder st !! Z.to_nat (i - 2)
       /\ (forall k, k <> Z.to_nat (i - 2) -> k <> Z.to_nat (i - 1) ->
             filterOrder st1 !! k = filterOrder st !! k)
       /\ (i <= 11 ->
           exists m',
             moveFilterRight w1 = Some m'
             /\ savedOrder m' = Some (filterOrder st1)
             /\ filterOrder (state (store (animationFrame (moved m')))) = filterOrder st
             /\ filterSelectedIndex (state (store (animationFrame (moved m')))) = i).
Proof.
  intros HI Hi. cbv zeta.
  pose proof (moveFilterLeft_swap w) as Hleft.
  remember (filterOrder (state (store w))) as order eqn:Eo.
  remember (filterSelectedIndex (state (store w))) as i eqn:Ei.
  set (n := Z.to_nat (i - 2)).
  assert (Hn1 : Z.to_nat (i - 1) = S n) by (subst n; lia).
  destruct (lookup_lt_is_Some_2 order n) as [x Hx]; [subst n; lia|].
  destruct (lookup_lt_is_Some_2 order (S n)) as [y Hy]; [subst n; lia|].
  destruct (swapEntries_adjacent n order x y Hx Hy)
    as (Hl & _ & Hperm & _ & Hbn & HbS & Hrest & Hback).
  generalize dependent (take n order ++ y :: x :: drop (S (S n)) order).
  intros b Hl Hperm Hbn HbS Hrest Hback.
  replace (Z.of_nat (S n)) with (i - 1) in Hl, Hback by (subst n; lia).
  replace (Z.of_nat n) with (i - 1 - 1) in Hl, Hback by (subst n; lia).
  rewrite Hn1. fold n.
  specialize (Hleft b ltac:(lia) Hl).
  eexists. split; [exact Hleft|]. split; [reflexivity|].
  cbn [moved]. cbv zeta.
  destruct (filter_moved b (i - 1) w HI) as (Ho1 & Hi1 & HI1).
  generalize (moveFilterRight_swap
                (animationFrame (setState (filterOrderUpdate b (i - 1)) w))).
  generalize (filter_moved order (i - 1 + 1)
                (animationFrame (setState (filterOrderUpdate b (i - 1)) w)) HI1).
  cbv zeta.
  generalize dependent (animationFrame (setState (filterOrderUpdate b (i - 1)) w)).
  intros w1 Ho1 Hi1 _ Hmoved Hright.
  rewrite Ho1, Hi1 in *.
  split; [reflexivity|]. split; [exact Hperm|].
  split; [by rewrite Hbn, Hy|]. split; [by rewrite HbS, Hx|].
  split; [exact Hrest|].
  intros Hle. specialize (Hright order ltac:(lia)).
  replace (i - 1 + 1) with i in * by lia.
  replace (i - 1 - 1 + 1) with (i - 1) in Hright by lia.
  specialize (Hright Hback). destruct Hmoved as (Ho2 & Hi2 & _).
  eexists. split; [exact Hright|]. split; [reflexivity|].
  cbn [moved]. by split.
Qed.

(** X15.  Moving the selected filter one place to the left
    ([moveFilterLeft], with the selection on the second filter of the
    order or later) queues one update: after the next frame the selected
    filter and its left neighbour have changed places, every other entry
    of the order is where it was, and the selection has followed the
    filter.  The order given to storage by the same call is the one read
    from the state before the frame, that is the order before the move.
    [moveFilterRight] then undoes the move. *)
Theorem moving_a_filter `{External} (tab : Z) (evs : list Event) :
  let w := run (initialWorld tab) evs in
  let st := state (store w) in
  let i := filterSelectedIndex st in
  2 <= i <= jsLength (filterOrder st) ->
  exists m,
    moveFilterLeft w = Some m
    /\ savedOrder m = Some (filterOrder st)
    /\ let w1 := animationFrame (moved m) in
       let st1 := state (store w1) in
       filterSelectedIndex st1 = i - 1
       /\ filterOrder st1 ≡ₚ filterOrder st
       /\ filterOrder st1 !! Z.to_nat (i - 2) = filterOrder st !! Z.to_nat (i - 1)
       /\ filterOrder st1 !! Z.to_nat (i - 1) = filterOrder st !! Z.to_nat (i - 2)
       /\ (forall k, k <> Z.to_nat (i - 2) -> k <> Z.to_nat (i - 1) ->
             filterOrder st1 !! k = filterOrder st !! k)
       /\ (i <= 11 ->
           exists m',
             moveFilterRight w1 = Some m'
             /\ savedOrder m' = Some (filterOrder st1)
             /\ filterOrder (state (store (animationFrame (moved m')))) = filterOrder st
             /\ filterSelectedIndex (state (store (animationFrame (moved m')))) = i).
Proof.
  intros w st i Hi. apply moveFilterLeft_then_right; [|exact Hi].
  apply Inv_run, Inv_initialWorld.
Qed.

Lemma moving_a_filter_witness :
  let w := run (H := containsSearch) (initialWorld 1) thirdFilterSelected in
  exists m, moveFilterLeft w = Some m
            /\ savedOrder m = Some (filterOrder (state (store w)))
            /\ filterSelectedIndex (state (store (animationFrame (moved m)))) = 2.
Proof.
  intros w.
  destruct (moving_a_filter (H := containsSearch) 1 thirdFilterSelected)
    as (m & Hm & Hs & Hi & _).
  - vm_compute. split; discriminate.
  - exists m. split; [exact Hm|]. split; [exact Hs|]. exact Hi.
Defined.


(** ** The JSON viewer *)

Lemma JsonValue_nested_ind (P : JsonValue -> Prop) :
  P JNull -> (forall b, P (JBool b)) -> (forall n, P (JNumber n)) ->
  (forall s, P (JString s)) ->
  (forall items, Forall P items -> P (JArray items)) ->
  (forall entries, Forall (fun kv => P (snd kv)) entries -> P (JObject entries)) ->
  forall v, P v.
Proof.
  intros Hn Hb Hnum Hs Ha Ho.
  fix IH 1. intros [ | b | n | s | items | entries].
  - exact Hn.
  - apply Hb.
  - apply Hnum.
  - apply Hs.
  - apply Ha. induction items as [|x items IHl]; constructor; [apply IH | exact IHl].
  - apply Ho. induction entries as [|kv entries IHl]; constructor; [apply IH | exact IHl].
Qed.

Lemma entryCount_primitive v : isObjectValue v = false -> entryCount v = 0%nat.
Proof. by destruct v. Qed.

Lemma length_flatMapFrom {A B} (f : nat -> A -> list B) (g : A -> nat) i l :
  Forall (fun x => forall j, (1 <= length (f j x) <= g x)%nat) l ->
  (length l <= length (flatMapFrom f i l) <= sum_list (List.map g l))%nat.
Proof.
  intros Hl. revert i. induction Hl as [|x l Hx _ IH]; intros i; cbn; [lia|].
  rewrite length_app. specialize (Hx i). specialize (IH (S i)). lia.
Qed.

Lemma length_flatMapFrom_eq {A B} (f : nat -> A -> list B) (g : A -> nat) i l :
  Forall (fun x => forall j, length (f j x) = g x) l ->
  length (flatMapFrom f i l) = sum_list (List.map g l).
Proof.
  intros Hl. revert i. induction Hl as [|x l Hx _ IH]; intros i; cbn; [reflexivity|].
  by rewrite length_app, Hx, IH.
Qed.

Lemma length_flat_map_bounds {A B} (f : A -> list B) (g : A -> nat) l :
  Forall (fun x => (1 <= length (f x) <= g x)%nat) l ->
  (length l <= length (flat_map f l) <= sum_list (List.map g l))%nat.
Proof.
  induction 1 as [|x l Hx _ IH]; cbn; [lia|]. rewrite length_app. lia.
Qed.

Lemma length_flat_map_eq {A B} (f : A -> list B) (g : A -> nat) l :
  Forall (fun x => length (f x) = g x) l ->
  length (flat_map f l) = sum_list (List.map g l).
Proof.
  induction 1 as [|x l Hx _ IH]; cbn; [reflexivity|]. by rewrite length_app, Hx, IH.
Qed.

Lemma expandedAt_all_expanded (m : gmap string bool) p :
  (forall q, m !! q <> Some false) -> expandedAt m p = true.
Proof.
  intros Hm. unfold expandedAt. specialize (Hm p).
  destruct (m !! p) as [[|]|]; [reflexivity | done | reflexivity].
Qed.

Lemma length_entryNodes m path level arr k v (children : string -> list JsonNode) :
  (isObjectValue v = true ->
   forall p, (length (children p) <= entryCount v)%nat
             /\ ((forall q, m !! q <> Some false) ->
                 length (children p) = entryCount v)) ->
  (1 <= length (entryNodes m path level arr k v children) <= S (entryCount v))%nat
  /\ ((forall q, m !! q <> Some false) ->
      length (entryNodes m path level arr k v children) = S (entryCount v)).
Proof.
  intros Hc. unfold entryNodes. cbn [length].
  destruct (isObjectValue v) eqn:Ev.
  - specialize (Hc eq_refl (nodePathOf path arr k)). destruct Hc as [Hle Heq].
    split.
    + destruct (expandedAt m _); cbn [andb length]; lia.
    + intros Hm. rewrite (expandedAt_all_expanded m _ Hm). cbn [andb]. by rewrite Heq.
  - rewrite andb_false_r, (entryCount_primitive v Ev). cbn. split; [lia | reflexivity].
Qed.

Lemma flattenJson_count m v :
  isObjectValue v = true ->
  forall path level,
    (ownEntries v <= length (flattenJson m v path level) <= entryCount v)%nat
    /\ ((forall q, m !! q <> Some false) ->
        length (flattenJson m v path level) = entryCount v).
Proof.
  induction v as [ | | | | items IH | entries IH] using JsonValue_nested_ind;
    try discriminate; intros _ path level; cbn [flattenJson entryCount ownEntries].
  - split.
    + apply length_flatMapFrom. eapply Forall_impl; [exact IH|].
      intros x Hx j. cbv beta.
      apply length_entryNodes. intros Ex p. destruct (Hx Ex p (level + 1)). split; [lia | done].
    + intros Hm. apply length_flatMapFrom_eq. eapply Forall_impl; [exact IH|].
      intros x Hx j. cbv beta.
      apply length_entryNodes; [|exact Hm].
      intros Ex p. destruct (Hx Ex p (level + 1)). split; [lia | done].
  - split.
    + apply (length_flat_map_bounds _ (fun kv => S (entryCount (snd kv)))).
      eapply Forall_impl; [exact IH|].
      intros x Hx. cbv beta.
      apply length_entryNodes. intros Ex p. destruct (Hx Ex p (level + 1)). split; [lia | done].
    + intros Hm. apply (length_flat_map_eq _ (fun kv => S (entryCount (snd kv)))).
      eapply Forall_impl; [exact IH|].
      intros x Hx. cbv beta.
      apply length_entryNodes; [|exact Hm].
      intros Ex p. destruct (Hx Ex p (level + 1)). split; [lia | done].
Qed.

(** X16.  The node list of a response.  For an array or an object,
    [flattenJson] lists at least the entries of the value itself and at
    most the entries at every depth, whatever the expansion map holds,
    and exactly the entries at every depth when no path is collapsed, in
    particular none for an empty array or object.  For [null] and for a
    string, number or boolean it is the single node of the value, under
    the path [root] when called on the whole response. *)
Theorem flattened_nodes_count (expanded : gmap string bool) (data : JsonValue)
    (parent : string) (depth : Z) :
  let nodes := flattenJson expanded data parent depth in
  if isObjectValue data then
    (ownEntries data <= length nodes <= entryCount data)%nat
    /\ ((forall q, expanded !! q <> Some false) -> length nodes = entryCount data)
    /\ (ownEntries data = 0%nat -> nodes = [])
  else
    exists n, nodes = [n] /\ value n = data /\ level n = depth
              /\ isExpanded n = false
              /\ (parent = "" -> path n = "root").
Proof.
  intros nodes. destruct (isObjectValue data) eqn:Ed.
  - destruct (flattenJson_count expanded data Ed parent depth) as [Hb Heq].
    split; [exact Hb|]. split; [exact Heq|].
    intros H0. subst nodes. destruct data as [ | | | | [|] | [|]]; try discriminate; reflexivity.
  - subst nodes. destruct data; try discriminate; cbn [flattenJson];
      (eexists; split; [reflexivity|]; cbn; repeat split; try reflexivity; by intros ->).
Qed.

Lemma in_flatMapFrom {A B} (f : nat -> A -> list B) i l y :
  In y (flatMapFrom f i l) <-> exists j x, l !! j = Some x /\ In y (f (i + j)%nat x).
Proof.
  revert i. induction l as [|x l IH]; intros i; cbn.
  - split; [done | by intros (j & x & Hx & _)].
  - rewrite in_app_iff, IH. split.
    + intros [Hy | (j & x' & Hx' & Hy)].
      * exists 0%nat, x. by rewrite Nat.add_0_r.
      * exists (S j), x'. split; [exact Hx'|]. by replace (i + S j)%nat with (S i + j)%nat by lia.
    + intros (j & x' & Hx' & Hy). destruct j as [|j].
      * left. cbn in Hx'. injection Hx' as ->. by rewrite Nat.add_0_r in Hy.
      * right. exists j, x'. split; [exact Hx'|].
        by replace (S i + j)%nat with (i + S j)%nat by lia.
Qed.

Lemma wellPlaced_mono m nodes nodes' parent depth n :
  (forall p, In p nodes -> In p nodes') ->
  wellPlaced m nodes parent depth n -> wellPlaced m nodes' parent depth n.
Proof.
  intros Hsub (He & Ht & [Hl | (Hlt & p & arr & k & Hp & Hrest)]).
  - split; [exact He|]. split; [exact Ht|]. by left.
  - split; [exact He|]. split; [exact Ht|]. right. split; [exact Hlt|].
    exists p, arr, k. split; [by apply Hsub | exact Hrest].
Qed.

Lemma wellPlaced_entryNodes m parent depth arr k v (children : string -> list JsonNode) n :
  (isObjectValue v = true ->
   forall np c, In c (children np) -> wellPlaced m (children np) np (depth + 1) c) ->
  In n (entryNodes m parent depth arr k v children) ->
  wellPlaced m (entryNodes m parent depth arr k v children) parent depth n.
Proof.
  intros Hc Hn. unfold entryNodes in *. cbv zeta in *.
  set (np := nodePathOf parent arr k) in *.
  set (node := {| key := k; value := v; type := getValueType v; path := np;
                  isExpanded := expandedAt m np; level := depth |}) in *.
  destruct Hn as [<- | Hn].
  - split; [reflexivity|]. split; [reflexivity|]. left. split; [reflexivity|].
    by exists arr, k.
  - destruct (expandedAt m np) eqn:Ee; [|by destruct Hn].
    destruct (isObjectValue v) eqn:Ev; [|by destruct Hn].
    cbn [andb] in *.
    destruct (Hc eq_refl np n Hn) as (He & Ht & [[Hl (arr' & k' & Hp)] | (Hlt & p & arr' & k' & Hp & Hrest)]).
    + split; [exact He|]. split; [exact Ht|]. right. split; [lia|].
      exists node, arr', k'. split; [by left|].
      subst node. cbn. repeat split; [lia | exact Ev | exact Hp].
    + split; [exact He|]. split; [exact Ht|]. right. split; [lia|].
      exists p, arr', k'. split; [by right | exact Hrest].
Qed.

Lemma flattenJson_wellPlaced m v :
  isObjectValue v = true ->
  forall parent depth n,
    In n (flattenJson m v parent depth) ->
    wellPlaced m (flattenJson m v parent depth) parent depth n.
Proof.
  induction v as [ | | | | items IH | entries IH] using JsonValue_nested_ind;
    try discriminate; intros _ parent depth n; cbn [flattenJson]; intros Hn.
  - pose proof Hn as Hn'. apply in_flatMapFrom in Hn' as (j & x & Hx & Hin).
    cbv beta in Hin.
    apply (wellPlaced_mono m (entryNodes m parent depth true (pretty (0 + j)%nat) x
                                (fun np => flattenJson m x np (depth + 1)))).
    + intros p Hp. apply in_flatMapFrom. by exists j, x.
    + apply wellPlaced_entryNodes; [|exact Hin].
      intros Ex np c Hc.
      apply (proj1 (Forall_forall _ _) IH x); [by eapply list_elem_of_lookup_2 | exact Ex | exact Hc].
  - pose proof Hn as Hn'. apply in_flat_map in Hn' as (kv & Hkv & Hin).
    cbv beta in Hin.
    apply (wellPlaced_mono m (entryNodes m parent depth false (fst kv) (snd kv)
                                (fun np => flattenJson m (snd kv) np (depth + 1)))).
    + intros p Hp. apply in_flat_map. by exists kv.
    + apply wellPlaced_entryNodes; [|exact Hin].
      intros Ex np c Hc.
      apply (proj1 (Forall_forall _ _) IH kv); [by apply list_elem_of_In | exact Ex | exact Hc].
Qed.

(** X17.  Every node that [flattenJson] lists for an array or an object
    carries the expansion state that the map gives to its path (expanded
    when the map has no entry), and is either an entry of that value, at
    the starting level, or an entry of a container that the same list
    shows as expanded one level above: nothing is listed under a node
    shown as collapsed. *)
Theorem nodes_hang_under_expanded_nodes (expanded : gmap string bool) (data : JsonValue)
    (parent : string) (depth : Z) (n : JsonNode) :
  isObjectValue data = true ->
  In n (flattenJson expanded data parent depth) ->
  wellPlaced expanded (flattenJson expanded data parent depth) parent depth n.
Proof. intros Hd Hn. by apply flattenJson_wellPlaced. Qed.

Lemma nodes_hang_under_expanded_nodes_witness :
  let m : gmap string bool := {[ "items" := false ]} in
  let n := {| key := "total"; value := JNumber 2; type := TNumber; path := "meta.total";
              isExpanded := true; level := 1 |} in
  In n (flattenJson m sampleBody "" 0)
  /\ wellPlaced m (flattenJson m sampleBody "" 0) "" 0 n.
Proof.
  intros m n.
  assert (Hn : In n (flattenJson m sampleBody "" 0)).
  { vm_compute. right. right. left. reflexivity. }
  split; [exact Hn|].
  exact (nodes_hang_under_expanded_nodes m sampleBody "" 0 n eq_refl Hn).
Defined.

(** ** Expanding and collapsing nodes *)

Lemma readExpanded_writeExpanded h l v : readExpanded (writeExpanded l v h) l = v.
Proof. unfold readExpanded, writeExpanded. cbn. apply lookup_total_insert_eq. Qed.

Lemma expandedMaps_runFrameCallbacks (rest : list (positive * FrameCallback)) w :
  expandedMaps (heap (fold_left (fun acc cb => runFrameCallback (snd cb) acc) rest w))
  = expandedMaps (heap w).
Proof.
  revert w. induction rest as [|[handle cb] rest IH]; intros w; [reflexivity|].
  cbn [fold_left snd]. rewrite IH. destruct cb as [|a|]; cbn [runFrameCallback].
  - by destruct (storeFlush_effects w) as (_ & _ & _ & _ & _ & ->).
  - unfold captureFlush, republishRequests, allocArray, setState. cbn.
    by destruct (rafId (store w)).
  - reflexivity.
Qed.

Lemma readExpanded_animationFrame w l :
  readExpanded (heap (animationFrame w)) l = readExpanded (heap w) l.
Proof.
  unfold readExpanded, animationFrame. by rewrite expandedMaps_runFrameCallbacks.
Qed.

Lemma agrees_two st m u1 u2 : agrees (assign u1 u2) (spread st (assign (assign m u1) u2)).
Proof.
  unfold agrees, spread, assign. cbn.
  f_equal;
    match goal with
    | |- context [later (later _ ?a) ?b] => by destruct a, b
    end.
Qed.

Lemma flatMapFrom_ext {A B} (f g : nat -> A -> list B) i l :
  Forall (fun x => forall j, f j x = g j x) l -> flatMapFrom f i l = flatMapFrom g i l.
Proof.
  intros Hl. revert i. induction Hl as [|x l Hx _ IH]; intros i; cbn; [reflexivity|].
  by rewrite Hx, IH.
Qed.

Lemma flat_map_ext_Forall {A B} (f g : A -> list B) l :
  Forall (fun x => f x = g x) l -> flat_map f l = flat_map g l.
Proof. induction 1 as [|x l Hx _ IH]; cbn; [reflexivity|]. by rewrite Hx, IH. Qed.

Lemma flattenJson_ext m m' v :
  (forall q, expandedAt m q = expandedAt m' q) ->
  forall parent depth, flattenJson m v parent depth = flattenJson m' v parent depth.
Proof.
  intros Hm.
  induction v as [ | | | | items IH | entries IH] using JsonValue_nested_ind;
    intros parent depth; cbn [flattenJson]; try reflexivity.
  - apply flatMapFrom_ext. eapply Forall_impl; [exact IH|].
    intros x Hx j. cbv beta. unfold entryNodes. cbv zeta. rewrite Hm.
    by rewrite Hx.
  - apply flat_map_ext_Forall. eapply Forall_impl; [exact IH|].
    intros x Hx. cbv beta. unfold entryNodes. cbv zeta. rewrite Hm.
    by rewrite Hx.
Qed.

Lemma rerenderJson_data data w : data <> JNull -> rerenderJson data w = renderJson data w.
Proof. by destruct data. Qed.

Lemma toggleNode_effects data p w :
  Inv w -> data <> JNull ->
  let l := jsonExpanded (state (store w)) in
  let m := readExpanded (heap w) l in
  let m' := <[p := negb (expandedAt m p)]> m in
  let w1 := toggleNode data p w in
  let w2 := animationFrame w1 in
  state (store w1) = state (store w)
  /\ readExpanded (heap w1) l = m'
  /\ trace w1 = trace w
  /\ Inv w2
  /\ jsonExpanded (state (store w2)) = l
  /\ readExpanded (heap w2) l = m'
  /\ flattenedJsonNodes (state (store w2)) = flattenJson m' data "" 0.
Proof.
  intros HI Hd. cbv zeta. unfold toggleNode. cbv zeta.
  rewrite (rerenderJson_data data _ Hd). unfold getState.
  set (l := jsonExpanded (state (store w))).
  set (b := negb (expandedAt (readExpanded (heap w) l) p)).
  pose proof (Inv_setNodeExpanded p b w HI) as HI1.
  unfold renderJson, getState.
  assert (Hst1 : state (store (setNodeExpanded p b w)) = state (store w)).
  { unfold setNodeExpanded. by destruct (setState_frame (jsonExpandedUpdate (jsonExpanded (getState w)))
      (setHeap (writeExpanded (jsonExpanded (getState w))
         (<[p := b]> (readExpanded (heap w) (jsonExpanded (getState w)))) (heap w)) w))
      as (_ & -> & _). }
  assert (Hh1 : readExpanded (heap (setNodeExpanded p b w)) l
                = <[p := b]> (readExpanded (heap w) l)).
  { unfold setNodeExpanded.
    match goal with |- context [setState ?u ?x] =>
      destruct (setState_frame u x) as (-> & _ & _) end.
    cbn [heap setHeap]. apply readExpanded_writeExpanded. }
  assert (Ht1 : trace (setNodeExpanded p b w) = trace w).
  { unfold setNodeExpanded.
    match goal with |- context [setState ?u ?x] =>
      destruct (setState_frame u x) as (_ & _ & ->) end.
    reflexivity. }
  assert (Hp1 : pendingUpdates (store (setNodeExpanded p b w))
                = pendingUpdates (store w) ++ [jsonExpandedUpdate l]).
  { unfold setNodeExpanded.
    match goal with |- context [setState ?u ?x] =>
      destruct (setState_pending u x) as (-> & _ & _) end.
    reflexivity. }
  rewrite Hst1. fold l. rewrite Hh1.
  generalize dependent (setNodeExpanded p b w). intros w1 HI1 Hst1 Hh1 Ht1 Hp1.
  set (nodes := flattenJson (<[p := b]> (readExpanded (heap w) l)) data "" 0).
  set (u2 := flattenedJsonNodesUpdate nodes).
  destruct (setState_frame u2 w1) as (Hh2 & Hst2 & Ht2).
  destruct (setState_pending u2 w1) as (Hp2 & _ & _).
  assert (Hag : agrees (assign (jsonExpandedUpdate l) u2)
                       (state (store (animationFrame (setState u2 w1))))).
  { apply update_applied; [reflexivity | reflexivity | | by apply setState_queued].
    unfold pendingState. rewrite Hp2, Hst2, Hp1, !assignAll_snoc. apply agrees_two. }
  split; [by rewrite Hst2|]. split; [by rewrite Hh2|]. split; [by rewrite Ht2, Ht1|].
  split; [by apply Inv_animationFrame, Inv_plainState|].
  rewrite readExpanded_animationFrame, Hh2, Hh1.
  unfold agrees in Hag. rewrite <- Hag. by cbn.
Qed.

(** X18.  Toggling a node of the viewer ([toggleNode], with a response
    loaded) writes the negated expansion state of the path into the
    store's own map at once, without telling a subscriber, while the
    node list in the state stays the old one until the next frame; the
    frame installs the list of the response under the new map.
    Toggling the same path again gives back the list under the map as
    it was. *)
Theorem toggling_a_node `{External} (tab : Z) (evs : list Event) (data : JsonValue)
    (p : string) :
  data <> JNull ->
  let w := run (initialWorld tab) evs in
  let st := state (store w) in
  let m := readExpanded (heap w) (jsonExpanded st) in
  let m' := <[p := negb (expandedAt m p)]> m in
  let w1 := toggleNode data p w in
  let w2 := animationFrame w1 in
  let w4 := animationFrame (toggleNode data p w2) in
  readExpanded (heap w1) (jsonExpanded (state (store w1))) = m'
  /\ flattenedJsonNodes (state (store w1)) = flattenedJsonNodes st
  /\ trace w1 = trace w
  /\ flattenedJsonNodes (state (store w2)) = flattenJson m' data "" 0
  /\ flattenedJsonNodes (state (store w4)) = flattenJson m data "" 0.
Proof.
  intros Hd w st m m' w1 w2 w4.
  assert (HI : Inv w) by apply Inv_run, Inv_initialWorld.
  destruct (toggleNode_effects data p w HI Hd) as (Hs1 & Hh1 & Ht1 & HI2 & Hl2 & Hh2 & Hn2).
  destruct (toggleNode_effects data p w2 HI2 Hd) as (_ & _ & _ & _ & _ & _ & Hn4).
  split; [subst w1; by rewrite Hs1|]. split; [subst w1; by rewrite Hs1|].
  split; [exact Ht1|]. split; [exact Hn2|].
  subst w4. rewrite Hn4. subst w2 w1. rewrite Hl2, Hh2.
  apply flattenJson_ext. intros q. unfold expandedAt.
  destruct (decide (q = p)) as [->|Hq].
  - rewrite !lookup_insert_eq. cbn. by rewrite negb_involutive.
  - by rewrite !lookup_insert_ne.
Qed.

Lemma toggling_a_node_witness :
  let w := run (H := containsSearch) (initialWorld 1) [] in
  let shown w' := List.map path (flattenedJsonNodes (state (store w'))) in
  let w2 := animationFrame (toggleNode sampleBody "items" w) in
  shown w2 = ["items"; "meta"; "meta.total"; "meta.next"]
  /\ length (shown (animationFrame (toggleNode sampleBody "items" w2))) = 7%nat.
Proof.
  intros w shown w2.
  destruct (toggling_a_node (H := containsSearch) 1 [] sampleBody "items")
    as (_ & _ & _ & Hn2 & Hn4); [discriminate|].
  cbv zeta in Hn2, Hn4. fold w in Hn2, Hn4. fold w2 in Hn4.
  subst shown. cbv beta. split.
  - subst w2. rewrite Hn2. vm_compute. reflexivity.
  - rewrite Hn4. vm_compute. reflexivity.
Defined.

(** ** The headers list *)

Lemma pushSection_spec s entries items n :
  pushSection s entries (items, n)
  = (items ++ imap (fun i kv => {| h_section := s; h_key := fst kv; h_value := snd kv;
                                   h_index := n + Z.of_nat i |}) entries,
     n + Z.of_nat (length entries)).
Proof.
  unfold pushSection. revert items n.
  induction entries as [|kv entries IH]; intros items n; cbn [fold_left fst snd].
  - cbn. by rewrite app_nil_r, Z.add_0_r.
  - rewrite IH. cbn [imap length]. rewrite <- app_assoc. cbn [app]. f_equal.
    + f_equal. rewrite Z.add_0_r. f_equal. apply imap_ext. intros i kv' _. cbn.
      f_equal. lia.
    + lia.
Qed.

(** A list of header items numbered from 0, with no item of a section
    that [c] holds as collapsed. *)
Lemma numbered_pushSection s entries items (c : HeadersList) :
  sectionCollapsed s c = false ->
  (forall i item, items !! i = Some item ->
     h_index item = Z.of_nat i /\ sectionCollapsed (h_section item) c = false) ->
  let items' := fst (pushSection s entries (items, Z.of_nat (length items))) in
  (forall i item, items' !! i = Some item ->
     h_index item = Z.of_nat i /\ sectionCollapsed (h_section item) c = false)
  /\ length items' = (length items + length entries)%nat
  /\ snd (pushSection s entries (items, Z.of_nat (length items))) = Z.of_nat (length items').
Proof.
  intros Hs Hitems. cbv zeta. rewrite pushSection_spec. cbn [fst snd].
  rewrite length_app, length_imap. split; [|split; [reflexivity | lia]].
  intros i item Hi. apply lookup_app_Some in Hi as [Hi | [Hge Hi]].
  - by apply Hitems.
  - apply list_lookup_imap_Some in Hi as (kv & Hkv & ->). cbn. split; [lia | exact Hs].
Qed.

Lemma buildHeadersList_numbered (c : HeadersList) (request : NetworkRequest) :
  let items := buildHeadersList c request in
  (forall i item, items !! i = Some item ->
     h_index item = Z.of_nat i /\ sectionCollapsed (h_section item) c = false)
  /\ length items
     = ((if sectionCollapsed SecGeneral c then 0 else 4)
        + (if sectionCollapsed SecRequest c then 0 else length (r_requestHeaders request))
        + (if sectionCollapsed SecResponse c then 0
           else length (r_responseHeaders request)))%nat.
Proof.
  cbv zeta. unfold buildHeadersList. cbv zeta.
  assert (H0 : forall i (item : HeaderItem), ([] : list HeaderItem) !! i = Some item ->
                 h_index item = Z.of_nat i /\ sectionCollapsed (h_section item) c = false)
    by (intros i item Hi; by rewrite lookup_nil in Hi).
  set (a1 := if sectionCollapsed SecGeneral c then ([], 0)
             else pushSection SecGeneral (getGeneralItems request) ([], 0)).
  assert (H1 : (forall i item, fst a1 !! i = Some item ->
                  h_index item = Z.of_nat i /\ sectionCollapsed (h_section item) c = false)
               /\ length (fst a1) = (if sectionCollapsed SecGeneral c then 0 else 4)%nat
               /\ snd a1 = Z.of_nat (length (fst a1))).
  { subst a1. destruct (sectionCollapsed SecGeneral c) eqn:E; [by repeat split|].
    destruct (numbered_pushSection SecGeneral (getGeneralItems request) [] c E H0)
      as (Ha & Hb & Hc).
    split; [exact Ha|]. split; [exact Hb | exact Hc]. }
  destruct a1 as [items1 n1]. cbn [fst snd] in H1. destruct H1 as (Hn1 & Hl1 & ->).
  set (a2 := if sectionCollapsed SecRequest c then (items1, Z.of_nat (length items1))
             else pushSection SecRequest (r_requestHeaders request)
                    (items1, Z.of_nat (length items1))).
  assert (H2 : (forall i item, fst a2 !! i = Some item ->
                  h_index item = Z.of_nat i /\ sectionCollapsed (h_section item) c = false)
               /\ length (fst a2)
                  = (length items1 + if sectionCollapsed SecRequest c then 0
                                     else length (r_requestHeaders request))%nat
               /\ snd a2 = Z.of_nat (length (fst a2))).
  { subst a2. destruct (sectionCollapsed SecRequest c) eqn:E.
    - cbn [fst snd]. split; [exact Hn1|]. split; [lia | reflexivity].
    - destruct (numbered_pushSection SecRequest (r_requestHeaders request) items1 c E Hn1)
        as (Ha & Hb & Hc).
      split; [exact Ha|]. split; [exact Hb | exact Hc]. }
  destruct a2 as [items2 n2]. cbn [fst snd] in H2. destruct H2 as (Hn2 & Hl2 & ->).
  destruct (sectionCollapsed SecResponse c) eqn:E.
  - cbn [fst]. split; [exact Hn2 | lia].
  - destruct (numbered_pushSection SecResponse (r_responseHeaders request) items2 c E Hn2)
      as (Ha & Hb & _).
    split; [exact Ha|]. rewrite Hb. lia.
Qed.

(** X19.  The list that [buildHeadersList] makes for a request numbers
    its items by position: the item at position [i] carries the index
    [i], so that [headers[selectedIndex]] is the item whose index is the
    selection.  It holds no item of a section held as collapsed, and
    as many items as the sections that are not collapsed have: four
    general items, the request headers and the response headers. *)
Theorem headers_are_numbered_by_position (c : HeadersList) (request : NetworkRequest) :
  let items := buildHeadersList c request in
  (forall i item, items !! i = Some item ->
     h_index item = Z.of_nat i /\ sectionCollapsed (h_section item) c = false)
  /\ (forall sel item, getSelectedHeader (withHeaderSelection sel (withHeaders items c))
                       = Some item -> h_index item = sel)
  /\ length items
     = ((if sectionCollapsed SecGeneral c then 0 else 4)
        + (if sectionCollapsed SecRequest c then 0 else length (r_requestHeaders request))
        + (if sectionCollapsed SecResponse c then 0
           else length (r_responseHeaders request)))%nat.
Proof.
  intros items. destruct (buildHeadersList_numbered c request) as [Hn Hl].
  split; [exact Hn|]. split; [|exact Hl].
  intros sel item. unfold getSelectedHeader, jsIndex. cbn.
  destruct (sel <? 0) eqn:E; [discriminate|]. intros Hi.
  apply Hn in Hi as [-> _]. apply Z.ltb_ge in E. lia.
Qed.

Section HeadersPaneFacts.

Context `{External}.

(** X20.  Collapsing or expanding a section of the headers list while
    the headers tab shows the request and the selection that were
    rendered last changes the set of collapsed sections and nothing
    else: the render that [toggleSection] asks for returns before it
    rebuilds the list, so the items stay as they were (those of the
    section included), and the store is left as one call of
    [getFilteredRequests] leaves it.  The section is left out when the
    list is next rebuilt. *)
Theorem toggling_a_section_keeps_the_list (s : HeaderSection) (c : HeadersList)
    (w : World) (r : loc) :
  let st := getState w in
  let view := getFilteredRequests w in
  previewTab st = TabHeaders ->
  jsIndex (readArray (heap (snd view)) (fst view)) (selectedIndex st) = Some r ->
  r_id (readRequest (heap (snd view)) r) = lastRequestId c ->
  headersSelectedIndex st = lastSelectedIndex c ->
  let c' := fst (toggleSection s c w) in
  hl_headers c' = hl_headers c
  /\ hl_selectedIndex c' = hl_selectedIndex c
  /\ lastRequestId c' = lastRequestId c
  /\ lastSelectedIndex c' = lastSelectedIndex c
  /\ sectionCollapsed s c' = negb (sectionCollapsed s c)
  /\ snd (toggleSection s c w) = snd view
  /\ (sectionCollapsed s c = false ->
      forall request item, item ∈ buildHeadersList c' request -> h_section item <> s).
Proof.
  intros st view Htab Hr Hid Hsel. cbv zeta.
  unfold toggleSection.
  set (c1 := if sectionCollapsed s c then _ else _).
  assert (Hc1 : hl_headers c1 = hl_headers c /\ hl_selectedIndex c1 = hl_selectedIndex c
                /\ lastRequestId c1 = lastRequestId c
                /\ lastSelectedIndex c1 = lastSelectedIndex c
                /\ sectionCollapsed s c1 = negb (sectionCollapsed s c)).
  { subst c1. destruct (sectionCollapsed s c) eqn:E; cbn; repeat split.
    - unfold sectionCollapsed. cbn. apply bool_decide_eq_false_2.
      rewrite list_elem_of_In, filter_In. intros [_ Hn].
      by rewrite bool_decide_eq_true_2 in Hn.
    - unfold sectionCollapsed. cbn. apply bool_decide_eq_true_2.
      apply elem_of_app. right. by apply list_elem_of_singleton. }
  destruct Hc1 as (Hh & Hs & Hl & Hls & Hcol).
  assert (Hrender : renderHeadersList (getState w) c1 w = (c1, snd view)).
  { unfold renderHeadersList. fold st. rewrite Htab. fold view.
    destruct view as [v w1]. cbn [fst snd] in *. rewrite Hr. cbv zeta.
    rewrite Hl, Hls, <- Hid, <- Hsel.
    by rewrite !bool_decide_eq_true_2. }
  rewrite Hrender. cbn [fst snd].
  split; [exact Hh|]. split; [exact Hs|]. split; [exact Hl|]. split; [exact Hls|].
  split; [exact Hcol|]. split; [reflexivity|].
  intros Hn request item Hitem Hsec.
  apply list_elem_of_lookup in Hitem as [i Hi].
  apply (proj1 (buildHeadersList_numbered c1 request)) in Hi as [_ Hi].
  rewrite Hsec, Hcol, Hn in Hi. discriminate.
Qed.

End HeadersPaneFacts.

Lemma toggling_a_section_keeps_the_list_witness :
  let c := fst headersShown in
  let w := snd headersShown in
  let c' := fst (toggleSection (H := containsSearch) SecGeneral c w) in
  length (hl_headers c') = 4%nat /\ sectionCollapsed SecGeneral c' = true.
Proof.
  intros c w c'.
  destruct (toggling_a_section_keeps_the_list (H := containsSearch) SecGeneral c w 5%nat)
    as (Hh & _ & _ & _ & Hc & _); [vm_compute; reflexivity ..|].
  cbv zeta in Hh, Hc. fold c' in Hh, Hc. split.
  - rewrite Hh. vm_compute. reflexivity.
  - rewrite Hc. vm_compute. reflexivity.
Defined.

(** ** The copy menu *)

Section CopyPaneFacts.

Context `{External}.

Lemma menuStep_selection copyBar cw call :
  byOne call -> 0 <= selectedMenuItem (fst cw) <= 4 ->
  0 <= selectedMenuItem (fst (menuStep copyBar cw call)) <= 4.
Proof.
  intros Hc Hs. destruct call as [delta| |index|st]; cbn [menuStep fst].
  - unfold menuMoveSelection, renderCopyMenu.
    replace (jsLength menuItems) with 5 by reflexivity.
    assert (0 <= Z.rem (selectedMenuItem (fst cw) + delta + 5) 5 <= 4).
    { cbn in Hc. rewrite Z.rem_mod_nonneg by lia.
      pose proof (Z.mod_pos_bound (selectedMenuItem (fst cw) + delta + 5) 5). lia. }
    destruct (negb copyBar); [exact H0|]. destruct (mode _); cbn; lia.
  - unfold executeSelectedAction, executeActionByIndex.
    destruct (jsIndex menuItems _); [|exact Hs].
    destruct (getFilteredRequests _) as [view w1].
    destruct (jsIndex (readArray _ _) _); cbn; [lia | exact Hs].
  - unfold executeActionByIndex.
    destruct (jsIndex menuItems _); [|exact Hs].
    destruct (getFilteredRequests _) as [view w1].
    destruct (jsIndex (readArray _ _) _); cbn; [lia | exact Hs].
  - unfold renderCopyMenu. destruct (negb copyBar); [exact Hs|].
    destruct (mode st); cbn; lia.
Qed.

(** X21.  The selected item of the copy menu is always one of its five
    items: whatever moves by one item, executions, clicks and renders
    reach the menu, the selection stays between 0 and 4.  While the
    panel is in COPY mode a move past the last item lands on the first
    and a move before the first lands on the last, so that a move and
    the opposite move cancel; outside COPY mode (with the bar in the
    document) a move leaves the selection on the first item. *)
Theorem copy_menu_selection_wraps (copyBar : bool) (w : World) (calls : list MenuCall)
    (delta : Z) :
  Forall byOne calls -> delta = 1 \/ delta = -1 ->
  let cw := fold_left (menuStep copyBar) calls ({| selectedMenuItem := 0 |}, w) in
  let c := fst cw in
  let moved := menuMoveSelection copyBar delta c (snd cw) in
  0 <= selectedMenuItem c <= 4
  /\ (mode (getState (snd cw)) = COPY ->
      selectedMenuItem moved = (selectedMenuItem c + delta) mod 5
      /\ menuMoveSelection copyBar (- delta) moved (snd cw) = c)
  /\ (mode (getState (snd cw)) <> COPY -> copyBar = true -> selectedMenuItem moved = 0).
Proof.
  intros Hcalls Hd. cbv zeta.
  assert (Hinv : forall cw0, 0 <= selectedMenuItem (fst cw0) <= 4 ->
            0 <= selectedMenuItem (fst (fold_left (menuStep copyBar) calls cw0)) <= 4).
  { induction Hcalls as [|call calls Hc _ IH]; intros cw0 H0; [exact H0|].
    cbn [fold_left]. apply IH. by apply menuStep_selection. }
  specialize (Hinv ({| selectedMenuItem := 0 |}, w) ltac:(cbn; lia)).
  generalize dependent (fold_left (menuStep copyBar) calls ({| selectedMenuItem := 0 |}, w)).
  intros [[sel] w'] Hsel. cbn [fst snd selectedMenuItem] in *.
  split; [exact Hsel|]. unfold menuMoveSelection, renderCopyMenu.
  replace (jsLength menuItems) with 5 by reflexivity. split.
  - intros ->. destruct (negb copyBar); cbn [selectedMenuItem].
    all: rewrite !Z.rem_mod_nonneg by
        (try pose proof (Z.mod_pos_bound (sel + delta + 5) 5); lia).
    all: split; [by rewrite <- Z.add_mod_idemp_r, Z.add_0_r by lia|].
    all: f_equal; destruct Hd as [-> | ->];
      assert (sel = 0 \/ sel = 1 \/ sel = 2 \/ sel = 3 \/ sel = 4) as Hc by lia;
      destruct Hc as [-> | [-> | [-> | [-> | ->]]]]; reflexivity.
  - intros Hm ->. cbn [negb]. by destruct (mode (getState w')).
Qed.

End CopyPaneFacts.

Lemma copy_menu_selection_wraps_witness :
  let w := run (H := containsSearch) twoRequests [pressed "c"; EvAnimationFrame] in
  let cw := fold_left (menuStep (H := containsSearch) true) [CallMove (-1)]
                      ({| selectedMenuItem := 0 |}, w) in
  selectedMenuItem (fst cw) = 4
  /\ selectedMenuItem (menuMoveSelection true 1 (fst cw) (snd cw)) = 0.
Proof.
  intros w cw.
  destruct (copy_menu_selection_wraps (H := containsSearch) true w [CallMove (-1)] 1)
    as (_ & Hcopy & _).
  - constructor; [by right | constructor].
  - by left.
  - split; [vm_compute; reflexivity|].
    destruct Hcopy as [Hm _]; [vm_compute; reflexivity|].
    cbv zeta in Hm. etrans; [exact Hm|]. vm_compute. reflexivity.
Defined.

(** ** Selection in the JSON viewer, and the section keys *)

Lemma agrees_jsonSelectedIndexUpdate i st :
  agrees (jsonSelectedIndexUpdate i) st -> jsonSelectedIndex st = i.
Proof. unfold agrees. by intros <-. Qed.

(** X22.  In the JSON viewer a move of the selection by any amount, and
    a jump to the first or last node, land on a position of the node
    list that the state holds when the key arrives: after the next
    frame the selected index is the moved one clamped to the list, resp.
    0 or the last position.  With no node listed both leave the panel
    as it is. *)
Theorem json_selection_stays_in_the_list `{External} (tab : Z) (evs : list Event)
    (delta : Z) (first : bool) :
  let w := run (initialWorld tab) evs in
  let st := state (store w) in
  let n := jsLength (flattenedJsonNodes st) in
  let moved := jsonSelectedIndex (state (store (animationFrame (jsonMoveSelection delta w)))) in
  let jumped := jsonSelectedIndex (state (store (animationFrame (jsonNavigateTo first w)))) in
  (0 < n ->
   moved = Z.max 0 (Z.min (n - 1) (jsonSelectedIndex st + delta))
   /\ 0 <= moved < n
   /\ jumped = (if first then 0 else n - 1)
   /\ 0 <= jumped < n)
  /\ (n = 0 -> jsonMoveSelection delta w = w /\ jsonNavigateTo first w = w).
Proof.
  intros w st n moved jumped.
  assert (HI : Inv w) by apply Inv_run, Inv_initialWorld.
  split.
  - intros Hn.
    assert (Hm : moved = Z.max 0 (Z.min (n - 1) (jsonSelectedIndex st + delta))).
    { subst moved. unfold jsonMoveSelection, getState. fold st. fold n. cbv zeta.
      rewrite (proj2 (Z.ltb_ge (n - 1) 0)) by lia.
      apply agrees_jsonSelectedIndexUpdate.
      by apply (setState_then_frame (jsonSelectedIndexUpdate _) w HI). }
    assert (Hj : jumped = if first then 0 else n - 1).
    { subst jumped. unfold jsonNavigateTo, getState. fold st. fold n. cbv zeta.
      rewrite (proj2 (Z.ltb_ge (n - 1) 0)) by lia.
      apply agrees_jsonSelectedIndexUpdate.
      by apply (setState_then_frame (jsonSelectedIndexUpdate _) w HI). }
    rewrite Hm, Hj. repeat split; try lia; destruct first; lia.
  - intros Hn. unfold jsonMoveSelection, jsonNavigateTo, getState. fold st. fold n.
    cbv zeta. by rewrite Hn.
Qed.

Section SectionKeys.

Context `{External}.

Lemma getFilteredRequests_again w :
  getFilteredRequests (snd (getFilteredRequests w)) = getFilteredRequests w.
Proof.
  assert (Hafter : cachedRequests (filteredRequestsCache (store (snd (getFilteredRequests w))))
                   = Some (fst (getFilteredRequests w))
                   /\ recordedKeys (snd (getFilteredRequests w))
                      = currentKeys (snd (getFilteredRequests w))).
  { unfold getFilteredRequests.
    destruct (cachedRequests (filteredRequestsCache (store w))) as [cached|] eqn:Hc.
    - destruct (cacheValid w) eqn:Hv.
      + apply cacheValid_keys in Hv as [_ Hk]. by split.
      + destruct (recomputeFiltered_spec w) as (_ & Hc' & Hk & _). by split.
    - destruct (recomputeFiltered_spec w) as (_ & Hc' & Hk & _). by split. }
  destruct Hafter as [Hc Hk].
  rewrite (getFilteredRequests_hit _ _ Hc Hk). by destruct (getFilteredRequests w).
Qed.

Lemma toggleSection_synced (s : HeaderSection) (c : HeadersList) (w : World) (r : loc) :
  previewTab (getState w) = TabHeaders ->
  jsIndex (readArray (heap (snd (getFilteredRequests w))) (fst (getFilteredRequests w)))
          (selectedIndex (getState w)) = Some r ->
  r_id (readRequest (heap (snd (getFilteredRequests w))) r) = lastRequestId c ->
  headersSelectedIndex (getState w) = lastSelectedIndex c ->
  toggleSection s c w
  = (withCollapsed (if sectionCollapsed s c
                    then List.filter (fun x => negb (bool_decide (x = s)))
                                     (collapsedSections c)
                    else collapsedSections c ++ [s]) c,
     snd (getFilteredRequests w)).
Proof.
  intros Htab Hr Hid Hsel. unfold toggleSection.
  set (c1 := if sectionCollapsed s c then _ else _).
  assert (Hc1 : c1 = withCollapsed (if sectionCollapsed s c
                    then List.filter (fun x => negb (bool_decide (x = s)))
                                     (collapsedSections c)
                    else collapsedSections c ++ [s]) c)
    by (subst c1; by destruct (sectionCollapsed s c)).
  rewrite Hc1. clear c1 Hc1.
  unfold renderHeadersList. rewrite Htab.
  destruct (getFilteredRequests w) as [v w1]. cbn [fst snd] in *. rewrite Hr. cbv zeta.
  cbn [lastRequestId lastSelectedIndex withCollapsed].
  rewrite <- Hid, <- Hsel. by rewrite !bool_decide_eq_true_2.
Qed.

(** X23.  The section keys of the headers list.  While the headers tab
    shows the request and the selection that were rendered last,
    collapsing the section of the selected header adds the section to
    the collapsed set and leaves the list and the selection as they
    are; collapsing again does nothing; expanding then gives the
    component back exactly as it was before the two keys. *)
Theorem collapse_then_expand_restores (c : HeadersList) (w : World) (r : loc)
    (current : HeaderItem) :
  previewTab (getState w) = TabHeaders ->
  jsIndex (readArray (heap (snd (getFilteredRequests w))) (fst (getFilteredRequests w)))
          (selectedIndex (getState w)) = Some r ->
  r_id (readRequest (heap (snd (getFilteredRequests w))) r) = lastRequestId c ->
  headersSelectedIndex (getState w) = lastSelectedIndex c ->
  getSelectedHeader c = Some current ->
  sectionCollapsed (h_section current) c = false ->
  let collapsed := collapseCurrentSection c w in
  collapsed = (withCollapsed (collapsedSections c ++ [h_section current]) c,
               snd (getFilteredRequests w))
  /\ collapseCurrentSection (fst collapsed) (snd collapsed) = collapsed
  /\ expandCurrentSection (fst collapsed) (snd collapsed) = (c, snd collapsed).
Proof.
  intros Htab Hr Hid Hsel Hcur Hnot. cbv zeta.
  assert (Hlen : (jsLength (hl_headers c) =? 0) = false).
  { apply Z.eqb_neq. unfold getSelectedHeader, jsIndex in Hcur.
    destruct (_ <? 0); [discriminate|]. apply lookup_lt_Some in Hcur.
    unfold jsLength. lia. }
  assert (Hcollapse : collapseCurrentSection c w
            = (withCollapsed (collapsedSections c ++ [h_section current]) c,
               snd (getFilteredRequests w))).
  { unfold collapseCurrentSection. unfold getSelectedHeader in Hcur.
    rewrite Hlen, Hcur, Hnot. cbn [negb].
    rewrite (toggleSection_synced _ c w r Htab Hr Hid Hsel). by rewrite Hnot. }
  rewrite Hcollapse. cbn [fst snd]. split; [reflexivity|].
  set (c1 := withCollapsed (collapsedSections c ++ [h_section current]) c).
  set (w1 := snd (getFilteredRequests w)).
  assert (Hcol1 : sectionCollapsed (h_section current) c1 = true).
  { unfold sectionCollapsed. cbn. apply bool_decide_eq_true_2.
    apply elem_of_app. right. by apply list_elem_of_singleton. }
  assert (Hcur1 : jsIndex (hl_headers c1) (hl_selectedIndex c1) = Some current) by exact Hcur.
  split.
  - unfold collapseCurrentSection.
    replace (hl_headers c1) with (hl_headers c) by reflexivity.
    replace (hl_selectedIndex c1) with (hl_selectedIndex c) by reflexivity.
    unfold getSelectedHeader in Hcur. by rewrite Hlen, Hcur, Hcol1.
  - unfold expandCurrentSection.
    replace (hl_headers c1) with (hl_headers c) by reflexivity.
    replace (hl_selectedIndex c1) with (hl_selectedIndex c) by reflexivity.
    unfold getSelectedHeader in Hcur. rewrite Hlen, Hcur, Hcol1.
    assert (Hst : getState w1 = getState w)
      by (unfold getState; subst w1; by destruct (state_getFilteredRequests w) as [-> _]).
    rewrite (toggleSection_synced _ c1 w1 r).
    + rewrite Hcol1. subst w1. rewrite getFilteredRequests_again. f_equal.
      destruct c as [hs sel col lid lsel]. unfold c1, withCollapsed. cbn. f_equal.
      unfold sectionCollapsed in Hnot. cbn in Hnot. apply bool_decide_eq_false_1 in Hnot.
      rewrite List.filter_app. cbn. rewrite bool_decide_eq_true_2 by reflexivity. cbn.
      rewrite app_nil_r.
      clear -Hnot. induction col as [|x col IH]; [reflexivity|]. cbn.
      rewrite bool_decide_eq_false_2 by (intros ->; apply Hnot; by left). cbn.
      f_equal. apply IH. intros Hin. apply Hnot. by right.
    + by rewrite Hst.
    + subst w1. by rewrite getFilteredRequests_again, Hst.
    + subst w1. by rewrite getFilteredRequests_again.
    + by rewrite Hst.
Qed.

End SectionKeys.

Lemma collapse_then_expand_restores_witness :
  let c := fst headersShown in
  let w := snd headersShown in
  let collapsed := collapseCurrentSection (H := containsSearch) c w in
  collapsed = (withCollapsed (collapsedSections c ++ [SecGeneral]) c,
               snd (getFilteredRequests (H := containsSearch) w))
  /\ expandCurrentSection (H := containsSearch) (fst collapsed) (snd collapsed)
     = (c, snd collapsed).
Proof.
  intros c w collapsed.
  destruct (collapse_then_expand_restores (H := containsSearch) c w 5%nat
              {| h_section := SecGeneral; h_key := "Request URL";
                 h_value := "https://example.test/a"; h_index := 0 |})
    as (Hc & _ & He); [vm_compute; reflexivity ..|].
  split; [exact Hc | exact He].
Defined.
